(* ===== verification/_CoqProject ===== *)
-Q . S2P
Prelude.v
GoStrings.v
Varargs.v
CLayout.v
Vmlinux.v
Helpers.v
Kernel.v
CoreRead.v
Tracing.v
KernelTypes.v
Relocation.v
PathWalk.v
Endian.v
BpfHelpers.v
Linsensor.v
Scenario.v
SensorFacts.v
SensorTrace.v
SensorProps.v
SensorRace.v
SensorLinear.v
SensorOverlap.v
SensorCount.v
SensorData.v
Prevent.v
PreventProps.v
PreventPolicy.v
PreventCompile.v
PreventRace.v
PreventNames.v
PreventSelf.v
MalHash.v
PreventMatch.v
Fanotify.v
KernelReads.v
Execve.v
ExecveProps.v
ExecRace.v
Netwatch.v
NetwatchProps.v
Wire.v
KvParse.v
Transport.v
Lines.v
Engines.v
AgentLines.v
Manager.v
HelperLink.v
Processor.v
ProcessorImage.v
