(* ===== verification/Prelude.v ===== *)
(** * The Linux endpoint sensors of the SIEM agent

    The agent of this repository watches a Linux host with four BPF objects,
    written in C and loaded into the kernel by the agent (Go).  This library
    models the four objects, the BPF headers they are written with and the
    parts of the agent that share data with them, and proves what they
    promise to each other.  This file is its root: after this header come
    the machine integers, the byte strings and the tactics all files use.

    ** The program

    All paths are below src/agent/internal/.

    - linsensor/bpf/linsensor.bpf.c: host telemetry.  [raw_sys_enter] stashes
      the arguments of the syscalls of interest by thread; one program per
      syscall on its exit joins the stash with the result and writes a
      [sensor_event] into a ring buffer; two more programs report exec and
      exit.  linsensor/event.go decodes the records.
    - prevent/bpf/prevent.bpf.c: an LSM program that may refuse an execution
      by a policy the agent loads into its maps (prevent/rules.go,
      prevent/lsm_linux.go), and reports its decisions.  A second engine
      holds executions with fanotify (prevent/fanotify_linux.go), in a helper
      process, for hash rules, the known-malware set (malhash/set.go) and
      hosts without BPF LSM; prevent/engines_linux.go gives both the policy
      and prevent/prevent.go keeps the policy at the server's settings.
    - procexec/bpf/execve.bpf.c: one record per execve with the arguments and
      the parent's image, read by procexec/procexec.go.
    - netwatch/bpf/netwatch.bpf.c: connect, bind, accept4 and DNS queries,
      read by netwatch/netwatch.go.
    - procexec/bpf/include/bpf/: libbpf's headers, which all of them use.

    The objects share no state.  Within an object the programs share its
    maps; across the boundary the agent writes prevent's policy maps and
    reads the ring buffers, and registers itself with a magic prctl.

    ** The files

    - [Prelude]: integers with their wrap-around as [Z], byte strings.
    - [Varargs]: the argument-counting macros shared by the headers.
    - [Kernel]: what the programs call.  [ctx] is one run's kernel: helpers
      and memory reads; [KernelLayout] the relocated field offsets; [LruHash]
      a map that may evict.  Their documented behaviour (bpf_helper_defs.h)
      is [ctx_ok], [ustr_at], [kstr_at], [LruHashLaws].
    - [CLayout]: C types and their layout: sizes, alignment, bitfields,
      packed structs, unions, anonymous members; loading and storing a member.
      [Vmlinux]: the structs of vmlinux.h that the programs read, with every
      type embedded in them.  [KernelTypes]: the reads the programs make of
      them, of the arm64 build with the struct linsensor.bpf.c declares for
      it, and memory that holds objects of these types.
    - [Helpers]: the declarations of bpf_helper_defs.h with their numbers.
    - [CoreRead]: bpf_core_read.h, pointer chains and bitfields.
      [Relocation]: its queries of fields, types and enums, and the layout
      the programs see on a kernel with other offsets ([relocated]).
      [KernelReads]: the programs' models on such a kernel and its objects.
    - [Tracing]: bpf_tracing.h, argument registers and program wrappers.
    - [PathWalk]: the walk up dentries and mounts that linsensor.bpf.c and
      prevent.bpf.c both contain, and the reference path of a mount namespace.
    - [Endian]: bpf_endian.h.  [BpfHelpers]: printing and loop macros of
      bpf_helpers.h.
    - [Linsensor]: linsensor.bpf.c, a definition per function; the maps are
      the record [st], a program is a run of the state monad [prog].
      [Scenario] is a small concrete machine for the examples.
      [SensorFacts] has the lemmas on single runs, [SensorTrace] sequences of
      runs over all threads, [SensorProps] and [SensorCount] what holds of
      every sequence, [SensorData] what the single records say.
      [SensorRace] has the programs again, each as the [code] of its accesses
      to the maps, and runs on several CPUs, interleaved by [run_moves];
      [SensorLinear] gives each such execution a sequence of whole runs,
      [SensorOverlap] has what follows.
    - [Prevent]: prevent.bpf.c ([check_exec], [enter_prctl]) on its maps
      [pst]; [PreventProps]: its verdict against an abstract rule lookup;
      [PreventPolicy]: the agent's [apply], which fills the maps, and
      [match], which decides the same policy in the agent;
      [PreventCompile]: [compileWith], which makes the policy of the server's
      rules, and the guard of protected executables; [PreventRace]:
      [check_exec] with each map access as a step of its own;
      [PreventNames]: names longer than the kernel's keys; [PreventSelf]:
      who is registered as the agent.
    - [MalHash]: malhash/set.go, the known-malware set.  [PreventMatch]: the
      exclusions of policy/policy.go and the whole of rules.go's [Match].
      [Fanotify]: fanotify_linux.go; the reader and the workers are the step
      relation [fan_step].  [Engines]: engines_linux.go and the helper's side
      of fanhelper_linux.go, both engines as one host.  [Manager]:
      prevent.go, its calls by several goroutines and its reports.
      [HelperLink]: the helper's decisions on their way through JSON to the
      manager.
    - [Execve], [ExecveProps]: execve.bpf.c and the agent's argument readers;
      [ExecRace]: its runs on several CPUs, interleaved access by access.
    - [Netwatch], [NetwatchProps]: netwatch.bpf.c; the ring buffer is the log
      of reserve, submit and discard.
    - [Wire]: the four records as C structs, and the Go decoders.
      [Transport]: a log line's characters after the agent's JSON
      (client/client.go).
    - [Processor], [ProcessorImage]: linsensor/processor.go, what the agent
      makes of a decoded record; [Lines]: its log lines, and lines as lists
      of pairs; [AgentLines]: the lines of procexec.go and netwatch.go;
      [KvParse]: the parser of the server's worker
      (src/worker/worker/decoder_engine.py).  [GoStrings]: the string
      and path functions of Go's library.

    ** What is shown

    - Provenance ([SensorProps]): over every interleaving of program runs,
      each record belongs to an exec or exit, or to a syscall of the same
      thread whose entry was stashed and whose exit succeeded; an entry finds
      its exit unless the LRU map evicted it; the registered agent adds no
      file, process or memory record, and stays the first that registered.
    - Overlap ([SensorRace], [SensorLinear], [SensorOverlap]): a run's accesses
      are the program; executions in which runs overlap are sequences of whole
      runs in each CPU's and thread's order, so that the records have the same
      provenance; but two registrations that overlap are no such sequence.
    - Accounting ([SensorCount]): the counters add up, over the CPUs, to the
      runs and to the records that did not fit.
    - Contents ([SensorData]): names, directories, descriptors, ids, flags
      and results in a record are the call's; which reads are sensitive.
    - Paths ([PathWalk]): the walk gives the reference path of the dentry in
      its mount namespace; prevent's path key is the agent's key of the path.
    - Prevention ([PreventProps], [PreventPolicy], [PreventCompile],
      [Wire]): the program refuses exactly what the abstract lookup blocks;
      the compiler keeps the limits and normal forms and reports what it
      leaves out; a policy loaded by [apply] is enforced as [match] decides
      it where the directory rules above a file have one action, and else as
      [kernel_match] does, by the nearest directory; its decisions are decoded
      by the agent as the matching rule; nothing is refused that the server
      did not ask for, and protected executables only by parent rules and by
      directories the guard sees under another name.  And the cases in which
      it is otherwise: nested directories, another mount of a protected
      directory, more or longer names than the maps hold, a policy change
      during a run, another process that registers as the agent.
    - The two engines ([Fanotify], [Engines], [MalHash], [PreventMatch]):
      every held execution is answered once, whatever the workers do, and as
      the policy says of its content; the helper compiles the policy the
      agent has; the program and the helper together refuse what the policy
      refuses; the set finds the server's hashes.  And the cases in which it
      is otherwise: a policy that does not load, a detecting rule before a
      hash rule, a set that could not be saved.
    - The manager ([Manager]): the engines have the latest settings after any
      calls one after another, and a call during a re-application is undone;
      every decision is reported within a minute.
    - Kernel types ([CLayout], [KernelTypes], [Relocation], [KernelReads],
      [Helpers]): members lie where C puts them and keep their values; each
      BPF_CORE_READ of the programs reads what the C expression denotes, also
      on a kernel whose members lie elsewhere; there the records hold the
      members of the kernel's own objects, and the walks see its dentries and
      mounts, as the theorems on paths and verdicts assume; helpers have the
      kernel's numbers.
    - The agent's log ([Processor], [ProcessorImage], [Lines]): every file
      event it accepts is a line or in the counts of a summary; a process's
      executable is the one its exec record named; the worker reads every line as the
      fields the agent printed, whatever the names on the host.
    - From the kernel to the worker ([AgentLines], [Manager], [HelperLink]):
      an exec, a verdict of either engine and a network call, followed through record, decoder, line and
      parser; and how a process name forges the fields of a network call.
    - Exec and network records ([ExecveProps], [ExecRace], [NetwatchProps]):
      arguments round trip and stay in bounds, the parent's image was seen,
      also by runs that overlap (then maybe in a later record), addresses
      and ports are those passed, a DNS query's name is followed by what the
      slot held; and the members that keep an older record's bytes.
    - Headers ([CoreRead], [Tracing], [Endian], [BpfHelpers]): the macro
      expansions by argument count are the functions they are documented as;
      bitfield writes round trip and leave other bits; BPF_PROG2's index
      arithmetic; byte order; loops run their range.

    ** Bounds

    The code's own limits are the fuel of its loops: 16 path components
    ([MAX_DEPTH]), 8 arguments of 128 bytes, 64 bytes of a DNS packet, 64
    parent rules, 9 accessors and 12 macro arguments; a C loop with a constant
    bound is a [Fixpoint] on the iterations left, so running out is leaving
    the loop, as in C.  [BpfHelpers.for_loop] takes fuel of its own, and its
    theorem gives an amount that is enough; so does [Fanotify.read_all], for
    which [honest] gives each file one, and a file that grows needs more than
    any.  The fanotify engine has 4 workers and a queue of 256, its digest
    cache 20000 entries, and the manager's report table 10001.

    ** What is assumed

    Parameters of the model, each with its laws named where it is used: the
    kernel's helpers and memory ([Kernel.ctx]), the field offsets, the
    compiler's relocation builtins ([relocates]), eviction from LRU maps, whether the ring buffer has room, its old contents; for
    [apply], stat and the walking order of Go maps; the number iterator; for
    the rule compiler, resolving links and hashing files; for the engines,
    SHA-256, reading files and /proc, Unicode's case tables.  The fanotify
    theorems take the file behind a descriptor not to change under the key of
    the digest cache ([honest]).  [policy_ok] is what
    the rule compiler ensures of a policy whose strings have no NUL and whose
    names are shorter than the kernel's keys ([rule_fits]); nothing checks
    the latter.  A witness after each theorem with hypotheses applies it to a
    concrete machine.

    ** What is not modelled

    Runs of netwatch.bpf.c that overlap (they share the ring buffer only), and,
    in [PreventRace], [SensorRace] and [ExecRace], a program that is
    interrupted by another on its own CPU, or an element of a hash map that
    changes between its lookup and its use; the verifier and the loader; the attribute
    macros, which have no values; the types of vmlinux.h that nothing
    uses, and what a loader does when a member the programs access is missing
    from the running kernel or has another type there; what the helpers that nothing
    calls do.  On the Go side: marking mounts, the JSON between the agent and
    the helper and the server but for what it does to text, TLSH digests and similar files, saving and fetching the sets, what /proc answers, the
    Windows engine; [eng.apply] is one step of [Manager.step], although two
    of them can overlap.  The server, the rest of the worker and the
    dashboard are other programs. *)
From Stdlib Require Import ZArith Lia Ascii String.
From stdpp Require Import base tactics list gmap.
Local Open Scope Z_scope.

(** ** Machine integers

    A C integer is a [Z]; a conversion to a w-bit type wraps explicitly. *)

Definition wrap (w z : Z) : Z := z mod 2 ^ w.
Definition swrap (w z : Z) : Z := (z + 2 ^ (w - 1)) mod 2 ^ w - 2 ^ (w - 1).

Definition u8 : Z → Z := wrap 8.
Definition u16 : Z → Z := wrap 16.
Definition u32 : Z → Z := wrap 32.
Definition u64 : Z → Z := wrap 64.
Definition s32 : Z → Z := swrap 32.
Definition s64 : Z → Z := swrap 64.

(** ** Bytes and byte strings *)

Definition is_byte (b : Z) : Prop := 0 ≤ b < 256.
Definition is_bytes (l : list Z) : Prop := Forall is_byte l.

(** Little-endian split and join ([bpfel], and [binary.LittleEndian]). *)
Fixpoint le_bytes (n : nat) (z : Z) : list Z :=
  match n with
  | O => []
  | S n => z mod 256 :: le_bytes n (z / 256)
  end.

Fixpoint le_val (l : list Z) : Z :=
  match l with
  | [] => 0
  | b :: l => b + 256 * le_val l
  end.

(** The bytes before the first NUL. *)
Fixpoint cstr (l : list Z) : list Z :=
  match l with
  | [] => []
  | b :: l => if b =? 0 then [] else b :: cstr l
  end.

(** [slice l off n]: the [n] bytes of [l] from offset [off]. *)
Definition slice {A} (l : list A) (off n : nat) : list A := take n (drop off l).

(** [splice l off s]: [l] with [s] written over it from offset [off]
    (a memcpy into a buffer that is large enough). *)
Definition splice {A} (l : list A) (off : nat) (s : list A) : list A :=
  take off l ++ s ++ drop (off + length s) l.

Definition zeros (n : nat) : list Z := replicate n 0.

(** A string literal as its bytes. *)
Definition zs (s : string) : list Z :=
  map (λ a, Z.of_nat (nat_of_ascii a)) (list_ascii_of_string s).

(** ** A state monad for the program runs *)

Definition prog (S A : Type) : Type := S → A * S.

#[export] Instance prog_ret {S} : MRet (prog S) := λ A x s, (x, s).
#[export] Instance prog_bind {S} : MBind (prog S) :=
  λ A B f m s, let '(x, s') := m s in f x s'.

Definition get {S} : prog S S := λ s, (s, s).
Definition put {S} (s : S) : prog S unit := λ _, (tt, s).
Definition gets {S A} (f : S → A) : prog S A := λ s, (f s, s).
Definition modify {S} (f : S → S) : prog S unit := λ s, (tt, f s).

(** The final state and the value of a run. *)
Definition exec {S A} (m : prog S A) (s : S) : S := snd (m s).
Definition eval {S A} (m : prog S A) (s : S) : A := fst (m s).

(** ** Lemmas: machine integers *)

Lemma wrap_range w z : 0 ≤ w → 0 ≤ wrap w z < 2 ^ w.
Proof. intros. apply Z.mod_pos_bound. lia. Qed.

Lemma wrap_small w z : 0 ≤ z < 2 ^ w → wrap w z = z.
Proof. apply Z.mod_small. Qed.

Lemma wrap_wrap w z : wrap w (wrap w z) = wrap w z.
Proof. apply Zmod_mod. Qed.

Lemma swrap_small w z : 0 < w → - 2 ^ (w - 1) ≤ z < 2 ^ (w - 1) → swrap w z = z.
Proof.
  intros Hw Hz. unfold swrap.
  assert (2 ^ w = 2 * 2 ^ (w - 1)) by (rewrite <- Z.pow_succ_r by lia; f_equal; lia).
  rewrite Z.mod_small; lia.
Qed.

(** A signed value stored in a wider unsigned slot comes back. *)
Lemma swrap_wrap w v z : 0 < w ≤ v → swrap w (wrap v z) = swrap w z.
Proof.
  intros Hw. unfold swrap, wrap. f_equal.
  assert (Hp : 2 ^ v = 2 ^ w * 2 ^ (v - w)) by (rewrite <- Z.pow_add_r by lia; f_equal; lia).
  rewrite Hp, <- Zplus_mod_idemp_l, Z.rem_mul_r by lia.
  rewrite (Z.mul_comm (2 ^ w)), Z_mod_plus_full, Zmod_mod.
  by rewrite Zplus_mod_idemp_l.
Qed.

Lemma u32_range z : 0 ≤ u32 z < 2 ^ 32.
Proof. by apply wrap_range. Qed.

Lemma u64_range z : 0 ≤ u64 z < 2 ^ 64.
Proof. by apply wrap_range. Qed.

Lemma u32_small z : 0 ≤ z < 2 ^ 32 → u32 z = z.
Proof. apply wrap_small. Qed.

Lemma u64_small z : 0 ≤ z < 2 ^ 64 → u64 z = z.
Proof. apply wrap_small. Qed.

(** ** Lemmas: bits *)

Lemma testbit_wrap w z i : 0 ≤ w → 0 ≤ i → Z.testbit (wrap w z) i = (i <? w) && Z.testbit z i.
Proof.
  intros Hw Hi. unfold wrap. destruct (Z.ltb_spec i w).
  - by rewrite Z.mod_pow2_bits_low.
  - by rewrite Z.mod_pow2_bits_high by lia.
Qed.

(** The sign-extension of a w-bit value, by cases on its sign. *)
Lemma swrap_cases w z : 0 < w →
  swrap w z = if wrap w z <? 2 ^ (w - 1) then wrap w z else wrap w z - 2 ^ w.
Proof.
  intros Hw. unfold swrap, wrap.
  assert (Hp : 2 ^ w = 2 * 2 ^ (w - 1)) by (rewrite <- Z.pow_succ_r by lia; f_equal; lia).
  pose proof (Z.mod_pos_bound z (2 ^ w) ltac:(lia)) as Hr.
  rewrite <- Zplus_mod_idemp_l. set (r := z mod 2 ^ w) in *.
  destruct (Z.ltb_spec r (2 ^ (w - 1))).
  - rewrite Z.mod_small; lia.
  - replace (r + 2 ^ (w - 1)) with ((r - 2 ^ (w - 1)) + 1 * 2 ^ w) by lia.
    rewrite Z_mod_plus_full, Z.mod_small; lia.
Qed.

Lemma testbit_top w r : 0 < w → 0 ≤ r < 2 ^ w → Z.testbit r (w - 1) = (2 ^ (w - 1) <=? r).
Proof.
  intros Hw Hr.
  assert (Hp : 2 ^ w = 2 * 2 ^ (w - 1)) by (rewrite <- Z.pow_succ_r by lia; f_equal; lia).
  rewrite Z.testbit_odd, Z.shiftr_div_pow2 by lia.
  destruct (Z.leb_spec (2 ^ (w - 1)) r).
  - by rewrite <- (Z.div_unique r (2 ^ (w - 1)) 1 (r - 2 ^ (w - 1))) by lia.
  - by rewrite Z.div_small by lia.
Qed.

Lemma testbit_swrap w z i : 0 < w → 0 ≤ i →
  Z.testbit (swrap w z) i = Z.testbit z (Z.min i (w - 1)).
Proof.
  intros Hw Hi. rewrite swrap_cases by done.
  pose proof (wrap_range w z ltac:(lia)) as Hr.
  assert (Hin : ∀ j, 0 ≤ j < w → Z.testbit z j = Z.testbit (wrap w z) j).
  { intros j Hj. rewrite testbit_wrap by lia. by rewrite (proj2 (Z.ltb_lt j w)) by lia. }
  rewrite (Hin (Z.min i (w - 1))) by lia.
  pose proof (testbit_top w (wrap w z) Hw Hr) as Htop.
  destruct (Z.ltb_spec (wrap w z) (2 ^ (w - 1))).
  - destruct (Z.min_spec i (w - 1)) as [[? ->]|[? ->]]; [done|].
    destruct (Z.eqb_spec i (w - 1)) as [->|]; [done|].
    rewrite Htop, (proj2 (Z.leb_gt _ _)) by lia.
    rewrite testbit_wrap by lia. by rewrite (proj2 (Z.ltb_ge i w)) by lia.
  - replace (wrap w z - 2 ^ w) with (Z.lnot (Z.ones w - wrap w z))
      by (rewrite Z.ones_equiv; unfold Z.lnot; lia).
    rewrite Z.lnot_spec by done.
    rewrite Z.sub_nocarry_ldiff; last first.
    { apply Z.bits_inj'. intros j Hj. rewrite Z.ldiff_spec, Z.bits_0, testbit_wrap by lia.
      destruct (Z.ltb_spec j w); cbn; [|done].
      rewrite Z.ones_spec_low by lia. by rewrite andb_false_r. }
    rewrite Z.ldiff_spec.
    destruct (Z.min_spec i (w - 1)) as [[? ->]|[? ->]].
    + rewrite Z.ones_spec_low by lia. cbn. by rewrite negb_involutive.
    + rewrite Htop, (proj2 (Z.leb_le _ _)) by lia.
      destruct (Z.eqb_spec i (w - 1)) as [->|].
      * rewrite Z.ones_spec_low, Htop, (proj2 (Z.leb_le _ _)) by lia. done.
      * by rewrite Z.ones_spec_high by lia.
Qed.

(** ** Lemmas: little-endian bytes *)

Lemma length_le_bytes n z : length (le_bytes n z) = n.
Proof. revert z; induction n; intros; simpl; auto. Qed.

Lemma le_bytes_bytes n z : is_bytes (le_bytes n z).
Proof.
  revert z; induction n as [|n IH]; intros; simpl; constructor; [|apply IH].
  unfold is_byte. apply Z.mod_pos_bound. lia.
Qed.

Lemma le_val_le_bytes n z : le_val (le_bytes n z) = z mod 256 ^ Z.of_nat n.
Proof.
  revert z; induction n as [|n IH]; intros z; cbn [le_bytes le_val].
  - by rewrite Z.mod_1_r.
  - rewrite IH, Nat2Z.inj_succ, Z.pow_succ_r, Z.rem_mul_r by lia. lia.
Qed.

Lemma le_val_le_bytes_small n z : 0 ≤ z < 256 ^ Z.of_nat n → le_val (le_bytes n z) = z.
Proof. intros. by rewrite le_val_le_bytes, Z.mod_small. Qed.

Lemma le_val_range l : is_bytes l → 0 ≤ le_val l < 256 ^ Z.of_nat (length l).
Proof.
  induction 1 as [|b l Hb _ IH]; [done|]. cbn [le_val length].
  rewrite Nat2Z.inj_succ, Z.pow_succ_r by lia. unfold is_byte in Hb. lia.
Qed.

Lemma le_bytes_le_val l : is_bytes l → le_bytes (length l) (le_val l) = l.
Proof.
  induction 1 as [|b l Hb Hl IH]; [done|]. cbn [length le_val le_bytes].
  unfold is_byte in Hb. rewrite (Z.mul_comm 256).
  rewrite Z_mod_plus_full, Z.mod_small by lia.
  by rewrite Z.div_add, (Z.div_small b), Z.add_0_l, IH by lia.
Qed.

Lemma le_val_zeros n : le_val (zeros n) = 0.
Proof. induction n as [|n IH]; [done|]. cbn. unfold zeros in IH. by rewrite IH. Qed.

Lemma le_val_zeros_r l n : le_val (l ++ replicate n 0) = le_val l.
Proof. induction l as [|b l IH]; [apply (le_val_zeros n)|]. cbn. by rewrite IH. Qed.

Lemma length_zeros n : length (zeros n) = n.
Proof. apply length_replicate. Qed.

(** ** Lemmas: C strings *)

Lemma cstr_no_nul l : 0 ∉ cstr l.
Proof.
  induction l as [|b l IH]; simpl; [set_solver|].
  destruct (Z.eqb_spec b 0); [set_solver|].
  rewrite not_elem_of_cons. auto.
Qed.

Lemma cstr_app_nul s l : 0 ∉ s → cstr (s ++ 0 :: l) = s.
Proof.
  induction s as [|b s IH]; simpl; [done|]. intros H.
  rewrite not_elem_of_cons in H. destruct H as [Hb Hs].
  destruct (Z.eqb_spec b 0); [congruence|]. by rewrite IH.
Qed.

Lemma cstr_id s : 0 ∉ s → cstr s = s.
Proof.
  induction s as [|b s IH]; simpl; [done|]. rewrite not_elem_of_cons.
  intros [Hb Hs]. destruct (Z.eqb_spec b 0); [congruence|]. by rewrite IH.
Qed.

(** ** Lemmas: slices of buffers *)

Lemma not_elem_of_take {A} (x : A) n l : x ∉ l → x ∉ take n l.
Proof.
  intros Hx (i & Hi & _)%elem_of_take. apply Hx, list_elem_of_lookup. eauto.
Qed.

Lemma length_slice {A} (l : list A) off n : (off + n ≤ length l)%nat → length (slice l off n) = n.
Proof. intros. unfold slice. rewrite length_take, length_drop. lia. Qed.

Lemma length_splice {A} (l : list A) off s :
  (off + length s ≤ length l)%nat → length (splice l off s) = length l.
Proof. intros. unfold splice. rewrite !length_app, length_take, length_drop. lia. Qed.

Lemma slice_splice_other {A} (l s : list A) off o n :
  (off + length s ≤ length l)%nat → (o + n ≤ off ∨ off + length s ≤ o)%nat →
  slice (splice l off s) o n = slice l o n.
Proof.
  intros Hl Ho. unfold slice, splice. destruct Ho as [Ho|Ho].
  - rewrite drop_app_le by (rewrite length_take; lia).
    rewrite take_app_le by (rewrite length_drop, length_take; lia).
    by rewrite skipn_firstn_comm, take_take, Nat.min_l by lia.
  - rewrite drop_app_ge by (rewrite length_take; lia).
    rewrite drop_app_ge by (rewrite length_take; lia).
    rewrite drop_drop, length_take. do 2 f_equal. lia.
Qed.

Lemma slice_splice_same {A} (l s : list A) off :
  (off ≤ length l)%nat → slice (splice l off s) off (length s) = s.
Proof.
  intros Hl. unfold slice, splice. rewrite drop_app_length' by (rewrite length_take; lia).
  by rewrite take_app_length.
Qed.

Lemma slice_slice {A} (l : list A) o n o' n' :
  (o' + n' ≤ n)%nat → slice (slice l o n) o' n' = slice l (o + o') n'.
Proof. intros H. unfold slice. rewrite skipn_firstn_comm, take_take, drop_drop. f_equal. lia. Qed.

Lemma slice_app_here {A} (l r k : list A) : slice (l ++ r ++ k) (length l) (length r) = r.
Proof. unfold slice. by rewrite drop_app_length, take_app_length. Qed.

(** Bytes before the written range are kept; from it on, the written
    bytes come first. *)
Lemma drop_splice {A} (l s : list A) off :
  (off ≤ length l)%nat → drop off (splice l off s) = s ++ drop (off + length s) l.
Proof.
  intros. unfold splice. rewrite drop_app_length'; [done|]. rewrite length_take. lia.
Qed.

Lemma splice_nil {A} (l : list A) off : splice l off [] = l.
Proof. unfold splice. cbn. by rewrite Nat.add_0_r, take_drop. Qed.

(** Bytes from an offset past the written range are kept. *)
Lemma drop_splice_after {A} (l s : list A) off k :
  (off + length s ≤ k)%nat → (k ≤ length l)%nat → drop k (splice l off s) = drop k l.
Proof.
  intros Hk Hl. unfold splice. rewrite (assoc_L (++)).
  assert (length (take off l ++ s) = off + length s)%nat as Hlen
    by (rewrite length_app, length_take; lia).
  rewrite drop_app_ge by lia. rewrite drop_drop, Hlen. f_equal. lia.
Qed.

(** ** Lemmas and tactics: program runs *)

Lemma prog_bind_run {S A B} (m : prog S A) (f : A → prog S B) s :
  (m ≫= f) s = f (eval m s) (exec m s).
Proof. unfold mbind, prog_bind, eval, exec. by destruct (m s). Qed.

Lemma exec_bind {S A B} (m : prog S A) (f : A → prog S B) s :
  exec (m ≫= f) s = exec (f (eval m s)) (exec m s).
Proof. unfold exec at 1. by rewrite prog_bind_run. Qed.

Lemma eval_bind {S A B} (m : prog S A) (f : A → prog S B) s :
  eval (m ≫= f) s = eval (f (eval m s)) (exec m s).
Proof. unfold eval at 1. by rewrite prog_bind_run. Qed.

Lemma exec_ret {S A} (x : A) (s : S) : exec (mret x) s = s.
Proof. done. Qed.

Lemma eval_ret {S A} (x : A) (s : S) : eval (mret x) s = x.
Proof. done. Qed.

Lemma exec_gets {S A} (f : S → A) s : exec (gets f) s = s.
Proof. done. Qed.

Lemma eval_gets {S A} (f : S → A) s : eval (gets f) s = f s.
Proof. done. Qed.

Lemma exec_modify {S} (f : S → S) s : exec (modify f) s = f s.
Proof. done. Qed.

Create HintDb bpf.
Create Rewrite HintDb prog.
#[export] Hint Rewrite @exec_bind @eval_bind @exec_ret @eval_ret @exec_gets @eval_gets
  @exec_modify : prog.
#[export] Hint Resolve u32_range u64_range le_bytes_bytes cstr_no_nul : bpf.

(** Unfold a run of the monad to its calls. *)
Ltac run_prog := repeat (autorewrite with prog; cbn beta iota).
Ltac run_prog_in H := repeat (autorewrite with prog in H; cbn beta iota in H).
