(* ===== verification/GoStrings.v ===== *)
(** * Go's string and path functions

    The functions of the standard library that the agent calls on names and
    paths, on byte strings (Linux: the separator is a slash). *)
From Stdlib Require Import ZArith Lia Ascii String.
From stdpp Require Import base tactics list.
From S2P Require Import Prelude.
Local Open Scope Z_scope.

(** ** Strings *)

(** [strings.Split(s, sep)] for a one-byte [sep]. *)
Fixpoint split_go (sep : Z) (cur s : list Z) : list (list Z) :=
  match s with
  | [] => [reverse cur]
  | b :: s => if b =? sep then reverse cur :: split_go sep [] s else split_go sep (b :: cur) s
  end.
Definition split_on (sep : Z) (s : list Z) : list (list Z) := split_go sep [] s.

(** The UTF-8 encodings of [unicode.IsSpace]'s characters. *)
Definition spaces : list (list Z) :=
  [[9]; [10]; [11]; [12]; [13]; [32]; [194; 133]; [194; 160]; [225; 154; 128]]
  ++ ((λ k, [226; 128; 128 + Z.of_nat k]) <$> seq 0 11)
  ++ [[226; 128; 168]; [226; 128; 169]; [226; 128; 175]; [226; 129; 159]; [227; 128; 128]].

(** Drops prefixes from the list [ps] as long as there is one; each is not
    empty, so [n] = the length of [s] is enough. *)
Fixpoint drop_prefixes (ps : list (list Z)) (n : nat) (s : list Z) : list Z :=
  match n with
  | O => s
  | S n =>
      match list_find (λ p, p `prefix_of` s) ps with
      | Some (_, p) => drop_prefixes ps n (drop (length p) s)
      | None => s
      end
  end.

(** [strings.TrimSpace] of a valid UTF-8 string (the decoded JSON's are). *)
Definition trim_space (s : list Z) : list Z :=
  let s := drop_prefixes spaces (length s) s in
  reverse (drop_prefixes (reverse <$> spaces) (length s) (reverse s)).

(** [strings.ToLower] on ASCII; other characters stay non-ASCII, or become a
    letter that is no hexadecimal digit. *)
Definition to_lower (s : list Z) : list Z :=
  (λ b, if (65 <=? b) && (b <=? 90) then b + 32 else b) <$> s.

(** [hex.DecodeString] of a SHA-256: 64 digits. *)
Definition is_hex (b : Z) : bool :=
  ((48 <=? b) && (b <=? 57)) || ((97 <=? b) && (b <=? 102)) || ((65 <=? b) && (b <=? 70)).
Definition is_sha256 (s : list Z) : bool := forallb is_hex s && (length s =? 64)%nat.

(** [filepath.IsAbs] *)
Definition is_abs (s : list Z) : bool := match s with 47 :: _ => true | _ => false end.

(** [filepath.Base] *)
Definition trim_slashes (s : list Z) : list Z := reverse (drop_prefixes [[47]] (length s) (reverse s)).
Definition base_name (s : list Z) : list Z :=
  match s with
  | [] => [46]
  | _ => match trim_slashes s with
         | [] => [47]
         | t => default [] (last (split_on 47 t))
         end
  end.

(** [filepath.Clean]: the elements kept so far are [acc], the last first. *)
Fixpoint clean_elems (rooted : bool) (acc : list (list Z)) (elems : list (list Z)) : list (list Z) :=
  match elems with
  | [] => reverse acc
  | e :: elems =>
      if bool_decide (e = [] ∨ e = [46]) then clean_elems rooted acc elems
      else if bool_decide (e = [46; 46]) then
        match acc with
        | a :: acc' => if bool_decide (a = [46; 46]) then clean_elems rooted (e :: acc) elems
                       else clean_elems rooted acc' elems
        | [] => clean_elems rooted (if rooted then [] else [e]) elems
        end
      else clean_elems rooted (e :: acc) elems
  end.

Fixpoint join_slash (es : list (list Z)) : list Z :=
  match es with
  | [] => []
  | [e] => e
  | e :: es => e ++ 47 :: join_slash es
  end.

Definition clean (s : list Z) : list Z :=
  let body := join_slash (clean_elems (is_abs s) [] (split_on 47 s)) in
  if is_abs s then 47 :: body else match body with [] => [46] | _ => body end.

Example clean_ex : (λ s, clean (zs s)) <$> ["/usr//bin/./../sbin/"; "/../x"; "a/../../b"; ""; "/"]%string
  = zs <$> ["/usr/sbin"; "/x"; "../b"; "."; "/"]%string.
Proof. vm_compute. reflexivity. Qed.

(** ** No NUL appears *)

Local Abbreviation no_nul s := (0 ∉ (s : list Z)).

Lemma no_nul_cons b s : no_nul (b :: s) ↔ b ≠ 0 ∧ no_nul s.
Proof. rewrite not_elem_of_cons. naive_solver. Qed.

Lemma no_nul_1 b : b ≠ 0 → no_nul [b].
Proof. intros H. apply no_nul_cons. split; [done|apply not_elem_of_nil]. Qed.

Lemma no_nul_app s s' : no_nul (s ++ s') ↔ no_nul s ∧ no_nul s'.
Proof. rewrite elem_of_app. naive_solver. Qed.

Lemma no_nul_reverse s : no_nul (reverse s) ↔ no_nul s.
Proof. by rewrite elem_of_reverse. Qed.

Lemma no_nul_drop n s : no_nul s → no_nul (drop n s).
Proof. intros Hs H0. apply Hs. rewrite <- (take_drop n s). apply elem_of_app. by right. Qed.

Lemma split_no_nul sep s : ∀ cur, no_nul cur → no_nul s → Forall (λ x, no_nul x) (split_go sep cur s).
Proof.
  induction s as [|b s IH]; intros cur Hc; cbn [split_go].
  - intros _. constructor; [by rewrite no_nul_reverse|constructor].
  - intros [Hb Hs]%no_nul_cons. destruct (b =? sep).
    + constructor; [by rewrite no_nul_reverse|]. apply IH; [apply not_elem_of_nil|done].
    + apply IH; [|done]. by apply no_nul_cons.
Qed.

Lemma split_on_no_nul sep s : no_nul s → Forall (λ x, no_nul x) (split_on sep s).
Proof. apply split_no_nul, not_elem_of_nil. Qed.

Lemma drop_prefixes_no_nul ps n s : no_nul s → no_nul (drop_prefixes ps n s).
Proof.
  revert s. induction n as [|n IH]; intros s Hs; cbn [drop_prefixes]; [done|].
  destruct (list_find _ ps) as [[i p]|]; [|done]. by apply IH, no_nul_drop.
Qed.

Lemma trim_space_no_nul s : no_nul s → no_nul (trim_space s).
Proof.
  intros Hs. unfold trim_space. rewrite no_nul_reverse. apply drop_prefixes_no_nul.
  rewrite no_nul_reverse. by apply drop_prefixes_no_nul.
Qed.

Lemma trim_slashes_no_nul s : no_nul s → no_nul (trim_slashes s).
Proof.
  intros Hs. unfold trim_slashes. rewrite no_nul_reverse. apply drop_prefixes_no_nul.
  by rewrite no_nul_reverse.
Qed.

Lemma base_name_no_nul s : no_nul s → no_nul (base_name s).
Proof.
  intros Hs. unfold base_name. destruct s as [|b s']; [by apply no_nul_1|].
  pose proof (trim_slashes_no_nul (b :: s') Hs) as Ht.
  destruct (trim_slashes (b :: s')) as [|x t]; [by apply no_nul_1|].
  destruct (last (split_on 47 (x :: t))) as [l|] eqn:E; cbn [default from_option id]; [|apply not_elem_of_nil].
  pose proof (split_on_no_nul 47 _ Ht) as H. rewrite Forall_forall in H. apply H.
  apply last_Some in E as [l' ->]. apply elem_of_app. right. apply list_elem_of_here.
Qed.

Lemma clean_elems_no_nul rooted elems : ∀ acc, Forall (λ x, no_nul x) acc →
  Forall (λ x, no_nul x) elems → Forall (λ x, no_nul x) (clean_elems rooted acc elems).
Proof.
  induction elems as [|e elems IH]; intros acc Ha; cbn [clean_elems].
  - intros _. by apply Forall_reverse.
  - intros [He Hes]%Forall_cons. repeat case_bool_decide; try (apply IH; [|done]); try done.
    + destruct acc as [|a acc]; [|apply Forall_cons in Ha as [Ha1 Ha2]; case_bool_decide]; apply IH; try done.
      * destruct rooted; [done|]. by constructor.
      * by repeat constructor.
    + by constructor.
Qed.

Lemma join_no_nul es : Forall (λ x, no_nul x) es → no_nul (join_slash es).
Proof.
  induction 1 as [|e es He Hes IH]; [apply not_elem_of_nil|]. cbn [join_slash].
  destruct es as [|e' es]; [done|]. apply no_nul_app. split; [done|]. apply no_nul_cons. by split.
Qed.

Lemma clean_no_nul s : no_nul s → no_nul (clean s).
Proof.
  intros Hs. unfold clean.
  assert (H : no_nul (join_slash (clean_elems (is_abs s) [] (split_on 47 s)))).
  { apply join_no_nul, clean_elems_no_nul; [constructor|by apply split_on_no_nul]. }
  destruct (is_abs s); [by apply no_nul_cons|]. destruct (join_slash _); [|done].
  by apply no_nul_1.
Qed.

Lemma sha256_no_nul s : is_sha256 s = true → no_nul s.
Proof.
  unfold is_sha256. intros [H _]%andb_true_iff H0. rewrite forallb_forall in H.
  by specialize (H 0 (proj1 (list_elem_of_In _ _) H0)).
Qed.

(** ** Clean paths *)

(** An element of a clean absolute path, and such a path. *)
Definition elem_ok (e : list Z) : Prop := e ≠ [] ∧ e ≠ [46] ∧ e ≠ [46; 46] ∧ 47 ∉ e.
Definition normal_path (s : list Z) : Prop := ∃ es, Forall elem_ok es ∧ s = 47 :: join_slash es.

Lemma split_no_sep sep s : ∀ cur, sep ∉ cur → Forall (λ x, sep ∉ x) (split_go sep cur s).
Proof.
  induction s as [|b s IH]; intros cur Hc; cbn [split_go].
  - constructor; [by rewrite elem_of_reverse|constructor].
  - destruct (Z.eqb_spec b sep) as [->|Hb].
    + constructor; [by rewrite elem_of_reverse|]. apply IH, not_elem_of_nil.
    + apply IH. rewrite not_elem_of_cons. by split.
Qed.

Lemma clean_elems_ok elems : ∀ acc, Forall elem_ok acc → Forall (λ x, 47 ∉ x) elems →
  Forall elem_ok (clean_elems true acc elems).
Proof.
  induction elems as [|e elems IH]; intros acc Ha; cbn [clean_elems].
  - intros _. by apply Forall_reverse.
  - intros [He Hes]%Forall_cons. case_bool_decide as H1; [by apply IH|]. case_bool_decide as H2.
    + destruct acc as [|a acc]; [by apply IH|]. apply Forall_cons in Ha as [(_ & _ & Hdd & _) Ha].
      rewrite bool_decide_false by done. by apply IH.
    + apply IH; [|done]. constructor; [|done]. split_and!; naive_solver.
Qed.

Lemma clean_normal s : is_abs s = true → normal_path (clean s).
Proof.
  intros Hs. unfold clean. rewrite Hs. eexists. split; [|done].
  apply clean_elems_ok; [constructor|]. apply split_no_sep, not_elem_of_nil.
Qed.

Lemma split_app sep e s : ∀ cur, sep ∉ e → split_go sep cur (e ++ sep :: s) = reverse (reverse e ++ cur) :: split_go sep [] s.
Proof.
  induction e as [|b e IH]; intros cur He; cbn [app split_go].
  - by rewrite Z.eqb_refl.
  - apply not_elem_of_cons in He as [Hb He]. rewrite (proj2 (Z.eqb_neq b sep)) by done.
    by rewrite IH, reverse_cons, <- (assoc_L (++)) by done.
Qed.

Lemma split_one sep e : ∀ cur, sep ∉ e → split_go sep cur e = [reverse cur ++ e].
Proof.
  induction e as [|b e IH]; intros cur He; cbn [split_go]; [by rewrite app_nil_r|].
  apply not_elem_of_cons in He as [Hb He]. rewrite (proj2 (Z.eqb_neq b sep)) by done.
  by rewrite IH, reverse_cons, <- (assoc_L (++)) by done.
Qed.

Lemma split_join es : Forall elem_ok es →
  split_on 47 (join_slash es) = match es with [] => [[]] | _ => es end.
Proof.
  unfold split_on. induction 1 as [|e es (_ & _ & _ & He) Hes IH]; [done|]. cbn [join_slash].
  destruct es as [|e' es]; [by apply split_one|].
  by rewrite split_app, IH, app_nil_r, reverse_involutive by done.
Qed.

Lemma clean_elems_id es : ∀ acc, Forall elem_ok es → clean_elems true acc es = reverse acc ++ es.
Proof.
  induction es as [|e es IH]; intros acc; cbn [clean_elems]; [by rewrite app_nil_r|].
  intros [(H1 & H2 & H3 & _) Hes]%Forall_cons. rewrite !bool_decide_false by naive_solver.
  by rewrite IH, reverse_cons, <- (assoc_L (++)) by done.
Qed.

(** A clean path is its own normal form: compiling a rule again changes
    nothing. *)
Lemma clean_id s : normal_path s → clean s = s.
Proof.
  intros (es & Hes & ->). unfold clean. cbn [is_abs]. f_equal. unfold split_on. cbn [split_go].
  rewrite (Z.eqb_refl 47). change (split_go 47 [] (join_slash es)) with (split_on 47 (join_slash es)).
  rewrite split_join by done. cbn [reverse rev_append clean_elems]. rewrite bool_decide_true by by left.
  destruct es as [|e es]; [done|]. by rewrite clean_elems_id.
Qed.
