(* ===== verification/Varargs.v ===== *)
(** * Counting macro arguments

    The headers choose between numbered macros ([___rd_p1] ... [___rd_p9],
    [___bpf_ctx_cast0] ... [___bpf_ctx_cast12]) by the number of arguments,
    which the preprocessor can only find by picking a token at a fixed
    position: the arguments push a list of numbers to the right.  Here are
    the pickers of [bpf_core_read.h] and [bpf_tracing.h] (which
    [bpf_helpers.h] repeats) on token lists. *)
From Stdlib Require Import ZArith Lia.
From stdpp Require Import base tactics list.
From S2P Require Import Prelude.

(** A macro argument, or a token the counting macro adds. *)
Inductive token (A : Type) := Arg (a : A) | Num (n : nat) | N_ | Underscore.
Arguments Arg {A}.
Arguments Num {A}.
Arguments N_ {A}.
Arguments Underscore {A}.

Section counting.
Context {A : Type}.

(** [n, n - 1, ..., 1, 0] *)
Fixpoint countdown (n : nat) : list (token A) :=
  match n with
  | O => [Num 0]
  | S k => Num (S k) :: countdown k
  end.

(** [n, n, n - 1, n - 1, ..., 1, 1, 0] *)
Fixpoint countdown2 (n : nat) : list (token A) :=
  match n with
  | O => [Num 0]
  | S k => Num (S k) :: Num (S k) :: countdown2 k
  end.

(** [___nth(_1, ..., __11, N, ...)] *)
Definition nth_ (l : list (token A)) : option (token A) := l !! 11%nat.

(** [___narg(...)] *)
Definition narg (args : list A) : option (token A) :=
  nth_ (Underscore :: map Arg args ++ countdown 10).

(** [___empty(...)] *)
Definition empty_ (args : list A) : option (token A) :=
  nth_ (Underscore :: map Arg args ++ replicate 10 N_ ++ [Num 0]).

(** [___bpf_nth(_, _1, ..., _c, N, ...)] *)
Definition bpf_nth (l : list (token A)) : option (token A) := l !! 13%nat.

(** [___bpf_narg(...)] *)
Definition bpf_narg (args : list A) : option (token A) :=
  bpf_nth (Underscore :: map Arg args ++ countdown 12).

(** [___bpf_nth2(_, _1, ..., _24, N, ...)] *)
Definition bpf_nth2 (l : list (token A)) : option (token A) := l !! 25%nat.

(** [___bpf_narg2(...)]: pairs of a type and a name. *)
Definition bpf_narg2 (args : list A) : option (token A) :=
  bpf_nth2 (Underscore :: map Arg args ++ countdown2 12).

(** [___apply(fn, n)]: the macro of the family whose name ends in the
    token, if there is one. *)
Definition apply_ {R} (fn : nat → option R) (n : option (token A)) : option R :=
  match n with
  | Some (Num n) => fn n
  | _ => None
  end.

(** ** What they count *)

Lemma lookup_countdown n i : (i ≤ n)%nat → countdown n !! i = Some (Num (n - i)).
Proof.
  revert i; induction n as [|n IH]; intros i Hi.
  - by replace i with 0%nat by lia.
  - destruct i as [|i]; [done|]. change (countdown n !! i = Some (Num (n - i))). apply IH. lia.
Qed.

Lemma lookup_countdown2 n i : (i ≤ n)%nat → countdown2 n !! (2 * i)%nat = Some (Num (n - i)).
Proof.
  revert i; induction n as [|n IH]; intros i Hi.
  - by replace i with 0%nat by lia.
  - destruct i as [|i]; [done|]. replace (2 * S i)%nat with (S (S (2 * i))) by lia.
    change (countdown2 n !! (2 * i)%nat = Some (Num (n - i))). apply IH. lia.
Qed.

Lemma narg_length args : (length args ≤ 10)%nat → narg args = Some (Num (length args)).
Proof.
  intros H. unfold narg, nth_. rewrite app_comm_cons, lookup_app_r by (cbn; rewrite length_map; lia).
  cbn [length]. rewrite length_map, lookup_countdown by lia.
  do 2 f_equal. lia.
Qed.

Lemma narg_long args : (10 < length args)%nat → narg args = Arg <$> args !! 10%nat.
Proof.
  intros H. unfold narg, nth_.
  rewrite app_comm_cons, lookup_app_l by (cbn; rewrite length_map; lia). apply list_lookup_fmap.
Qed.

Lemma empty_length args : (length args ≤ 10)%nat →
  empty_ args = Some (match args with [] => Num 0 | _ => N_ end).
Proof.
  intros H. unfold empty_, nth_. rewrite app_comm_cons, lookup_app_r by (cbn; rewrite length_map; lia).
  cbn [length]. rewrite length_map.
  destruct args as [|x args]; cbn [length] in *; [done|].
  rewrite lookup_app_l by (rewrite length_replicate; lia). apply lookup_replicate_2. lia.
Qed.

Lemma empty_long args : (10 < length args)%nat → empty_ args = Arg <$> args !! 10%nat.
Proof.
  intros H. unfold empty_, nth_.
  rewrite app_comm_cons, lookup_app_l by (cbn; rewrite length_map; lia). apply list_lookup_fmap.
Qed.

Lemma bpf_narg_length args : (length args ≤ 12)%nat → bpf_narg args = Some (Num (length args)).
Proof.
  intros H. unfold bpf_narg, bpf_nth. rewrite app_comm_cons, lookup_app_r by (cbn; rewrite length_map; lia).
  cbn [length]. rewrite length_map, lookup_countdown by lia.
  do 2 f_equal. lia.
Qed.

Lemma bpf_narg_long args : (12 < length args)%nat → bpf_narg args = Arg <$> args !! 12%nat.
Proof.
  intros H. unfold bpf_narg, bpf_nth.
  rewrite app_comm_cons, lookup_app_l by (cbn; rewrite length_map; lia). apply list_lookup_fmap.
Qed.

Lemma bpf_narg2_pairs args n : (n ≤ 12)%nat → length args = (2 * n)%nat →
  bpf_narg2 args = Some (Num n).
Proof.
  intros Hn H. unfold bpf_narg2, bpf_nth2. rewrite app_comm_cons, lookup_app_r by (cbn; rewrite length_map; lia).
  cbn [length]. rewrite length_map, H.
  replace (25 - S (2 * n))%nat with (2 * (12 - n))%nat by lia.
  rewrite lookup_countdown2 by lia. do 2 f_equal. lia.
Qed.

Lemma bpf_narg2_long args : (24 < length args)%nat → bpf_narg2 args = Arg <$> args !! 24%nat.
Proof.
  intros H. unfold bpf_narg2, bpf_nth2.
  rewrite app_comm_cons, lookup_app_l by (cbn; rewrite length_map; lia). apply list_lookup_fmap.
Qed.
End counting.

(** A count that is one of the arguments names no macro. *)
Lemma apply_arg {A R} (fn : nat → option R) (o : option A) : apply_ fn (Arg <$> o) = None.
Proof. by destruct o. Qed.
