(* ===== verification/CLayout.v ===== *)
(** * C types and their layout

    The member types of C structs and unions with bitfields, and where the
    x86-64 and BPF targets place the members: [sizeof], [alignof] and
    [offsetof] as functions on the declaration. *)
From Stdlib Require Import ZArith Lia Ascii String.
From stdpp Require Import base tactics list strings.
From S2P Require Import Prelude.
Local Open Scope Z_scope.

(** ** Types *)

(** A member's name ([""] for an unnamed one) and its width if it is a
    bitfield. *)
Record declr := Declr { d_name : string; d_bits : option Z }.

Inductive agg := AStruct | APacked | AUnion.

(** Integers, booleans and enums by size and signedness; pointers by the
    spelling of what they point to; arrays; structs and unions. *)
Inductive ctype :=
  | CInt (signed : bool) (bytes : Z)
  | CPtr (to : string)
  | CArr (n : Z) (t : ctype)
  | CAgg (k : agg) (ms : list (declr * ctype)).

(** Spellings used by the transcribed declarations. *)
Definition c_bool : ctype := CInt false 1.
Definition c_char : ctype := CInt true 1.
Definition c_uchar : ctype := CInt false 1.
Definition c_short : ctype := CInt true 2.
Definition c_ushort : ctype := CInt false 2.
Definition c_int : ctype := CInt true 4.
Definition c_uint : ctype := CInt false 4.
Definition c_long : ctype := CInt true 8.
Definition c_ulong : ctype := CInt false 8.
Definition c_enum : ctype := CInt false 4.
Definition c_struct (ms : list (declr * ctype)) : ctype := CAgg AStruct ms.
Definition c_packed (ms : list (declr * ctype)) : ctype := CAgg APacked ms.
Definition c_union (ms : list (declr * ctype)) : ctype := CAgg AUnion ms.
Definition anon (t : ctype) : declr * ctype := (Declr "" None, t).
Definition bits (x : string) (t : ctype) (w : Z) : declr * ctype := (Declr x (Some w), t).

Declare Scope c_scope.
Delimit Scope c_scope with c.
Notation "x ∷ t" := (Declr x%string None, t) (at level 60, no associativity) : c_scope.

(** ** Placing members *)

Definition up (a z : Z) : Z := (z + a - 1) / a * a.

(** What placing a member needs to know: its width if it is a bitfield, and
    its type's size and alignment in bytes. *)
Record minfo := MInfo { m_named : bool; m_bits : option Z; m_size : Z; m_align : Z }.

(** Bits a member takes. *)
Definition m_width (m : minfo) : Z := match m_bits m with Some w => w | None => 8 * m_size m end.

(** The bit offset of a member when [bit] bits are taken: a bitfield goes on
    where the last member ended, unless it would cross a unit of its type; a
    width of 0 ends the unit.  A packed struct does not align. *)
Definition place1 (k : agg) (bit : Z) (m : minfo) : Z :=
  match k with
  | AUnion => 0
  | AStruct =>
      match m_bits m with
      | None => up (8 * m_align m) bit
      | Some w =>
          if (w =? 0) || (8 * m_size m <? bit mod (8 * m_size m) + w)
          then up (8 * m_size m) bit else bit
      end
  | APacked => match m_bits m with None => up 8 bit | Some _ => bit end
  end.

(** The bits taken after it. *)
Definition next1 (k : agg) (bit : Z) (m : minfo) : Z :=
  match k with
  | AUnion => Z.max bit (m_width m)
  | _ => place1 k bit m + m_width m
  end.

Fixpoint places (k : agg) (bit : Z) (ms : list minfo) : list Z :=
  match ms with
  | [] => []
  | m :: ms => place1 k bit m :: places k (next1 k bit m) ms
  end.

Definition agg_end (k : agg) (bit : Z) (ms : list minfo) : Z := foldl (next1 k) bit ms.

(** An unnamed bitfield does not align the struct. *)
Definition m_aligns (m : minfo) : Z :=
  match m_bits m with
  | Some _ => if m_named m then m_align m else 1
  | None => m_align m
  end.

Definition agg_align (k : agg) (ms : list minfo) : Z :=
  match k with
  | APacked => 1
  | _ => foldr (λ m a, Z.max (m_aligns m) a) 1 ms
  end.

Definition agg_size (k : agg) (ms : list minfo) : Z :=
  up (agg_align k ms) (up 8 (agg_end k 0 ms) / 8).

Definition minfo_of (d : declr) (sa : Z * Z) : minfo :=
  MInfo (negb (String.eqb (d_name d) "")) (d_bits d) (fst sa) (snd sa).

(** Size and alignment. *)
Fixpoint size_align (t : ctype) : Z * Z :=
  match t with
  | CInt _ n => (n, n)
  | CPtr _ => (8, 8)
  | CArr n t => let '(s, a) := size_align t in (n * s, a)
  | CAgg k ms =>
      let infos := (fix infos ms := match ms with
                                    | [] => []
                                    | (d, t) :: ms => minfo_of d (size_align t) :: infos ms
                                    end) ms in
      (agg_size k infos, agg_align k infos)
  end.

Definition sizeof (t : ctype) : Z := fst (size_align t).
Definition alignof (t : ctype) : Z := snd (size_align t).

Definition infos (ms : list (declr * ctype)) : list minfo :=
  map (λ m, minfo_of (fst m) (size_align (snd m))) ms.

(** ** Finding members *)

(** A member: its bit offset, its width if it is a bitfield, its type. *)
Record found := Found { f_bit : Z; f_bits : option Z; f_type : ctype }.

Definition shift (b : Z) (f : found) : found := Found (b + f_bit f) (f_bits f) (f_type f).

(** The accessor [[i]] of an array's element, as a string. *)
Fixpoint index_digits (i : Z) (s : string) : option Z :=
  match s with
  | String ch s =>
      let d := Z.of_nat (Ascii.nat_of_ascii ch) - 48 in
      if (0 <=? d) && (d <? 10) then index_digits (10 * i + d) s
      else if Ascii.eqb ch "]"%char && String.eqb s "" then Some i else None
  | EmptyString => None
  end.

Definition elem_index (x : string) : option Z :=
  match x with
  | String ch s => if Ascii.eqb ch "["%char && negb (String.eqb s "]") then index_digits 0 s else None
  | EmptyString => None
  end.

(** [a.b] and [a[i]] as accessors. *)
Fixpoint accessors_from (x s : string) : list string :=
  match s with
  | EmptyString => [x]
  | String ch s =>
      if Ascii.eqb ch "."%char then x :: accessors_from "" s
      else if Ascii.eqb ch "["%char then x :: accessors_from "[" s
      else accessors_from (x +:+ String ch "") s
  end.

Definition accessors (s : string) : list string := accessors_from "" s.

(** [t.x], through unnamed structs and unions, or the element [t[i]]. *)
Fixpoint member (t : ctype) (x : string) : option found :=
  match t with
  | CArr n t =>
      i ← elem_index x;
      if (0 <=? i) && (i <? n) then Some (Found (8 * (i * sizeof t)) None t) else None
  | CAgg k ms =>
      (fix go bit ms :=
         match ms with
         | [] => None
         | (d, t) :: ms =>
             let m := minfo_of d (size_align t) in
             let b := place1 k bit m in
             if negb (String.eqb (d_name d) "")
             then if String.eqb (d_name d) x then Some (Found b (d_bits d) t) else go (next1 k bit m) ms
             else match d_bits d with
                  | Some _ => go (next1 k bit m) ms
                  | None => match member t x with
                            | Some f => Some (shift b f)
                            | None => go (next1 k bit m) ms
                            end
                  end
         end) 0 ms
  | _ => None
  end.

(** [t.x.y.z] *)
Fixpoint path (t : ctype) (xs : list string) : option found :=
  match xs with
  | [] => Some (Found 0 None t)
  | x :: xs =>
      f ← member t x;
      match xs with
      | [] => Some f
      | _ => match f_bits f with
             | None => shift (f_bit f) <$> path (f_type f) xs
             | Some _ => None
             end
      end
  end.

(** [offsetof(t, x.y)]; a bitfield has none. *)
Definition offsetof (t : ctype) (xs : list string) : option Z :=
  f ← path t xs;
  match f_bits f with
  | None => Some (f_bit f / 8)
  | Some _ => None
  end.

(** The position among a struct's members of the one that is or holds [x]. *)
Fixpoint index_of (x : string) (ms : list (declr * ctype)) : option nat :=
  match ms with
  | [] => None
  | (d, t) :: ms =>
      let here := if negb (String.eqb (d_name d) "") then String.eqb (d_name d) x
                  else match d_bits d with Some _ => false | None => bool_decide (is_Some (member t x)) end in
      if here then Some 0%nat else S <$> index_of x ms
  end.

(** ** Objects *)

(** The bytes of [obj.x.y], and the object after they were set; a bitfield
    is not addressed. *)
Definition load (t : ctype) (xs : list string) (obj : list Z) : option (list Z) :=
  f ← path t xs;
  match f_bits f with
  | None => Some (slice obj (Z.to_nat (f_bit f / 8)) (Z.to_nat (sizeof (f_type f))))
  | Some _ => None
  end.

Definition store (t : ctype) (xs : list string) (v obj : list Z) : list Z :=
  match offsetof t xs with
  | Some o => splice obj (Z.to_nat o) v
  | None => obj
  end.

(** Assignments to members, one after the other. *)
Definition set_members (t : ctype) (vals : list (string * list Z)) (obj : list Z) : list Z :=
  foldl (λ obj xv, store t [fst xv] (snd xv) obj) obj vals.

(** ** Well-formed types *)

(** An integer's size is its alignment, a power of two. *)
Definition size_ok (n : Z) : bool := bool_decide (n ∈ [1; 2; 4; 8; 16]).

(** A bitfield is at most as wide as its integer type; only an unnamed one
    has width 0. *)
Definition bits_ok (d : declr) (t : ctype) : bool :=
  match d_bits d, t with
  | None, _ => true
  | Some w, CInt _ n =>
      (0 <=? w) && (w <=? 8 * n) && (String.eqb (d_name d) "" || (0 <? w))
  | Some _, _ => false
  end.

Fixpoint wf_type (t : ctype) : bool :=
  match t with
  | CInt _ n => size_ok n
  | CPtr _ => true
  | CArr n t => (0 <=? n) && wf_type t
  | CAgg _ ms => forallb (λ m, bits_ok (fst m) (snd m) && wf_type (snd m)) ms
  end.

(** No packed struct inside. *)
Fixpoint unpacked (t : ctype) : bool :=
  match t with
  | CArr _ t => unpacked t
  | CAgg k ms => match k with APacked => false | _ => true end && forallb (λ m, unpacked (snd m)) ms
  | _ => true
  end.

Section ctype_ind.
Variable P : ctype → Prop.
Hypothesis Hint : ∀ s n, P (CInt s n).
Hypothesis Hptr : ∀ s, P (CPtr s).
Hypothesis Harr : ∀ n t, P t → P (CArr n t).
Hypothesis Hagg : ∀ k ms, Forall (λ m, P (snd m)) ms → P (CAgg k ms).

(** Induction on types, with the hypothesis for every member. *)
Fixpoint ctype_rec_members (t : ctype) : P t :=
  match t with
  | CInt s n => Hint s n
  | CPtr s => Hptr s
  | CArr n t => Harr n t (ctype_rec_members t)
  | CAgg k ms =>
      Hagg k ms ((fix all ms : Forall (λ m : declr * ctype, P (snd m)) ms :=
        match ms with
        | [] => Forall_nil_2 _
        | m :: ms => Forall_cons_2 _ m ms (ctype_rec_members (snd m)) (all ms)
        end) ms)
  end.
End ctype_ind.

Lemma size_align_agg k ms : size_align (CAgg k ms) = (agg_size k (infos ms), agg_align k (infos ms)).
Proof.
  cbn [size_align].
  assert (H : (fix go (ms : list (declr * ctype)) := match ms with
               | [] => []
               | (d, t) :: ms => minfo_of d (size_align t) :: go ms
               end) ms = infos ms).
  { induction ms as [|[d t] ms IH]; [done|]. cbn [infos map fst snd]. f_equal. exact IH. }
  by rewrite H.
Qed.

(** ** Arithmetic of alignments *)

Lemma up_ge a z : 0 < a → z ≤ up a z.
Proof. intros Ha. unfold up. Z.to_euclidean_division_equations. nia. Qed.

Lemma up_lt a z : 0 < a → up a z < z + a.
Proof. intros Ha. unfold up. Z.to_euclidean_division_equations. nia. Qed.

Lemma up_divide a z : (a | up a z).
Proof. apply Z.divide_factor_r. Qed.

Lemma up_nonneg a z : 0 < a → 0 ≤ z → 0 ≤ up a z.
Proof. intros Ha Hz. pose proof (up_ge a z Ha). lia. Qed.

(** Alignments: powers of two, so that the greater is a multiple. *)
Definition is_align (a : Z) : Prop := ∃ e, 0 ≤ e ∧ a = 2 ^ e.

Lemma is_align_pos a : is_align a → 0 < a.
Proof. intros (e & He & ->). by apply Z.pow_pos_nonneg. Qed.

Lemma is_align_1 : is_align 1.
Proof. by exists 0. Qed.

Lemma size_ok_align n : size_ok n = true → is_align n.
Proof.
  unfold size_ok. rewrite bool_decide_eq_true, !elem_of_cons, elem_of_nil.
  intros [->|[->|[->|[->|[->|[]]]]]]; [by exists 0|by exists 1|by exists 2|by exists 3|by exists 4].
Qed.

Lemma is_align_divide a b : is_align a → is_align b → a ≤ b → (a | b).
Proof.
  intros (e & He & ->) (f & Hf & ->) Hle. apply Z.pow_le_mono_r_iff in Hle; [|lia..].
  exists (2 ^ (f - e)). rewrite <- Z.pow_add_r by lia. f_equal. lia.
Qed.

Lemma is_align_max a b : is_align a → is_align b → is_align (Z.max a b).
Proof. intros Ha Hb. destruct (Z.max_spec a b) as [[_ E]|[_ E]]; by rewrite E. Qed.

(** ** Members of a struct *)

Record m_ok (m : minfo) : Prop := {
  mo_size : 0 ≤ m_size m;
  mo_align : is_align (m_align m);
  mo_bits w : m_bits m = Some w → 0 ≤ w ≤ 8 * m_size m ∧ 0 < m_size m;
}.

Lemma m_width_nonneg m : m_ok m → 0 ≤ m_width m.
Proof.
  intros [H1 _ H3]. unfold m_width. destruct (m_bits m) as [w|]; [|lia]. destruct (H3 w eq_refl); lia.
Qed.

Lemma m_align_pos m : m_ok m → 0 < m_align m.
Proof. intros H. apply is_align_pos, H. Qed.

Lemma m_aligns_align m : m_ok m → is_align (m_aligns m).
Proof.
  intros Hm. unfold m_aligns. destruct (m_bits m); [destruct (m_named m)|]; try apply Hm. apply is_align_1.
Qed.

Section places.
Variable k : agg.

Lemma place1_ge bit m : m_ok m → 0 ≤ bit → k ≠ AUnion → bit ≤ place1 k bit m.
Proof.
  intros Hm Hb Hk. pose proof (m_align_pos m Hm) as Ha. pose proof (mo_bits m Hm) as Hw. unfold place1.
  destruct k; [|destruct (m_bits m); [lia|by apply up_ge]|done].
  destruct (m_bits m) as [w|]; [|apply up_ge; lia].
  destruct (Hw w eq_refl). destruct ((w =? 0) || _); [apply up_ge; lia|lia].
Qed.

Lemma place1_nonneg bit m : m_ok m → 0 ≤ bit → 0 ≤ place1 k bit m.
Proof.
  intros Hm Hb. pose proof (place1_ge bit m Hm Hb) as H.
  destruct k; [specialize (H ltac:(done)); lia..|done].
Qed.

(** A member ends where the next one may start, or before. *)
Lemma place1_next bit m : m_ok m → 0 ≤ bit → place1 k bit m + m_width m ≤ next1 k bit m.
Proof. intros Hm Hb. unfold next1. destruct k; cbn [place1]; lia. Qed.

Lemma next1_ge bit m : m_ok m → 0 ≤ bit → bit ≤ next1 k bit m.
Proof.
  intros Hm Hb. pose proof (m_width_nonneg m Hm). pose proof (place1_ge bit m Hm Hb) as Hp.
  unfold next1. destruct k; [specialize (Hp ltac:(done)); lia..|lia].
Qed.

Lemma agg_end_ge bit ms : Forall m_ok ms → 0 ≤ bit → bit ≤ agg_end k bit ms.
Proof.
  intros Hms. revert bit. induction Hms as [|m ms Hm Hms IH]; intros bit Hb; [done|].
  cbn. pose proof (next1_ge bit m Hm Hb). specialize (IH (next1 k bit m) ltac:(lia)). unfold agg_end in IH. lia.
Qed.

Lemma agg_align_is_align ms : Forall m_ok ms → is_align (agg_align k ms).
Proof.
  intros Hms. unfold agg_align. destruct k; [|apply is_align_1|];
    (induction Hms as [|m ms Hm Hms IH]; [apply is_align_1|];
     cbn; apply is_align_max; [by apply m_aligns_align|done]).
Qed.

Lemma agg_align_ge ms m : k ≠ APacked → m ∈ ms → m_aligns m ≤ agg_align k ms.
Proof.
  intros Hk Hm. assert (H : m_aligns m ≤ foldr (λ m a, Z.max (m_aligns m) a) 1 ms).
  { induction ms as [|x ms IH]; [by apply not_elem_of_nil in Hm|].
    cbn. apply elem_of_cons in Hm as [->|Hm]; [lia|]. specialize (IH Hm). lia. }
  unfold agg_align. by destruct k.
Qed.

(** All members end inside the struct. *)
Lemma agg_size_end ms : Forall m_ok ms → agg_end k 0 ms ≤ 8 * agg_size k ms.
Proof.
  intros Hms. pose proof (is_align_pos _ (agg_align_is_align ms Hms)) as Ha. unfold agg_size.
  pose proof (up_ge (agg_align k ms) (up 8 (agg_end k 0 ms) / 8) Ha).
  pose proof (up_ge 8 (agg_end k 0 ms) eq_refl).
  destruct (up_divide 8 (agg_end k 0 ms)) as [q Hq].
  rewrite Hq, Z.div_mul in * by done. lia.
Qed.

Lemma agg_size_nonneg ms : Forall m_ok ms → 0 ≤ agg_size k ms.
Proof.
  intros Hms. pose proof (agg_end_ge 0 ms Hms ltac:(lia)). pose proof (agg_size_end ms Hms). lia.
Qed.
End places.

(** ** Well-formed types have well-formed layouts *)

Definition m_wf (m : declr * ctype) : bool := bits_ok (fst m) (snd m) && wf_type (snd m).

Lemma m_ok_of d t : 0 ≤ sizeof t → is_align (alignof t) → bits_ok d t = true → m_ok (minfo_of d (size_align t)).
Proof.
  intros Hs Ha Hb. split; [exact Hs|exact Ha|]. intros w. cbn. intros Hw. unfold bits_ok in Hb. rewrite Hw in Hb.
  destruct t as [s n| | |]; try done. cbn in *. apply andb_true_iff in Hb as [[H1 H2]%andb_true_iff H3].
  apply Z.leb_le in H1, H2. pose proof (is_align_pos _ Ha). cbn in *. lia.
Qed.

Lemma type_ok t : wf_type t = true → 0 ≤ sizeof t ∧ is_align (alignof t).
Proof.
  induction t as [s n|s|n t IH|k ms IH] using ctype_rec_members; cbn [wf_type]; intros H.
  - pose proof (size_ok_align n H) as Ha. split; [|done]. pose proof (is_align_pos _ Ha). cbn. lia.
  - split; [done|]. by exists 3.
  - apply andb_true_iff in H as [Hn Ht]. destruct (IH Ht) as [Hs Ha]. apply Z.leb_le in Hn.
    unfold sizeof, alignof in *. cbn [size_align]. destruct (size_align t) as [s a]. cbn in *. split; [nia|done].
  - assert (Hms : Forall m_ok (infos ms)).
    { clear -IH H. induction IH as [|[d t] ms Ht Hms IH]; [constructor|]. cbn in H.
      apply andb_true_iff in H as [[Hb Hw]%andb_true_iff H]. destruct (Ht Hw) as [Hs Ha].
      constructor; [by apply m_ok_of|by apply IH]. }
    unfold sizeof, alignof. rewrite size_align_agg. cbn [fst snd].
    split; [by apply agg_size_nonneg|by apply agg_align_is_align].
Qed.

Lemma infos_ok ms : forallb m_wf ms = true → Forall m_ok (infos ms).
Proof.
  induction ms as [|[d t] ms IH]; cbn; [constructor|]. intros [[Hb Hw]%andb_true_iff H]%andb_true_iff.
  destruct (type_ok t Hw). constructor; [by apply m_ok_of|by apply IH].
Qed.

(** The loop of [member]. *)
Fixpoint member_go (k : agg) (x : string) (bit : Z) (ms : list (declr * ctype)) : option found :=
  match ms with
  | [] => None
  | (d, t) :: ms =>
      let m := minfo_of d (size_align t) in
      let b := place1 k bit m in
      if negb (String.eqb (d_name d) "")
      then if String.eqb (d_name d) x then Some (Found b (d_bits d) t) else member_go k x (next1 k bit m) ms
      else match d_bits d with
           | Some _ => member_go k x (next1 k bit m) ms
           | None => match member t x with
                     | Some f => Some (shift b f)
                     | None => member_go k x (next1 k bit m) ms
                     end
           end
  end.

Lemma member_agg k ms x : member (CAgg k ms) x = member_go k x 0 ms.
Proof.
  cbn [member]. generalize 0. induction ms as [|[d t] ms IH]; intros bit; [done|].
  cbn [member_go]. by rewrite <- !IH.
Qed.

(** ** Where a member is *)

Definition f_width (f : found) : Z := match f_bits f with Some w => w | None => 8 * sizeof (f_type f) end.

Record in_type (t : ctype) (f : found) : Prop := {
  it_ge : 0 ≤ f_bit f;
  it_end : f_bit f + f_width f ≤ 8 * sizeof t;
  it_wf : wf_type (f_type f) = true;
  it_unpacked : unpacked t = true → unpacked (f_type f) = true;
  it_bytes : f_bits f = None → (8 | f_bit f);
  it_align : unpacked t = true → f_bits f = None →
    (8 * alignof (f_type f) | f_bit f) ∧ alignof (f_type f) ≤ alignof t;
}.

Lemma in_type_refl t : wf_type t = true → in_type t (Found 0 None t).
Proof.
  intros H. split; cbn; try done; try lia.
  - intros _. apply Z.divide_0_r.
  - intros _ _. split; [apply Z.divide_0_r|done].
Qed.

(** A member of a member. *)
Lemma in_type_trans t f g : wf_type t = true →
  in_type t f → f_bits f = None → in_type (f_type f) g → in_type t (shift (f_bit f) g).
Proof.
  intros Hwf [F1 F2 F3 F4 F5 F6] Hb [G1 G2 G3 G4 G5 G6].
  assert (Ef : f_width f = 8 * sizeof (f_type f)) by (unfold f_width; by rewrite Hb).
  assert (Eg : f_width (shift (f_bit f) g) = f_width g) by done.
  split; rewrite ?Eg; cbn [shift f_bit f_bits f_type]; try lia; try done.
  - intros Hu. by apply G4, F4.
  - intros Hg. apply Z.divide_add_r; [by apply F5|by apply G5].
  - intros Hu Hg. destruct (F6 Hu Hb) as [D1 L1]. destruct (G6 (F4 Hu) Hg) as [D2 L2].
    split; [|lia]. apply Z.divide_add_r; [|done]. etrans; [|exact D1].
    apply Z.mul_divide_mono_l. apply is_align_divide; [apply type_ok, G3|apply type_ok, F3|done].
Qed.

Lemma place1_bytes k bit m : m_bits m = None → (8 | place1 k bit m).
Proof.
  intros H. unfold place1. rewrite H. destruct k; [|apply up_divide|apply Z.divide_0_r].
  etrans; [|apply up_divide]. apply Z.divide_factor_l.
Qed.

Lemma place1_aligned k bit m : k ≠ APacked → m_bits m = None → (8 * m_align m | place1 k bit m).
Proof.
  intros Hk H. unfold place1. rewrite H. destruct k; [apply up_divide|done|apply Z.divide_0_r].
Qed.

(** The [i]-th member: placed from [bit] on, inside what the struct takes. *)
Lemma places_spec k ms : ∀ bit i m, Forall m_ok ms → 0 ≤ bit → ms !! i = Some m →
  ∃ b, places k bit ms !! i = Some b ∧ 0 ≤ b ∧ (k ≠ AUnion → bit ≤ b) ∧
    b + m_width m ≤ agg_end k bit ms ∧
    (m_bits m = None → (8 | b) ∧ (k ≠ APacked → (8 * m_align m | b))).
Proof.
  induction ms as [|m' ms IH]; intros bit i m Hms Hb; [done|].
  apply Forall_cons in Hms as [Hm' Hms]. pose proof (next1_ge k bit m' Hm' Hb) as Hn.
  destruct i as [|i]; cbn [lookup list_lookup].
  - intros [= ->]. exists (place1 k bit m). split; [done|]. split; [by apply place1_nonneg|].
    split; [by apply place1_ge|]. split.
    + pose proof (place1_next k bit m Hm' Hb).
      pose proof (agg_end_ge k (next1 k bit m) ms Hms ltac:(lia)) as He. cbn. unfold agg_end in He. lia.
    + intros H. split; [by apply place1_bytes|]. intros Hk. by apply place1_aligned.
  - intros Hi. destruct (IH (next1 k bit m') i m Hms ltac:(lia) Hi) as (b & ? & ? & Hge & ? & ?).
    exists b. split; [done|]. split; [done|]. split; [|done]. intros Hk. specialize (Hge Hk). lia.
Qed.

(** Members are placed in order: in a struct each ends before the next
    begins. *)
Lemma places_ordered k ms : ∀ bit i j m m' b b', Forall m_ok ms → 0 ≤ bit → k ≠ AUnion → (i < j)%nat →
  ms !! i = Some m → ms !! j = Some m' →
  places k bit ms !! i = Some b → places k bit ms !! j = Some b' → b + m_width m ≤ b'.
Proof.
  induction ms as [|x ms IH]; intros bit i j m m' b b' Hms Hb Hk Hij; [done|].
  apply Forall_cons in Hms as [Hx Hms]. destruct j as [|j]; [lia|].
  pose proof (next1_ge k bit x Hx Hb) as Hn. destruct i as [|i]; cbn [lookup list_lookup places].
  - intros [= ->] Hj [= <-] Hpj.
    destruct (places_spec k ms (next1 k bit m) j m' Hms ltac:(lia) Hj) as (b1 & Hb1 & _ & Hge & _).
    specialize (Hge Hk). pose proof (place1_next k bit m Hx Hb).
    assert (Some b1 = Some b') as [= ->] by (rewrite <- Hb1; exact Hpj). lia.
  - intros Hi Hj Hpi Hpj. apply (IH (next1 k bit x) i j m m' b b'); (done || lia).
Qed.

(** What [member] finds: a member of this name, or one inside an unnamed
    member, at the place of the outer one. *)
Record at_index (k : agg) (x : string) (bit : Z) (ms : list (declr * ctype)) (i : nat) (f : found)
    (d : declr) (t : ctype) (b : Z) (g : found) : Prop := {
  ai_member : ms !! i = Some (d, t);
  ai_place : places k bit (infos ms) !! i = Some b;
  ai_found : f = shift b g;
  ai_index : index_of x ms = Some i;
  ai_inner : (d_name d = x ∧ g = Found 0 (d_bits d) t) ∨ (d_bits d = None ∧ member t x = Some g);
}.

Lemma member_go_index k x ms : ∀ bit f, member_go k x bit ms = Some f →
  ∃ i d t b g, at_index k x bit ms i f d t b g.
Proof.
  induction ms as [|[d t] ms IH]; intros bit f; cbn [member_go]; [done|].
  set (m := minfo_of d (size_align t)).
  assert (Hrec : member_go k x (next1 k bit m) ms = Some f →
    index_of x ((d, t) :: ms) = S <$> index_of x ms →
    ∃ i d' t' b g, at_index k x bit ((d, t) :: ms) i f d' t' b g).
  { intros (i & d' & t' & b & g & [H1 H2 H3 H5 H4])%IH Hi. exists (S i), d', t', b, g.
    split; try done. by rewrite Hi, H5. }
  destruct (String.eqb_spec (d_name d) "") as [E|E]; cbn [negb].
  - destruct (d_bits d) eqn:Ew; [intros H; apply Hrec; [done|]; cbn [index_of]; by rewrite E, Ew|].
    destruct (member t x) as [g|] eqn:Eg.
    + intros [= <-]. exists 0%nat, d, t, (place1 k bit m), g.
      split; [done..| |by right]. cbn [index_of]. by rewrite E, Ew, Eg.
    + intros H. apply Hrec; [done|]. cbn [index_of]. by rewrite E, Ew, Eg.
  - destruct (String.eqb_spec (d_name d) x) as [Ex|Ex].
    + intros [= <-]. exists 0%nat, d, t, (place1 k bit m), (Found 0 (d_bits d) t).
      split; [done|done| | |by left]; [unfold shift; cbn; by rewrite Z.add_0_r|].
      cbn [index_of]. rewrite (proj2 (String.eqb_neq _ _) E). cbn [negb].
      by rewrite (proj2 (String.eqb_eq _ _) Ex).
    + intros H. apply Hrec; [done|]. cbn [index_of]. rewrite (proj2 (String.eqb_neq _ _) E). cbn [negb].
      by rewrite (proj2 (String.eqb_neq _ _) Ex).
Qed.

Lemma at_index_in k x ms i f d t b g :
  at_index k x 0 ms i f d t b g → wf_type (CAgg k ms) = true → (member t x = Some g → in_type t g) →
  in_type (CAgg k ms) f.
Proof.
  intros [Hi Hp -> _ Hg] Hwf Hin. change (forallb m_wf ms = true) in Hwf.
  assert (Hdt : bits_ok d t = true ∧ wf_type t = true).
  { apply andb_true_iff. rewrite forallb_forall in Hwf. apply (Hwf (d, t)), list_elem_of_In.
    by eapply list_elem_of_lookup_2. }
  destruct Hdt as [Hb Ht]. pose proof (infos_ok ms Hwf) as Hms.
  assert (Hm : infos ms !! i = Some (minfo_of d (size_align t))).
  { unfold infos. by rewrite list_lookup_fmap, Hi. }
  destruct (places_spec k (infos ms) 0 i _ Hms ltac:(lia) Hm) as (b1 & Hb1 & H0 & _ & Hend & Hal).
  assert (b1 = b) as -> by congruence. cbn [minfo_of m_bits m_align] in Hal.
  pose proof (agg_size_end k (infos ms) Hms) as Hsz.
  assert (Hout : in_type (CAgg k ms) (Found b (d_bits d) t)).
  { assert (Ew : f_width (Found b (d_bits d) t) = m_width (minfo_of d (size_align t))).
    { unfold f_width, m_width, sizeof. cbn. by destruct (d_bits d). }
    split; rewrite ?Ew; cbn [f_bit f_bits f_type]; try done.
    - unfold sizeof. rewrite size_align_agg. cbn [fst]. lia.
    - cbn [unpacked]. intros [_ Hu]%andb_true_iff. rewrite forallb_forall in Hu.
      apply (Hu (d, t)), list_elem_of_In. by eapply list_elem_of_lookup_2.
    - intros H. by apply Hal.
    - cbn [unpacked]. intros [Hk _]%andb_true_iff H. assert (k ≠ APacked) as Hk' by (by intros ->).
      destruct (Hal H) as [_ Ha]. split; [by apply Ha|].
      unfold alignof. rewrite size_align_agg. cbn [snd].
      pose proof (agg_align_ge k (infos ms) _ Hk' (list_elem_of_lookup_2 _ _ _ Hm)) as Hge.
      unfold m_aligns in Hge. cbn [minfo_of m_bits m_align] in Hge. by rewrite H in Hge. }
  destruct Hg as [[_ ->]|[Hn Hg]].
  - unfold shift. cbn. by rewrite Z.add_0_r.
  - apply (in_type_trans _ (Found b (d_bits d) t)); [exact Hwf|done|done|by apply Hin].
Qed.

(** An element of an array: a type's size is a multiple of its alignment. *)
Lemma align_divides_size t : wf_type t = true → (alignof t | sizeof t).
Proof.
  induction t as [s n|s|n t IH|k ms IH] using ctype_rec_members; cbn [wf_type]; intros H.
  - done.
  - done.
  - apply andb_true_iff in H as [_ Ht%IH]. unfold alignof, sizeof in *. cbn [size_align].
    destruct (size_align t) as [s a]. cbn in *. by apply Z.divide_mul_r.
  - unfold alignof, sizeof. rewrite size_align_agg. cbn [fst snd]. apply up_divide.
Qed.

Lemma elem_in n t i : wf_type (CArr n t) = true → 0 ≤ i < n →
  in_type (CArr n t) (Found (8 * (i * sizeof t)) None t).
Proof.
  cbn [wf_type]. intros [_ Ht]%andb_true_iff Hi. destruct (type_ok t Ht) as [Hs _].
  pose proof (align_divides_size t Ht) as Hd.
  assert (Es : sizeof (CArr n t) = n * sizeof t ∧ alignof (CArr n t) = alignof t).
  { unfold sizeof, alignof. cbn [size_align]. by destruct (size_align t). }
  destruct Es as [Es Ea]. split; unfold f_width; cbn [f_bit f_bits f_type unpacked]; try done; try nia.
  - intros _. apply Z.divide_factor_l.
  - intros _ _. rewrite Ea. split; [|done]. apply Z.mul_divide_mono_l. by apply Z.divide_mul_r.
Qed.

Lemma member_in t x f : wf_type t = true → member t x = Some f → in_type t f.
Proof.
  revert f. induction t as [s n|s|n t IH|k ms IH] using ctype_rec_members; intros f Hwf Hf; try done.
  { cbn [member] in Hf. destruct (elem_index x) as [i|]; [|done]. cbn [mbind option_bind] in Hf.
    destruct (_ && _) eqn:Hi; [|done]. injection Hf as <-. apply elem_in; [done|lia]. }
  rewrite member_agg in Hf. destruct (member_go_index _ _ _ _ _ Hf) as (i & d & t & b & g & H).
  apply (at_index_in k x ms i f d t b g H Hwf). intros Hg.
  rewrite Forall_forall in IH. apply (IH (d, t)); [|..|done].
  - eapply list_elem_of_lookup_2, H.
  - cbn [wf_type] in Hwf. rewrite forallb_forall in Hwf.
    specialize (Hwf (d, t)). rewrite andb_true_iff in Hwf. apply Hwf, list_elem_of_In.
    eapply list_elem_of_lookup_2, H.
Qed.

Lemma path_cons t x xs f : path t (x :: xs) = Some f → xs ≠ [] →
  ∃ g h, member t x = Some g ∧ f_bits g = None ∧ path (f_type g) xs = Some h ∧ f = shift (f_bit g) h.
Proof.
  cbn [path]. destruct (member t x) as [g|]; [|done]. cbn [mbind option_bind].
  destruct xs as [|y xs]; [done|]. destruct (f_bits g) eqn:E; [done|]. intros H _.
  destruct (path (f_type g) (y :: xs)) as [h|] eqn:Eh; [|done]. injection H as <-. by exists g, h.
Qed.

Lemma path_in t xs f : wf_type t = true → path t xs = Some f → in_type t f.
Proof.
  revert t f. induction xs as [|x xs IH]; intros t f Hwf Hf.
  - injection Hf as <-. by apply in_type_refl.
  - destruct (decide (xs = [])) as [->|Hxs].
    + cbn [path] in Hf. destruct (member t x) as [g|] eqn:E; [|done]. injection Hf as <-. by eapply member_in.
    + destruct (path_cons _ _ _ _ Hf Hxs) as (g & h & Hg & Hb & Hh & ->).
      pose proof (member_in t x g Hwf Hg) as Hin. apply in_type_trans; try done.
      apply IH; [apply Hin|done].
Qed.

(** ** Members do not overlap *)

(** [f] lies inside [g]. *)
Definition inside (f g : found) : Prop := f_bit g ≤ f_bit f ∧ f_bit f + f_width f ≤ f_bit g + f_width g.

Lemma path_head t x xs f : wf_type t = true → path t (x :: xs) = Some f →
  ∃ g, member t x = Some g ∧ inside f g.
Proof.
  intros Hwf Hf. destruct (decide (xs = [])) as [->|Hxs].
  - cbn [path] in Hf. destruct (member t x) as [g|]; [|done]. injection Hf as <-. exists g.
    split; [done|]. unfold inside. lia.
  - destruct (path_cons _ _ _ _ Hf Hxs) as (g & h & Hg & Hb & Hh & ->). exists g. split; [done|].
    pose proof (member_in t x g Hwf Hg) as Hin.
    destruct (path_in _ _ _ (it_wf _ _ Hin) Hh) as [H1 H2 _ _ _ _].
    unfold inside. assert (f_width (shift (f_bit g) h) = f_width h) as -> by done.
    unfold f_width at 2. rewrite Hb. cbn. lia.
Qed.

Lemma at_index_inside k x ms i f d t b g :
  at_index k x 0 ms i f d t b g → wf_type (CAgg k ms) = true → inside f (Found b (d_bits d) t).
Proof.
  intros [Hi _ -> _ Hg] Hwf. unfold inside.
  assert (f_width (shift b g) = f_width g) as -> by done.
  destruct Hg as [[_ ->]|[Hn Hg]]; unfold shift; cbn [f_bit].
  - unfold f_width. cbn. lia.
  - assert (Ht : wf_type t = true).
    { cbn [wf_type] in Hwf. rewrite forallb_forall in Hwf. specialize (Hwf (d, t)).
      rewrite andb_true_iff in Hwf. apply Hwf, list_elem_of_In. by eapply list_elem_of_lookup_2. }
    destruct (member_in t x g Ht Hg) as [H1 H2 _ _ _ _].
    unfold f_width at 2. cbn [f_bits f_type]. rewrite Hn. lia.
Qed.

Lemma paths_ordered k ms x xs y ys f g i j :
  wf_type (CAgg k ms) = true → k ≠ AUnion →
  path (CAgg k ms) (x :: xs) = Some f → path (CAgg k ms) (y :: ys) = Some g →
  index_of x ms = Some i → index_of y ms = Some j → (i < j)%nat → f_bit f + f_width f ≤ f_bit g.
Proof.
  intros Hwf Hk Hf Hg Hi Hj Hij.
  destruct (path_head _ _ _ _ Hwf Hf) as (f' & Hf' & [_ Hfe]).
  destruct (path_head _ _ _ _ Hwf Hg) as (g' & Hg' & [Hge _]).
  rewrite member_agg in Hf', Hg'.
  destruct (member_go_index _ _ _ _ _ Hf') as (i' & d & t & b & h & Hx).
  destruct (member_go_index _ _ _ _ _ Hg') as (j' & d' & t' & b' & h' & Hy).
  pose proof (at_index_inside _ _ _ _ _ _ _ _ _ Hx Hwf) as [_ Hxe].
  pose proof (at_index_inside _ _ _ _ _ _ _ _ _ Hy Hwf) as [Hye _]. cbn [f_bit] in *.
  destruct Hx as [Hxi Hxp _ Hxn _], Hy as [Hyi Hyp _ Hyn _].
  assert (i' = i) as -> by congruence. assert (j' = j) as -> by congruence.
  pose proof (infos_ok ms Hwf) as Hms.
  assert (Hw : f_width (Found b (d_bits d) t) = m_width (minfo_of d (size_align t))).
  { unfold f_width, m_width, sizeof. cbn. by destruct (d_bits d). }
  assert (b + m_width (minfo_of d (size_align t)) ≤ b'); [|lia].
  eapply (places_ordered k (infos ms) 0 i j); try done; try lia;
    unfold infos; rewrite list_lookup_fmap; [by rewrite Hxi|by rewrite Hyi].
Qed.

(** *** Bytes of objects *)

Section objects.
Context (t : ctype) (Hwf : wf_type t = true).

(** A member that is not a bitfield is a range of whole bytes. *)
Lemma path_bytes xs f : path t xs = Some f → f_bits f = None →
  offsetof t xs = Some (f_bit f / 8) ∧ f_bit f = 8 * (f_bit f / 8) ∧ 0 ≤ f_bit f / 8 ∧
  0 ≤ sizeof (f_type f) ∧ f_bit f / 8 + sizeof (f_type f) ≤ sizeof t.
Proof.
  intros Hf Hb. destruct (path_in t xs f Hwf Hf) as [H0 He Ht _ H8 _].
  destruct (H8 Hb) as [q Hq]. destruct (type_ok _ Ht) as [Hs _].
  unfold f_width in He. rewrite Hb in He. unfold offsetof. rewrite Hf. cbn [mbind option_bind]. rewrite Hb.
  rewrite Hq, Z.div_mul by done. split; [done|]. lia.
Qed.

Lemma length_store xs f v obj : path t xs = Some f → f_bits f = None →
  Z.of_nat (length v) = sizeof (f_type f) → Z.of_nat (length obj) = sizeof t →
  length (store t xs v obj) = length obj.
Proof.
  intros Hf Hb Hv Ho. destruct (path_bytes xs f Hf Hb) as (Hoff & _ & ? & ? & ?).
  unfold store. rewrite Hoff. apply length_splice. lia.
Qed.
End objects.

Section struct_objects.
Context (k : agg) (ms : list (declr * ctype)).
Hypothesis Hwf : wf_type (CAgg k ms) = true.
Local Abbreviation t := (CAgg k ms).

Lemma load_bytes xs f obj : path t xs = Some f → f_bits f = None →
  load t xs obj = Some (slice obj (Z.to_nat (f_bit f / 8)) (Z.to_nat (sizeof (f_type f)))).
Proof. intros Hf Hb. unfold load. rewrite Hf. cbn [mbind option_bind]. by rewrite Hb. Qed.

Lemma load_store_same xs f v obj : path t xs = Some f → f_bits f = None →
  Z.of_nat (length v) = sizeof (f_type f) → Z.of_nat (length obj) = sizeof t →
  load t xs (store t xs v obj) = Some v.
Proof.
  intros Hf Hb Hv Ho. rewrite (load_bytes xs f) by done.
  destruct (path_bytes t Hwf xs f Hf Hb) as (Hoff & _ & ? & ? & ?).
  unfold store. rewrite Hoff, <- Hv, Nat2Z.id. f_equal. apply slice_splice_same. lia.
Qed.

Lemma load_store_other x xs y ys f g i j v obj : k ≠ AUnion →
  path t (x :: xs) = Some f → path t (y :: ys) = Some g → f_bits f = None → f_bits g = None →
  index_of x ms = Some i → index_of y ms = Some j → i ≠ j →
  Z.of_nat (length v) = sizeof (f_type f) → Z.of_nat (length obj) = sizeof t →
  load t (y :: ys) (store t (x :: xs) v obj) = load t (y :: ys) obj.
Proof.
  intros Hk Hf Hg Hfb Hgb Hi Hj Hij Hv Ho. rewrite !(load_bytes _ g) by done.
  destruct (path_bytes t Hwf _ f Hf Hfb) as (Hoff & Ef & ? & ? & ?).
  destruct (path_bytes t Hwf _ g Hg Hgb) as (_ & Eg & ? & ? & ?).
  assert (Wf : f_width f = 8 * sizeof (f_type f)) by (unfold f_width; by rewrite Hfb).
  assert (Wg : f_width g = 8 * sizeof (f_type g)) by (unfold f_width; by rewrite Hgb).
  unfold store. rewrite Hoff. f_equal. apply slice_splice_other; [lia|].
  destruct (decide (i < j)%nat) as [Hlt|Hge].
  - pose proof (paths_ordered k ms x xs y ys f g i j Hwf Hk Hf Hg Hi Hj Hlt). right. lia.
  - pose proof (paths_ordered k ms y ys x xs g f j i Hwf Hk Hg Hf Hj Hi ltac:(lia)). left. lia.
Qed.

Lemma path_index x xs f : path t (x :: xs) = Some f → is_Some (index_of x ms).
Proof.
  intros Hf. destruct (path_head _ _ _ _ Hwf Hf) as (g & Hg & _). rewrite member_agg in Hg.
  destruct (member_go_index _ _ _ _ _ Hg) as (i & d & t' & b & h & H). exists i. apply H.
Qed.

(** A value of the member's size. *)
Definition fits (xv : string * list Z) : Prop :=
  ∃ f, path t [fst xv] = Some f ∧ f_bits f = None ∧ Z.of_nat (length (snd xv)) = sizeof (f_type f).

Lemma length_set_members vals obj : Forall fits vals → Z.of_nat (length obj) = sizeof t →
  length (set_members t vals obj) = length obj.
Proof.
  intros Hv. revert obj. unfold set_members.
  induction Hv as [|[x v] vals (f & Hf & Hb & Hl) Hv IH]; intros obj Ho; cbn [foldl fst snd]; [done|].
  assert (Hlen : length (store t [x] v obj) = length obj) by (by apply (length_store t Hwf [x] f)).
  rewrite IH; [done|]. by rewrite Hlen.
Qed.

(** After all members were assigned each has its value. *)
Lemma load_set_members vals obj x v : k ≠ AUnion → Forall fits vals →
  NoDup (map (λ xv, index_of (fst xv) ms) vals) → Z.of_nat (length obj) = sizeof t →
  (x, v) ∈ vals → load t [x] (set_members t vals obj) = Some v.
Proof.
  intros Hk. unfold set_members. revert obj.
  induction vals as [|[y w] vals IH] using rev_ind; intros obj Hv Hnd Ho Hin; [by apply not_elem_of_nil in Hin|].
  apply Forall_app in Hv as [Hv Hy]. apply Forall_cons in Hy as [(f & Hf & Hb & Hl) _].
  rewrite map_app, NoDup_app in Hnd. destruct Hnd as (Hnd & Hnot & _).
  rewrite foldl_app. cbn [foldl fst snd] in *.
  assert (Hobj : Z.of_nat (length (set_members t vals obj)) = sizeof t) by (by rewrite length_set_members).
  apply elem_of_app in Hin as [Hin|[= -> ->]%list_elem_of_singleton].
  - rewrite Forall_forall in Hv. destruct (Hv _ Hin) as (g & Hg & Hgb & _). cbn [fst] in Hg.
    destruct (path_index _ _ _ Hf) as [i Hi], (path_index _ _ _ Hg) as [j Hj].
    erewrite (load_store_other y [] x [] f g i j); try done.
    + apply IH; try done. by apply Forall_forall.
    + intros ->. apply (Hnot (Some j)).
      * apply list_elem_of_fmap. exists (x, v). by rewrite <- Hj.
      * apply list_elem_of_singleton. by rewrite <- Hi.
  - by apply (load_store_same [y] f).
Qed.

(** The same as bytes of the object. *)
Lemma slice_set_members vals obj x v o : k ≠ AUnion → Forall fits vals →
  NoDup (map (λ xv, index_of (fst xv) ms) vals) → Z.of_nat (length obj) = sizeof t →
  (x, v) ∈ vals → offsetof t [x] = Some (Z.of_nat o) →
  slice (set_members t vals obj) o (length v) = v.
Proof.
  intros Hk Hv Hnd Ho Hin Hoff.
  pose proof (load_set_members vals obj x v Hk Hv Hnd Ho Hin) as H.
  rewrite Forall_forall in Hv. destruct (Hv _ Hin) as (f & Hf & Hb & Hl). cbn [fst snd] in *.
  rewrite (load_bytes [x] f) in H by done. destruct (path_bytes t Hwf _ f Hf Hb) as (Hof & _).
  assert (f_bit f / 8 = Z.of_nat o) as Eo by congruence.
  rewrite Eo, <- Hl, !Nat2Z.id in H. congruence.
Qed.
End struct_objects.
