(* ===== verification/Vmlinux.v ===== *)
(** * Kernel types (vmlinux.h)

    The structs of the running kernel that the BPF programs read, and all
    types embedded in them, as the header declares them: in declaration
    order of need, under their C names ([file_t] and the like where a tag
    and a typedef share one). *)
From Stdlib Require Import ZArith String.
From stdpp Require Import base list strings.
From S2P Require Import CLayout.
Local Open Scope Z_scope.
Local Open Scope c_scope.

Module Vmlinux.

Definition vfsmount : ctype :=
  c_struct [
    "mnt_root" ∷ CPtr "struct dentry"; "mnt_sb" ∷ CPtr "struct super_block"; "mnt_flags" ∷ c_int;
    "mnt_idmap" ∷ CPtr "struct mnt_idmap"].

Definition hlist_node : ctype :=
  c_struct [ "next" ∷ CPtr "struct hlist_node"; "pprev" ∷ CPtr "struct hlist_node *" ].
Definition rb_node : ctype :=
  c_struct [
    "__rb_parent_color" ∷ c_ulong; "rb_right" ∷ CPtr "struct rb_node";
    "rb_left" ∷ CPtr "struct rb_node"].
Definition callback_head : ctype :=
  c_struct [ "next" ∷ CPtr "struct callback_head"; "func" ∷ CPtr "fn" ].
Definition llist_node : ctype :=
  c_struct [ "next" ∷ CPtr "struct llist_node" ].
Definition list_head : ctype :=
  c_struct [ "next" ∷ CPtr "struct list_head"; "prev" ∷ CPtr "struct list_head" ].
Definition hlist_head : ctype :=
  c_struct [ "first" ∷ CPtr "struct hlist_node" ].
Definition __u32 : ctype := c_uint.
Definition __u64 : ctype := c_ulong.
Definition u64 : ctype := __u64.
Definition mount : ctype :=
  c_struct [
    "mnt_hash" ∷ hlist_node; "mnt_parent" ∷ CPtr "struct mount";
    "mnt_mountpoint" ∷ CPtr "struct dentry"; "mnt" ∷ vfsmount;
    anon (c_union [ "mnt_node" ∷ rb_node; "mnt_rcu" ∷ callback_head; "mnt_llist" ∷ llist_node ]);
    "mnt_pcp" ∷ CPtr "struct mnt_pcp"; "mnt_mounts" ∷ list_head; "mnt_child" ∷ list_head;
    "mnt_next_for_sb" ∷ CPtr "struct mount"; "mnt_pprev_for_sb" ∷ CPtr "struct mount *";
    "mnt_devname" ∷ CPtr "char"; "mnt_list" ∷ list_head; "mnt_expire" ∷ list_head;
    "mnt_share" ∷ list_head; "mnt_slave_list" ∷ hlist_head; "mnt_slave" ∷ hlist_node;
    "mnt_master" ∷ CPtr "struct mount"; "mnt_ns" ∷ CPtr "struct mnt_namespace";
    "mnt_mp" ∷ CPtr "struct mountpoint";
    anon (c_union [ "mnt_mp_list" ∷ hlist_node; "mnt_umount" ∷ hlist_node ]);
    "mnt_fsnotify_marks" ∷ CPtr "struct fsnotify_mark_connector"; "mnt_fsnotify_mask" ∷ __u32;
    "to_notify" ∷ list_head; "prev_ns" ∷ CPtr "struct mnt_namespace"; "mnt_t_flags" ∷ c_int;
    "mnt_id" ∷ c_int; "mnt_id_unique" ∷ u64; "mnt_group_id" ∷ c_int; "mnt_expiry_mark" ∷ c_int;
    "mnt_pins" ∷ hlist_head; "mnt_stuck_children" ∷ hlist_head; "overmount" ∷ CPtr "struct mount"].

Definition seqcount : ctype :=
  c_struct [ "sequence" ∷ c_uint ].
Definition seqcount_t : ctype := seqcount.
Definition seqcount_spinlock : ctype :=
  c_struct [ "seqcount" ∷ seqcount_t ].
Definition seqcount_spinlock_t : ctype := seqcount_spinlock.
Definition hlist_bl_node : ctype :=
  c_struct [ "next" ∷ CPtr "struct hlist_bl_node"; "pprev" ∷ CPtr "struct hlist_bl_node *" ].
Definition u32 : ctype := __u32.
Definition qstr : ctype :=
  c_struct [
    anon (c_union [ anon (c_struct [ "hash" ∷ u32; "len" ∷ u32 ]); "hash_len" ∷ u64 ]);
    "name" ∷ CPtr "unsigned char"].

Definition shortname_store : ctype :=
  c_union [ "string" ∷ CArr 40 c_uchar; "words" ∷ CArr 5 c_ulong ].
Definition atomic_t : ctype :=
  c_struct [ "counter" ∷ c_int ].
Definition __u8 : ctype := c_uchar.
Definition u8 : ctype := __u8.
Definition __u16 : ctype := c_ushort.
Definition u16 : ctype := __u16.
Definition qspinlock : ctype :=
  c_struct [
    anon (c_union [
      "val" ∷ atomic_t; anon (c_struct [ "locked" ∷ u8; "pending" ∷ u8 ]);
      anon (c_struct [ "locked_pending" ∷ u16; "tail" ∷ u16 ])])].
Definition arch_spinlock_t : ctype := qspinlock.
Definition raw_spinlock : ctype :=
  c_struct [ "raw_lock" ∷ arch_spinlock_t ].
Definition spinlock : ctype :=
  c_struct [ anon (c_union [ "rlock" ∷ raw_spinlock ]) ].
Definition spinlock_t : ctype := spinlock.
Definition lockref : ctype :=
  c_struct [
    anon (c_union [
      "lock_count" ∷ __u64; anon (c_struct [ "lock" ∷ spinlock_t; "count" ∷ c_int ])])].
Definition dentry : ctype :=
  c_struct [
    "d_flags" ∷ c_uint; "d_seq" ∷ seqcount_spinlock_t; "d_hash" ∷ hlist_bl_node;
    "d_parent" ∷ CPtr "struct dentry"; anon (c_union [ "__d_name" ∷ qstr; "d_name" ∷ qstr ]);
    "d_inode" ∷ CPtr "struct inode"; "d_shortname" ∷ shortname_store;
    "d_op" ∷ CPtr "struct dentry_operations"; "d_sb" ∷ CPtr "struct super_block";
    "d_time" ∷ c_ulong; "d_fsdata" ∷ CPtr "void"; "d_lockref" ∷ lockref;
    anon (c_union [ "d_lru" ∷ list_head; "d_wait" ∷ CPtr "wait_queue_head_t" ]);
    "d_sib" ∷ hlist_node; "d_children" ∷ hlist_head;
    "d_u" ∷ c_union [
      "d_alias" ∷ hlist_node; "d_in_lookup_hash" ∷ hlist_bl_node; "d_rcu" ∷ callback_head]].

Definition umode_t : ctype := c_ushort.
Definition __kernel_uid32_t : ctype := c_uint.
Definition uid_t : ctype := __kernel_uid32_t.
Definition kuid_t : ctype :=
  c_struct [ "val" ∷ uid_t ].
Definition __kernel_gid32_t : ctype := c_uint.
Definition gid_t : ctype := __kernel_gid32_t.
Definition kgid_t : ctype :=
  c_struct [ "val" ∷ gid_t ].
Definition __kernel_dev_t : ctype := u32.
Definition dev_t : ctype := __kernel_dev_t.
Definition __kernel_loff_t : ctype := c_long.
Definition loff_t : ctype := __kernel_loff_t.
Definition __s64 : ctype := c_long.
Definition time64_t : ctype := __s64.
Definition rw_hint : ctype := c_uchar.
Definition blkcnt_t : ctype := u64.
Definition inode_state_flags_enum : ctype := c_enum.
Definition inode_state_flags : ctype :=
  c_struct [ "__state" ∷ inode_state_flags_enum ].
Definition s64 : ctype := __s64.
Definition atomic64_t : ctype :=
  c_struct [ "counter" ∷ s64 ].
Definition atomic_long_t : ctype := atomic64_t.
Definition optimistic_spin_queue : ctype :=
  c_struct [ "tail" ∷ atomic_t ].
Definition raw_spinlock_t : ctype := raw_spinlock.
Definition rw_semaphore : ctype :=
  c_struct [
    "count" ∷ atomic_long_t; "owner" ∷ atomic_long_t; "osq" ∷ optimistic_spin_queue;
    "wait_lock" ∷ raw_spinlock_t; "wait_list" ∷ list_head].
Definition gfp_t : ctype := c_uint.
Definition xarray : ctype :=
  c_struct [ "xa_lock" ∷ spinlock_t; "xa_flags" ∷ gfp_t; "xa_head" ∷ CPtr "void" ].
Definition rb_root : ctype :=
  c_struct [ "rb_node" ∷ CPtr "struct rb_node" ].
Definition rb_root_cached : ctype :=
  c_struct [ "rb_root" ∷ rb_root; "rb_leftmost" ∷ CPtr "struct rb_node" ].
Definition errseq_t : ctype := u32.
Definition address_space : ctype :=
  c_struct [
    "host" ∷ CPtr "struct inode"; "i_pages" ∷ xarray; "invalidate_lock" ∷ rw_semaphore;
    "gfp_mask" ∷ gfp_t; "i_mmap_writable" ∷ atomic_t; "i_mmap" ∷ rb_root_cached;
    "nrpages" ∷ c_ulong; "writeback_index" ∷ c_ulong;
    "a_ops" ∷ CPtr "struct address_space_operations"; "flags" ∷ c_ulong; "wb_err" ∷ errseq_t;
    "i_private_lock" ∷ spinlock_t; "i_private_list" ∷ list_head; "i_mmap_rwsem" ∷ rw_semaphore;
    "i_private_data" ∷ CPtr "void"].
Definition inode : ctype :=
  c_struct [
    "i_mode" ∷ umode_t; "i_opflags" ∷ c_ushort; "i_flags" ∷ c_uint;
    "i_acl" ∷ CPtr "struct posix_acl"; "i_default_acl" ∷ CPtr "struct posix_acl"; "i_uid" ∷ kuid_t;
    "i_gid" ∷ kgid_t; "i_op" ∷ CPtr "struct inode_operations"; "i_sb" ∷ CPtr "struct super_block";
    "i_mapping" ∷ CPtr "struct address_space"; "i_security" ∷ CPtr "void"; "i_ino" ∷ c_ulong;
    anon (c_union [ "i_nlink" ∷ c_uint; "__i_nlink" ∷ c_uint ]); "i_rdev" ∷ dev_t;
    "i_size" ∷ loff_t; "i_atime_sec" ∷ time64_t; "i_mtime_sec" ∷ time64_t; "i_ctime_sec" ∷ time64_t;
    "i_atime_nsec" ∷ u32; "i_mtime_nsec" ∷ u32; "i_ctime_nsec" ∷ u32; "i_generation" ∷ u32;
    "i_lock" ∷ spinlock_t; "i_bytes" ∷ c_ushort; "i_blkbits" ∷ u8; "i_write_hint" ∷ rw_hint;
    "i_blocks" ∷ blkcnt_t; "i_state" ∷ inode_state_flags; "i_rwsem" ∷ rw_semaphore;
    "dirtied_when" ∷ c_ulong; "dirtied_time_when" ∷ c_ulong; "i_hash" ∷ hlist_node;
    "i_io_list" ∷ list_head; "i_wb" ∷ CPtr "struct bdi_writeback"; "i_wb_frn_winner" ∷ c_int;
    "i_wb_frn_avg_time" ∷ u16; "i_wb_frn_history" ∷ u16; "i_lru" ∷ list_head;
    "i_sb_list" ∷ list_head; "i_wb_list" ∷ list_head;
    anon (c_union [ "i_dentry" ∷ hlist_head; "i_rcu" ∷ callback_head ]); "i_version" ∷ atomic64_t;
    "i_sequence" ∷ atomic64_t; "i_count" ∷ atomic_t; "i_dio_count" ∷ atomic_t;
    "i_writecount" ∷ atomic_t; "i_readcount" ∷ atomic_t;
    anon (c_union [ "i_fop" ∷ CPtr "struct file_operations"; "free_inode" ∷ CPtr "fn" ]);
    "i_flctx" ∷ CPtr "struct file_lock_context"; "i_data" ∷ address_space;
    anon (c_union [ "i_devices" ∷ list_head; "i_linklen" ∷ c_int ]);
    anon (c_union [
      "i_pipe" ∷ CPtr "struct pipe_inode_info"; "i_cdev" ∷ CPtr "struct cdev";
      "i_link" ∷ CPtr "char"; "i_dir_seq" ∷ c_uint]);
    "i_fsnotify_mask" ∷ __u32; "i_fsnotify_marks" ∷ CPtr "struct fsnotify_mark_connector";
    "i_private" ∷ CPtr "void"].

Definition hlist_bl_head : ctype :=
  c_struct [ "first" ∷ CPtr "struct hlist_bl_node" ].
Definition qsize_t : ctype := c_long.
Definition mem_dqinfo : ctype :=
  c_struct [
    "dqi_format" ∷ CPtr "struct quota_format_type"; "dqi_fmt_id" ∷ c_int;
    "dqi_dirty_list" ∷ list_head; "dqi_flags" ∷ c_ulong; "dqi_bgrace" ∷ c_uint;
    "dqi_igrace" ∷ c_uint; "dqi_max_spc_limit" ∷ qsize_t; "dqi_max_ino_limit" ∷ qsize_t;
    "dqi_priv" ∷ CPtr "void"].
Definition quota_info : ctype :=
  c_struct [
    "flags" ∷ c_uint; "dqio_sem" ∷ rw_semaphore; "files" ∷ CArr 3 (CPtr "struct inode");
    "info" ∷ CArr 3 mem_dqinfo; "ops" ∷ CArr 3 (CPtr "struct quota_format_ops")].
Definition wait_queue_head : ctype :=
  c_struct [ "lock" ∷ spinlock_t; "head" ∷ list_head ].
Definition wait_queue_head_t : ctype := wait_queue_head.
Definition rcu_sync : ctype :=
  c_struct [
    "gp_state" ∷ c_int; "gp_count" ∷ c_int; "gp_wait" ∷ wait_queue_head_t; "cb_head" ∷ callback_head].
Definition rcuwait : ctype :=
  c_struct [ "task" ∷ CPtr "struct task_struct" ].
Definition percpu_rw_semaphore : ctype :=
  c_struct [
    "rss" ∷ rcu_sync; "read_count" ∷ CPtr "unsigned int"; "writer" ∷ rcuwait;
    "waiters" ∷ wait_queue_head_t; "block" ∷ atomic_t].
Definition sb_writers : ctype :=
  c_struct [
    "frozen" ∷ c_ushort; "freeze_kcount" ∷ c_int; "freeze_ucount" ∷ c_int;
    "freeze_owner" ∷ CPtr "void"; "rw_sem" ∷ CArr 3 percpu_rw_semaphore].
Definition uuid_t : ctype :=
  c_struct [ "b" ∷ CArr 16 __u8 ].
Definition mutex : ctype :=
  c_struct [
    "owner" ∷ atomic_long_t; "wait_lock" ∷ raw_spinlock_t; "osq" ∷ optimistic_spin_queue;
    "wait_list" ∷ list_head].
Definition list_lru : ctype :=
  c_struct [
    "node" ∷ CPtr "struct list_lru_node"; "list" ∷ list_head; "shrinker_id" ∷ c_int;
    "memcg_aware" ∷ c_bool; "xa" ∷ xarray].
Definition work_func_t : ctype := CPtr "fn".
Definition work_struct : ctype :=
  c_struct [ "data" ∷ atomic_long_t; "entry" ∷ list_head; "func" ∷ work_func_t ].
Definition refcount_struct : ctype :=
  c_struct [ "refs" ∷ atomic_t ].
Definition refcount_t : ctype := refcount_struct.
Definition super_block : ctype :=
  c_struct [
    "s_list" ∷ list_head; "s_dev" ∷ dev_t; "s_blocksize_bits" ∷ c_uchar; "s_blocksize" ∷ c_ulong;
    "s_maxbytes" ∷ loff_t; "s_type" ∷ CPtr "struct file_system_type";
    "s_op" ∷ CPtr "struct super_operations"; "dq_op" ∷ CPtr "struct dquot_operations";
    "s_qcop" ∷ CPtr "struct quotactl_ops"; "s_export_op" ∷ CPtr "struct export_operations";
    "s_flags" ∷ c_ulong; "s_iflags" ∷ c_ulong; "s_magic" ∷ c_ulong; "s_root" ∷ CPtr "struct dentry";
    "s_umount" ∷ rw_semaphore; "s_count" ∷ c_int; "s_active" ∷ atomic_t; "s_security" ∷ CPtr "void";
    "s_xattr" ∷ CPtr "struct xattr_handler *"; "s_cop" ∷ CPtr "struct fscrypt_operations";
    "s_master_keys" ∷ CPtr "struct fscrypt_keyring"; "s_vop" ∷ CPtr "struct fsverity_operations";
    "s_encoding" ∷ CPtr "struct unicode_map"; "s_encoding_flags" ∷ __u16; "s_roots" ∷ hlist_bl_head;
    "s_mounts" ∷ CPtr "struct mount"; "s_bdev" ∷ CPtr "struct block_device";
    "s_bdev_file" ∷ CPtr "struct file"; "s_bdi" ∷ CPtr "struct backing_dev_info";
    "s_mtd" ∷ CPtr "struct mtd_info"; "s_instances" ∷ hlist_node; "s_quota_types" ∷ c_uint;
    "s_dquot" ∷ quota_info; "s_writers" ∷ sb_writers; "s_fs_info" ∷ CPtr "void";
    "s_time_gran" ∷ u32; "s_time_min" ∷ time64_t; "s_time_max" ∷ time64_t; "s_fsnotify_mask" ∷ u32;
    "s_fsnotify_info" ∷ CPtr "struct fsnotify_sb_info"; "s_id" ∷ CArr 32 c_char; "s_uuid" ∷ uuid_t;
    "s_uuid_len" ∷ u8; "s_sysfs_name" ∷ CArr 37 c_char; "s_max_links" ∷ c_uint;
    "s_d_flags" ∷ c_uint; "s_vfs_rename_mutex" ∷ mutex; "s_subtype" ∷ CPtr "char";
    "__s_d_op" ∷ CPtr "struct dentry_operations"; "s_shrink" ∷ CPtr "struct shrinker";
    "s_remove_count" ∷ atomic_long_t; "s_readonly_remount" ∷ c_int; "s_wb_err" ∷ errseq_t;
    "s_dio_done_wq" ∷ CPtr "struct workqueue_struct"; "s_pins" ∷ hlist_head;
    "s_user_ns" ∷ CPtr "struct user_namespace"; "s_dentry_lru" ∷ list_lru; "s_inode_lru" ∷ list_lru;
    "rcu" ∷ callback_head; "destroy_work" ∷ work_struct; "s_sync_lock" ∷ mutex;
    "s_stack_depth" ∷ c_int; bits "" c_long 64; "s_inode_list_lock" ∷ spinlock_t;
    "s_inodes" ∷ list_head; "s_inode_wblist_lock" ∷ spinlock_t; "s_inodes_wb" ∷ list_head;
    "s_min_writeback_pages" ∷ c_long; "s_pending_errors" ∷ refcount_t].

Definition path : ctype :=
  c_struct [ "mnt" ∷ CPtr "struct vfsmount"; "dentry" ∷ CPtr "struct dentry" ].

Definition fmode_t : ctype := c_uint.
Definition file_ra_state : ctype :=
  c_struct [
    "start" ∷ c_ulong; "size" ∷ c_uint; "async_size" ∷ c_uint; "ra_pages" ∷ c_uint;
    "order" ∷ c_ushort; "mmap_miss" ∷ c_ushort; "prev_pos" ∷ loff_t].
Definition freeptr_t : ctype :=
  c_struct [ "v" ∷ c_ulong ].
Definition file_ref_t : ctype :=
  c_struct [ "refcnt" ∷ atomic64_t ].
Definition file : ctype :=
  c_struct [
    "f_lock" ∷ spinlock_t; "f_mode" ∷ fmode_t; "f_op" ∷ CPtr "struct file_operations";
    "f_mapping" ∷ CPtr "struct address_space"; "private_data" ∷ CPtr "void";
    "f_inode" ∷ CPtr "struct inode"; "f_flags" ∷ c_uint; "f_iocb_flags" ∷ c_uint;
    "f_cred" ∷ CPtr "struct cred"; "f_owner" ∷ CPtr "struct fown_struct";
    anon (c_union [ "f_path" ∷ path; "__f_path" ∷ path ]);
    anon (c_union [ "f_pos_lock" ∷ mutex; "f_pipe" ∷ u64 ]); "f_pos" ∷ loff_t;
    "f_security" ∷ CPtr "void"; "f_wb_err" ∷ errseq_t; "f_sb_err" ∷ errseq_t;
    "f_ep" ∷ CPtr "struct hlist_head";
    anon (c_union [
      "f_task_work" ∷ callback_head; "f_llist" ∷ llist_node; "f_ra" ∷ file_ra_state;
      "f_freeptr" ∷ freeptr_t]);
    "f_ref" ∷ file_ref_t].

Definition fdtable : ctype :=
  c_struct [
    "max_fds" ∷ c_uint; "fd" ∷ CPtr "struct file *"; "close_on_exec" ∷ CPtr "long unsigned int";
    "open_fds" ∷ CPtr "long unsigned int"; "full_fds_bits" ∷ CPtr "long unsigned int";
    "rcu" ∷ callback_head].

Definition files_struct : ctype :=
  c_struct [
    "count" ∷ atomic_t; "resize_in_progress" ∷ c_bool; "resize_wait" ∷ wait_queue_head_t;
    "fdt" ∷ CPtr "struct fdtable"; "fdtab" ∷ fdtable; bits "" c_long 64; bits "" c_long 64;
    bits "" c_long 64; bits "" c_long 64; "file_lock" ∷ spinlock_t; "next_fd" ∷ c_uint;
    "close_on_exec_init" ∷ CArr 1 c_ulong; "open_fds_init" ∷ CArr 1 c_ulong;
    "full_fds_bits_init" ∷ CArr 1 c_ulong; "fd_array" ∷ CArr 64 (CPtr "struct file");
    bits "" c_long 64; bits "" c_long 64; bits "" c_long 64; bits "" c_long 64].

Definition seqlock : ctype :=
  c_struct [ "seqcount" ∷ seqcount_spinlock_t; "lock" ∷ spinlock_t ].
Definition seqlock_t : ctype := seqlock.
Definition fs_struct : ctype :=
  c_struct [
    "users" ∷ c_int; "seq" ∷ seqlock_t; "umask" ∷ c_int; "in_exec" ∷ c_int; "root" ∷ path;
    "pwd" ∷ path].

Definition maple_tree : ctype :=
  c_struct [
    anon (c_union [ "ma_lock" ∷ spinlock_t ]); "ma_flags" ∷ c_uint; "ma_root" ∷ CPtr "void"].
Definition __call_single_node : ctype :=
  c_struct [
    "llist" ∷ llist_node; anon (c_union [ "u_flags" ∷ c_uint; "a_flags" ∷ atomic_t ]); "src" ∷ u16;
    "dst" ∷ u16].
Definition irq_work : ctype :=
  c_struct [ "node" ∷ __call_single_node; "func" ∷ CPtr "fn"; "irqwait" ∷ rcuwait ].
Definition mm_mm_cid : ctype :=
  c_struct [
    "pcpu" ∷ CPtr "struct mm_cid_pcpu"; "mode" ∷ c_uint; "max_cids" ∷ c_uint; "irq_work" ∷ irq_work;
    "work" ∷ work_struct; "lock" ∷ raw_spinlock_t; "mutex" ∷ mutex; "user_list" ∷ hlist_head;
    "nr_cpus_allowed" ∷ c_uint; "users" ∷ c_uint; "pcpu_thrs" ∷ c_uint; "update_deferred" ∷ c_uint;
    bits "" c_long 64; bits "" c_long 64; bits "" c_long 64; bits "" c_long 64; bits "" c_long 64;
    bits "" c_long 64].
Definition vm_flags_t : ctype := c_ulong.
Definition percpu_counter : ctype :=
  c_struct [
    "lock" ∷ raw_spinlock_t; "count" ∷ s64; "list" ∷ list_head; "counters" ∷ CPtr "s32"].
Definition __s16 : ctype := c_short.
Definition s16 : ctype := __s16.
Definition mm_context_t : ctype :=
  c_struct [
    "ctx_id" ∷ u64; "tlb_gen" ∷ atomic64_t; "next_trim_cpumask" ∷ c_ulong;
    "ldt_usr_sem" ∷ rw_semaphore; "ldt" ∷ CPtr "struct ldt_struct"; "flags" ∷ c_ulong;
    "lock" ∷ mutex; "vdso" ∷ CPtr "void"; "vdso_image" ∷ CPtr "struct vdso_image";
    "perf_rdpmc_allowed" ∷ atomic_t; "pkey_allocation_map" ∷ u16; "execute_only_pkey" ∷ s16;
    "global_asid" ∷ u16; "asid_transition" ∷ c_bool].
Definition mm_flags_t : ctype :=
  c_struct [ "__mm_flags" ∷ CArr 1 c_ulong ].
Definition uprobes_state : ctype :=
  c_struct [ "xol_area" ∷ CPtr "struct xol_area"; "head_tramps" ∷ hlist_head ].
Definition mm_id_t : ctype := c_uint.
Definition mm_struct : ctype :=
  c_struct [
    anon (c_struct [
      anon (c_struct [
        "mm_count" ∷ atomic_t; bits "" c_long 64; bits "" c_long 64; bits "" c_long 64;
        bits "" c_long 64; bits "" c_long 64; bits "" c_long 64; bits "" c_long 64]);
      "mm_mt" ∷ maple_tree; "mmap_base" ∷ c_ulong; "mmap_legacy_base" ∷ c_ulong;
      "mmap_compat_base" ∷ c_ulong; "mmap_compat_legacy_base" ∷ c_ulong; "task_size" ∷ c_ulong;
      "pgd" ∷ CPtr "pgd_t"; "membarrier_state" ∷ atomic_t; "mm_users" ∷ atomic_t; bits "" c_long 64;
      bits "" c_long 64; bits "" c_long 64; bits "" c_long 64; bits "" c_long 64; bits "" c_long 64;
      bits "" c_long 64; "mm_cid" ∷ mm_mm_cid; "pgtables_bytes" ∷ atomic_long_t;
      "map_count" ∷ c_int; "page_table_lock" ∷ spinlock_t; "mmap_lock" ∷ rw_semaphore;
      "mmlist" ∷ list_head; "vma_writer_wait" ∷ rcuwait; "mm_lock_seq" ∷ seqcount_t;
      "futex_hash_lock" ∷ mutex; "futex_phash" ∷ CPtr "struct futex_private_hash";
      "futex_phash_new" ∷ CPtr "struct futex_private_hash"; "futex_batches" ∷ c_ulong;
      "futex_rcu" ∷ callback_head; "futex_atomic" ∷ atomic_long_t;
      "futex_ref" ∷ CPtr "unsigned int"; "hiwater_rss" ∷ c_ulong; "hiwater_vm" ∷ c_ulong;
      "total_vm" ∷ c_ulong; "locked_vm" ∷ c_ulong; "pinned_vm" ∷ atomic64_t; "data_vm" ∷ c_ulong;
      "exec_vm" ∷ c_ulong; "stack_vm" ∷ c_ulong; "def_flags" ∷ vm_flags_t;
      "write_protect_seq" ∷ seqcount_t; "arg_lock" ∷ spinlock_t; "start_code" ∷ c_ulong;
      "end_code" ∷ c_ulong; "start_data" ∷ c_ulong; "end_data" ∷ c_ulong; "start_brk" ∷ c_ulong;
      "brk" ∷ c_ulong; "start_stack" ∷ c_ulong; "arg_start" ∷ c_ulong; "arg_end" ∷ c_ulong;
      "env_start" ∷ c_ulong; "env_end" ∷ c_ulong; "saved_auxv" ∷ CArr 56 c_ulong;
      "rss_stat" ∷ CArr 4 percpu_counter; "binfmt" ∷ CPtr "struct linux_binfmt";
      "context" ∷ mm_context_t; "flags" ∷ mm_flags_t; "ioctx_lock" ∷ spinlock_t;
      "ioctx_table" ∷ CPtr "struct kioctx_table"; "owner" ∷ CPtr "struct task_struct";
      "user_ns" ∷ CPtr "struct user_namespace"; "exe_file" ∷ CPtr "struct file";
      "notifier_subscriptions" ∷ CPtr "struct mmu_notifier_subscriptions";
      "numa_next_scan" ∷ c_ulong; "numa_scan_offset" ∷ c_ulong; "numa_scan_seq" ∷ c_int;
      "tlb_flush_pending" ∷ atomic_t; "tlb_flush_batched" ∷ atomic_t;
      "uprobes_state" ∷ uprobes_state; "hugetlb_usage" ∷ atomic_long_t;
      "async_put_work" ∷ work_struct; "iommu_mm" ∷ CPtr "struct iommu_mm_data";
      "ksm_merging_pages" ∷ c_ulong; "ksm_rmap_items" ∷ c_ulong; "ksm_zero_pages" ∷ atomic_long_t;
      "lru_gen" ∷ c_struct [
        "list" ∷ list_head; "bitmap" ∷ c_ulong; "memcg" ∷ CPtr "struct mem_cgroup"];
      "mm_id" ∷ mm_id_t; bits "" c_long 64; bits "" c_long 64; bits "" c_long 64]);
    "flexible_array" ∷ CArr 0 c_char].

Definition kernel_cap_t : ctype :=
  c_struct [ "val" ∷ u64 ].
Definition cred : ctype :=
  c_struct [
    "usage" ∷ atomic_long_t; "uid" ∷ kuid_t; "gid" ∷ kgid_t; "suid" ∷ kuid_t; "sgid" ∷ kgid_t;
    "euid" ∷ kuid_t; "egid" ∷ kgid_t; "fsuid" ∷ kuid_t; "fsgid" ∷ kgid_t; "securebits" ∷ c_uint;
    "cap_inheritable" ∷ kernel_cap_t; "cap_permitted" ∷ kernel_cap_t;
    "cap_effective" ∷ kernel_cap_t; "cap_bset" ∷ kernel_cap_t; "cap_ambient" ∷ kernel_cap_t;
    "jit_keyring" ∷ c_uchar; "session_keyring" ∷ CPtr "struct key";
    "process_keyring" ∷ CPtr "struct key"; "thread_keyring" ∷ CPtr "struct key";
    "request_key_auth" ∷ CPtr "struct key"; "security" ∷ CPtr "void";
    "user" ∷ CPtr "struct user_struct"; "user_ns" ∷ CPtr "struct user_namespace";
    "ucounts" ∷ CPtr "struct ucounts"; "group_info" ∷ CPtr "struct group_info";
    anon (c_union [ "non_rcu" ∷ c_int; "rcu" ∷ callback_head ])].

Definition thread_info : ctype :=
  c_struct [ "flags" ∷ c_ulong; "syscall_work" ∷ c_ulong; "status" ∷ u32; "cpu" ∷ u32 ].
Definition load_weight : ctype :=
  c_struct [ "weight" ∷ c_ulong; "inv_weight" ∷ u32 ].
Definition sched_avg : ctype :=
  c_struct [
    "last_update_time" ∷ u64; "load_sum" ∷ u64; "runnable_sum" ∷ u64; "util_sum" ∷ u32;
    "period_contrib" ∷ u32; "load_avg" ∷ c_ulong; "runnable_avg" ∷ c_ulong; "util_avg" ∷ c_ulong;
    "util_est" ∷ c_uint].
Definition sched_entity : ctype :=
  c_struct [
    "load" ∷ load_weight; "run_node" ∷ rb_node; "deadline" ∷ u64; "min_vruntime" ∷ u64;
    "min_slice" ∷ u64; "max_slice" ∷ u64; "group_node" ∷ list_head; "on_rq" ∷ c_uchar;
    "sched_delayed" ∷ c_uchar; "rel_deadline" ∷ c_uchar; "custom_slice" ∷ c_uchar;
    "exec_start" ∷ u64; "sum_exec_runtime" ∷ u64; "prev_sum_exec_runtime" ∷ u64; "vruntime" ∷ u64;
    "vlag" ∷ s64; "vprot" ∷ u64; "slice" ∷ u64; "nr_migrations" ∷ u64; "depth" ∷ c_int;
    "parent" ∷ CPtr "struct sched_entity"; "cfs_rq" ∷ CPtr "struct cfs_rq";
    "my_q" ∷ CPtr "struct cfs_rq"; "runnable_weight" ∷ c_ulong; bits "" c_long 64;
    bits "" c_long 64; bits "" c_long 64; bits "" c_long 64; bits "" c_long 64; bits "" c_long 64;
    bits "" c_long 64; "avg" ∷ sched_avg].
Definition sched_rt_entity : ctype :=
  c_struct [
    "run_list" ∷ list_head; "timeout" ∷ c_ulong; "watchdog_stamp" ∷ c_ulong; "time_slice" ∷ c_uint;
    "on_rq" ∷ c_ushort; "on_list" ∷ c_ushort; "back" ∷ CPtr "struct sched_rt_entity"].
Definition ktime_t : ctype := s64.
Definition timerqueue_node : ctype :=
  c_struct [ "node" ∷ rb_node; "expires" ∷ ktime_t ].
Definition hrtimer : ctype :=
  c_struct [
    "node" ∷ timerqueue_node; "_softexpires" ∷ ktime_t; "function" ∷ CPtr "fn";
    "base" ∷ CPtr "struct hrtimer_clock_base"; "state" ∷ u8; "is_rel" ∷ u8; "is_soft" ∷ u8;
    "is_hard" ∷ u8].
Definition dl_server_pick_f : ctype := CPtr "fn".
Definition sched_dl_entity : ctype :=
  c_struct [
    "rb_node" ∷ rb_node; "dl_runtime" ∷ u64; "dl_deadline" ∷ u64; "dl_period" ∷ u64; "dl_bw" ∷ u64;
    "dl_density" ∷ u64; "runtime" ∷ s64; "deadline" ∷ u64; "flags" ∷ c_uint;
    bits "dl_throttled" c_uint 1; bits "dl_yielded" c_uint 1; bits "dl_non_contending" c_uint 1;
    bits "dl_overrun" c_uint 1; bits "dl_server" c_uint 1; bits "dl_server_active" c_uint 1;
    bits "dl_defer" c_uint 1; bits "dl_defer_armed" c_uint 1; bits "dl_defer_running" c_uint 1;
    bits "dl_defer_idle" c_uint 1; "dl_timer" ∷ hrtimer; "inactive_timer" ∷ hrtimer;
    "rq" ∷ CPtr "struct rq"; "server_pick_task" ∷ dl_server_pick_f;
    "pi_se" ∷ CPtr "struct sched_dl_entity"].
Definition scx_dsq_list_node : ctype :=
  c_struct [ "node" ∷ list_head; "flags" ∷ u32; "priv" ∷ u32 ].
Definition __s32 : ctype := c_int.
Definition s32 : ctype := __s32.
Definition sched_ext_entity : ctype :=
  c_struct [
    "dsq" ∷ CPtr "struct scx_dispatch_q"; "dsq_list" ∷ scx_dsq_list_node; "dsq_priq" ∷ rb_node;
    "dsq_seq" ∷ u32; "dsq_flags" ∷ u32; "flags" ∷ u32; "weight" ∷ u32; "sticky_cpu" ∷ s32;
    "holding_cpu" ∷ s32; "selected_cpu" ∷ s32; "kf_mask" ∷ u32;
    "kf_tasks" ∷ CArr 2 (CPtr "struct task_struct"); "ops_state" ∷ atomic_long_t;
    "runnable_node" ∷ list_head; "runnable_at" ∷ c_ulong; "ddsp_dsq_id" ∷ u64;
    "ddsp_enq_flags" ∷ u64; "slice" ∷ u64; "dsq_vtime" ∷ u64; "disallow" ∷ c_bool;
    "cgrp_moving_from" ∷ CPtr "struct cgroup"; "tasks_node" ∷ list_head].
Definition uclamp_se : ctype :=
  c_struct [
    bits "value" c_uint 11; bits "bucket_id" c_uint 3; bits "active" c_uint 1;
    bits "user_defined" c_uint 1].
Definition sched_statistics : ctype :=
  c_struct [
    "wait_start" ∷ u64; "wait_max" ∷ u64; "wait_count" ∷ u64; "wait_sum" ∷ u64;
    "iowait_count" ∷ u64; "iowait_sum" ∷ u64; "sleep_start" ∷ u64; "sleep_max" ∷ u64;
    "sum_sleep_runtime" ∷ s64; "block_start" ∷ u64; "block_max" ∷ u64; "sum_block_runtime" ∷ s64;
    "exec_max" ∷ s64; "slice_max" ∷ u64; "nr_migrations_cold" ∷ u64;
    "nr_failed_migrations_affine" ∷ u64; "nr_failed_migrations_running" ∷ u64;
    "nr_failed_migrations_hot" ∷ u64; "nr_forced_migrations" ∷ u64; "nr_wakeups" ∷ u64;
    "nr_wakeups_sync" ∷ u64; "nr_wakeups_migrate" ∷ u64; "nr_wakeups_local" ∷ u64;
    "nr_wakeups_remote" ∷ u64; "nr_wakeups_affine" ∷ u64; "nr_wakeups_affine_attempts" ∷ u64;
    "nr_wakeups_passive" ∷ u64; "nr_wakeups_idle" ∷ u64; bits "" c_long 64; bits "" c_long 64;
    bits "" c_long 64; bits "" c_long 64].
Definition cpumask : ctype :=
  c_struct [ "bits" ∷ CArr 128 c_ulong ].
Definition cpumask_t : ctype := cpumask.
Definition rcu_special : ctype :=
  c_union [
    "b" ∷ c_struct [ "blocked" ∷ u8; "need_qs" ∷ u8; "exp_hint" ∷ u8; "need_mb" ∷ u8 ]; "s" ∷ u32].
Definition timespec64 : ctype :=
  c_struct [ "tv_sec" ∷ time64_t; "tv_nsec" ∷ c_long ].
Definition sched_info : ctype :=
  c_struct [
    "pcount" ∷ c_ulong; "run_delay" ∷ c_ulong; "max_run_delay" ∷ c_ulong; "min_run_delay" ∷ c_ulong;
    "last_arrival" ∷ c_ulong; "last_queued" ∷ c_ulong; "max_run_delay_ts" ∷ timespec64].
Definition plist_node : ctype :=
  c_struct [ "prio" ∷ c_int; "prio_list" ∷ list_head; "node_list" ∷ list_head ].
Definition __kernel_clockid_t : ctype := c_int.
Definition clockid_t : ctype := __kernel_clockid_t.
Definition timespec_type : ctype := c_enum.
Definition restart_block : ctype :=
  c_struct [
    "arch_data" ∷ c_ulong; "fn" ∷ CPtr "fn";
    anon (c_union [
      "futex" ∷ c_struct [
        "uaddr" ∷ CPtr "u32"; "val" ∷ u32; "flags" ∷ u32; "bitset" ∷ u32; "time" ∷ ktime_t;
        "uaddr2" ∷ CPtr "u32"];
      "nanosleep" ∷ c_struct [
        "clockid" ∷ clockid_t; "type" ∷ timespec_type;
        anon (c_union [
          "rmtp" ∷ CPtr "struct __kernel_timespec"; "compat_rmtp" ∷ CPtr "struct old_timespec32"]);
        "expires" ∷ ktime_t];
      "poll" ∷ c_struct [
        "ufds" ∷ CPtr "struct pollfd"; "nfds" ∷ c_int; "has_timeout" ∷ c_int;
        "end_time" ∷ timespec64]])].
Definition __kernel_pid_t : ctype := c_int.
Definition pid_t : ctype := __kernel_pid_t.
Definition prev_cputime : ctype :=
  c_struct [ "utime" ∷ u64; "stime" ∷ u64; "lock" ∷ raw_spinlock_t ].
Definition vtime_state : ctype := c_enum.
Definition vtime : ctype :=
  c_struct [
    "seqcount" ∷ seqcount_t; "starttime" ∷ c_ulong; "state" ∷ vtime_state; "cpu" ∷ c_uint;
    "utime" ∷ u64; "stime" ∷ u64; "gtime" ∷ u64].
Definition timerqueue_head : ctype :=
  c_struct [ "rb_root" ∷ rb_root_cached ].
Definition posix_cputimer_base : ctype :=
  c_struct [ "nextevt" ∷ u64; "tqhead" ∷ timerqueue_head ].
Definition posix_cputimers : ctype :=
  c_struct [
    "bases" ∷ CArr 3 posix_cputimer_base; "timers_active" ∷ c_uint; "expiry_active" ∷ c_uint].
Definition posix_cputimers_work : ctype :=
  c_struct [ "work" ∷ callback_head; "mutex" ∷ mutex; "scheduled" ∷ c_uint ].
Definition sysv_sem : ctype :=
  c_struct [ "undo_list" ∷ CPtr "struct sem_undo_list" ].
Definition sysv_shm : ctype :=
  c_struct [ "shm_clist" ∷ list_head ].
Definition sigset_t : ctype :=
  c_struct [ "sig" ∷ CArr 1 c_ulong ].
Definition sigpending : ctype :=
  c_struct [ "list" ∷ list_head; "signal" ∷ sigset_t ].
Definition __kernel_ulong_t : ctype := c_ulong.
Definition __kernel_size_t : ctype := __kernel_ulong_t.
Definition size_t : ctype := __kernel_size_t.
Definition seccomp : ctype :=
  c_struct [
    "mode" ∷ c_int; "filter_count" ∷ atomic_t; "filter" ∷ CPtr "struct seccomp_filter"].
Definition syscall_user_dispatch : ctype :=
  c_struct [
    "selector" ∷ CPtr "char"; "offset" ∷ c_ulong; "len" ∷ c_ulong; "on_dispatch" ∷ c_bool].
Definition wake_q_node : ctype :=
  c_struct [ "next" ∷ CPtr "struct wake_q_node" ].
Definition task_io_accounting : ctype :=
  c_struct [
    "rchar" ∷ u64; "wchar" ∷ u64; "syscr" ∷ u64; "syscw" ∷ u64; "read_bytes" ∷ u64;
    "write_bytes" ∷ u64; "cancelled_write_bytes" ∷ u64].
Definition nodemask_t : ctype :=
  c_struct [ "bits" ∷ CArr 16 c_ulong ].
Definition rseq_event : ctype :=
  c_struct [
    anon (c_union [
      "all" ∷ u64;
      anon (c_struct [
        anon (c_union [
          "events" ∷ u32;
          anon (c_struct [ "sched_switch" ∷ u8; "ids_changed" ∷ u8; "user_irq" ∷ u8 ])]);
        "has_rseq" ∷ u8; "__pad" ∷ u8;
        anon (c_union [ "error" ∷ u16; anon (c_struct [ "fatal" ∷ u8; "slowpath" ∷ u8 ]) ])])])].
Definition rseq_ids : ctype :=
  c_struct [
    anon (c_union [ "cpu_cid" ∷ u64; anon (c_struct [ "cpu_id" ∷ u32; "mm_cid" ∷ u32 ]) ]);
    "node_id" ∷ u32].
Definition rseq_data : ctype :=
  c_struct [
    "usrptr" ∷ CPtr "struct rseq"; "len" ∷ u32; "sig" ∷ u32; "event" ∷ rseq_event; "ids" ∷ rseq_ids].
Definition sched_mm_cid : ctype :=
  c_struct [ "active" ∷ c_uint; "cid" ∷ c_uint; "node" ∷ hlist_node ].
Definition arch_tlbflush_unmap_batch : ctype :=
  c_struct [ "cpumask" ∷ cpumask; "unmapped_pages" ∷ c_bool ].
Definition tlbflush_unmap_batch : ctype :=
  c_struct [
    "arch" ∷ arch_tlbflush_unmap_batch; "flush_required" ∷ c_bool; "writable" ∷ c_bool].
Definition page_frag : ctype :=
  c_struct [ "page" ∷ CPtr "struct page"; "offset" ∷ __u32; "size" ∷ __u32 ].
Definition lazy_mmu_state : ctype :=
  c_struct [ "enable_count" ∷ u8; "pause_count" ∷ u8 ].
Definition kmap_ctrl : ctype :=
  c_struct [].
Definition timer_list : ctype :=
  c_struct [
    "entry" ∷ hlist_node; "expires" ∷ c_ulong; "function" ∷ CPtr "fn"; "flags" ∷ u32].
Definition llist_head : ctype :=
  c_struct [ "first" ∷ CPtr "struct llist_node" ].
Definition unwind_task_id : ctype :=
  c_union [ anon (c_struct [ "cpu" ∷ u32; "cnt" ∷ u32 ]); "id" ∷ u64 ].
Definition unwind_task_info : ctype :=
  c_struct [
    "unwind_mask" ∷ atomic_long_t; "cache" ∷ CPtr "struct unwind_cache"; "work" ∷ callback_head;
    "id" ∷ unwind_task_id].
Definition desc_struct : ctype :=
  c_struct [
    "limit0" ∷ u16; "base0" ∷ u16; bits "base1" u16 8; bits "type" u16 4; bits "s" u16 1;
    bits "dpl" u16 2; bits "p" u16 1; bits "limit1" u16 4; bits "avl" u16 1; bits "l" u16 1;
    bits "d" u16 1; bits "g" u16 1; bits "base2" u16 8].
Definition thread_shstk : ctype :=
  c_struct [ "base" ∷ u64; "size" ∷ u64 ].
Definition thread_struct : ctype :=
  c_struct [
    "tls_array" ∷ CArr 3 desc_struct; "sp" ∷ c_ulong; "es" ∷ c_ushort; "ds" ∷ c_ushort;
    "fsindex" ∷ c_ushort; "gsindex" ∷ c_ushort; "fsbase" ∷ c_ulong; "gsbase" ∷ c_ulong;
    "ptrace_bps" ∷ CArr 4 (CPtr "struct perf_event"); "virtual_dr6" ∷ c_ulong;
    "ptrace_dr7" ∷ c_ulong; "cr2" ∷ c_ulong; "trap_nr" ∷ c_ulong; "error_code" ∷ c_ulong;
    "io_bitmap" ∷ CPtr "struct io_bitmap"; "iopl_emul" ∷ c_ulong; bits "iopl_warn" c_uint 1;
    "pkru" ∷ u32; "features" ∷ c_ulong; "features_locked" ∷ c_ulong; "shstk" ∷ thread_shstk].
Definition task_struct_1 : list (declr * ctype) := [
  "thread_info" ∷ thread_info; "__state" ∷ c_uint; "saved_state" ∷ c_uint; "stack" ∷ CPtr "void";
  "usage" ∷ refcount_t; "flags" ∷ c_uint; "ptrace" ∷ c_uint; "on_cpu" ∷ c_int;
  "wake_entry" ∷ __call_single_node; "wakee_flips" ∷ c_uint; "wakee_flip_decay_ts" ∷ c_ulong;
  "last_wakee" ∷ CPtr "struct task_struct"; "recent_used_cpu" ∷ c_int; "wake_cpu" ∷ c_int;
  "on_rq" ∷ c_int; "prio" ∷ c_int; "static_prio" ∷ c_int; "normal_prio" ∷ c_int;
  "rt_priority" ∷ c_uint; "se" ∷ sched_entity; "rt" ∷ sched_rt_entity; "dl" ∷ sched_dl_entity;
  "dl_server" ∷ CPtr "struct sched_dl_entity"; "scx" ∷ sched_ext_entity;
  "sched_class" ∷ CPtr "struct sched_class"; "sched_task_group" ∷ CPtr "struct task_group";
  "sched_throttle_work" ∷ callback_head; "throttle_node" ∷ list_head; "throttled" ∷ c_bool;
  "uclamp_req" ∷ CArr 2 uclamp_se; "uclamp" ∷ CArr 2 uclamp_se; bits "" c_long 64;
  "stats" ∷ sched_statistics; "preempt_notifiers" ∷ hlist_head; "btrace_seq" ∷ c_uint;
  "policy" ∷ c_uint; "max_allowed_capacity" ∷ c_ulong; "nr_cpus_allowed" ∷ c_int;
  "cpus_ptr" ∷ CPtr "cpumask_t"; "user_cpus_ptr" ∷ CPtr "cpumask_t"; "cpus_mask" ∷ cpumask_t;
  "migration_pending" ∷ CPtr "void"; "migration_disabled" ∷ c_ushort; "migration_flags" ∷ c_ushort;
  "rcu_read_lock_nesting" ∷ c_int; "rcu_read_unlock_special" ∷ rcu_special;
  "rcu_node_entry" ∷ list_head; "rcu_blocked_node" ∷ CPtr "struct rcu_node";
  "rcu_tasks_nvcsw" ∷ c_ulong; "rcu_tasks_holdout" ∷ u8; "rcu_tasks_idx" ∷ u8;
  "rcu_tasks_idle_cpu" ∷ c_int; "rcu_tasks_holdout_list" ∷ list_head; "rcu_tasks_exit_cpu" ∷ c_int;
  "rcu_tasks_exit_list" ∷ list_head; "trc_reader_nesting" ∷ c_int;
  "trc_reader_scp" ∷ CPtr "struct srcu_ctr"; "sched_info" ∷ sched_info; "tasks" ∷ list_head;
  "pushable_tasks" ∷ plist_node; "pushable_dl_tasks" ∷ rb_node; "mm" ∷ CPtr "struct mm_struct";
  "active_mm" ∷ CPtr "struct mm_struct"; "exit_state" ∷ c_int; "exit_code" ∷ c_int;
  "exit_signal" ∷ c_int; "pdeath_signal" ∷ c_int; "jobctl" ∷ c_ulong; "personality" ∷ c_uint;
  bits "sched_reset_on_fork" c_uint 1; bits "sched_contributes_to_load" c_uint 1;
  bits "sched_migrated" c_uint 1; bits "sched_task_hot" c_uint 1; bits "" c_long 28;
  bits "sched_remote_wakeup" c_uint 1; bits "sched_rt_mutex" c_uint 1;
  bits "user_dumpable" c_uint 1; bits "in_execve" c_uint 1; bits "in_iowait" c_uint 1;
  bits "restore_sigmask" c_uint 1; bits "in_lru_fault" c_uint 1;
  bits "no_cgroup_migration" c_uint 1; bits "frozen" c_uint 1; bits "use_memdelay" c_uint 1;
  bits "in_memstall" c_uint 1; bits "in_eventfd" c_uint 1; bits "pasid_activated" c_uint 1;
  bits "reported_split_lock" c_uint 1; bits "in_thrashing" c_uint 1;
  bits "in_nf_duplicate" c_uint 1; "atomic_flags" ∷ c_ulong; "restart_block" ∷ restart_block;
  "pid" ∷ pid_t; "tgid" ∷ pid_t; "stack_canary" ∷ c_ulong;
  "real_parent" ∷ CPtr "struct task_struct"; "parent" ∷ CPtr "struct task_struct";
  "children" ∷ list_head; "sibling" ∷ list_head; "group_leader" ∷ CPtr "struct task_struct";
  "ptraced" ∷ list_head; "ptrace_entry" ∷ list_head; "thread_pid" ∷ CPtr "struct pid";
  "pid_links" ∷ CArr 4 hlist_node; "thread_node" ∷ list_head;
  "vfork_done" ∷ CPtr "struct completion"; "set_child_tid" ∷ CPtr "int";
  "clear_child_tid" ∷ CPtr "int"; "worker_private" ∷ CPtr "void"; "utime" ∷ u64; "stime" ∷ u64;
  "gtime" ∷ u64; "prev_cputime" ∷ prev_cputime; "vtime" ∷ vtime; "tick_dep_mask" ∷ atomic_t;
  "nvcsw" ∷ c_ulong; "nivcsw" ∷ c_ulong; "start_time" ∷ u64; "start_boottime" ∷ u64;
  "min_flt" ∷ c_ulong; "maj_flt" ∷ c_ulong; "posix_cputimers" ∷ posix_cputimers;
  "posix_cputimers_work" ∷ posix_cputimers_work; "ptracer_cred" ∷ CPtr "struct cred";
  "real_cred" ∷ CPtr "struct cred"; "cred" ∷ CPtr "struct cred";
  "cached_requested_key" ∷ CPtr "struct key"; "comm" ∷ CArr 16 c_char;
  "nameidata" ∷ CPtr "struct nameidata"; "sysvsem" ∷ sysv_sem; "sysvshm" ∷ sysv_shm;
  "last_switch_count" ∷ c_ulong; "last_switch_time" ∷ c_ulong].
Definition task_struct_2 : list (declr * ctype) := [
  "fs" ∷ CPtr "struct fs_struct"; "files" ∷ CPtr "struct files_struct";
  "io_uring" ∷ CPtr "struct io_uring_task"; "io_uring_restrict" ∷ CPtr "struct io_restriction";
  "nsproxy" ∷ CPtr "struct nsproxy"; "signal" ∷ CPtr "struct signal_struct";
  "sighand" ∷ CPtr "struct sighand_struct"; "blocked" ∷ sigset_t; "real_blocked" ∷ sigset_t;
  "saved_sigmask" ∷ sigset_t; "pending" ∷ sigpending; "sas_ss_sp" ∷ c_ulong; "sas_ss_size" ∷ size_t;
  "sas_ss_flags" ∷ c_uint; "task_works" ∷ CPtr "struct callback_head";
  "audit_context" ∷ CPtr "struct audit_context"; "loginuid" ∷ kuid_t; "sessionid" ∷ c_uint;
  "seccomp" ∷ seccomp; "syscall_dispatch" ∷ syscall_user_dispatch; "parent_exec_id" ∷ u64;
  "self_exec_id" ∷ u64; "alloc_lock" ∷ spinlock_t; "pi_lock" ∷ raw_spinlock_t;
  "wake_q" ∷ wake_q_node; "pi_waiters" ∷ rb_root_cached; "pi_top_task" ∷ CPtr "struct task_struct";
  "pi_blocked_on" ∷ CPtr "struct rt_mutex_waiter"; "blocked_on" ∷ CPtr "struct mutex";
  "blocker" ∷ c_ulong; "in_ubsan" ∷ c_uint; "journal_info" ∷ CPtr "void";
  "bio_list" ∷ CPtr "struct bio_list"; "plug" ∷ CPtr "struct blk_plug";
  "reclaim_state" ∷ CPtr "struct reclaim_state"; "io_context" ∷ CPtr "struct io_context";
  "capture_control" ∷ CPtr "struct capture_control"; "ptrace_message" ∷ c_ulong;
  "last_siginfo" ∷ CPtr "kernel_siginfo_t"; "ioac" ∷ task_io_accounting; "psi_flags" ∷ c_uint;
  "acct_rss_mem1" ∷ u64; "acct_vm_mem1" ∷ u64; "acct_timexpd" ∷ u64; "mems_allowed" ∷ nodemask_t;
  "mems_allowed_seq" ∷ seqcount_spinlock_t; "cpuset_mem_spread_rotor" ∷ c_int;
  "cgroups" ∷ CPtr "struct css_set"; "cg_list" ∷ list_head; "closid" ∷ u32; "rmid" ∷ u32;
  "robust_list" ∷ CPtr "struct robust_list_head";
  "compat_robust_list" ∷ CPtr "struct compat_robust_list_head"; "pi_state_list" ∷ list_head;
  "pi_state_cache" ∷ CPtr "struct futex_pi_state"; "futex_exit_mutex" ∷ mutex;
  "futex_state" ∷ c_uint; "perf_recursion" ∷ CArr 4 u8;
  "perf_event_ctxp" ∷ CPtr "struct perf_event_context"; "perf_event_mutex" ∷ mutex;
  "perf_event_list" ∷ list_head; "perf_ctx_data" ∷ CPtr "struct perf_ctx_data";
  "mempolicy" ∷ CPtr "struct mempolicy"; "il_prev" ∷ c_short; "il_weight" ∷ u8;
  "pref_node_fork" ∷ c_short; "numa_scan_seq" ∷ c_int; "numa_scan_period" ∷ c_uint;
  "numa_scan_period_max" ∷ c_uint; "numa_preferred_nid" ∷ c_int; "numa_migrate_retry" ∷ c_ulong;
  "node_stamp" ∷ u64; "last_task_numa_placement" ∷ u64; "last_sum_exec_runtime" ∷ u64;
  "numa_work" ∷ callback_head; "numa_group" ∷ CPtr "struct numa_group";
  "numa_faults" ∷ CPtr "long unsigned int"; "total_numa_faults" ∷ c_ulong;
  "numa_faults_locality" ∷ CArr 3 c_ulong; "numa_pages_migrated" ∷ c_ulong; "rseq" ∷ rseq_data;
  "mm_cid" ∷ sched_mm_cid; "tlb_ubc" ∷ tlbflush_unmap_batch;
  "splice_pipe" ∷ CPtr "struct pipe_inode_info"; "task_frag" ∷ page_frag;
  "lazy_mmu_state" ∷ lazy_mmu_state; "delays" ∷ CPtr "struct task_delay_info"; "nr_dirtied" ∷ c_int;
  "nr_dirtied_pause" ∷ c_int; "dirty_paused_when" ∷ c_ulong; "timer_slack_ns" ∷ u64;
  "default_timer_slack_ns" ∷ u64; "curr_ret_stack" ∷ c_int; "curr_ret_depth" ∷ c_int;
  "ret_stack" ∷ CPtr "long unsigned int"; "ftrace_timestamp" ∷ c_ulong;
  "ftrace_sleeptime" ∷ c_ulong; "trace_overrun" ∷ atomic_t; "tracing_graph_pause" ∷ atomic_t;
  "trace_recursion" ∷ c_ulong; "memcg_nr_pages_over_high" ∷ c_uint;
  "active_memcg" ∷ CPtr "struct mem_cgroup"; "objcg" ∷ CPtr "struct obj_cgroup";
  "throttle_disk" ∷ CPtr "struct gendisk"; "utask" ∷ CPtr "struct uprobe_task";
  "sequential_io" ∷ c_uint; "sequential_io_avg" ∷ c_uint; "kmap_ctrl" ∷ kmap_ctrl;
  "rcu" ∷ callback_head; "rcu_users" ∷ refcount_t; "pagefault_disabled" ∷ c_int;
  "oom_reaper_list" ∷ CPtr "struct task_struct"; "oom_reaper_timer" ∷ timer_list;
  "stack_vm_area" ∷ CPtr "struct vm_struct"; "stack_refcount" ∷ refcount_t; "patch_state" ∷ c_int;
  "security" ∷ CPtr "void"; "bpf_storage" ∷ CPtr "struct bpf_local_storage";
  "bpf_ctx" ∷ CPtr "struct bpf_run_ctx"; "bpf_net_context" ∷ CPtr "struct bpf_net_context";
  "kstack_offset" ∷ u32; "mce_vaddr" ∷ CPtr "void"; "mce_kflags" ∷ __u64; "mce_addr" ∷ u64;
  bits "mce_ripv" __u64 1; bits "mce_whole_page" __u64 1; bits "__mce_reserved" __u64 62;
  "mce_kill_me" ∷ callback_head; "mce_count" ∷ c_int; "kretprobe_instances" ∷ llist_head;
  "rethooks" ∷ llist_head; "l1d_flush_kill" ∷ callback_head; "unwind_info" ∷ unwind_task_info;
  "thread" ∷ thread_struct; bits "" c_long 64].
Definition task_struct : ctype := c_struct (task_struct_1 ++ task_struct_2).

Definition rlimit : ctype :=
  c_struct [ "rlim_cur" ∷ __kernel_ulong_t; "rlim_max" ∷ __kernel_ulong_t ].
Definition linux_binprm : ctype :=
  c_struct [
    "vma" ∷ CPtr "struct vm_area_struct"; "vma_pages" ∷ c_ulong; "argmin" ∷ c_ulong;
    "mm" ∷ CPtr "struct mm_struct"; "p" ∷ c_ulong; bits "have_execfd" c_uint 1;
    bits "execfd_creds" c_uint 1; bits "secureexec" c_uint 1; bits "point_of_no_return" c_uint 1;
    bits "comm_from_dentry" c_uint 1; bits "is_check" c_uint 1; "executable" ∷ CPtr "struct file";
    "interpreter" ∷ CPtr "struct file"; "file" ∷ CPtr "struct file"; "cred" ∷ CPtr "struct cred";
    "unsafe" ∷ c_int; "per_clear" ∷ c_uint; "argc" ∷ c_int; "envc" ∷ c_int;
    "filename" ∷ CPtr "char"; "interp" ∷ CPtr "char"; "fdpath" ∷ CPtr "char";
    "interp_flags" ∷ c_uint; "execfd" ∷ c_int; "exec" ∷ c_ulong; "rlim_stack" ∷ rlimit;
    "buf" ∷ CArr 256 c_char].

Definition fred_cs : ctype :=
  c_struct [ bits "cs" u64 16; bits "sl" u64 2; bits "wfe" u64 1 ].
Definition fred_ss : ctype :=
  c_struct [
    bits "ss" u64 16; bits "sti" u64 1; bits "swevent" u64 1; bits "nmi" u64 1; bits "" c_int 13;
    bits "vector" u64 8; bits "" c_short 8; bits "type" u64 4; bits "" c_char 4;
    bits "enclave" u64 1; bits "l" u64 1; bits "nested" u64 1; bits "" c_char 1;
    bits "insnlen" u64 4].
Definition pt_regs : ctype :=
  c_struct [
    "r15" ∷ c_ulong; "r14" ∷ c_ulong; "r13" ∷ c_ulong; "r12" ∷ c_ulong; "bp" ∷ c_ulong;
    "bx" ∷ c_ulong; "r11" ∷ c_ulong; "r10" ∷ c_ulong; "r9" ∷ c_ulong; "r8" ∷ c_ulong;
    "ax" ∷ c_ulong; "cx" ∷ c_ulong; "dx" ∷ c_ulong; "si" ∷ c_ulong; "di" ∷ c_ulong;
    "orig_ax" ∷ c_ulong; "ip" ∷ c_ulong;
    anon (c_union [ "cs" ∷ u16; "csx" ∷ u64; "fred_cs" ∷ fred_cs ]); "flags" ∷ c_ulong;
    "sp" ∷ c_ulong; anon (c_union [ "ss" ∷ u16; "ssx" ∷ u64; "fred_ss" ∷ fred_ss ])].

Definition trace_entry : ctype :=
  c_struct [
    "type" ∷ c_ushort; "flags" ∷ c_uchar; "preempt_count" ∷ c_uchar; "pid" ∷ c_int].
Definition trace_event_raw_sys_enter : ctype :=
  c_struct [
    "ent" ∷ trace_entry; "id" ∷ c_long; "args" ∷ CArr 6 c_ulong; "__data" ∷ CArr 0 c_char].

Definition trace_event_raw_sys_exit : ctype :=
  c_struct [ "ent" ∷ trace_entry; "id" ∷ c_long; "ret" ∷ c_long; "__data" ∷ CArr 0 c_char ].

Definition trace_event_raw_sched_process_exec : ctype :=
  c_struct [
    "ent" ∷ trace_entry; "__data_loc_filename" ∷ u32; "pid" ∷ pid_t; "old_pid" ∷ pid_t;
    "__data" ∷ CArr 0 c_char].

Definition __kernel_sa_family_t : ctype := c_ushort.
Definition __be16 : ctype := __u16.
Definition __be32 : ctype := __u32.
Definition in_addr : ctype :=
  c_struct [ "s_addr" ∷ __be32 ].

Definition sockaddr_in : ctype :=
  c_struct [
    "sin_family" ∷ __kernel_sa_family_t; "sin_port" ∷ __be16; "sin_addr" ∷ in_addr;
    "__pad" ∷ CArr 8 c_uchar].

Definition sa_family_t : ctype := __kernel_sa_family_t.
Definition sockaddr : ctype :=
  c_struct [ "sa_family" ∷ sa_family_t; "sa_data" ∷ CArr 14 c_char ].

End Vmlinux.
