(* ===== verification/Helpers.v ===== *)
(** * The helper functions of the kernel (bpf_helper_defs.h)

    A BPF program calls a helper by number.  Here are the header's
    declarations: each helper's number, the types of its result and of its
    arguments; and the numbers the kernel gives them ([enum bpf_func_id] of
    [vmlinux.h]). *)
From Stdlib Require Import ZArith Lia String.
From stdpp Require Import base tactics list strings.
Local Open Scope Z_scope.

(** [static ret (* const name)(args) = (void *) id;] *)
Record helper := Helper { h_name : string; h_ret : string; h_args : list string; h_id : Z }.

Module HelperDefs.
Local Open Scope string_scope.

Definition bpf_map_lookup_elem : helper := Helper "bpf_map_lookup_elem" "void *" ["void *"; "const void *"] 1.
Definition bpf_map_update_elem : helper :=
  Helper "bpf_map_update_elem" "long" ["void *"; "const void *"; "const void *"; "__u64"] 2.
Definition bpf_map_delete_elem : helper := Helper "bpf_map_delete_elem" "long" ["void *"; "const void *"] 3.
Definition bpf_probe_read : helper := Helper "bpf_probe_read" "long" ["void *"; "__u32"; "const void *"] 4.
Definition bpf_ktime_get_ns : helper := Helper "bpf_ktime_get_ns" "__u64" [] 5.
Definition bpf_trace_printk : helper := Helper "bpf_trace_printk" "long" ["const char *"; "__u32"; "..."] 6.
Definition bpf_get_prandom_u32 : helper := Helper "bpf_get_prandom_u32" "__u32" [] 7.
Definition bpf_get_smp_processor_id : helper := Helper "bpf_get_smp_processor_id" "__bpf_fastcall __u32" [] 8.
Definition bpf_skb_store_bytes : helper :=
  Helper "bpf_skb_store_bytes" "long" ["struct __sk_buff *"; "__u32"; "const void *"; "__u32"; "__u64"] 9.
Definition bpf_l3_csum_replace : helper :=
  Helper "bpf_l3_csum_replace" "long" ["struct __sk_buff *"; "__u32"; "__u64"; "__u64"; "__u64"] 10.
Definition bpf_l4_csum_replace : helper :=
  Helper "bpf_l4_csum_replace" "long" ["struct __sk_buff *"; "__u32"; "__u64"; "__u64"; "__u64"] 11.
Definition bpf_tail_call : helper := Helper "bpf_tail_call" "long" ["void *"; "void *"; "__u32"] 12.
Definition bpf_clone_redirect : helper :=
  Helper "bpf_clone_redirect" "long" ["struct __sk_buff *"; "__u32"; "__u64"] 13.
Definition bpf_get_current_pid_tgid : helper := Helper "bpf_get_current_pid_tgid" "__u64" [] 14.
Definition bpf_get_current_uid_gid : helper := Helper "bpf_get_current_uid_gid" "__u64" [] 15.
Definition bpf_get_current_comm : helper := Helper "bpf_get_current_comm" "long" ["void *"; "__u32"] 16.
Definition bpf_get_cgroup_classid : helper :=
  Helper "bpf_get_cgroup_classid" "__u32" ["struct __sk_buff *"] 17.
Definition bpf_skb_vlan_push : helper :=
  Helper "bpf_skb_vlan_push" "long" ["struct __sk_buff *"; "__be16"; "__u16"] 18.
Definition bpf_skb_vlan_pop : helper := Helper "bpf_skb_vlan_pop" "long" ["struct __sk_buff *"] 19.
Definition bpf_skb_get_tunnel_key : helper :=
  Helper "bpf_skb_get_tunnel_key" "long" ["struct __sk_buff *"; "struct bpf_tunnel_key *"; "__u32"; "__u64"] 20.
Definition bpf_skb_set_tunnel_key : helper :=
  Helper "bpf_skb_set_tunnel_key" "long" ["struct __sk_buff *"; "struct bpf_tunnel_key *"; "__u32"; "__u64"] 21.
Definition bpf_perf_event_read : helper := Helper "bpf_perf_event_read" "__u64" ["void *"; "__u64"] 22.
Definition bpf_redirect : helper := Helper "bpf_redirect" "long" ["__u32"; "__u64"] 23.
Definition bpf_get_route_realm : helper := Helper "bpf_get_route_realm" "__u32" ["struct __sk_buff *"] 24.
Definition bpf_perf_event_output : helper :=
  Helper "bpf_perf_event_output" "long" ["void *"; "void *"; "__u64"; "void *"; "__u64"] 25.
Definition bpf_skb_load_bytes : helper :=
  Helper "bpf_skb_load_bytes" "long" ["const void *"; "__u32"; "void *"; "__u32"] 26.
Definition bpf_get_stackid : helper := Helper "bpf_get_stackid" "long" ["void *"; "void *"; "__u64"] 27.
Definition bpf_csum_diff : helper :=
  Helper "bpf_csum_diff" "__s64" ["__be32 *"; "__u32"; "__be32 *"; "__u32"; "__wsum"] 28.
Definition bpf_skb_get_tunnel_opt : helper :=
  Helper "bpf_skb_get_tunnel_opt" "long" ["struct __sk_buff *"; "void *"; "__u32"] 29.
Definition bpf_skb_set_tunnel_opt : helper :=
  Helper "bpf_skb_set_tunnel_opt" "long" ["struct __sk_buff *"; "void *"; "__u32"] 30.
Definition bpf_skb_change_proto : helper :=
  Helper "bpf_skb_change_proto" "long" ["struct __sk_buff *"; "__be16"; "__u64"] 31.
Definition bpf_skb_change_type : helper :=
  Helper "bpf_skb_change_type" "long" ["struct __sk_buff *"; "__u32"] 32.
Definition bpf_skb_under_cgroup : helper :=
  Helper "bpf_skb_under_cgroup" "long" ["struct __sk_buff *"; "void *"; "__u32"] 33.
Definition bpf_get_hash_recalc : helper := Helper "bpf_get_hash_recalc" "__u32" ["struct __sk_buff *"] 34.
Definition bpf_get_current_task : helper := Helper "bpf_get_current_task" "__u64" [] 35.
Definition bpf_probe_write_user : helper :=
  Helper "bpf_probe_write_user" "long" ["void *"; "const void *"; "__u32"] 36.
Definition bpf_current_task_under_cgroup : helper :=
  Helper "bpf_current_task_under_cgroup" "long" ["void *"; "__u32"] 37.
Definition bpf_skb_change_tail : helper :=
  Helper "bpf_skb_change_tail" "long" ["struct __sk_buff *"; "__u32"; "__u64"] 38.
Definition bpf_skb_pull_data : helper := Helper "bpf_skb_pull_data" "long" ["struct __sk_buff *"; "__u32"] 39.
Definition bpf_csum_update : helper := Helper "bpf_csum_update" "__s64" ["struct __sk_buff *"; "__wsum"] 40.
Definition bpf_set_hash_invalid : helper := Helper "bpf_set_hash_invalid" "void" ["struct __sk_buff *"] 41.
Definition bpf_get_numa_node_id : helper := Helper "bpf_get_numa_node_id" "long" [] 42.
Definition bpf_skb_change_head : helper :=
  Helper "bpf_skb_change_head" "long" ["struct __sk_buff *"; "__u32"; "__u64"] 43.
Definition bpf_xdp_adjust_head : helper := Helper "bpf_xdp_adjust_head" "long" ["struct xdp_md *"; "int"] 44.
Definition bpf_probe_read_str : helper :=
  Helper "bpf_probe_read_str" "long" ["void *"; "__u32"; "const void *"] 45.
Definition bpf_get_socket_cookie : helper := Helper "bpf_get_socket_cookie" "__u64" ["void *"] 46.
Definition bpf_get_socket_uid : helper := Helper "bpf_get_socket_uid" "__u32" ["struct __sk_buff *"] 47.
Definition bpf_set_hash : helper := Helper "bpf_set_hash" "long" ["struct __sk_buff *"; "__u32"] 48.
Definition bpf_setsockopt : helper :=
  Helper "bpf_setsockopt" "long" ["void *"; "int"; "int"; "void *"; "int"] 49.
Definition bpf_skb_adjust_room : helper :=
  Helper "bpf_skb_adjust_room" "long" ["struct __sk_buff *"; "__s32"; "__u32"; "__u64"] 50.
Definition bpf_redirect_map : helper := Helper "bpf_redirect_map" "long" ["void *"; "__u64"; "__u64"] 51.
Definition bpf_sk_redirect_map : helper :=
  Helper "bpf_sk_redirect_map" "long" ["struct __sk_buff *"; "void *"; "__u32"; "__u64"] 52.
Definition bpf_sock_map_update : helper :=
  Helper "bpf_sock_map_update" "long" ["struct bpf_sock_ops *"; "void *"; "void *"; "__u64"] 53.
Definition bpf_xdp_adjust_meta : helper := Helper "bpf_xdp_adjust_meta" "long" ["struct xdp_md *"; "int"] 54.
Definition bpf_perf_event_read_value : helper :=
  Helper "bpf_perf_event_read_value" "long" ["void *"; "__u64"; "struct bpf_perf_event_value *"; "__u32"] 55.
Definition bpf_perf_prog_read_value : helper :=
  Helper "bpf_perf_prog_read_value" "long"
    ["struct bpf_perf_event_data *"; "struct bpf_perf_event_value *"; "__u32"] 56.
Definition bpf_getsockopt : helper :=
  Helper "bpf_getsockopt" "long" ["void *"; "int"; "int"; "void *"; "int"] 57.
Definition bpf_override_return : helper :=
  Helper "bpf_override_return" "long" ["struct pt_regs *"; "__u64"] 58.
Definition bpf_sock_ops_cb_flags_set : helper :=
  Helper "bpf_sock_ops_cb_flags_set" "long" ["struct bpf_sock_ops *"; "int"] 59.
Definition bpf_msg_redirect_map : helper :=
  Helper "bpf_msg_redirect_map" "long" ["struct sk_msg_md *"; "void *"; "__u32"; "__u64"] 60.
Definition bpf_msg_apply_bytes : helper :=
  Helper "bpf_msg_apply_bytes" "long" ["struct sk_msg_md *"; "__u32"] 61.
Definition bpf_msg_cork_bytes : helper :=
  Helper "bpf_msg_cork_bytes" "long" ["struct sk_msg_md *"; "__u32"] 62.
Definition bpf_msg_pull_data : helper :=
  Helper "bpf_msg_pull_data" "long" ["struct sk_msg_md *"; "__u32"; "__u32"; "__u64"] 63.
Definition bpf_bind : helper :=
  Helper "bpf_bind" "long" ["struct bpf_sock_addr *"; "struct sockaddr *"; "int"] 64.
Definition bpf_xdp_adjust_tail : helper := Helper "bpf_xdp_adjust_tail" "long" ["struct xdp_md *"; "int"] 65.
Definition bpf_skb_get_xfrm_state : helper :=
  Helper "bpf_skb_get_xfrm_state" "long"
    ["struct __sk_buff *"; "__u32"; "struct bpf_xfrm_state *"; "__u32"; "__u64"] 66.
Definition bpf_get_stack : helper := Helper "bpf_get_stack" "long" ["void *"; "void *"; "__u32"; "__u64"] 67.
Definition bpf_skb_load_bytes_relative : helper :=
  Helper "bpf_skb_load_bytes_relative" "long" ["const void *"; "__u32"; "void *"; "__u32"; "__u32"] 68.
Definition bpf_fib_lookup : helper :=
  Helper "bpf_fib_lookup" "long" ["void *"; "struct bpf_fib_lookup *"; "int"; "__u32"] 69.
Definition bpf_sock_hash_update : helper :=
  Helper "bpf_sock_hash_update" "long" ["struct bpf_sock_ops *"; "void *"; "void *"; "__u64"] 70.
Definition bpf_msg_redirect_hash : helper :=
  Helper "bpf_msg_redirect_hash" "long" ["struct sk_msg_md *"; "void *"; "void *"; "__u64"] 71.
Definition bpf_sk_redirect_hash : helper :=
  Helper "bpf_sk_redirect_hash" "long" ["struct __sk_buff *"; "void *"; "void *"; "__u64"] 72.
Definition bpf_lwt_push_encap : helper :=
  Helper "bpf_lwt_push_encap" "long" ["struct __sk_buff *"; "__u32"; "void *"; "__u32"] 73.
Definition bpf_lwt_seg6_store_bytes : helper :=
  Helper "bpf_lwt_seg6_store_bytes" "long" ["struct __sk_buff *"; "__u32"; "const void *"; "__u32"] 74.
Definition bpf_lwt_seg6_adjust_srh : helper :=
  Helper "bpf_lwt_seg6_adjust_srh" "long" ["struct __sk_buff *"; "__u32"; "__s32"] 75.
Definition bpf_lwt_seg6_action : helper :=
  Helper "bpf_lwt_seg6_action" "long" ["struct __sk_buff *"; "__u32"; "void *"; "__u32"] 76.
Definition bpf_rc_repeat : helper := Helper "bpf_rc_repeat" "long" ["void *"] 77.
Definition bpf_rc_keydown : helper := Helper "bpf_rc_keydown" "long" ["void *"; "__u32"; "__u64"; "__u32"] 78.
Definition bpf_skb_cgroup_id : helper := Helper "bpf_skb_cgroup_id" "__u64" ["struct __sk_buff *"] 79.
Definition bpf_get_current_cgroup_id : helper := Helper "bpf_get_current_cgroup_id" "__u64" [] 80.
Definition bpf_get_local_storage : helper := Helper "bpf_get_local_storage" "void *" ["void *"; "__u64"] 81.
Definition bpf_sk_select_reuseport : helper :=
  Helper "bpf_sk_select_reuseport" "long" ["struct sk_reuseport_md *"; "void *"; "void *"; "__u64"] 82.
Definition bpf_skb_ancestor_cgroup_id : helper :=
  Helper "bpf_skb_ancestor_cgroup_id" "__u64" ["struct __sk_buff *"; "int"] 83.
Definition bpf_sk_lookup_tcp : helper :=
  Helper "bpf_sk_lookup_tcp" "struct bpf_sock *"
    ["void *"; "struct bpf_sock_tuple *"; "__u32"; "__u64"; "__u64"] 84.
Definition bpf_sk_lookup_udp : helper :=
  Helper "bpf_sk_lookup_udp" "struct bpf_sock *"
    ["void *"; "struct bpf_sock_tuple *"; "__u32"; "__u64"; "__u64"] 85.
Definition bpf_sk_release : helper := Helper "bpf_sk_release" "long" ["void *"] 86.
Definition bpf_map_push_elem : helper :=
  Helper "bpf_map_push_elem" "long" ["void *"; "const void *"; "__u64"] 87.
Definition bpf_map_pop_elem : helper := Helper "bpf_map_pop_elem" "long" ["void *"; "void *"] 88.
Definition bpf_map_peek_elem : helper := Helper "bpf_map_peek_elem" "long" ["void *"; "void *"] 89.
Definition bpf_msg_push_data : helper :=
  Helper "bpf_msg_push_data" "long" ["struct sk_msg_md *"; "__u32"; "__u32"; "__u64"] 90.
Definition bpf_msg_pop_data : helper :=
  Helper "bpf_msg_pop_data" "long" ["struct sk_msg_md *"; "__u32"; "__u32"; "__u64"] 91.
Definition bpf_rc_pointer_rel : helper := Helper "bpf_rc_pointer_rel" "long" ["void *"; "__s32"; "__s32"] 92.
Definition bpf_spin_lock : helper := Helper "bpf_spin_lock" "long" ["struct bpf_spin_lock *"] 93.
Definition bpf_spin_unlock : helper := Helper "bpf_spin_unlock" "long" ["struct bpf_spin_lock *"] 94.
Definition bpf_sk_fullsock : helper := Helper "bpf_sk_fullsock" "struct bpf_sock *" ["struct bpf_sock *"] 95.
Definition bpf_tcp_sock : helper := Helper "bpf_tcp_sock" "struct bpf_tcp_sock *" ["struct bpf_sock *"] 96.
Definition bpf_skb_ecn_set_ce : helper := Helper "bpf_skb_ecn_set_ce" "long" ["struct __sk_buff *"] 97.
Definition bpf_get_listener_sock : helper :=
  Helper "bpf_get_listener_sock" "struct bpf_sock *" ["struct bpf_sock *"] 98.
Definition bpf_skc_lookup_tcp : helper :=
  Helper "bpf_skc_lookup_tcp" "struct bpf_sock *"
    ["void *"; "struct bpf_sock_tuple *"; "__u32"; "__u64"; "__u64"] 99.
Definition bpf_tcp_check_syncookie : helper :=
  Helper "bpf_tcp_check_syncookie" "long" ["void *"; "void *"; "__u32"; "struct tcphdr *"; "__u32"] 100.
Definition bpf_sysctl_get_name : helper :=
  Helper "bpf_sysctl_get_name" "long" ["struct bpf_sysctl *"; "char *"; "unsigned long"; "__u64"] 101.
Definition bpf_sysctl_get_current_value : helper :=
  Helper "bpf_sysctl_get_current_value" "long" ["struct bpf_sysctl *"; "char *"; "unsigned long"] 102.
Definition bpf_sysctl_get_new_value : helper :=
  Helper "bpf_sysctl_get_new_value" "long" ["struct bpf_sysctl *"; "char *"; "unsigned long"] 103.
Definition bpf_sysctl_set_new_value : helper :=
  Helper "bpf_sysctl_set_new_value" "long" ["struct bpf_sysctl *"; "const char *"; "unsigned long"] 104.
Definition bpf_strtol : helper :=
  Helper "bpf_strtol" "long" ["const char *"; "unsigned long"; "__u64"; "long *"] 105.
Definition bpf_strtoul : helper :=
  Helper "bpf_strtoul" "long" ["const char *"; "unsigned long"; "__u64"; "unsigned long *"] 106.
Definition bpf_sk_storage_get : helper :=
  Helper "bpf_sk_storage_get" "void *" ["void *"; "void *"; "void *"; "__u64"] 107.
Definition bpf_sk_storage_delete : helper := Helper "bpf_sk_storage_delete" "long" ["void *"; "void *"] 108.
Definition bpf_send_signal : helper := Helper "bpf_send_signal" "long" ["__u32"] 109.
Definition bpf_tcp_gen_syncookie : helper :=
  Helper "bpf_tcp_gen_syncookie" "__s64" ["void *"; "void *"; "__u32"; "struct tcphdr *"; "__u32"] 110.
Definition bpf_skb_output : helper :=
  Helper "bpf_skb_output" "long" ["void *"; "void *"; "__u64"; "void *"; "__u64"] 111.
Definition bpf_probe_read_user : helper :=
  Helper "bpf_probe_read_user" "long" ["void *"; "__u32"; "const void *"] 112.
Definition bpf_probe_read_kernel : helper :=
  Helper "bpf_probe_read_kernel" "long" ["void *"; "__u32"; "const void *"] 113.
Definition bpf_probe_read_user_str : helper :=
  Helper "bpf_probe_read_user_str" "long" ["void *"; "__u32"; "const void *"] 114.
Definition bpf_probe_read_kernel_str : helper :=
  Helper "bpf_probe_read_kernel_str" "long" ["void *"; "__u32"; "const void *"] 115.
Definition bpf_tcp_send_ack : helper := Helper "bpf_tcp_send_ack" "long" ["void *"; "__u32"] 116.
Definition bpf_send_signal_thread : helper := Helper "bpf_send_signal_thread" "long" ["__u32"] 117.
Definition bpf_jiffies64 : helper := Helper "bpf_jiffies64" "__u64" [] 118.
Definition bpf_read_branch_records : helper :=
  Helper "bpf_read_branch_records" "long" ["struct bpf_perf_event_data *"; "void *"; "__u32"; "__u64"] 119.
Definition bpf_get_ns_current_pid_tgid : helper :=
  Helper "bpf_get_ns_current_pid_tgid" "long" ["__u64"; "__u64"; "struct bpf_pidns_info *"; "__u32"] 120.
Definition bpf_xdp_output : helper :=
  Helper "bpf_xdp_output" "long" ["void *"; "void *"; "__u64"; "void *"; "__u64"] 121.
Definition bpf_get_netns_cookie : helper := Helper "bpf_get_netns_cookie" "__u64" ["void *"] 122.
Definition bpf_get_current_ancestor_cgroup_id : helper :=
  Helper "bpf_get_current_ancestor_cgroup_id" "__u64" ["int"] 123.
Definition bpf_sk_assign : helper := Helper "bpf_sk_assign" "long" ["void *"; "void *"; "__u64"] 124.
Definition bpf_ktime_get_boot_ns : helper := Helper "bpf_ktime_get_boot_ns" "__u64" [] 125.
Definition bpf_seq_printf : helper :=
  Helper "bpf_seq_printf" "long" ["struct seq_file *"; "const char *"; "__u32"; "const void *"; "__u32"] 126.
Definition bpf_seq_write : helper :=
  Helper "bpf_seq_write" "long" ["struct seq_file *"; "const void *"; "__u32"] 127.
Definition bpf_sk_cgroup_id : helper := Helper "bpf_sk_cgroup_id" "__u64" ["void *"] 128.
Definition bpf_sk_ancestor_cgroup_id : helper :=
  Helper "bpf_sk_ancestor_cgroup_id" "__u64" ["void *"; "int"] 129.
Definition bpf_ringbuf_output : helper :=
  Helper "bpf_ringbuf_output" "long" ["void *"; "void *"; "__u64"; "__u64"] 130.
Definition bpf_ringbuf_reserve : helper :=
  Helper "bpf_ringbuf_reserve" "void *" ["void *"; "__u64"; "__u64"] 131.
Definition bpf_ringbuf_submit : helper := Helper "bpf_ringbuf_submit" "void" ["void *"; "__u64"] 132.
Definition bpf_ringbuf_discard : helper := Helper "bpf_ringbuf_discard" "void" ["void *"; "__u64"] 133.
Definition bpf_ringbuf_query : helper := Helper "bpf_ringbuf_query" "__u64" ["void *"; "__u64"] 134.
Definition bpf_csum_level : helper := Helper "bpf_csum_level" "long" ["struct __sk_buff *"; "__u64"] 135.
Definition bpf_skc_to_tcp6_sock : helper := Helper "bpf_skc_to_tcp6_sock" "struct tcp6_sock *" ["void *"] 136.
Definition bpf_skc_to_tcp_sock : helper := Helper "bpf_skc_to_tcp_sock" "struct tcp_sock *" ["void *"] 137.
Definition bpf_skc_to_tcp_timewait_sock : helper :=
  Helper "bpf_skc_to_tcp_timewait_sock" "struct tcp_timewait_sock *" ["void *"] 138.
Definition bpf_skc_to_tcp_request_sock : helper :=
  Helper "bpf_skc_to_tcp_request_sock" "struct tcp_request_sock *" ["void *"] 139.
Definition bpf_skc_to_udp6_sock : helper := Helper "bpf_skc_to_udp6_sock" "struct udp6_sock *" ["void *"] 140.
Definition bpf_get_task_stack : helper :=
  Helper "bpf_get_task_stack" "long" ["struct task_struct *"; "void *"; "__u32"; "__u64"] 141.
Definition bpf_load_hdr_opt : helper :=
  Helper "bpf_load_hdr_opt" "long" ["struct bpf_sock_ops *"; "void *"; "__u32"; "__u64"] 142.
Definition bpf_store_hdr_opt : helper :=
  Helper "bpf_store_hdr_opt" "long" ["struct bpf_sock_ops *"; "const void *"; "__u32"; "__u64"] 143.
Definition bpf_reserve_hdr_opt : helper :=
  Helper "bpf_reserve_hdr_opt" "long" ["struct bpf_sock_ops *"; "__u32"; "__u64"] 144.
Definition bpf_inode_storage_get : helper :=
  Helper "bpf_inode_storage_get" "void *" ["void *"; "void *"; "void *"; "__u64"] 145.
Definition bpf_inode_storage_delete : helper :=
  Helper "bpf_inode_storage_delete" "int" ["void *"; "void *"] 146.
Definition bpf_d_path : helper := Helper "bpf_d_path" "long" ["const struct path *"; "char *"; "__u32"] 147.
Definition bpf_copy_from_user : helper :=
  Helper "bpf_copy_from_user" "long" ["void *"; "__u32"; "const void *"] 148.
Definition bpf_snprintf_btf : helper :=
  Helper "bpf_snprintf_btf" "long" ["char *"; "__u32"; "struct btf_ptr *"; "__u32"; "__u64"] 149.
Definition bpf_seq_printf_btf : helper :=
  Helper "bpf_seq_printf_btf" "long" ["struct seq_file *"; "struct btf_ptr *"; "__u32"; "__u64"] 150.
Definition bpf_skb_cgroup_classid : helper :=
  Helper "bpf_skb_cgroup_classid" "__u64" ["struct __sk_buff *"] 151.
Definition bpf_redirect_neigh : helper :=
  Helper "bpf_redirect_neigh" "long" ["__u32"; "struct bpf_redir_neigh *"; "int"; "__u64"] 152.
Definition bpf_per_cpu_ptr : helper := Helper "bpf_per_cpu_ptr" "void *" ["const void *"; "__u32"] 153.
Definition bpf_this_cpu_ptr : helper := Helper "bpf_this_cpu_ptr" "void *" ["const void *"] 154.
Definition bpf_redirect_peer : helper := Helper "bpf_redirect_peer" "long" ["__u32"; "__u64"] 155.
Definition bpf_task_storage_get : helper :=
  Helper "bpf_task_storage_get" "void *" ["void *"; "struct task_struct *"; "void *"; "__u64"] 156.
Definition bpf_task_storage_delete : helper :=
  Helper "bpf_task_storage_delete" "long" ["void *"; "struct task_struct *"] 157.
Definition bpf_get_current_task_btf : helper :=
  Helper "bpf_get_current_task_btf" "struct task_struct *" [] 158.
Definition bpf_bprm_opts_set : helper :=
  Helper "bpf_bprm_opts_set" "long" ["struct linux_binprm *"; "__u64"] 159.
Definition bpf_ktime_get_coarse_ns : helper := Helper "bpf_ktime_get_coarse_ns" "__u64" [] 160.
Definition bpf_ima_inode_hash : helper :=
  Helper "bpf_ima_inode_hash" "long" ["struct inode *"; "void *"; "__u32"] 161.
Definition bpf_sock_from_file : helper := Helper "bpf_sock_from_file" "struct socket *" ["struct file *"] 162.
Definition bpf_check_mtu : helper :=
  Helper "bpf_check_mtu" "long" ["void *"; "__u32"; "__u32 *"; "__s32"; "__u64"] 163.
Definition bpf_for_each_map_elem : helper :=
  Helper "bpf_for_each_map_elem" "long" ["void *"; "void *"; "void *"; "__u64"] 164.
Definition bpf_snprintf : helper :=
  Helper "bpf_snprintf" "long" ["char *"; "__u32"; "const char *"; "__u64 *"; "__u32"] 165.
Definition bpf_sys_bpf : helper := Helper "bpf_sys_bpf" "long" ["__u32"; "void *"; "__u32"] 166.
Definition bpf_btf_find_by_name_kind : helper :=
  Helper "bpf_btf_find_by_name_kind" "long" ["char *"; "int"; "__u32"; "int"] 167.
Definition bpf_sys_close : helper := Helper "bpf_sys_close" "long" ["__u32"] 168.
Definition bpf_timer_init : helper :=
  Helper "bpf_timer_init" "long" ["struct bpf_timer *"; "void *"; "__u64"] 169.
Definition bpf_timer_set_callback : helper :=
  Helper "bpf_timer_set_callback" "long" ["struct bpf_timer *"; "void *"] 170.
Definition bpf_timer_start : helper :=
  Helper "bpf_timer_start" "long" ["struct bpf_timer *"; "__u64"; "__u64"] 171.
Definition bpf_timer_cancel : helper := Helper "bpf_timer_cancel" "long" ["struct bpf_timer *"] 172.
Definition bpf_get_func_ip : helper := Helper "bpf_get_func_ip" "__u64" ["void *"] 173.
Definition bpf_get_attach_cookie : helper := Helper "bpf_get_attach_cookie" "__u64" ["void *"] 174.
Definition bpf_task_pt_regs : helper := Helper "bpf_task_pt_regs" "long" ["struct task_struct *"] 175.
Definition bpf_get_branch_snapshot : helper :=
  Helper "bpf_get_branch_snapshot" "long" ["void *"; "__u32"; "__u64"] 176.
Definition bpf_trace_vprintk : helper :=
  Helper "bpf_trace_vprintk" "long" ["const char *"; "__u32"; "const void *"; "__u32"] 177.
Definition bpf_skc_to_unix_sock : helper := Helper "bpf_skc_to_unix_sock" "struct unix_sock *" ["void *"] 178.
Definition bpf_kallsyms_lookup_name : helper :=
  Helper "bpf_kallsyms_lookup_name" "long" ["const char *"; "int"; "int"; "__u64 *"] 179.
Definition bpf_find_vma : helper :=
  Helper "bpf_find_vma" "long" ["struct task_struct *"; "__u64"; "void *"; "void *"; "__u64"] 180.
Definition bpf_loop : helper := Helper "bpf_loop" "long" ["__u32"; "void *"; "void *"; "__u64"] 181.
Definition bpf_strncmp : helper := Helper "bpf_strncmp" "long" ["const char *"; "__u32"; "const char *"] 182.
Definition bpf_get_func_arg : helper := Helper "bpf_get_func_arg" "long" ["void *"; "__u32"; "__u64 *"] 183.
Definition bpf_get_func_ret : helper := Helper "bpf_get_func_ret" "long" ["void *"; "__u64 *"] 184.
Definition bpf_get_func_arg_cnt : helper := Helper "bpf_get_func_arg_cnt" "long" ["void *"] 185.
Definition bpf_get_retval : helper := Helper "bpf_get_retval" "int" [] 186.
Definition bpf_set_retval : helper := Helper "bpf_set_retval" "int" ["int"] 187.
Definition bpf_xdp_get_buff_len : helper := Helper "bpf_xdp_get_buff_len" "__u64" ["struct xdp_md *"] 188.
Definition bpf_xdp_load_bytes : helper :=
  Helper "bpf_xdp_load_bytes" "long" ["struct xdp_md *"; "__u32"; "void *"; "__u32"] 189.
Definition bpf_xdp_store_bytes : helper :=
  Helper "bpf_xdp_store_bytes" "long" ["struct xdp_md *"; "__u32"; "void *"; "__u32"] 190.
Definition bpf_copy_from_user_task : helper :=
  Helper "bpf_copy_from_user_task" "long"
    ["void *"; "__u32"; "const void *"; "struct task_struct *"; "__u64"] 191.
Definition bpf_skb_set_tstamp : helper :=
  Helper "bpf_skb_set_tstamp" "long" ["struct __sk_buff *"; "__u64"; "__u32"] 192.
Definition bpf_ima_file_hash : helper :=
  Helper "bpf_ima_file_hash" "long" ["struct file *"; "void *"; "__u32"] 193.
Definition bpf_kptr_xchg : helper := Helper "bpf_kptr_xchg" "void *" ["void *"; "void *"] 194.
Definition bpf_map_lookup_percpu_elem : helper :=
  Helper "bpf_map_lookup_percpu_elem" "void *" ["void *"; "const void *"; "__u32"] 195.
Definition bpf_skc_to_mptcp_sock : helper :=
  Helper "bpf_skc_to_mptcp_sock" "struct mptcp_sock *" ["void *"] 196.
Definition bpf_dynptr_from_mem : helper :=
  Helper "bpf_dynptr_from_mem" "long" ["void *"; "__u64"; "__u64"; "struct bpf_dynptr *"] 197.
Definition bpf_ringbuf_reserve_dynptr : helper :=
  Helper "bpf_ringbuf_reserve_dynptr" "long" ["void *"; "__u32"; "__u64"; "struct bpf_dynptr *"] 198.
Definition bpf_ringbuf_submit_dynptr : helper :=
  Helper "bpf_ringbuf_submit_dynptr" "void" ["struct bpf_dynptr *"; "__u64"] 199.
Definition bpf_ringbuf_discard_dynptr : helper :=
  Helper "bpf_ringbuf_discard_dynptr" "void" ["struct bpf_dynptr *"; "__u64"] 200.
Definition bpf_dynptr_read : helper :=
  Helper "bpf_dynptr_read" "long" ["void *"; "__u64"; "const struct bpf_dynptr *"; "__u64"; "__u64"] 201.
Definition bpf_dynptr_write : helper :=
  Helper "bpf_dynptr_write" "long" ["const struct bpf_dynptr *"; "__u64"; "void *"; "__u64"; "__u64"] 202.
Definition bpf_dynptr_data : helper :=
  Helper "bpf_dynptr_data" "void *" ["const struct bpf_dynptr *"; "__u64"; "__u64"] 203.
Definition bpf_tcp_raw_gen_syncookie_ipv4 : helper :=
  Helper "bpf_tcp_raw_gen_syncookie_ipv4" "__s64" ["struct iphdr *"; "struct tcphdr *"; "__u32"] 204.
Definition bpf_tcp_raw_gen_syncookie_ipv6 : helper :=
  Helper "bpf_tcp_raw_gen_syncookie_ipv6" "__s64" ["struct ipv6hdr *"; "struct tcphdr *"; "__u32"] 205.
Definition bpf_tcp_raw_check_syncookie_ipv4 : helper :=
  Helper "bpf_tcp_raw_check_syncookie_ipv4" "long" ["struct iphdr *"; "struct tcphdr *"] 206.
Definition bpf_tcp_raw_check_syncookie_ipv6 : helper :=
  Helper "bpf_tcp_raw_check_syncookie_ipv6" "long" ["struct ipv6hdr *"; "struct tcphdr *"] 207.
Definition bpf_ktime_get_tai_ns : helper := Helper "bpf_ktime_get_tai_ns" "__u64" [] 208.
Definition bpf_user_ringbuf_drain : helper :=
  Helper "bpf_user_ringbuf_drain" "long" ["void *"; "void *"; "void *"; "__u64"] 209.
Definition bpf_cgrp_storage_get : helper :=
  Helper "bpf_cgrp_storage_get" "void *" ["void *"; "struct cgroup *"; "void *"; "__u64"] 210.
Definition bpf_cgrp_storage_delete : helper :=
  Helper "bpf_cgrp_storage_delete" "long" ["void *"; "struct cgroup *"] 211.

(** All of them, in the header's order. *)
Definition helpers : list helper := [
    bpf_map_lookup_elem; bpf_map_update_elem; bpf_map_delete_elem; bpf_probe_read; bpf_ktime_get_ns;
    bpf_trace_printk; bpf_get_prandom_u32; bpf_get_smp_processor_id; bpf_skb_store_bytes;
    bpf_l3_csum_replace; bpf_l4_csum_replace; bpf_tail_call; bpf_clone_redirect; bpf_get_current_pid_tgid;
    bpf_get_current_uid_gid; bpf_get_current_comm; bpf_get_cgroup_classid; bpf_skb_vlan_push;
    bpf_skb_vlan_pop; bpf_skb_get_tunnel_key; bpf_skb_set_tunnel_key; bpf_perf_event_read; bpf_redirect;
    bpf_get_route_realm; bpf_perf_event_output; bpf_skb_load_bytes; bpf_get_stackid; bpf_csum_diff;
    bpf_skb_get_tunnel_opt; bpf_skb_set_tunnel_opt; bpf_skb_change_proto; bpf_skb_change_type;
    bpf_skb_under_cgroup; bpf_get_hash_recalc; bpf_get_current_task; bpf_probe_write_user;
    bpf_current_task_under_cgroup; bpf_skb_change_tail; bpf_skb_pull_data; bpf_csum_update;
    bpf_set_hash_invalid; bpf_get_numa_node_id; bpf_skb_change_head; bpf_xdp_adjust_head;
    bpf_probe_read_str; bpf_get_socket_cookie; bpf_get_socket_uid; bpf_set_hash; bpf_setsockopt;
    bpf_skb_adjust_room; bpf_redirect_map; bpf_sk_redirect_map; bpf_sock_map_update; bpf_xdp_adjust_meta;
    bpf_perf_event_read_value; bpf_perf_prog_read_value; bpf_getsockopt; bpf_override_return;
    bpf_sock_ops_cb_flags_set; bpf_msg_redirect_map; bpf_msg_apply_bytes; bpf_msg_cork_bytes;
    bpf_msg_pull_data; bpf_bind; bpf_xdp_adjust_tail; bpf_skb_get_xfrm_state; bpf_get_stack;
    bpf_skb_load_bytes_relative; bpf_fib_lookup; bpf_sock_hash_update; bpf_msg_redirect_hash;
    bpf_sk_redirect_hash; bpf_lwt_push_encap; bpf_lwt_seg6_store_bytes; bpf_lwt_seg6_adjust_srh;
    bpf_lwt_seg6_action; bpf_rc_repeat; bpf_rc_keydown; bpf_skb_cgroup_id; bpf_get_current_cgroup_id;
    bpf_get_local_storage; bpf_sk_select_reuseport; bpf_skb_ancestor_cgroup_id; bpf_sk_lookup_tcp;
    bpf_sk_lookup_udp; bpf_sk_release; bpf_map_push_elem; bpf_map_pop_elem; bpf_map_peek_elem;
    bpf_msg_push_data; bpf_msg_pop_data; bpf_rc_pointer_rel; bpf_spin_lock; bpf_spin_unlock;
    bpf_sk_fullsock; bpf_tcp_sock; bpf_skb_ecn_set_ce; bpf_get_listener_sock; bpf_skc_lookup_tcp;
    bpf_tcp_check_syncookie; bpf_sysctl_get_name; bpf_sysctl_get_current_value; bpf_sysctl_get_new_value;
    bpf_sysctl_set_new_value; bpf_strtol; bpf_strtoul; bpf_sk_storage_get; bpf_sk_storage_delete;
    bpf_send_signal; bpf_tcp_gen_syncookie; bpf_skb_output; bpf_probe_read_user; bpf_probe_read_kernel;
    bpf_probe_read_user_str; bpf_probe_read_kernel_str; bpf_tcp_send_ack; bpf_send_signal_thread;
    bpf_jiffies64; bpf_read_branch_records; bpf_get_ns_current_pid_tgid; bpf_xdp_output;
    bpf_get_netns_cookie; bpf_get_current_ancestor_cgroup_id; bpf_sk_assign; bpf_ktime_get_boot_ns;
    bpf_seq_printf; bpf_seq_write; bpf_sk_cgroup_id; bpf_sk_ancestor_cgroup_id; bpf_ringbuf_output;
    bpf_ringbuf_reserve; bpf_ringbuf_submit; bpf_ringbuf_discard; bpf_ringbuf_query; bpf_csum_level;
    bpf_skc_to_tcp6_sock; bpf_skc_to_tcp_sock; bpf_skc_to_tcp_timewait_sock; bpf_skc_to_tcp_request_sock;
    bpf_skc_to_udp6_sock; bpf_get_task_stack; bpf_load_hdr_opt; bpf_store_hdr_opt; bpf_reserve_hdr_opt;
    bpf_inode_storage_get; bpf_inode_storage_delete; bpf_d_path; bpf_copy_from_user; bpf_snprintf_btf;
    bpf_seq_printf_btf; bpf_skb_cgroup_classid; bpf_redirect_neigh; bpf_per_cpu_ptr; bpf_this_cpu_ptr;
    bpf_redirect_peer; bpf_task_storage_get; bpf_task_storage_delete; bpf_get_current_task_btf;
    bpf_bprm_opts_set; bpf_ktime_get_coarse_ns; bpf_ima_inode_hash; bpf_sock_from_file; bpf_check_mtu;
    bpf_for_each_map_elem; bpf_snprintf; bpf_sys_bpf; bpf_btf_find_by_name_kind; bpf_sys_close;
    bpf_timer_init; bpf_timer_set_callback; bpf_timer_start; bpf_timer_cancel; bpf_get_func_ip;
    bpf_get_attach_cookie; bpf_task_pt_regs; bpf_get_branch_snapshot; bpf_trace_vprintk;
    bpf_skc_to_unix_sock; bpf_kallsyms_lookup_name; bpf_find_vma; bpf_loop; bpf_strncmp; bpf_get_func_arg;
    bpf_get_func_ret; bpf_get_func_arg_cnt; bpf_get_retval; bpf_set_retval; bpf_xdp_get_buff_len;
    bpf_xdp_load_bytes; bpf_xdp_store_bytes; bpf_copy_from_user_task; bpf_skb_set_tstamp;
    bpf_ima_file_hash; bpf_kptr_xchg; bpf_map_lookup_percpu_elem; bpf_skc_to_mptcp_sock;
    bpf_dynptr_from_mem; bpf_ringbuf_reserve_dynptr; bpf_ringbuf_submit_dynptr;
    bpf_ringbuf_discard_dynptr; bpf_dynptr_read; bpf_dynptr_write; bpf_dynptr_data;
    bpf_tcp_raw_gen_syncookie_ipv4; bpf_tcp_raw_gen_syncookie_ipv6; bpf_tcp_raw_check_syncookie_ipv4;
    bpf_tcp_raw_check_syncookie_ipv6; bpf_ktime_get_tai_ns; bpf_user_ringbuf_drain; bpf_cgrp_storage_get;
    bpf_cgrp_storage_delete].

(** [enum bpf_func_id] *)
Definition bpf_func_id_1 : list (string * Z) := [
    ("BPF_FUNC_unspec", 0%Z); ("BPF_FUNC_map_lookup_elem", 1%Z); ("BPF_FUNC_map_update_elem", 2%Z);
    ("BPF_FUNC_map_delete_elem", 3%Z); ("BPF_FUNC_probe_read", 4%Z); ("BPF_FUNC_ktime_get_ns", 5%Z);
    ("BPF_FUNC_trace_printk", 6%Z); ("BPF_FUNC_get_prandom_u32", 7%Z);
    ("BPF_FUNC_get_smp_processor_id", 8%Z); ("BPF_FUNC_skb_store_bytes", 9%Z);
    ("BPF_FUNC_l3_csum_replace", 10%Z); ("BPF_FUNC_l4_csum_replace", 11%Z); ("BPF_FUNC_tail_call", 12%Z);
    ("BPF_FUNC_clone_redirect", 13%Z); ("BPF_FUNC_get_current_pid_tgid", 14%Z);
    ("BPF_FUNC_get_current_uid_gid", 15%Z); ("BPF_FUNC_get_current_comm", 16%Z);
    ("BPF_FUNC_get_cgroup_classid", 17%Z); ("BPF_FUNC_skb_vlan_push", 18%Z);
    ("BPF_FUNC_skb_vlan_pop", 19%Z); ("BPF_FUNC_skb_get_tunnel_key", 20%Z);
    ("BPF_FUNC_skb_set_tunnel_key", 21%Z); ("BPF_FUNC_perf_event_read", 22%Z);
    ("BPF_FUNC_redirect", 23%Z); ("BPF_FUNC_get_route_realm", 24%Z); ("BPF_FUNC_perf_event_output", 25%Z);
    ("BPF_FUNC_skb_load_bytes", 26%Z); ("BPF_FUNC_get_stackid", 27%Z); ("BPF_FUNC_csum_diff", 28%Z);
    ("BPF_FUNC_skb_get_tunnel_opt", 29%Z); ("BPF_FUNC_skb_set_tunnel_opt", 30%Z);
    ("BPF_FUNC_skb_change_proto", 31%Z); ("BPF_FUNC_skb_change_type", 32%Z);
    ("BPF_FUNC_skb_under_cgroup", 33%Z); ("BPF_FUNC_get_hash_recalc", 34%Z);
    ("BPF_FUNC_get_current_task", 35%Z); ("BPF_FUNC_probe_write_user", 36%Z);
    ("BPF_FUNC_current_task_under_cgroup", 37%Z); ("BPF_FUNC_skb_change_tail", 38%Z);
    ("BPF_FUNC_skb_pull_data", 39%Z); ("BPF_FUNC_csum_update", 40%Z); ("BPF_FUNC_set_hash_invalid", 41%Z);
    ("BPF_FUNC_get_numa_node_id", 42%Z); ("BPF_FUNC_skb_change_head", 43%Z);
    ("BPF_FUNC_xdp_adjust_head", 44%Z); ("BPF_FUNC_probe_read_str", 45%Z);
    ("BPF_FUNC_get_socket_cookie", 46%Z); ("BPF_FUNC_get_socket_uid", 47%Z); ("BPF_FUNC_set_hash", 48%Z);
    ("BPF_FUNC_setsockopt", 49%Z); ("BPF_FUNC_skb_adjust_room", 50%Z); ("BPF_FUNC_redirect_map", 51%Z);
    ("BPF_FUNC_sk_redirect_map", 52%Z); ("BPF_FUNC_sock_map_update", 53%Z);
    ("BPF_FUNC_xdp_adjust_meta", 54%Z); ("BPF_FUNC_perf_event_read_value", 55%Z);
    ("BPF_FUNC_perf_prog_read_value", 56%Z); ("BPF_FUNC_getsockopt", 57%Z);
    ("BPF_FUNC_override_return", 58%Z); ("BPF_FUNC_sock_ops_cb_flags_set", 59%Z);
    ("BPF_FUNC_msg_redirect_map", 60%Z); ("BPF_FUNC_msg_apply_bytes", 61%Z);
    ("BPF_FUNC_msg_cork_bytes", 62%Z); ("BPF_FUNC_msg_pull_data", 63%Z); ("BPF_FUNC_bind", 64%Z);
    ("BPF_FUNC_xdp_adjust_tail", 65%Z); ("BPF_FUNC_skb_get_xfrm_state", 66%Z);
    ("BPF_FUNC_get_stack", 67%Z); ("BPF_FUNC_skb_load_bytes_relative", 68%Z);
    ("BPF_FUNC_fib_lookup", 69%Z); ("BPF_FUNC_sock_hash_update", 70%Z);
    ("BPF_FUNC_msg_redirect_hash", 71%Z); ("BPF_FUNC_sk_redirect_hash", 72%Z);
    ("BPF_FUNC_lwt_push_encap", 73%Z); ("BPF_FUNC_lwt_seg6_store_bytes", 74%Z);
    ("BPF_FUNC_lwt_seg6_adjust_srh", 75%Z); ("BPF_FUNC_lwt_seg6_action", 76%Z);
    ("BPF_FUNC_rc_repeat", 77%Z); ("BPF_FUNC_rc_keydown", 78%Z); ("BPF_FUNC_skb_cgroup_id", 79%Z);
    ("BPF_FUNC_get_current_cgroup_id", 80%Z); ("BPF_FUNC_get_local_storage", 81%Z);
    ("BPF_FUNC_sk_select_reuseport", 82%Z); ("BPF_FUNC_skb_ancestor_cgroup_id", 83%Z);
    ("BPF_FUNC_sk_lookup_tcp", 84%Z); ("BPF_FUNC_sk_lookup_udp", 85%Z); ("BPF_FUNC_sk_release", 86%Z);
    ("BPF_FUNC_map_push_elem", 87%Z); ("BPF_FUNC_map_pop_elem", 88%Z); ("BPF_FUNC_map_peek_elem", 89%Z);
    ("BPF_FUNC_msg_push_data", 90%Z); ("BPF_FUNC_msg_pop_data", 91%Z); ("BPF_FUNC_rc_pointer_rel", 92%Z);
    ("BPF_FUNC_spin_lock", 93%Z); ("BPF_FUNC_spin_unlock", 94%Z); ("BPF_FUNC_sk_fullsock", 95%Z);
    ("BPF_FUNC_tcp_sock", 96%Z); ("BPF_FUNC_skb_ecn_set_ce", 97%Z); ("BPF_FUNC_get_listener_sock", 98%Z);
    ("BPF_FUNC_skc_lookup_tcp", 99%Z); ("BPF_FUNC_tcp_check_syncookie", 100%Z);
    ("BPF_FUNC_sysctl_get_name", 101%Z); ("BPF_FUNC_sysctl_get_current_value", 102%Z);
    ("BPF_FUNC_sysctl_get_new_value", 103%Z); ("BPF_FUNC_sysctl_set_new_value", 104%Z);
    ("BPF_FUNC_strtol", 105%Z)].
Definition bpf_func_id_2 : list (string * Z) := [
    ("BPF_FUNC_strtoul", 106%Z); ("BPF_FUNC_sk_storage_get", 107%Z);
    ("BPF_FUNC_sk_storage_delete", 108%Z); ("BPF_FUNC_send_signal", 109%Z);
    ("BPF_FUNC_tcp_gen_syncookie", 110%Z); ("BPF_FUNC_skb_output", 111%Z);
    ("BPF_FUNC_probe_read_user", 112%Z); ("BPF_FUNC_probe_read_kernel", 113%Z);
    ("BPF_FUNC_probe_read_user_str", 114%Z); ("BPF_FUNC_probe_read_kernel_str", 115%Z);
    ("BPF_FUNC_tcp_send_ack", 116%Z); ("BPF_FUNC_send_signal_thread", 117%Z);
    ("BPF_FUNC_jiffies64", 118%Z); ("BPF_FUNC_read_branch_records", 119%Z);
    ("BPF_FUNC_get_ns_current_pid_tgid", 120%Z); ("BPF_FUNC_xdp_output", 121%Z);
    ("BPF_FUNC_get_netns_cookie", 122%Z); ("BPF_FUNC_get_current_ancestor_cgroup_id", 123%Z);
    ("BPF_FUNC_sk_assign", 124%Z); ("BPF_FUNC_ktime_get_boot_ns", 125%Z); ("BPF_FUNC_seq_printf", 126%Z);
    ("BPF_FUNC_seq_write", 127%Z); ("BPF_FUNC_sk_cgroup_id", 128%Z);
    ("BPF_FUNC_sk_ancestor_cgroup_id", 129%Z); ("BPF_FUNC_ringbuf_output", 130%Z);
    ("BPF_FUNC_ringbuf_reserve", 131%Z); ("BPF_FUNC_ringbuf_submit", 132%Z);
    ("BPF_FUNC_ringbuf_discard", 133%Z); ("BPF_FUNC_ringbuf_query", 134%Z);
    ("BPF_FUNC_csum_level", 135%Z); ("BPF_FUNC_skc_to_tcp6_sock", 136%Z);
    ("BPF_FUNC_skc_to_tcp_sock", 137%Z); ("BPF_FUNC_skc_to_tcp_timewait_sock", 138%Z);
    ("BPF_FUNC_skc_to_tcp_request_sock", 139%Z); ("BPF_FUNC_skc_to_udp6_sock", 140%Z);
    ("BPF_FUNC_get_task_stack", 141%Z); ("BPF_FUNC_load_hdr_opt", 142%Z);
    ("BPF_FUNC_store_hdr_opt", 143%Z); ("BPF_FUNC_reserve_hdr_opt", 144%Z);
    ("BPF_FUNC_inode_storage_get", 145%Z); ("BPF_FUNC_inode_storage_delete", 146%Z);
    ("BPF_FUNC_d_path", 147%Z); ("BPF_FUNC_copy_from_user", 148%Z); ("BPF_FUNC_snprintf_btf", 149%Z);
    ("BPF_FUNC_seq_printf_btf", 150%Z); ("BPF_FUNC_skb_cgroup_classid", 151%Z);
    ("BPF_FUNC_redirect_neigh", 152%Z); ("BPF_FUNC_per_cpu_ptr", 153%Z); ("BPF_FUNC_this_cpu_ptr", 154%Z);
    ("BPF_FUNC_redirect_peer", 155%Z); ("BPF_FUNC_task_storage_get", 156%Z);
    ("BPF_FUNC_task_storage_delete", 157%Z); ("BPF_FUNC_get_current_task_btf", 158%Z);
    ("BPF_FUNC_bprm_opts_set", 159%Z); ("BPF_FUNC_ktime_get_coarse_ns", 160%Z);
    ("BPF_FUNC_ima_inode_hash", 161%Z); ("BPF_FUNC_sock_from_file", 162%Z); ("BPF_FUNC_check_mtu", 163%Z);
    ("BPF_FUNC_for_each_map_elem", 164%Z); ("BPF_FUNC_snprintf", 165%Z); ("BPF_FUNC_sys_bpf", 166%Z);
    ("BPF_FUNC_btf_find_by_name_kind", 167%Z); ("BPF_FUNC_sys_close", 168%Z);
    ("BPF_FUNC_timer_init", 169%Z); ("BPF_FUNC_timer_set_callback", 170%Z);
    ("BPF_FUNC_timer_start", 171%Z); ("BPF_FUNC_timer_cancel", 172%Z); ("BPF_FUNC_get_func_ip", 173%Z);
    ("BPF_FUNC_get_attach_cookie", 174%Z); ("BPF_FUNC_task_pt_regs", 175%Z);
    ("BPF_FUNC_get_branch_snapshot", 176%Z); ("BPF_FUNC_trace_vprintk", 177%Z);
    ("BPF_FUNC_skc_to_unix_sock", 178%Z); ("BPF_FUNC_kallsyms_lookup_name", 179%Z);
    ("BPF_FUNC_find_vma", 180%Z); ("BPF_FUNC_loop", 181%Z); ("BPF_FUNC_strncmp", 182%Z);
    ("BPF_FUNC_get_func_arg", 183%Z); ("BPF_FUNC_get_func_ret", 184%Z);
    ("BPF_FUNC_get_func_arg_cnt", 185%Z); ("BPF_FUNC_get_retval", 186%Z); ("BPF_FUNC_set_retval", 187%Z);
    ("BPF_FUNC_xdp_get_buff_len", 188%Z); ("BPF_FUNC_xdp_load_bytes", 189%Z);
    ("BPF_FUNC_xdp_store_bytes", 190%Z); ("BPF_FUNC_copy_from_user_task", 191%Z);
    ("BPF_FUNC_skb_set_tstamp", 192%Z); ("BPF_FUNC_ima_file_hash", 193%Z); ("BPF_FUNC_kptr_xchg", 194%Z);
    ("BPF_FUNC_map_lookup_percpu_elem", 195%Z); ("BPF_FUNC_skc_to_mptcp_sock", 196%Z);
    ("BPF_FUNC_dynptr_from_mem", 197%Z); ("BPF_FUNC_ringbuf_reserve_dynptr", 198%Z);
    ("BPF_FUNC_ringbuf_submit_dynptr", 199%Z); ("BPF_FUNC_ringbuf_discard_dynptr", 200%Z);
    ("BPF_FUNC_dynptr_read", 201%Z); ("BPF_FUNC_dynptr_write", 202%Z); ("BPF_FUNC_dynptr_data", 203%Z);
    ("BPF_FUNC_tcp_raw_gen_syncookie_ipv4", 204%Z); ("BPF_FUNC_tcp_raw_gen_syncookie_ipv6", 205%Z);
    ("BPF_FUNC_tcp_raw_check_syncookie_ipv4", 206%Z); ("BPF_FUNC_tcp_raw_check_syncookie_ipv6", 207%Z);
    ("BPF_FUNC_ktime_get_tai_ns", 208%Z); ("BPF_FUNC_user_ringbuf_drain", 209%Z);
    ("BPF_FUNC_cgrp_storage_get", 210%Z); ("BPF_FUNC_cgrp_storage_delete", 211%Z);
    ("__BPF_FUNC_MAX_ID", 212%Z)].
Definition bpf_func_id : list (string * Z) := bpf_func_id_1 ++ bpf_func_id_2.

(** The helper calls of the four programs: the helper and the number of
    arguments it is passed. *)
Definition program_calls : list (helper * nat) := [
    (bpf_get_current_comm, 2%nat); (bpf_get_current_pid_tgid, 0%nat); (bpf_get_current_task, 0%nat);
    (bpf_get_current_uid_gid, 0%nat); (bpf_ktime_get_ns, 0%nat); (bpf_map_delete_elem, 2%nat);
    (bpf_map_lookup_elem, 2%nat); (bpf_map_update_elem, 4%nat); (bpf_probe_read_kernel, 3%nat);
    (bpf_probe_read_kernel_str, 3%nat); (bpf_probe_read_user, 3%nat); (bpf_probe_read_user_str, 3%nat);
    (bpf_ringbuf_discard, 2%nat); (bpf_ringbuf_reserve, 3%nat); (bpf_ringbuf_submit, 2%nat)].

End HelperDefs.

Import HelperDefs.

(** ** The numbers *)

(** [bpf_map_lookup_elem] is [BPF_FUNC_map_lookup_elem]. *)
Definition func_enumerator (h : helper) : string :=
  ("BPF_FUNC_" +:+ String.substring 4 (String.length (h_name h) - 4) (h_name h))%string.

Definition variadic (h : helper) : bool := bool_decide ("..."%string ∈ h_args h).

(** A call passes as many arguments as the helper has; a variadic one at
    least the named ones. *)
Definition arity_ok (h : helper) (n : nat) : bool :=
  if variadic h then (length (h_args h) - 1 <=? n)%nat else (n =? length (h_args h))%nat.

(** Helpers are called by the kernel's numbers: the header's helpers are
    numbered 1, 2, ... without a gap, under different names; each has the
    number its enumerator of [enum bpf_func_id] has, and the enum has no
    other but the two ends; none takes more arguments than the five registers
    a call can pass; and every call in the four programs passes a declared
    helper as many arguments as it takes. *)
Theorem helpers_have_the_kernels_numbers :
  (h_id <$> helpers) = seqZ 1 211 ∧ NoDup (h_name <$> helpers) ∧
  bpf_func_id = ("BPF_FUNC_unspec"%string, 0) :: ((λ h, (func_enumerator h, h_id h)) <$> helpers)
                ++ [("__BPF_FUNC_MAX_ID"%string, 212)] ∧
  Forall (λ h, (length (h_args h) ≤ 5)%nat) helpers ∧
  Forall (λ hn, fst hn ∈ helpers ∧ arity_ok (fst hn) (snd hn) = true) program_calls.
Proof.
  split; [vm_compute; reflexivity|]. split; [by apply (bool_decide_unpack _); vm_compute|].
  split; [vm_compute; reflexivity|]. split.
  - apply (bool_decide_unpack _). by vm_compute.
  - repeat (apply Forall_cons_2; [split; [apply list_elem_of_In; cbn; tauto|by vm_compute]|]). constructor.
Qed.
