(* ===== verification/Kernel.v ===== *)
(** * The kernel as the BPF programs see it

    What the programs call and cannot be read here is an argument of the
    model: [ctx] holds the helpers one program run calls (the current
    task's identity and the fault-safe memory reads), [KernelLayout] the
    field offsets that CO-RE relocates when the object is loaded, and the
    class [LruHash] a BPF hash map that may evict.  Their documented
    behaviour ([bpf_helper_defs.h]) is stated as the laws [ctx_ok],
    [ustr_at], [kstr_at] and [LruHashLaws].  [image_ctx] and [plain_hash]
    are concrete instances that satisfy the laws. *)
From Stdlib Require Import ZArith Lia String.
From stdpp Require Import base tactics list gmap.
From S2P Require Import Prelude.
Local Open Scope Z_scope.

(** ** Helpers *)

(** One run of a BPF program: the values and functions its helper calls
    return during that run.  A read helper returns its C return value and
    the bytes the destination holds afterwards. *)
Record ctx := Ctx {
  cx_cpu : nat;                               (* the CPU the run executes on *)
  cx_pid_tgid : Z;                            (* bpf_get_current_pid_tgid *)
  cx_uid_gid : Z;                             (* bpf_get_current_uid_gid *)
  cx_ktime : Z;                               (* bpf_ktime_get_ns *)
  cx_comm : list Z;                           (* bpf_get_current_comm, 16 bytes *)
  cx_task : Z;                                (* bpf_get_current_task *)
  cx_read_kernel : Z → nat → Z * list Z;      (* bpf_probe_read_kernel *)
  cx_read_user : Z → nat → Z * list Z;        (* bpf_probe_read_user *)
  cx_read_kernel_str : Z → list Z → Z * list Z; (* bpf_probe_read_kernel_str, into dst *)
  cx_read_user_str : Z → list Z → Z * list Z;   (* bpf_probe_read_user_str, into dst *)
}.

(** [pid_tgid >> 32] and [(__u32)pid_tgid]; [(__u32)uid_gid] and
    [uid_gid >> 32]. *)
Definition cx_tgid (c : ctx) : Z := Z.shiftr (cx_pid_tgid c) 32.
Definition cx_pid (c : ctx) : Z := u32 (cx_pid_tgid c).
Definition cx_uid (c : ctx) : Z := u32 (cx_uid_gid c).
Definition cx_gid (c : ctx) : Z := u32 (Z.shiftr (cx_uid_gid c) 32).

(** The documented effect of bpf_probe_read_{user,kernel}_str on a
    readable string [s]: at most [size - 1] bytes are copied, a NUL
    follows, nothing after it is touched, and the number of bytes written
    is returned. *)
Definition str_copy (dst s : list Z) : Z * list Z :=
  let t := take (length dst - 1) s in
  (Z.of_nat (length t) + 1, t ++ 0 :: drop (length t + 1) dst).

(** What every run may rely on. *)
Class ctx_ok (c : ctx) : Prop := {
  ok_pid_tgid : 0 ≤ cx_pid_tgid c < 2 ^ 64;
  ok_uid_gid : 0 ≤ cx_uid_gid c < 2 ^ 64;
  ok_ktime : 0 ≤ cx_ktime c < 2 ^ 64;
  ok_comm_len : length (cx_comm c) = 16%nat;
  ok_comm_bytes : is_bytes (cx_comm c);
  ok_read_kernel_len a n : length (snd (cx_read_kernel c a n)) = n;
  ok_read_kernel_bytes a n : is_bytes (snd (cx_read_kernel c a n));
  ok_read_user_len a n : length (snd (cx_read_user c a n)) = n;
  ok_read_user_bytes a n : is_bytes (snd (cx_read_user c a n));
  ok_kstr_len a dst : length (snd (cx_read_kernel_str c a dst)) = length dst;
  ok_kstr_bytes a dst : is_bytes dst → is_bytes (snd (cx_read_kernel_str c a dst));
  ok_ustr_len a dst : length (snd (cx_read_user_str c a dst)) = length dst;
  ok_ustr_bytes a dst : is_bytes dst → is_bytes (snd (cx_read_user_str c a dst));
}.

(** User (kernel) memory at [a] holds the C string [s]. *)
Definition ustr_at (c : ctx) (a : Z) (s : list Z) : Prop :=
  (0 ∉ s) ∧ (∀ dst, (0 < length dst)%nat → cx_read_user_str c a dst = str_copy dst s).
Definition kstr_at (c : ctx) (a : Z) (s : list Z) : Prop :=
  (0 ∉ s) ∧ (∀ dst, (0 < length dst)%nat → cx_read_kernel_str c a dst = str_copy dst s).

(** Reading a string at [a] faults. *)
Definition ustr_fault (c : ctx) (a : Z) : Prop :=
  ∀ dst, fst (cx_read_user_str c a dst) < 0.

(** Kernel (user) memory at [a] holds the bytes [l]. *)
Definition kmem_at (c : ctx) (a : Z) (l : list Z) : Prop :=
  ∀ n, (n ≤ length l)%nat → cx_read_kernel c a n = (0, take n l).
Definition umem_at (c : ctx) (a : Z) (l : list Z) : Prop :=
  ∀ n, (n ≤ length l)%nat → cx_read_user c a n = (0, take n l).

(** ** Field offsets of the running kernel's structs (CO-RE) *)

Class KernelLayout := {
  off_vfsmount_mnt_root : Z;
  off_mount_mnt : Z;
  off_mount_mnt_parent : Z;
  off_mount_mnt_mountpoint : Z;
  off_dentry_d_parent : Z;
  off_dentry_d_name : Z;
  off_dentry_d_inode : Z;
  off_dentry_d_sb : Z;
  off_qstr_len : nat;
  off_qstr_name : nat;
  off_inode_i_ino : Z;
  off_inode_i_nlink : Z;
  off_super_block_s_dev : Z;
  off_path_mnt : Z;
  off_path_dentry : Z;
  off_file_f_path : Z;
  off_file_f_inode : Z;
  off_fdtable_max_fds : Z;
  off_fdtable_fd : Z;
  off_files_fdt : Z;
  off_fs_pwd : Z;
  off_mm_exe_file : Z;
  off_cred_euid : Z;
  off_task_files : Z;
  off_task_fs : Z;
  off_task_mm : Z;
  off_task_real_parent : Z;
  off_task_tgid : Z;
  off_task_cred : Z;
  off_task_exit_code : Z;
  off_linux_binprm_file : Z;
  off_reg : string → string → Z;   (* struct of the register set, member *)
}.

(** sizeof(struct qstr) *)
Definition qstr_size : nat := 16.

(** [container_of(ptr, type, member)] with the member's offset [off]. *)
Definition container_of (ptr off : Z) : Z := u64 (ptr - off).

(** The address of the member at offset [off] of the object at [p]. *)
Definition field (p off : Z) : Z := u64 (p + off).

(** ** BPF maps

    An ARRAY map has [max_entries] elements from the start (all elements
    always exist), so it is a list and a lookup out of range is NULL.  A
    PERCPU_ARRAY is one such list per CPU. *)
Definition array_lookup {V} (m : list V) (k : Z) : option V :=
  if (0 <=? k) then m !! Z.to_nat k else None.

(** A store through the pointer an array lookup returned. *)
Definition array_store {V} (m : list V) (k : Z) (v : V) : list V := <[Z.to_nat k := v]> m.

Definition percpu_lookup {V} (m : list (list V)) (cpu : nat) (k : Z) : option V :=
  m !! cpu ≫= λ l, array_lookup l k.

Definition percpu_store {V} (m : list (list V)) (cpu : nat) (k : Z) (v : V) : list (list V) :=
  alter (λ l, array_store l k v) cpu m.

(** A HASH or LRU_HASH map the programs update.  [hash_update] is
    bpf_map_update_elem with BPF_ANY: its return value and the map after
    it. *)
Class LruHash (M K V : Type) := {
  hash_lookup : M → K → option V;
  hash_update : M → K → V → Z * M;
  hash_delete : M → K → M;
}.

(** Documented behaviour.  An LRU map may evict any other entry to make
    room, and a failed update may have evicted too. *)
Class LruHashLaws (M K V : Type) `{!LruHash M K V} : Prop := {
  hash_update_hit (m : M) (k : K) (v : V) :
    fst (hash_update m k v) = 0 → hash_lookup (snd (hash_update m k v)) k = Some v;
  hash_update_err (m : M) (k : K) (v : V) :
    fst (hash_update m k v) ≠ 0 →
    hash_lookup (snd (hash_update m k v)) k = hash_lookup m k ∨
    hash_lookup (snd (hash_update m k v)) k = None;
  hash_update_other (m : M) (k k' : K) (v : V) : k' ≠ k →
    hash_lookup (snd (hash_update m k v)) k' = hash_lookup m k' ∨
    hash_lookup (snd (hash_update m k v)) k' = None;
  hash_delete_hit (m : M) (k : K) : hash_lookup (hash_delete m k) k = None;
  hash_delete_other (m : M) (k k' : K) : k' ≠ k →
    hash_lookup (hash_delete m k) k' = hash_lookup m k';
}.

(** A plain hash map that never refuses and never evicts. *)
#[export] Instance plain_hash {K V} `{Countable K} : LruHash (gmap K V) K V := {
  hash_lookup m k := m !! k;
  hash_update m k v := (0, <[k:=v]> m);
  hash_delete m k := delete k m;
}.

(** A map with room for one entry only: an update evicts the rest. *)
Record one_slot (K V : Type) := OneSlot { slot_entry : option (K * V) }.
Arguments OneSlot {K V} _.
Arguments slot_entry {K V} _.

#[export] Instance one_slot_hash {K V} `{EqDecision K} : LruHash (one_slot K V) K V := {
  hash_lookup m k := match slot_entry m with
                     | Some (k', v) => if decide (k' = k) then Some v else None
                     | None => None
                     end;
  hash_update m k v := (0, OneSlot (Some (k, v)));
  hash_delete m k := match slot_entry m with
                     | Some (k', v) => if decide (k' = k) then OneSlot None else m
                     | None => m
                     end;
}.

(** ** A concrete run: memory given as segments of bytes *)

Definition memory : Type := list (Z * list Z).

Fixpoint mem_byte (m : memory) (a : Z) : option Z :=
  match m with
  | [] => None
  | (base, l) :: m =>
      if (base <=? a) && (a <? base + Z.of_nat (length l))
      then l !! Z.to_nat (a - base) else mem_byte m a
  end.

Fixpoint mem_bytes (m : memory) (a : Z) (n : nat) : option (list Z) :=
  match n with
  | O => Some []
  | S n => b ← mem_byte m a; l ← mem_bytes m (a + 1) n; Some (u8 b :: l)
  end.

(** The C string at [a] cut at [n] bytes; [None] when a byte before its
    NUL is not mapped. *)
Fixpoint mem_str (m : memory) (a : Z) (n : nat) : option (list Z) :=
  match n with
  | O => Some []
  | S n => b ← mem_byte m a;
           if u8 b =? 0 then Some [] else l ← mem_str m (a + 1) n; Some (u8 b :: l)
  end.

(** -EFAULT *)
Definition EFAULT : Z := -14.

Definition image_read (m : memory) (a : Z) (n : nat) : Z * list Z :=
  match mem_bytes m a n with
  | Some l => (0, l)
  | None => (EFAULT, zeros n)
  end.

Definition image_read_str (m : memory) (a : Z) (dst : list Z) : Z * list Z :=
  match dst with
  | [] => (EFAULT, [])
  | _ => match mem_str m a (length dst - 1) with
         | Some s => str_copy dst s
         | None => (EFAULT, zeros (length dst))
         end
  end.

Definition image_ctx (cpu : nat) (pid_tgid uid_gid ktime : Z) (comm : list Z) (task : Z)
    (kmem umem : memory) : ctx :=
  Ctx cpu (u64 pid_tgid) (u64 uid_gid) (u64 ktime)
    (map u8 (take 16 (comm ++ zeros 16))) task
    (image_read kmem) (image_read umem) (image_read_str kmem) (image_read_str umem).

(** ** Lemmas: string copies *)

Lemma length_str_copy dst s : (0 < length dst)%nat → length (snd (str_copy dst s)) = length dst.
Proof.
  intros. unfold str_copy; simpl. rewrite length_app. cbn [length].
  rewrite length_drop, length_take. lia.
Qed.

Lemma str_copy_ret dst s :
  fst (str_copy dst s) = Z.of_nat (length (take (length dst - 1) s)) + 1.
Proof. done. Qed.

(** The copy, read back as a C string. *)
Lemma cstr_str_copy dst s : 0 ∉ s → cstr (snd (str_copy dst s)) = take (length dst - 1) s.
Proof.
  intros Hs. unfold str_copy; cbn [snd]. by apply cstr_app_nul, not_elem_of_take.
Qed.

Lemma str_copy_bytes dst s : is_bytes dst → is_bytes s → is_bytes (snd (str_copy dst s)).
Proof.
  intros Hd Hs. unfold str_copy, is_bytes; cbn [snd].
  apply Forall_app; split; [by apply Forall_take|]. constructor; [done|by apply Forall_drop].
Qed.

(** ** Lemmas: the map instances *)

#[export] Instance plain_hash_laws {K V} `{Countable K} : LruHashLaws (gmap K V) K V.
Proof.
  split; cbn; intros; try done.
  - apply lookup_insert_eq.
  - left. by apply lookup_insert_ne.
  - apply lookup_delete_eq.
  - by apply lookup_delete_ne.
Qed.

#[export] Instance one_slot_laws {K V} `{EqDecision K} : LruHashLaws (one_slot K V) K V.
Proof.
  split; cbn; intros; try done.
  - by rewrite decide_True.
  - right. by rewrite decide_False.
  - destruct m as [[[k' v]|]]; cbn; [|done]. case_decide; [done|]. cbn. by rewrite decide_False.
  - destruct m as [[[k1 v]|]]; cbn; [|done]. destruct (decide (k1 = k)) as [->|]; [|done].
    cbn. by rewrite decide_False.
Qed.

(** ** Lemmas: per-CPU arrays *)

Lemma array_lookup_store {V} (m : list V) k k' v :
  is_Some (array_lookup m k) → 0 ≤ k' →
  array_lookup (array_store m k v) k' = if decide (k' = k) then Some v else array_lookup m k'.
Proof.
  unfold array_lookup, array_store. intros [x Hx] Hk'.
  destruct (0 <=? k) eqn:E; [|done]. apply Z.leb_le in E.
  rewrite (proj2 (Z.leb_le 0 k') Hk'). case_decide as Hk.
  - subst. apply list_lookup_insert_eq. by eapply lookup_lt_Some.
  - apply list_lookup_insert_ne. lia.
Qed.

Lemma length_array_store {V} (m : list V) k v : length (array_store m k v) = length m.
Proof. apply length_insert. Qed.

Lemma percpu_lookup_store {V} (m : list (list V)) cpu k k' v :
  is_Some (percpu_lookup m cpu k) → 0 ≤ k' →
  percpu_lookup (percpu_store m cpu k v) cpu k'
  = if decide (k' = k) then Some v else percpu_lookup m cpu k'.
Proof.
  unfold percpu_lookup, percpu_store. rewrite list_lookup_alter_eq.
  destruct (m !! cpu); cbn; [|by intros [? ?]]. apply array_lookup_store.
Qed.

Lemma percpu_lookup_store_ne {V} (m : list (list V)) cpu cpu' k k' v :
  cpu' ≠ cpu → percpu_lookup (percpu_store m cpu k v) cpu' k' = percpu_lookup m cpu' k'.
Proof. intros. unfold percpu_lookup, percpu_store. by rewrite list_lookup_alter_ne. Qed.

(** ** Lemmas: the concrete run *)

Lemma u8_is_byte b : is_byte (u8 b).
Proof. unfold is_byte, u8. by apply wrap_range. Qed.

Lemma length_mem_bytes m a n l : mem_bytes m a n = Some l → length l = n.
Proof.
  revert a l; induction n as [|n IH]; cbn; intros a l H; [by simplify_eq|].
  destruct (mem_byte m a); [|done]; cbn in H.
  destruct (mem_bytes m (a + 1) n) eqn:E; [|done]; cbn in H. simplify_eq. cbn. by erewrite IH.
Qed.

Lemma mem_bytes_bytes m a n l : mem_bytes m a n = Some l → is_bytes l.
Proof.
  revert a l; induction n as [|n IH]; cbn; intros a l H; [simplify_eq; constructor|].
  destruct (mem_byte m a); [|done]; cbn in H.
  destruct (mem_bytes m (a + 1) n) eqn:E; [|done]; cbn in H. simplify_eq.
  constructor; [apply u8_is_byte|by eapply IH].
Qed.

Lemma mem_str_bytes m a n l : mem_str m a n = Some l → is_bytes l.
Proof.
  revert a l; induction n as [|n IH]; cbn; intros a l H; [simplify_eq; constructor|].
  destruct (mem_byte m a); [|done]; cbn in H. destruct (u8 _ =? 0); [simplify_eq; constructor|].
  destruct (mem_str m (a + 1) n) eqn:E; [|done]; cbn in H. simplify_eq.
  constructor; [apply u8_is_byte|by eapply IH].
Qed.

Lemma zeros_bytes n : is_bytes (zeros n).
Proof. apply Forall_replicate. done. Qed.

(** Prefixes of a mapped range are mapped. *)
Lemma mem_bytes_prefix m a n l k :
  mem_bytes m a n = Some l → (k ≤ n)%nat → mem_bytes m a k = Some (take k l).
Proof.
  revert a l k; induction n as [|n IH]; intros a l k H Hk.
  - cbn in H. simplify_eq. destruct k; [done|lia].
  - cbn in H. destruct (mem_byte m a) eqn:Eb; [|done]; cbn in H.
    destruct (mem_bytes m (a + 1) n) eqn:E; [|done]; cbn in H. simplify_eq.
    destruct k; [done|]. cbn. rewrite Eb; cbn. rewrite (IH _ _ k E) by lia. done.
Qed.

(** A mapped string with its NUL reads as that string, cut at [n]. *)
Lemma mem_str_mapped m a s n :
  mem_bytes m a (length s + 1) = Some (s ++ [0]) → 0 ∉ s → mem_str m a n = Some (take n s).
Proof.
  revert a n; induction s as [|b s IH]; intros a n H Hs.
  - destruct n; [done|]. cbn in H. destruct (mem_byte m a) eqn:Eb; [|done]; cbn in *.
    simplify_eq. rewrite Eb; cbn. by rewrite H.
  - destruct n; [done|]. cbn in H. destruct (mem_byte m a) eqn:Eb; [|done]; cbn in *.
    destruct (mem_bytes m (a + 1) (length s + 1)) eqn:E; [|done]; cbn in H. simplify_eq.
    rewrite not_elem_of_cons in Hs. destruct Hs as [Hb Hs]. rewrite Eb; cbn.
    destruct (Z.eqb_spec (u8 z) 0); [congruence|]. by rewrite (IH (a + 1) n).
Qed.

Lemma image_str_at m a s dst :
  mem_bytes m a (length s + 1) = Some (s ++ [0]) → 0 ∉ s → (0 < length dst)%nat →
  image_read_str m a dst = str_copy dst s.
Proof.
  intros H Hs Hd. unfold image_read_str.
  destruct dst as [|d dst]; [cbn in Hd; lia|]. rewrite (mem_str_mapped _ _ _ _ H Hs).
  unfold str_copy. by rewrite take_take, Nat.min_id.
Qed.

Section image.
Context (cpu : nat) (pt ug kt : Z) (comm : list Z) (task : Z) (km um : memory).
Let c := image_ctx cpu pt ug kt comm task km um.

Lemma image_read_len m a n : length (snd (image_read m a n)) = n.
Proof.
  unfold image_read. destruct (mem_bytes m a n) eqn:E; cbn.
  - by eapply length_mem_bytes.
  - apply length_replicate.
Qed.

Lemma image_read_bytes m a n : is_bytes (snd (image_read m a n)).
Proof.
  unfold image_read. destruct (mem_bytes m a n) eqn:E; cbn.
  - by eapply mem_bytes_bytes.
  - apply zeros_bytes.
Qed.

Lemma image_read_str_len m a dst : length (snd (image_read_str m a dst)) = length dst.
Proof.
  destruct dst as [|d dst]; [done|]. unfold image_read_str.
  destruct (mem_str _ _ _); [apply length_str_copy; cbn; lia|]. apply length_replicate.
Qed.

Lemma image_read_str_bytes m a dst : is_bytes dst → is_bytes (snd (image_read_str m a dst)).
Proof.
  intros Hd. destruct dst as [|d dst]; [constructor|]. unfold image_read_str.
  destruct (mem_str _ _ _) eqn:E; [|apply zeros_bytes].
  apply str_copy_bytes; [done|by eapply mem_str_bytes].
Qed.

#[export] Instance image_ctx_ok : ctx_ok (image_ctx cpu pt ug kt comm task km um).
Proof.
  split; cbn [cx_pid_tgid cx_uid_gid cx_ktime cx_comm cx_read_kernel cx_read_user
    cx_read_kernel_str cx_read_user_str image_ctx]; auto with bpf;
    eauto using image_read_len, image_read_bytes, image_read_str_len, image_read_str_bytes.
  - rewrite length_map, length_take, length_app. unfold zeros. rewrite length_replicate. lia.
  - unfold is_bytes. apply Forall_fmap, Forall_true. intros; apply u8_is_byte.
Qed.

Lemma image_ustr_at a s :
  mem_bytes um a (length s + 1) = Some (s ++ [0]) → 0 ∉ s → ustr_at c a s.
Proof. intros H Hs. split; [done|]. intros dst Hd. by apply image_str_at. Qed.

Lemma image_kstr_at a s :
  mem_bytes km a (length s + 1) = Some (s ++ [0]) → 0 ∉ s → kstr_at c a s.
Proof. intros H Hs. split; [done|]. intros dst Hd. by apply image_str_at. Qed.

Lemma image_kmem_at a l : mem_bytes km a (length l) = Some l → kmem_at c a l.
Proof.
  intros H n Hn. cbn. unfold image_read. by rewrite (mem_bytes_prefix _ _ _ _ _ H Hn).
Qed.

Lemma image_umem_at a l : mem_bytes um a (length l) = Some l → umem_at c a l.
Proof.
  intros H n Hn. cbn. unfold image_read. by rewrite (mem_bytes_prefix _ _ _ _ _ H Hn).
Qed.
End image.
