(* ===== verification/CoreRead.v ===== *)
(** * CO-RE reads ([bpf_core_read.h])

    [BPF_CORE_READ(src, a, b, c)] chases pointers: every accessor but the
    last is read as a pointer, the last one with the size of its type.
    An accessor is its field's byte offset; the read function is the
    helper the macro is used with.  The second half models the bitfield
    macros, whose parameters are the field information the loader
    relocates. *)
From Stdlib Require Import ZArith Lia.
From stdpp Require Import base tactics list gmap.
From S2P Require Import Prelude.
From S2P Require Import Varargs.
From S2P Require Import Kernel.
Local Open Scope Z_scope.

(** ** Accessor lists: [___last] and [___nolast] *)

Definition last_acc (accs : list Z) : Z := List.last accs 0.
Definition nolast_acc (accs : list Z) : list Z := take (length accs - 1) accs.

Section chains.
(** The read function: the helper's return value and the bytes of the
    destination afterwards. *)
Variable rd : Z → nat → Z * list Z.

(** [___read(read_fn, dst, src_type, src, accessor)] of a pointer into
    the local [__t]. *)
Definition read_ptr (p acc : Z) : Z := le_val (snd (rd (field p acc) 8)).

(** [___read_ptrs]: [___rd_first], then [___rd_last] for each further
    accessor. *)
Definition read_ptrs (src : Z) (accs : list Z) : Z := foldl read_ptr src accs.

(** [___core_read(fn, fn_ptr, dst, src, a, ...)] with [fn_ptr] = [rd]
    and the final read [fn] given the address it reads. *)
Definition core_read {D} (fn : Z → D) (src a : Z) (rest : list Z) : D :=
  match rest with
  | [] => fn (field src a)                         (* ___core_read0 *)
  | _ => fn (field (read_ptrs src (nolast_acc (a :: rest)))
                   (last_acc (a :: rest)))         (* ___core_readN *)
  end.

(** [BPF_CORE_READ(src, a, ...)] of an [n]-byte integer or pointer. *)
Definition BPF_CORE_READ (n : nat) (src a : Z) (rest : list Z) : Z :=
  le_val (snd (core_read (λ p, rd p n) src a rest)).

(** The same for a struct of [n] bytes, as its bytes. *)
Definition BPF_CORE_READ_BYTES (n : nat) (src a : Z) (rest : list Z) : list Z :=
  snd (core_read (λ p, rd p n) src a rest).

(** The header's description of the macro, one pointer step per
    statement: [__t = s->a; __t = __t->b; ...; return __t->g]. *)
Fixpoint chase (n : nat) (p a : Z) (rest : list Z) : Z :=
  match rest with
  | [] => le_val (snd (rd (field p a) n))
  | b :: rest => chase n (read_ptr p a) b rest
  end.

(** *** The macros as the preprocessor expands them

    [None] where it would leave the name of a macro that does not exist.
    Arguments are the source pointer and then accessors. *)

(** [___last1] ... [___last10], [___nolast2] ... [___nolast10],
    [___arrow1] ... [___arrow10] (inside [___type]) *)
Definition last_macro (args : list Z) : option Z :=
  apply_ (λ n, if ((1 <=? n) && (n <=? 10))%nat then Some (last_acc args) else None) (narg args).
Definition nolast_macro (args : list Z) : option (list Z) :=
  apply_ (λ n, if ((2 <=? n) && (n <=? 10))%nat then Some (nolast_acc args) else None) (narg args).
Definition type_macro (args : list Z) : option unit :=
  apply_ (λ n, if ((1 <=? n) && (n <=? 10))%nat then Some tt else None) (narg args).

(** [___rd_p<n>(fn, src, ...)]: the value of [__t] after it. *)
Fixpoint rd_p (n : nat) (args : list Z) : option Z :=
  match n with
  | O => None
  | S O => match args with
           | [src; a] => type_macro [src];; Some (read_ptr src a)
           | _ => None
           end
  | S k => init ← nolast_macro args;
           t ← rd_p k init;
           type_macro init;;
           a ← last_macro args;
           Some (read_ptr t a)
  end.

(** [___read_ptrs(fn, src, ...)]; there is [___rd_p1] to [___rd_p9]. *)
Definition read_ptrs_macro (src : Z) (accs : list Z) : option Z :=
  apply_ (λ n, if (n <=? 9)%nat then rd_p n (src :: accs) else None) (narg accs).

(** [___core_readN(fn, fn_ptr, dst, src, ...)] *)
Definition core_readN_macro {D} (fn : Z → D) (src : Z) (accs : list Z) : option D :=
  init ← nolast_macro accs;
  t ← read_ptrs_macro src init;
  type_macro (src :: init);;
  a ← last_macro accs;
  Some (fn (field t a)).

(** [___core_read(fn, fn_ptr, dst, src, a, ...)] *)
Definition core_read_macro {D} (fn : Z → D) (src a : Z) (rest : list Z) : option D :=
  match empty_ rest with
  | Some (Num O) => type_macro [src];; Some (fn (field src a))
  | Some N_ => core_readN_macro fn src (a :: rest)
  | _ => None
  end.

(** [BPF_CORE_READ(src, a, ...)] *)
Definition BPF_CORE_READ_macro (n : nat) (src a : Z) (rest : list Z) : option Z :=
  type_macro (src :: a :: rest);;
  d ← core_read_macro (λ p, rd p n) src a rest;
  Some (le_val (snd d)).
End chains.

(** ** The read functions *)

Section variants.
Variable c : ctx.

(** [bpf_core_read], [bpf_core_read_user] and the string forms: the helper
    at the relocated address. *)
Definition bpf_core_read : Z → nat → Z * list Z := cx_read_kernel c.
Definition bpf_core_read_user : Z → nat → Z * list Z := cx_read_user c.
Definition bpf_core_read_str (src : Z) (dst : list Z) : Z * list Z := cx_read_kernel_str c src dst.
Definition bpf_core_read_user_str (src : Z) (dst : list Z) : Z * list Z := cx_read_user_str c src dst.

(** The helper's return value and the destination of [n] bytes. *)
Definition BPF_CORE_READ_INTO (n : nat) (src a : Z) (rest : list Z) : Z * list Z :=
  core_read bpf_core_read (λ p, bpf_core_read p n) src a rest.
Definition BPF_CORE_READ_USER_INTO (n : nat) (src a : Z) (rest : list Z) : Z * list Z :=
  core_read bpf_core_read_user (λ p, bpf_core_read_user p n) src a rest.
Definition BPF_PROBE_READ_INTO (n : nat) (src a : Z) (rest : list Z) : Z * list Z :=
  core_read (cx_read_kernel c) (λ p, cx_read_kernel c p n) src a rest.
Definition BPF_PROBE_READ_USER_INTO (n : nat) (src a : Z) (rest : list Z) : Z * list Z :=
  core_read (cx_read_user c) (λ p, cx_read_user c p n) src a rest.

(** The same with a string read at the end, into the array [dst]. *)
Definition BPF_CORE_READ_STR_INTO (dst : list Z) (src a : Z) (rest : list Z) : Z * list Z :=
  core_read bpf_core_read (λ p, bpf_core_read_str p dst) src a rest.
Definition BPF_CORE_READ_USER_STR_INTO (dst : list Z) (src a : Z) (rest : list Z) : Z * list Z :=
  core_read bpf_core_read_user (λ p, bpf_core_read_user_str p dst) src a rest.
Definition BPF_PROBE_READ_STR_INTO (dst : list Z) (src a : Z) (rest : list Z) : Z * list Z :=
  core_read (cx_read_kernel c) (λ p, cx_read_kernel_str c p dst) src a rest.
Definition BPF_PROBE_READ_USER_STR_INTO (dst : list Z) (src a : Z) (rest : list Z) : Z * list Z :=
  core_read (cx_read_user c) (λ p, cx_read_user_str c p dst) src a rest.

(** The forms that return the value. *)
Definition BPF_CORE_READ_USER (n : nat) (src a : Z) (rest : list Z) : Z :=
  le_val (snd (BPF_CORE_READ_USER_INTO n src a rest)).
Definition BPF_PROBE_READ (n : nat) (src a : Z) (rest : list Z) : Z :=
  le_val (snd (BPF_PROBE_READ_INTO n src a rest)).
Definition BPF_PROBE_READ_USER (n : nat) (src a : Z) (rest : list Z) : Z :=
  le_val (snd (BPF_PROBE_READ_USER_INTO n src a rest)).
End variants.

(** ** Bitfields *)

(** [enum bpf_field_info_kind]: what [__CORE_RELO] asks of a field. *)
Inductive bpf_field_info_kind :=
  | BPF_FIELD_BYTE_OFFSET
  | BPF_FIELD_BYTE_SIZE
  | BPF_FIELD_EXISTS
  | BPF_FIELD_SIGNED
  | BPF_FIELD_LSHIFT_U64
  | BPF_FIELD_RSHIFT_U64.

Definition bpf_field_info_kind_val (k : bpf_field_info_kind) : Z :=
  match k with
  | BPF_FIELD_BYTE_OFFSET => 0
  | BPF_FIELD_BYTE_SIZE => 1
  | BPF_FIELD_EXISTS => 2
  | BPF_FIELD_SIGNED => 3
  | BPF_FIELD_LSHIFT_U64 => 4
  | BPF_FIELD_RSHIFT_U64 => 5
  end.

(** The loader's answers for one field. *)
Definition field_info : Type := bpf_field_info_kind → Z.

(** [__CORE_RELO(src, field, info)] *)
Definition core_relo (f : field_info) (k : bpf_field_info_kind) : Z := f k.

(** [val <<= LSHIFT; val = SIGNED ? (long long)val >> RSHIFT : val >> RSHIFT] *)
Definition bitfield_extract (f : field_info) (val : Z) : Z :=
  let val := u64 (Z.shiftl val (core_relo f BPF_FIELD_LSHIFT_U64)) in
  if core_relo f BPF_FIELD_SIGNED =? 0
  then Z.shiftr val (core_relo f BPF_FIELD_RSHIFT_U64)
  else u64 (Z.shiftr (s64 val) (core_relo f BPF_FIELD_RSHIFT_U64)).

(** An integer in the target's byte order. *)
Definition native_val (big : bool) (l : list Z) : Z := le_val (if big then rev l else l).
Definition native_bytes (big : bool) (n : nat) (v : Z) : list Z :=
  if big then rev (le_bytes n v) else le_bytes n v.

(** [__CORE_BITFIELD_PROBE_READ(&val, src, fld)]: BYTE_SIZE bytes over the
    first bytes of the 8 of [val] (which is 0), or over the last ones on a
    big-endian target. *)
Definition CORE_BITFIELD_PROBE_READ (big : bool) (rd : Z → nat → Z * list Z) (s : Z) (f : field_info)
    : list Z :=
  let size := Z.to_nat (core_relo f BPF_FIELD_BYTE_SIZE) in
  let bytes := snd (rd (field s (core_relo f BPF_FIELD_BYTE_OFFSET)) size) in
  splice (zeros 8) (if big then 8 - size else 0) bytes.

Definition BPF_CORE_READ_BITFIELD_PROBED (big : bool) (rd : Z → nat → Z * list Z) (s : Z)
    (f : field_info) : Z :=
  bitfield_extract f (native_val big (CORE_BITFIELD_PROBE_READ big rd s f)).

(** Direct reads and writes act on the bytes [obj] of the object at [s]:
    the field's storage unit starts at BYTE_OFFSET. *)
Definition storage_read (big : bool) (f : field_info) (obj : list Z) : Z :=
  let off := Z.to_nat (core_relo f BPF_FIELD_BYTE_OFFSET) in
  match core_relo f BPF_FIELD_BYTE_SIZE with
  | 1 => native_val big (slice obj off 1)
  | 2 => native_val big (slice obj off 2)
  | 4 => native_val big (slice obj off 4)
  | 8 => native_val big (slice obj off 8)
  | _ => 0
  end.

Definition storage_write (big : bool) (f : field_info) (obj : list Z) (val : Z) : list Z :=
  let off := Z.to_nat (core_relo f BPF_FIELD_BYTE_OFFSET) in
  match core_relo f BPF_FIELD_BYTE_SIZE with
  | 1 => splice obj off (native_bytes big 1 val)
  | 2 => splice obj off (native_bytes big 2 val)
  | 4 => splice obj off (native_bytes big 4 val)
  | 8 => splice obj off (native_bytes big 8 val)
  | _ => obj
  end.

Definition BPF_CORE_READ_BITFIELD (big : bool) (obj : list Z) (f : field_info) : Z :=
  bitfield_extract f (storage_read big f obj).

(** [mask = (~0ULL << rshift) >> lshift] *)
Definition bitfield_mask (f : field_info) : Z :=
  Z.shiftr (u64 (Z.shiftl (2 ^ 64 - 1) (core_relo f BPF_FIELD_RSHIFT_U64)))
           (core_relo f BPF_FIELD_LSHIFT_U64).

(** [val = (val & ~mask) | ((nval << rpad) & mask)] *)
Definition bitfield_insert (f : field_info) (val nval : Z) : Z :=
  let rpad := u32 (core_relo f BPF_FIELD_RSHIFT_U64 - core_relo f BPF_FIELD_LSHIFT_U64) in
  let mask := bitfield_mask f in
  Z.lor (Z.ldiff val mask) (Z.land (u64 (Z.shiftl nval rpad)) mask).

Definition BPF_CORE_WRITE_BITFIELD (big : bool) (obj : list Z) (f : field_info) (new_val : Z)
    : list Z :=
  storage_write big f obj (bitfield_insert f (storage_read big f obj) (u64 new_val)).

(** What a relocated bitfield satisfies: a storage unit of 1, 2, 4 or 8
    bytes inside the object, and a field inside the unit. *)
Record bitfield_ok (f : field_info) (obj : list Z) : Prop := {
  bf_size : core_relo f BPF_FIELD_BYTE_SIZE ∈ [1; 2; 4; 8];
  bf_offset : 0 ≤ core_relo f BPF_FIELD_BYTE_OFFSET;
  bf_inside : core_relo f BPF_FIELD_BYTE_OFFSET + core_relo f BPF_FIELD_BYTE_SIZE
              ≤ Z.of_nat (length obj);
  bf_shifts : 0 ≤ core_relo f BPF_FIELD_LSHIFT_U64 ≤ core_relo f BPF_FIELD_RSHIFT_U64;
  bf_width : core_relo f BPF_FIELD_RSHIFT_U64 < 64;
  bf_unit : 64 - core_relo f BPF_FIELD_LSHIFT_U64 ≤ 8 * core_relo f BPF_FIELD_BYTE_SIZE;
}.

(** The value a field of [64 - rshift] bits can hold of [v]. *)
Definition bitfield_value (f : field_info) (v : Z) : Z :=
  let w := 64 - core_relo f BPF_FIELD_RSHIFT_U64 in
  if core_relo f BPF_FIELD_SIGNED =? 0 then wrap w v else u64 (swrap w v).

(** ** Pointer chains: lemmas and properties *)

Section chain_facts.
Variable rd : Z → nat → Z * list Z.

Lemma last_acc_cons a b l : last_acc (a :: b :: l) = last_acc (b :: l).
Proof. done. Qed.

Lemma nolast_acc_cons a b l : nolast_acc (a :: b :: l) = a :: nolast_acc (b :: l).
Proof. unfold nolast_acc. cbn. by rewrite Nat.sub_0_r. Qed.

Lemma core_read_cons {D} (fn : Z → D) src a b rest :
  core_read rd fn src a (b :: rest) = core_read rd fn (read_ptr rd src a) b rest.
Proof.
  unfold core_read. rewrite nolast_acc_cons, last_acc_cons. cbn [read_ptrs foldl].
  destruct rest; [done|]. unfold read_ptrs. by cbn [foldl].
Qed.
End chain_facts.

Lemma core_read_chase rd n src a rest : BPF_CORE_READ rd n src a rest = chase rd n src a rest.
Proof.
  unfold BPF_CORE_READ. revert src a. induction rest as [|b rest IH]; intros src a; [done|].
  rewrite core_read_cons. apply IH.
Qed.

Lemma core_read_app {D} rd (fn : Z → D) src a accs b rest :
  core_read rd fn src a (accs ++ b :: rest)
  = core_read rd fn (BPF_CORE_READ rd 8 src a accs) b rest.
Proof.
  revert src a. induction accs as [|x accs IH]; intros src a; cbn [app].
  - by rewrite core_read_cons.
  - rewrite core_read_cons, IH. f_equal. by rewrite !core_read_chase.
Qed.

(** The reading macros split as the comment says: reading through
    [accs ++ b :: rest] is reading the pointer at the end of [accs] and
    then [b :: rest] from there, whatever the final read is (an integer, a
    struct or a string, of kernel or of user memory), and with one accessor
    it is that read at the field's address. *)
Theorem BPF_CORE_READ_splits {D} rd (fn : Z → D) src a accs b rest :
  core_read rd fn src a [] = fn (field src a) ∧
  core_read rd fn src a (accs ++ b :: rest)
  = core_read rd fn (BPF_CORE_READ rd 8 src a accs) b rest.
Proof. split; [done|]. apply core_read_app. Qed.

(** *** Expansion *)

Lemma apply_num {R} (fn : nat → option R) n : apply_ (A:=Z) fn (Some (Num n)) = fn n.
Proof. done. Qed.

Lemma last_macro_ok args : (1 ≤ length args ≤ 10)%nat → last_macro args = Some (last_acc args).
Proof.
  intros H. unfold last_macro. rewrite narg_length, apply_num by lia.
  by rewrite (proj2 (Nat.leb_le _ _)), (proj2 (Nat.leb_le _ _)) by lia.
Qed.

Lemma nolast_macro_ok args : (2 ≤ length args ≤ 10)%nat → nolast_macro args = Some (nolast_acc args).
Proof.
  intros H. unfold nolast_macro. rewrite narg_length, apply_num by lia.
  by rewrite (proj2 (Nat.leb_le _ _)), (proj2 (Nat.leb_le _ _)) by lia.
Qed.

Lemma type_macro_ok args : (1 ≤ length args ≤ 10)%nat → type_macro args = Some tt.
Proof.
  intros H. unfold type_macro. rewrite narg_length, apply_num by lia.
  by rewrite (proj2 (Nat.leb_le _ _)), (proj2 (Nat.leb_le _ _)) by lia.
Qed.

Lemma type_macro_long args : (10 < length args)%nat → type_macro args = None.
Proof. intros H. unfold type_macro. rewrite narg_long by lia. apply apply_arg. Qed.

Lemma nolast_snoc l x : nolast_acc (l ++ [x]) = l.
Proof. unfold nolast_acc. rewrite length_app, Nat.add_sub. apply take_app_length. Qed.

Lemma last_snoc' l x : last_acc (l ++ [x]) = x.
Proof. apply last_last. Qed.

Lemma rd_p_step rd k args :
  rd_p rd (S (S k)) args
  = (init ← nolast_macro args; t ← rd_p rd (S k) init; type_macro init;;
     a ← last_macro args; Some (read_ptr rd t a)).
Proof. done. Qed.

Lemma rd_p_ptrs rd src accs : (1 ≤ length accs ≤ 9)%nat →
  rd_p rd (length accs) (src :: accs) = Some (read_ptrs rd src accs).
Proof.
  induction accs as [|x accs IH] using rev_ind; intros H; [cbn in H; lia|].
  rewrite length_app in H |- *. cbn [length] in H |- *. rewrite Nat.add_1_r in H |- *.
  unfold read_ptrs. rewrite foldl_app. cbn [foldl].
  destruct (length accs) as [|k] eqn:Hk.
  { destruct accs; [done|]. discriminate Hk. }
  rewrite rd_p_step, app_comm_cons.
  rewrite nolast_macro_ok, last_macro_ok by (rewrite length_app; cbn; lia).
  rewrite nolast_snoc, last_snoc'. cbn [mbind option_bind].
  rewrite IH by lia. cbn [mbind option_bind].
  by rewrite type_macro_ok by (cbn; lia).
Qed.

Lemma core_readN_ok {D} rd (fn : Z → D) src a rest : (1 ≤ length rest ≤ 8)%nat →
  core_readN_macro rd fn src (a :: rest) = Some (core_read rd fn src a rest).
Proof.
  intros H. assert (Hlen : length (nolast_acc (a :: rest)) = length rest).
  { unfold nolast_acc. rewrite length_take. cbn [length]. lia. }
  unfold core_readN_macro, read_ptrs_macro.
  rewrite nolast_macro_ok, last_macro_ok by (cbn; lia). cbn [mbind option_bind].
  rewrite narg_length, apply_num, Hlen by lia. rewrite (proj2 (Nat.leb_le _ _)) by lia.
  rewrite <- Hlen at 1. rewrite rd_p_ptrs by lia. cbn [mbind option_bind].
  rewrite type_macro_ok by (cbn [length]; lia). cbn [mbind option_bind].
  destruct rest; [cbn in H; lia|done].
Qed.

(** [BPF_CORE_READ] expands to the read it describes for up to 9
    accessors, as its comment says: the numbered helper macros it picks by
    counting arguments exist and compute the pointer chain; with more
    accessors it does not expand. *)
Theorem BPF_CORE_READ_expands rd n src a rest :
  BPF_CORE_READ_macro rd n src a rest
  = if (length rest <=? 8)%nat then Some (chase rd n src a rest) else None.
Proof.
  unfold BPF_CORE_READ_macro. destruct (Nat.leb_spec (length rest) 8) as [H|H]; last first.
  { by rewrite type_macro_long by (cbn; lia). }
  rewrite type_macro_ok by (cbn; lia). cbn [mbind option_bind].
  rewrite <- core_read_chase. unfold core_read_macro. rewrite empty_length by lia.
  destruct rest as [|b rest]; [done|]. by rewrite core_readN_ok by (cbn in *; lia).
Qed.

(** A pointer chain that starts at NULL (or follows a read that
    faulted and left zeros) ends in 0 however many accessors follow, when
    the page at address 0 is not readable. *)
Theorem BPF_CORE_READ_null rd n a rest :
  (∀ p k, 0 ≤ p < 4096 → snd (rd p k) = zeros k) →
  Forall (λ acc, 0 ≤ acc < 4096) (a :: rest) →
  BPF_CORE_READ rd n 0 a rest = 0.
Proof.
  intros Hnull Hacc. rewrite core_read_chase. revert a Hacc.
  assert (Hf : ∀ a, 0 ≤ a < 4096 → field 0 a = a) by (intros; apply u64_small; lia).
  induction rest as [|b rest IH]; intros a Hacc; inversion_clear Hacc as [|? ? Ha Hr]; cbn.
  - by rewrite Hf, Hnull, le_val_zeros.
  - unfold read_ptr. rewrite Hf, Hnull, le_val_zeros by done. by apply IH.
Qed.

Lemma BPF_CORE_READ_null_witness :
  BPF_CORE_READ (image_read [(8192, [1; 2; 3; 4; 5; 6; 7; 8])]) 8 0 16 [32; 8] = 0.
Proof.
  apply (BPF_CORE_READ_null _ 8 16 [32; 8]).
  - intros p k Hp. unfold image_read.
    destruct k as [|k]; [done|]. cbn [mem_bytes mem_byte].
    destruct (Z.leb_spec 8192 p); [lia|]. done.
  - repeat constructor; lia.
Defined.

(** ** Bitfields: lemmas and properties *)

Section bitfield_facts.
Variables (big : bool) (f : field_info) (obj : list Z).
Hypothesis Hok : bitfield_ok f obj.

Let L := core_relo f BPF_FIELD_LSHIFT_U64.
Let R := core_relo f BPF_FIELD_RSHIFT_U64.
Let size := core_relo f BPF_FIELD_BYTE_SIZE.
Let off := Z.to_nat (core_relo f BPF_FIELD_BYTE_OFFSET).

Lemma bitfield_mask_bit i : 0 ≤ i →
  Z.testbit (bitfield_mask f) i = (R - L <=? i) && (i <? 64 - L).
Proof.
  intros Hi. destruct Hok as [_ _ _ Hs Hw _]. fold L R in Hs, Hw. unfold bitfield_mask.
  fold L R. rewrite Z.shiftr_spec by done. unfold u64. rewrite testbit_wrap by lia.
  destruct (Z.ltb_spec (i + L) 64); cbn; last first.
  { rewrite (proj2 (Z.ltb_ge i (64 - L))) by lia. by rewrite andb_false_r. }
  rewrite (proj2 (Z.ltb_lt i (64 - L))) by lia. rewrite andb_true_r.
  rewrite Z.shiftl_spec by lia. destruct (Z.leb_spec (R - L) i).
  - replace (2 ^ 64 - 1) with (Z.ones 64) by done. apply Z.ones_spec_low. lia.
  - apply Z.testbit_neg_r. lia.
Qed.

(** The new storage unit: the field's bits from the new value, the
    others kept. *)
Lemma bitfield_insert_bit val nval i : 0 ≤ i →
  Z.testbit (bitfield_insert f val nval) i
  = if (R - L <=? i) && (i <? 64 - L) then Z.testbit nval (i - (R - L)) else Z.testbit val i.
Proof.
  intros Hi. pose proof Hok as [_ _ _ Hs Hw _]. fold L R in Hs, Hw.
  unfold bitfield_insert. fold L R. rewrite (u32_small (R - L)) by lia.
  rewrite Z.lor_spec, Z.ldiff_spec, Z.land_spec, bitfield_mask_bit by done.
  destruct ((R - L <=? i) && (i <? 64 - L)) eqn:E; cbn.
  - rewrite andb_false_r, andb_true_r; cbn. apply andb_true_iff in E as [E1 E2].
    apply Z.leb_le in E1. apply Z.ltb_lt in E2.
    unfold u64. rewrite testbit_wrap, Z.shiftl_spec by lia.
    by rewrite (proj2 (Z.ltb_lt i 64)) by lia.
  - by rewrite andb_true_r, andb_false_r, orb_false_r.
Qed.

Lemma bitfield_size_nat :
  (size = 1 ∨ size = 2 ∨ size = 4 ∨ size = 8) ∧ (off + Z.to_nat size ≤ length obj)%nat.
Proof.
  destruct Hok as [Hz Ho Hi _ _ _]. fold size in Hz, Hi. subst off.
  rewrite !elem_of_cons, elem_of_nil in Hz. split; [naive_solver|]. lia.
Qed.

Lemma storage_read_slice o : storage_read big f o = native_val big (slice o off (Z.to_nat size)).
Proof.
  unfold storage_read. fold size off.
  destruct bitfield_size_nat as [[E|[E|[E|E]]] _]; by rewrite E.
Qed.

Lemma storage_write_splice val :
  storage_write big f obj val = splice obj off (native_bytes big (Z.to_nat size) val).
Proof.
  unfold storage_write. fold size off.
  destruct bitfield_size_nat as [[E|[E|[E|E]]] _]; by rewrite E.
Qed.

Lemma storage_write_outside val :
  let obj' := storage_write big f obj val in
  length obj' = length obj ∧ take off obj' = take off obj ∧
  drop (off + Z.to_nat size) obj' = drop (off + Z.to_nat size) obj.
Proof.
  cbv zeta. rewrite storage_write_splice. pose proof bitfield_size_nat as [_ Hl].
  assert (Hn : length (native_bytes big (Z.to_nat size) val) = Z.to_nat size).
  { unfold native_bytes. destruct big; by rewrite ?length_rev, length_le_bytes. }
  split_and!.
  - apply length_splice. lia.
  - unfold splice. rewrite take_app_le by (rewrite length_take; lia). by rewrite take_take, Nat.min_id.
  - rewrite <- Hn at 1. rewrite drop_splice_after by lia. by rewrite Hn.
Qed.

Lemma storage_read_write val :
  storage_read big f (storage_write big f obj val) = wrap (8 * size) val.
Proof.
  rewrite storage_read_slice, storage_write_splice. pose proof bitfield_size_nat as [Hz Hl].
  unfold slice. rewrite drop_splice by lia.
  rewrite take_app_length' by (unfold native_bytes; destruct big; by rewrite ?length_rev, length_le_bytes).
  unfold native_val, native_bytes. replace (if big then rev _ else _) with (le_bytes (Z.to_nat size) val)
    by (destruct big; by rewrite ?rev_involutive).
  rewrite le_val_le_bytes. unfold wrap. f_equal.
  destruct Hz as [E|[E|[E|E]]]; by rewrite E.
Qed.
End bitfield_facts.

(** Bits of an extracted field, unsigned and signed. *)
Lemma bitfield_extract_bit f val i :
  0 ≤ core_relo f BPF_FIELD_LSHIFT_U64 ≤ core_relo f BPF_FIELD_RSHIFT_U64 →
  core_relo f BPF_FIELD_RSHIFT_U64 < 64 → 0 ≤ i →
  Z.testbit (bitfield_extract f val) i =
    let L := core_relo f BPF_FIELD_LSHIFT_U64 in
    let R := core_relo f BPF_FIELD_RSHIFT_U64 in
    if core_relo f BPF_FIELD_SIGNED =? 0
    then (i + R <? 64) && Z.testbit val (i + R - L)
    else (i <? 64) && Z.testbit val (Z.min (i + R) 63 - L).
Proof.
  intros HL HR Hi. cbv zeta. unfold bitfield_extract.
  set (L := core_relo f BPF_FIELD_LSHIFT_U64) in *.
  set (R := core_relo f BPF_FIELD_RSHIFT_U64) in *.
  destruct (_ =? 0).
  - unfold u64. rewrite Z.shiftr_spec, testbit_wrap by lia.
    destruct (i + R <? 64); cbn; [|done]. by rewrite Z.shiftl_spec by lia.
  - unfold u64 at 1, s64. rewrite testbit_wrap by lia. destruct (i <? 64); cbn; [|done].
    rewrite Z.shiftr_spec, testbit_swrap by lia. unfold u64. rewrite testbit_wrap by lia.
    rewrite (proj2 (Z.ltb_lt _ 64)) by lia. cbn. by rewrite Z.shiftl_spec by lia.
Qed.

Lemma bitfield_value_bit f v i :
  0 ≤ core_relo f BPF_FIELD_RSHIFT_U64 < 64 → 0 ≤ i →
  Z.testbit (bitfield_value f v) i =
    let R := core_relo f BPF_FIELD_RSHIFT_U64 in
    if core_relo f BPF_FIELD_SIGNED =? 0
    then (i + R <? 64) && Z.testbit v i
    else (i <? 64) && Z.testbit v (Z.min i (63 - R)).
Proof.
  intros HR Hi. cbv zeta. unfold bitfield_value.
  set (R := core_relo f BPF_FIELD_RSHIFT_U64) in *. destruct (_ =? 0).
  - rewrite testbit_wrap by lia. f_equal. destruct (Z.ltb_spec i (64 - R)).
    + symmetry. apply Z.ltb_lt. lia.
    + symmetry. apply Z.ltb_ge. lia.
  - unfold u64. rewrite testbit_wrap by lia. destruct (i <? 64); cbn; [|done].
    rewrite testbit_swrap by lia. do 2 f_equal. lia.
Qed.

(** Reading a bitfield after writing it gives the written value cut
    to the field's width (and sign-extended to 64 bits for a signed
    field), whatever the storage unit held, in
    both byte orders. *)
Theorem BITFIELD_read_write big f obj v :
  bitfield_ok f obj →
  BPF_CORE_READ_BITFIELD big (BPF_CORE_WRITE_BITFIELD big obj f v) f = bitfield_value f v.
Proof.
  intros Hok. unfold BPF_CORE_READ_BITFIELD, BPF_CORE_WRITE_BITFIELD.
  rewrite (storage_read_write big f obj Hok). pose proof Hok as [_ _ _ HL HR Hu].
  apply Z.bits_inj'. intros i Hi.
  rewrite bitfield_extract_bit, bitfield_value_bit by lia. cbv zeta.
  set (L := core_relo f BPF_FIELD_LSHIFT_U64) in *.
  set (R := core_relo f BPF_FIELD_RSHIFT_U64) in *.
  assert (Hbit : ∀ k, 0 ≤ k < 64 - R →
    Z.testbit (wrap (8 * core_relo f BPF_FIELD_BYTE_SIZE)
                 (bitfield_insert f (storage_read big f obj) (u64 v))) (k + R - L) = Z.testbit v k).
  { intros k Hk. rewrite testbit_wrap, (proj2 (Z.ltb_lt _ _)), (bitfield_insert_bit f obj Hok) by lia.
    fold L R. cbn. rewrite (proj2 (Z.leb_le _ _)), (proj2 (Z.ltb_lt _ _)) by lia. cbn.
    unfold u64. rewrite testbit_wrap, (proj2 (Z.ltb_lt _ _)) by lia. cbn. f_equal. lia. }
  destruct (_ =? 0).
  - destruct (Z.ltb_spec (i + R) 64); cbn; [|done]. apply Hbit. lia.
  - destruct (i <? 64); cbn; [|done].
    replace (Z.min (i + R) 63 - L) with (Z.min i (63 - R) + R - L) by lia. apply Hbit. lia.
Qed.

(** Writing a bitfield changes nothing else: the bytes outside its
    storage unit stay, and so does every bit of the unit outside the field,
    in both byte orders. *)
Theorem BITFIELD_write_frame big f obj v :
  bitfield_ok f obj →
  let obj' := BPF_CORE_WRITE_BITFIELD big obj f v in
  let off := Z.to_nat (core_relo f BPF_FIELD_BYTE_OFFSET) in
  let size := core_relo f BPF_FIELD_BYTE_SIZE in
  let L := core_relo f BPF_FIELD_LSHIFT_U64 in
  let R := core_relo f BPF_FIELD_RSHIFT_U64 in
  length obj' = length obj ∧ take off obj' = take off obj ∧
  drop (off + Z.to_nat size) obj' = drop (off + Z.to_nat size) obj ∧
  ∀ j, 0 ≤ j < 8 * size → (j < R - L ∨ 64 - L ≤ j) →
    Z.testbit (storage_read big f obj') j = Z.testbit (storage_read big f obj) j.
Proof.
  intros Hok. cbv zeta. unfold BPF_CORE_WRITE_BITFIELD.
  destruct (storage_write_outside big f obj Hok
              (bitfield_insert f (storage_read big f obj) (u64 v))) as (H1 & H2 & H3).
  split_and!; [done..|]. intros j Hj Hout. rewrite (storage_read_write big f obj Hok), testbit_wrap by lia.
  rewrite (proj2 (Z.ltb_lt _ _)), (bitfield_insert_bit f obj Hok) by lia. cbn.
  destruct Hout.
  - by rewrite (proj2 (Z.leb_gt _ _)) by lia.
  - rewrite (proj2 (Z.ltb_ge j _)) by lia. by rewrite andb_false_r.
Qed.

(** The probing read and the direct read of a bitfield agree, on both
    byte orders: the destination offset the header adjusts on big-endian
    targets puts the unit into the low-order bytes of the 64-bit value. *)
Theorem BITFIELD_probed_agrees big rd s f obj :
  bitfield_ok f obj → is_bytes obj →
  snd (rd (field s (core_relo f BPF_FIELD_BYTE_OFFSET)) (Z.to_nat (core_relo f BPF_FIELD_BYTE_SIZE)))
  = slice obj (Z.to_nat (core_relo f BPF_FIELD_BYTE_OFFSET)) (Z.to_nat (core_relo f BPF_FIELD_BYTE_SIZE)) →
  BPF_CORE_READ_BITFIELD_PROBED big rd s f = BPF_CORE_READ_BITFIELD big obj f.
Proof.
  intros Hok Hb Hrd. unfold BPF_CORE_READ_BITFIELD_PROBED, BPF_CORE_READ_BITFIELD. f_equal.
  rewrite (storage_read_slice big f obj Hok). unfold CORE_BITFIELD_PROBE_READ. rewrite Hrd.
  destruct (bitfield_size_nat f obj Hok) as [Hz Hl].
  set (k := Z.to_nat (core_relo f BPF_FIELD_BYTE_SIZE)) in *.
  set (u := slice obj _ k). assert (Hu : length u = k) by (apply length_slice; lia).
  assert (Hk : (k ≤ 8)%nat) by (subst k; destruct Hz as [E|[E|[E|E]]]; rewrite E; lia).
  unfold native_val, splice. rewrite Hu. destruct big.
  - replace (8 - k + k)%nat with 8%nat by lia.
    rewrite (drop_ge (zeros 8)) by done. rewrite app_nil_r. unfold zeros.
    rewrite take_replicate, Nat.min_l, rev_app_distr by lia.
    rewrite (rev_alt (replicate _ _)). fold (reverse (replicate (8 - k) 0)).
    rewrite reverse_replicate. apply le_val_zeros_r.
  - cbn [take app Nat.add]. unfold zeros. rewrite drop_replicate. apply le_val_zeros_r.
Qed.

(** [unsigned int secureexec : 1] of [struct linux_binprm]: bit 2 of a
    4-byte unit, and a signed 3-bit neighbour. *)
Definition sample_bit (off lo width : Z) (signed : Z) : field_info := λ k,
  match k with
  | BPF_FIELD_BYTE_OFFSET => off
  | BPF_FIELD_BYTE_SIZE => 4
  | BPF_FIELD_EXISTS => 1
  | BPF_FIELD_SIGNED => signed
  | BPF_FIELD_LSHIFT_U64 => 64 - (lo + width)
  | BPF_FIELD_RSHIFT_U64 => 64 - width
  end.

Lemma sample_bit_ok off lo width signed obj :
  0 ≤ off → off + 4 ≤ Z.of_nat (length obj) → 0 ≤ lo → 0 < width → lo + width ≤ 32 →
  bitfield_ok (sample_bit off lo width signed) obj.
Proof.
  intros. split; cbn; try lia. rewrite !elem_of_cons. auto.
Qed.

Lemma BITFIELD_read_write_witness :
  BPF_CORE_READ_BITFIELD true
    (BPF_CORE_WRITE_BITFIELD true [9; 9; 255; 255; 255; 255; 7] (sample_bit 2 5 3 1) 6)
    (sample_bit 2 5 3 1) = 2 ^ 64 - 2.
Proof.
  rewrite (BITFIELD_read_write true (sample_bit 2 5 3 1)); [reflexivity|].
  apply sample_bit_ok; cbn; lia.
Defined.

Lemma BITFIELD_write_frame_witness :
  let obj := [9; 9; 4; 0; 0; 0; 7] in
  let obj' := BPF_CORE_WRITE_BITFIELD false obj (sample_bit 2 5 3 1) 6 in
  take 2 obj' = [9; 9] ∧ Z.testbit (storage_read false (sample_bit 2 5 3 1) obj') 2 = true.
Proof.
  assert (Hok : bitfield_ok (sample_bit 2 5 3 1) [9; 9; 4; 0; 0; 0; 7])
    by (apply sample_bit_ok; cbn; lia).
  destruct (BITFIELD_write_frame false _ _ 6 Hok) as (_ & H & _ & Hj). split; [apply H|].
  rewrite (Hj 2); [reflexivity|cbn; lia|cbn; lia].
Defined.

Lemma BITFIELD_probed_agrees_witness :
  BPF_CORE_READ_BITFIELD_PROBED true (image_read [(8192, [9; 9; 4; 0; 0; 160; 7])]) 8192
    (sample_bit 2 5 3 1) = 2 ^ 64 - 3.
Proof.
  rewrite (BITFIELD_probed_agrees true _ 8192 (sample_bit 2 5 3 1) [9; 9; 4; 0; 0; 160; 7]).
  - reflexivity.
  - apply sample_bit_ok; cbn; lia.
  - repeat constructor; done.
  - reflexivity.
Defined.
