(* ===== verification/Tracing.v ===== *)
(** * Arguments of traced functions ([bpf_tracing.h])

    Which register carries which argument, per target architecture, and
    how the program wrappers ([BPF_PROG], [BPF_PROG2], [BPF_KPROBE],
    [BPF_KSYSCALL]) unpack the raw context into typed arguments.  A
    register is named by the [struct pt_regs] accessor the header uses;
    [None] stands for [__unsupported__]. *)
From Stdlib Require Import ZArith Lia String.
From stdpp Require Import base tactics list strings.
From S2P Require Import Prelude.
From S2P Require Import Varargs.
From S2P Require Import Kernel.
From S2P Require Import CoreRead.
Local Open Scope Z_scope.

(** ** Target selection *)

Inductive target :=
  | T_x86 | T_s390 | T_arm | T_arm64 | T_mips | T_powerpc | T_sparc | T_riscv | T_arc | T_loongarch.

#[export] Instance target_eq_dec : EqDecision target.
Proof. solve_decision. Defined.

(** The macro chains of the header's first block, in their order. *)
Definition target_arch_macros : list (string * target) :=
  [("__TARGET_ARCH_x86", T_x86); ("__TARGET_ARCH_s390", T_s390); ("__TARGET_ARCH_arm", T_arm);
   ("__TARGET_ARCH_arm64", T_arm64); ("__TARGET_ARCH_mips", T_mips);
   ("__TARGET_ARCH_powerpc", T_powerpc); ("__TARGET_ARCH_sparc", T_sparc);
   ("__TARGET_ARCH_riscv", T_riscv); ("__TARGET_ARCH_arc", T_arc);
   ("__TARGET_ARCH_loongarch", T_loongarch)]%string.

Definition compiler_macros : list (string * target) :=
  [("__x86_64__", T_x86); ("__s390__", T_s390); ("__arm__", T_arm); ("__aarch64__", T_arm64);
   ("__mips__", T_mips); ("__powerpc__", T_powerpc); ("__sparc__", T_sparc);
   ("__riscv && __riscv_xlen == 64", T_riscv); ("__arc__", T_arc); ("__loongarch__", T_loongarch)]%string.

(** The first macro of a chain that [defined] holds of. *)
Fixpoint first_defined (defined : string → bool) (ms : list (string * target)) : option target :=
  match ms with
  | [] => None
  | (m, t) :: ms => if defined m then Some t else first_defined defined ms
  end.

(** [-D__TARGET_ARCH_...] first, then what the compiler says. *)
Definition bpf_target (defined : string → bool) : option target :=
  match first_defined defined target_arch_macros with
  | Some t => Some t
  | None => first_defined defined compiler_macros
  end.

(** ** Registers *)

(** x86 has three layouts: the kernel's (with vmlinux.h), and the user
    space ones of i386 and x86_64. *)
Inductive abi :=
  | A_x86_kernel | A_i386 | A_x86_64
  | A_s390 | A_arm | A_arm64 | A_mips | A_powerpc (powerpc64 : bool) | A_sparc (sparc64 : bool)
  | A_riscv | A_arc | A_loongarch.

Definition abi_of (t : target) (vmlinux_or_kernel i386 arch64 : bool) : abi :=
  match t with
  | T_x86 => if vmlinux_or_kernel then A_x86_kernel else if i386 then A_i386 else A_x86_64
  | T_s390 => A_s390
  | T_arm => A_arm
  | T_arm64 => A_arm64
  | T_mips => A_mips
  | T_powerpc => A_powerpc arch64
  | T_sparc => A_sparc arch64
  | T_riscv => A_riscv
  | T_arc => A_arc
  | T_loongarch => A_loongarch
  end.

Local Open Scope string_scope.

(** What the header's section for one architecture defines. *)
Record arch_regs := ArchRegs {
  ar_cast : string;             (* the struct [__PT_REGS_CAST] casts to *)
  ar_parm : list string;        (* [__PT_PARM1_REG] ... ; past the end [__unsupported__] *)
  ar_syscall : list string;     (* [__PT_PARM1_SYSCALL_REG] ... *)
  ar_orig : option string;      (* the struct [PT_REGS_PARM1_SYSCALL] is overridden to read *)
  ar_wrapped : bool;            (* whether [PT_REGS_SYSCALL_REGS] is PARM1 rather than the context *)
  r_ret : string;               (* [__PT_RET_REG] *)
  r_fp : option string;         (* [__PT_FP_REG] *)
  r_rc : string;                (* [__PT_RC_REG] *)
  r_sp : string;                (* [__PT_SP_REG] *)
  r_ip : string                 (* [__PT_IP_REG] *)
}.

Definition x86_kernel_regs : arch_regs :=
  ArchRegs "pt_regs" ["di"; "si"; "dx"; "cx"; "r8"; "r9"] ["di"; "si"; "dx"; "r10"; "r8"; "r9"]
    None true "sp" (Some "bp") "ax" "sp" "ip".

Definition i386_regs : arch_regs :=
  ArchRegs "pt_regs" ["eax"; "edx"; "ecx"] ["ebx"; "ecx"; "edx"; "esi"; "edi"; "ebp"]
    None true "esp" (Some "ebp") "eax" "esp" "eip".

Definition x86_64_regs : arch_regs :=
  ArchRegs "pt_regs" ["rdi"; "rsi"; "rdx"; "rcx"; "r8"; "r9"]
    ["rdi"; "rsi"; "rdx"; "r10"; "r8"; "r9"] None true "rsp" (Some "rbp") "rax" "rsp" "rip".

Definition s390_regs : arch_regs :=
  ArchRegs "user_pt_regs" ["gprs[2]"; "gprs[3]"; "gprs[4]"; "gprs[5]"; "gprs[6]"]
    ["orig_gpr2"; "gprs[3]"; "gprs[4]"; "gprs[5]"; "gprs[6]"; "gprs[7]"]
    (Some "pt_regs___s390") true "gprs[14]" (Some "gprs[11]") "gprs[2]" "gprs[15]" "psw.addr".

Definition arm_regs : arch_regs :=
  ArchRegs "pt_regs" ["uregs[0]"; "uregs[1]"; "uregs[2]"; "uregs[3]"]
    ["uregs[0]"; "uregs[1]"; "uregs[2]"; "uregs[3]"; "uregs[4]"; "uregs[5]"; "uregs[6]"]
    None true "uregs[14]" (Some "uregs[11]") "uregs[0]" "uregs[13]" "uregs[12]".

Definition arm64_regs : arch_regs :=
  ArchRegs "user_pt_regs"
    ["regs[0]"; "regs[1]"; "regs[2]"; "regs[3]"; "regs[4]"; "regs[5]"; "regs[6]"; "regs[7]"]
    ["orig_x0"; "regs[1]"; "regs[2]"; "regs[3]"; "regs[4]"; "regs[5]"]
    (Some "pt_regs___arm64") true "regs[30]" (Some "regs[29]") "regs[0]" "sp" "pc".

Definition mips_regs : arch_regs :=
  ArchRegs "pt_regs"
    ["regs[4]"; "regs[5]"; "regs[6]"; "regs[7]"; "regs[8]"; "regs[9]"; "regs[10]"; "regs[11]"]
    ["regs[4]"; "regs[5]"; "regs[6]"; "regs[7]"; "regs[8]"; "regs[9]"]
    None true "regs[31]" (Some "regs[30]") "regs[2]" "regs[29]" "cp0_epc".

(** The seventh syscall argument is 32-bit powerpc's only. *)
Definition powerpc_regs (powerpc64 : bool) : arch_regs :=
  ArchRegs "pt_regs"
    ["gpr[3]"; "gpr[4]"; "gpr[5]"; "gpr[6]"; "gpr[7]"; "gpr[8]"; "gpr[9]"; "gpr[10]"]
    (["orig_gpr3"; "gpr[4]"; "gpr[5]"; "gpr[6]"; "gpr[7]"; "gpr[8]"]
     ++ (if powerpc64 then [] else ["gpr[9]"]))
    None false "regs[31]" None "gpr[3]" "gpr[1]" "nip".

Definition sparc_regs (sparc64 : bool) : arch_regs :=
  ArchRegs "pt_regs"
    ["u_regs[UREG_I0]"; "u_regs[UREG_I1]"; "u_regs[UREG_I2]"; "u_regs[UREG_I3]";
     "u_regs[UREG_I4]"; "u_regs[UREG_I5]"]
    ["u_regs[UREG_I0]"; "u_regs[UREG_I1]"; "u_regs[UREG_I2]"; "u_regs[UREG_I3]";
     "u_regs[UREG_I4]"; "u_regs[UREG_I5]"]
    None true "u_regs[UREG_I7]" None "u_regs[UREG_I0]" "u_regs[UREG_FP]"
    (if sparc64 then "tpc" else "pc").

Definition riscv_regs : arch_regs :=
  ArchRegs "user_regs_struct" ["a0"; "a1"; "a2"; "a3"; "a4"; "a5"; "a6"; "a7"]
    ["orig_a0"; "a1"; "a2"; "a3"; "a4"; "a5"]
    (Some "pt_regs___riscv") true "ra" (Some "s0") "a0" "sp" "pc".

Definition arc_regs : arch_regs :=
  ArchRegs "user_regs_struct"
    ["scratch.r0"; "scratch.r1"; "scratch.r2"; "scratch.r3"; "scratch.r4"; "scratch.r5";
     "scratch.r6"; "scratch.r7"]
    ["scratch.r0"; "scratch.r1"; "scratch.r2"; "scratch.r3"; "scratch.r4"; "scratch.r5"]
    None false "scratch.blink" (Some "scratch.fp") "scratch.r0" "scratch.sp" "scratch.ret".

Definition loongarch_regs : arch_regs :=
  ArchRegs "user_pt_regs"
    ["regs[4]"; "regs[5]"; "regs[6]"; "regs[7]"; "regs[8]"; "regs[9]"; "regs[10]"; "regs[11]"]
    ["regs[4]"; "regs[5]"; "regs[6]"; "regs[7]"; "regs[8]"; "regs[9]"]
    None false "regs[1]" (Some "regs[22]") "regs[4]" "regs[3]" "csr_era".

Definition regs_of (a : abi) : arch_regs :=
  match a with
  | A_x86_kernel => x86_kernel_regs
  | A_i386 => i386_regs
  | A_x86_64 => x86_64_regs
  | A_s390 => s390_regs
  | A_arm => arm_regs
  | A_arm64 => arm64_regs
  | A_mips => mips_regs
  | A_powerpc b => powerpc_regs b
  | A_sparc b => sparc_regs b
  | A_riscv => riscv_regs
  | A_arc => arc_regs
  | A_loongarch => loongarch_regs
  end.

(** [__PT_PARM<n>_REG] and [__PT_PARM<n>_SYSCALL_REG], n from 1; the ones
    an architecture leaves out become [__unsupported__]. *)
Definition PT_PARM_REG (a : abi) (n : nat) : option string :=
  match n with O => None | S k => ar_parm (regs_of a) !! k end.
Definition PT_PARM_SYSCALL_REG (a : abi) (n : nat) : option string :=
  match n with O => None | S k => ar_syscall (regs_of a) !! k end.

(** The struct type a [struct pt_regs *] is cast to before the access;
    the first syscall argument may be in a member only another has. *)
Definition PT_REGS_CAST (a : abi) : string := ar_cast (regs_of a).
Definition PT_REGS_SYSCALL_CAST (a : abi) (n : nat) : string :=
  match n, ar_orig (regs_of a) with
  | 1%nat, Some s => s
  | _, _ => PT_REGS_CAST a
  end.

Local Close Scope string_scope.

Section regs.
(** Offsets of registers in the struct they are read from, the kernel
    read of CO-RE, and the program's direct load of a 64-bit word. *)
Variable off_reg : string → string → Z.
Variable rd : Z → nat → Z * list Z.
Variable ld : Z → Z.
Variable a : abi.

(** [BPF_CORE_READ(cast(x), r)] and [cast(x)->r]. *)
Definition read_reg (cast : string) (x : Z) (r : option string) : option Z :=
  r' ← r; Some (BPF_CORE_READ rd 8 x (off_reg cast r') []).
Definition load_reg (cast : string) (x : Z) (r : option string) : option Z :=
  r' ← r; Some (ld (field x (off_reg cast r'))).

(** [PT_REGS_PARMn(x)] and the other direct accessors. *)
Definition PT_REGS_PARM (n : nat) (x : Z) : option Z :=
  load_reg (PT_REGS_CAST a) x (PT_PARM_REG a n).
Definition PT_REGS_RET (x : Z) : option Z :=
  load_reg (PT_REGS_CAST a) x (Some (r_ret (regs_of a))).
Definition PT_REGS_FP (x : Z) : option Z :=
  load_reg (PT_REGS_CAST a) x (r_fp (regs_of a)).
Definition PT_REGS_RC (x : Z) : option Z :=
  load_reg (PT_REGS_CAST a) x (Some (r_rc (regs_of a))).
Definition PT_REGS_SP (x : Z) : option Z :=
  load_reg (PT_REGS_CAST a) x (Some (r_sp (regs_of a))).
Definition PT_REGS_IP (x : Z) : option Z :=
  load_reg (PT_REGS_CAST a) x (Some (r_ip (regs_of a))).

(** The same with a CO-RE read. *)
Definition PT_REGS_PARM_CORE (n : nat) (x : Z) : option Z :=
  read_reg (PT_REGS_CAST a) x (PT_PARM_REG a n).
Definition PT_REGS_RET_CORE (x : Z) : option Z :=
  read_reg (PT_REGS_CAST a) x (Some (r_ret (regs_of a))).
Definition PT_REGS_FP_CORE (x : Z) : option Z :=
  read_reg (PT_REGS_CAST a) x (r_fp (regs_of a)).
Definition PT_REGS_RC_CORE (x : Z) : option Z :=
  read_reg (PT_REGS_CAST a) x (Some (r_rc (regs_of a))).
Definition PT_REGS_SP_CORE (x : Z) : option Z :=
  read_reg (PT_REGS_CAST a) x (Some (r_sp (regs_of a))).
Definition PT_REGS_IP_CORE (x : Z) : option Z :=
  read_reg (PT_REGS_CAST a) x (Some (r_ip (regs_of a))).

(** [PT_REGS_PARMn_CORE_SYSCALL(x)], and [PT_REGS_PARMn_SYSCALL(x)],
    which is the CO-RE read where the argument is in an [orig_*] member. *)
Definition PT_REGS_PARM_CORE_SYSCALL (n : nat) (x : Z) : option Z :=
  read_reg (PT_REGS_SYSCALL_CAST a n) x (PT_PARM_SYSCALL_REG a n).
Definition PT_REGS_PARM_SYSCALL (n : nat) (x : Z) : option Z :=
  match n, ar_orig (regs_of a) with
  | 1%nat, Some _ => PT_REGS_PARM_CORE_SYSCALL n x
  | _, _ => load_reg (PT_REGS_CAST a) x (PT_PARM_SYSCALL_REG a n)
  end.

(** The return address of a probed function, at its entry and at its
    return: a register, or a word of the stack. *)
Definition BPF_KPROBE_READ_RET_IP (ctx : Z) : option Z :=
  match a with
  | A_powerpc _ => load_reg "pt_regs" ctx (Some "link")
  | A_sparc _ | A_arm64 => PT_REGS_RET ctx
  | _ => p ← PT_REGS_RET ctx; Some (le_val (snd (rd p 8)))
  end%string.
Definition BPF_KRETPROBE_READ_RET_IP (ctx : Z) : option Z :=
  match a with
  | A_powerpc _ | A_sparc _ | A_arm64 => BPF_KPROBE_READ_RET_IP ctx
  | _ => p ← PT_REGS_FP ctx; Some (le_val (snd (rd (field p 8) 8)))
  end.

(** [PT_REGS_SYSCALL_REGS(ctx)] *)
Definition PT_REGS_SYSCALL_REGS (ctx : Z) : option Z :=
  if ar_wrapped (regs_of a) then PT_REGS_PARM 1 ctx else Some ctx.

(** [___bpf_kprobe_args]: PARM1 .. PARMn after the context;
    [___bpf_kretprobe_args]: the return value. *)
Fixpoint bpf_kprobe_args (n : nat) (ctx : Z) : list (option Z) :=
  match n with
  | O => []
  | S k => bpf_kprobe_args k ctx ++ [PT_REGS_PARM (S k) ctx]
  end.
Definition bpf_kretprobe_args (n : nat) (ctx : Z) : list (option Z) :=
  match n with
  | O => []
  | _ => [PT_REGS_RC ctx]
  end.

(** [___bpf_syscall_args] and [___bpf_syswrap_args] *)
Fixpoint bpf_syscall_args (n : nat) (regs : Z) : list (option Z) :=
  match n with
  | O => []
  | S k => bpf_syscall_args k regs ++ [PT_REGS_PARM_SYSCALL (S k) regs]
  end.
Fixpoint bpf_syswrap_args (n : nat) (regs : Z) : list (option Z) :=
  match n with
  | O => []
  | S k => bpf_syswrap_args k regs ++ [PT_REGS_PARM_CORE_SYSCALL (S k) regs]
  end.

(** [BPF_KSYSCALL]: the arguments, of the wrapped registers when the
    kernel has syscall wrappers. *)
Definition BPF_KSYSCALL_args (has_wrapper : bool) (n : nat) (ctx : Z) : option (list (option Z)) :=
  regs ← (if has_wrapper then PT_REGS_PARM 1 ctx else Some ctx);
  Some (if has_wrapper then bpf_syswrap_args n regs else bpf_syscall_args n regs).
End regs.

(** An accessor when no target is defined: the compiler is told to fail,
    and the value would be 0. *)
Definition PT_REGS_target (t : option abi) (accessor : abi → option Z) : option Z :=
  match t with
  | None => Some 0
  | Some a => accessor a
  end.

(** ** [BPF_PROG] and [BPF_PROG2] *)

(** [___bpf_ctx_cast<n>]: [ctx], then [ctx[0]], ..., [ctx[n - 1]]. *)
Fixpoint bpf_ctx_cast (n : nat) (ctx : list Z) : list Z :=
  match n with
  | O => []
  | S k => bpf_ctx_cast k ctx ++ [nth k ctx 0]
  end.

(** [BPF_PROG(name, args...)] passes [___bpf_ctx_cast(args)]: the macro of
    the number of parameters, of which there are 13. *)
Definition BPF_PROG_args (params : list string) (ctx : list Z) : option (list Z) :=
  apply_ (λ n, if (n <=? 12)%nat then Some (bpf_ctx_cast n ctx) else None) (bpf_narg params).

(** [___bpf_treg_cnt(t)]: u64 slots of an argument of that size. *)
Definition bpf_treg_cnt (size : nat) : option nat :=
  match size with
  | 1 | 2 | 4 | 8 => Some 1%nat
  | 16 => Some 2%nat
  | _ => None
  end%nat.

(** [___bpf_reg_cnt] of the arguments with the given sizes. *)
Fixpoint bpf_reg_cnt (sizes : list nat) : option nat :=
  match sizes with
  | [] => Some 0%nat
  | t :: args => n ← bpf_reg_cnt args; k ← bpf_treg_cnt t; Some (n + k)%nat
  end.

(** [___bpf_union_arg(t, x, n)]: the low [size] bytes of [ctx[n]] (and
    [ctx[n + 1]]). *)
Definition bpf_union_arg (size : nat) (ctx : list Z) (n : nat) : option Z :=
  match size with
  | 1%nat => Some (u8 (nth n ctx 0))
  | 2%nat => Some (u16 (nth n ctx 0))
  | 4%nat => Some (u32 (nth n ctx 0))
  | 8%nat => Some (u64 (nth n ctx 0))
  | 16%nat => Some (u64 (nth n ctx 0) + Z.shiftl (u64 (nth (n + 1) ctx 0)) 64)
  | _ => None
  end.

(** [___bpf_ctx_arg(args)]: argument k at slot [total - reg_cnt(args from k)]. *)
Fixpoint bpf_ctx_args (total : nat) (sizes : list nat) (ctx : list Z) : option (list Z) :=
  match sizes with
  | [] => Some []
  | t :: args =>
      n ← bpf_reg_cnt (t :: args);
      x ← bpf_union_arg t ctx (total - n);
      l ← bpf_ctx_args total args ctx;
      Some (x :: l)
  end.

Definition BPF_PROG2_values (sizes : list nat) (ctx : list Z) : option (list Z) :=
  total ← bpf_reg_cnt sizes; bpf_ctx_args total sizes ctx.

(** [BPF_PROG2(name, args...)] passes [___bpf_ctx_arg(args)]; its
    parameters are given as pairs of arguments, a type (here its size) and a
    name. *)
Definition BPF_PROG2_args (params : list (nat * string)) (ctx : list Z) : option (list Z) :=
  apply_ (λ n, if (n <=? 12)%nat then BPF_PROG2_values (map fst params) ctx else None)
    (bpf_narg2 (concat (map (λ p, [inl (fst p); inr (snd p)]) params))).

(** ** Properties *)

Lemma bpf_ctx_cast_take n (ctx : list Z) :
  (n ≤ length ctx)%nat → bpf_ctx_cast n ctx = take n ctx.
Proof.
  induction n as [|n IH]; intros Hn; [done|]. cbn [bpf_ctx_cast]. rewrite IH by lia.
  destruct (lookup_lt_is_Some_2 ctx n ltac:(lia)) as [x Hx].
  by rewrite (take_S_r _ _ _ Hx), (nth_lookup_Some _ _ 0 _ Hx).
Qed.

(** [BPF_PROG] passes the first [n] slots of the context, in order, to a
    program of [n] parameters, for up to 12 of them; with more the macro
    does not expand. *)
Theorem BPF_PROG_in_order params (ctx : list Z) :
  (length params ≤ length ctx)%nat →
  BPF_PROG_args params ctx
  = if (length params <=? 12)%nat then Some (take (length params) ctx) else None.
Proof.
  intros Hlen. unfold BPF_PROG_args. destruct (Nat.leb_spec (length params) 12) as [H|H].
  - rewrite bpf_narg_length by lia. cbn [apply_]. rewrite (proj2 (Nat.leb_le _ _)) by lia.
    f_equal. by apply bpf_ctx_cast_take.
  - rewrite bpf_narg_long by lia. apply apply_arg.
Qed.

Lemma BPF_PROG_in_order_witness :
  BPF_PROG_args ["bprm"; "ret"]%string [17; 4; 99] = Some [17; 4].
Proof. rewrite (BPF_PROG_in_order ["bprm"; "ret"]%string [17; 4; 99]); [reflexivity|cbn; lia]. Defined.

(** The slots an argument list takes, in order. *)
Fixpoint arg_slots (sizes : list nat) (at_slot : nat) : option (list nat) :=
  match sizes with
  | [] => Some []
  | t :: args => k ← bpf_treg_cnt t; l ← arg_slots args (at_slot + k); Some (at_slot :: l)
  end.

Lemma bpf_reg_cnt_cons t args n :
  bpf_reg_cnt (t :: args) = Some n ↔
  ∃ m k, bpf_reg_cnt args = Some m ∧ bpf_treg_cnt t = Some k ∧ n = (m + k)%nat.
Proof.
  cbn. destruct (bpf_reg_cnt args) as [m|]; cbn; [|naive_solver].
  destruct (bpf_treg_cnt t) as [k|]; cbn; naive_solver.
Qed.

Lemma bpf_ctx_args_slots total at_slot sizes ctx n :
  bpf_reg_cnt sizes = Some n → total = (at_slot + n)%nat →
  bpf_ctx_args total sizes ctx =
    (l ← arg_slots sizes at_slot; mapM (λ p, bpf_union_arg (fst p) ctx (snd p)) (zip sizes l)).
Proof.
  revert at_slot n. induction sizes as [|t args IH]; intros at_slot n Hn ->; [done|].
  pose proof Hn as (m & k & Hm & Hk & ->)%bpf_reg_cnt_cons.
  cbn [bpf_ctx_args arg_slots]. rewrite Hn, Hk. cbn [mbind option_bind].
  rewrite (IH (at_slot + k)%nat m) by (done || lia).
  replace (at_slot + (m + k) - (m + k))%nat with at_slot by lia.
  destruct (arg_slots args (at_slot + k)) as [l|]; cbn [mbind option_bind zip zip_with mapM fst snd];
    by destruct (bpf_union_arg t ctx at_slot).
Qed.

Lemma length_prog2_tokens {A B} (params : list (A * B)) :
  length (concat (map (λ p, [inl (fst p); inr (snd p)]) params)) = (2 * length params)%nat.
Proof. induction params as [|p params IH]; cbn; [done|]. cbn in IH. lia. Qed.

(** [BPF_PROG2] places argument k after the slots of the arguments
    before it (a 16-byte struct takes two), although the macro counts from
    the end: its index arithmetic is the running sum.  It expands for up to
    12 parameters. *)
Theorem BPF_PROG2_places params ctx n :
  bpf_reg_cnt (map fst params) = Some n →
  BPF_PROG2_args params ctx =
    if (length params <=? 12)%nat then
      l ← arg_slots (map fst params) 0;
      mapM (λ p, bpf_union_arg (fst p) ctx (snd p)) (zip (map fst params) l)
    else None.
Proof.
  intros Hn. unfold BPF_PROG2_args. pose proof (length_prog2_tokens params) as Ht.
  destruct (Nat.leb_spec (length params) 12) as [H|H].
  - rewrite (bpf_narg2_pairs _ (length params)) by done. cbn [apply_].
    rewrite (proj2 (Nat.leb_le _ _)) by lia. unfold BPF_PROG2_values. rewrite Hn.
    by apply (bpf_ctx_args_slots n 0 (map fst params) ctx n).
  - rewrite bpf_narg2_long by lia. apply apply_arg.
Qed.

Lemma BPF_PROG2_places_witness :
  BPF_PROG2_args [(4, "a"); (16, "s"); (1, "b")]%nat%string [2 ^ 32 + 5; 7; 1; 300]
  = Some [5; 7 + 2 ^ 64; 44].
Proof. rewrite (BPF_PROG2_places [(4, "a"); (16, "s"); (1, "b")]%nat%string _ 4); reflexivity. Defined.

(** On both targets the agent is built for, a syscall's arguments are
    read from registers of the kernel's [struct pt_regs]: the function
    call registers except [r10] for the fourth on x86 (its [rcx] holds
    the return address) and [orig_x0] for the first on arm64. *)
Theorem syscall_regs_of_targets :
  map (PT_PARM_SYSCALL_REG (abi_of T_x86 true false true)) (seq 1 6)
  = map Some ["di"; "si"; "dx"; "r10"; "r8"; "r9"]%string ∧
  map (PT_PARM_SYSCALL_REG (abi_of T_arm64 true false true)) (seq 1 6)
  = map Some ["orig_x0"; "regs[1]"; "regs[2]"; "regs[3]"; "regs[4]"; "regs[5]"]%string ∧
  ∀ a n r, PT_PARM_SYSCALL_REG a n = Some r → (1 ≤ n ≤ 7)%nat.
Proof.
  split; [done|]. split; [done|]. intros a n r.
  destruct n as [|n]; [done|]. intros Hr%lookup_lt_Some. split; [lia|].
  enough (length (ar_syscall (regs_of a)) ≤ 7)%nat by lia.
  destruct a as [| | | | | | |[]|[]| | |]; cbn; lia.
Qed.

(** [BPF_KSYSCALL] reads a syscall's arguments from the same registers
    whether or not the kernel wraps its syscalls: where the program's direct
    loads see what the kernel read sees, the wrapped arguments are those the
    unwrapped form would take from the registers the wrapper's first argument
    points to; only the struct type of the first one differs where the
    architecture keeps it in an [orig_*] member. *)
Theorem ksyscall_paths_agree off_reg rd ld a n ctx :
  (∀ p, ld p = le_val (snd (rd p 8%nat))) →
  BPF_KSYSCALL_args off_reg rd ld a true n ctx
  = (regs ← PT_REGS_PARM off_reg ld a 1 ctx; BPF_KSYSCALL_args off_reg rd ld a false n regs).
Proof.
  intros Hld. unfold BPF_KSYSCALL_args. destruct (PT_REGS_PARM off_reg ld a 1 ctx) as [regs|]; [|done].
  cbn [mbind option_bind]. f_equal. induction n as [|n IH]; [done|]. cbn. rewrite IH. f_equal. f_equal.
  unfold PT_REGS_PARM_SYSCALL, PT_REGS_PARM_CORE_SYSCALL, load_reg, read_reg, PT_REGS_SYSCALL_CAST,
    BPF_CORE_READ, core_read.
  destruct n as [|n], (ar_orig (regs_of a)); try done;
    apply option_bind_ext_fun; intros r; by rewrite Hld.
Qed.

Lemma ksyscall_paths_agree_witness :
  let ld p := p mod 1000 in
  let rd p n := (0, le_bytes n (p mod 1000)) in
  let off (c r : string) := Z.of_nat (String.length r) in
  BPF_KSYSCALL_args off rd ld A_x86_kernel true 4 500
  = (regs ← PT_REGS_PARM off ld A_x86_kernel 1 500; BPF_KSYSCALL_args off rd ld A_x86_kernel false 4 regs).
Proof.
  apply (ksyscall_paths_agree (λ c r, Z.of_nat (String.length r))
           (λ p n, (0, le_bytes n (p mod 1000))) (λ p, p mod 1000)).
  intros p. cbn [snd]. rewrite le_val_le_bytes_small; [done|].
  pose proof (Z.mod_pos_bound p 1000 ltac:(lia)). change (256 ^ Z.of_nat 8) with (2 ^ 64). lia.
Defined.
