(* ===== verification/KernelTypes.v ===== *)
(** * The programs' reads on the kernel's types

    [program_reads] lists the accesses of the programs with the accessors
    the models use, and [core_chain] the accessor list a [BPF_CORE_READ] of C
    member names compiles to.  On objects laid out as declared, the macro
    reads what the C expression [p->a->b.c] denotes.  [Relocation] gives the
    reads on a kernel of any layout, [KernelReads] puts the programs on it. *)
From Stdlib Require Import ZArith Lia String.
From stdpp Require Import base tactics list strings.
From S2P Require Import Prelude.
From S2P Require Import CLayout.
From S2P Require Import Vmlinux.
From S2P Require Import Kernel.
From S2P Require Import CoreRead.
From S2P Require Import Tracing.
Local Open Scope Z_scope.

(** ** Types by name *)

(** What a pointer points to, by its spelling. *)
Definition env : Type := list (string * ctype).

Fixpoint pointee (e : env) (s : string) : option ctype :=
  match e with
  | [] => None
  | (x, t) :: e => if String.eqb x s then Some t else pointee e s
  end.

(** linsensor.bpf.c's own view of arm64's registers: the header's [struct
    pt_regs] is x86's. *)
Definition pt_regs___siem : ctype := c_struct [(Declr "regs" None, CArr 31 Vmlinux.__u64)]%string.

(** The header's structs, and the program's flavour of [struct pt_regs]: on
    an arm64 kernel it is that kernel's [struct pt_regs]. *)
Definition vmlinux_env : env :=
  [("struct task_struct", Vmlinux.task_struct); ("struct dentry", Vmlinux.dentry);
   ("struct vfsmount", Vmlinux.vfsmount); ("struct mount", Vmlinux.mount);
   ("struct inode", Vmlinux.inode); ("struct super_block", Vmlinux.super_block);
   ("struct file", Vmlinux.file); ("struct fdtable", Vmlinux.fdtable);
   ("struct files_struct", Vmlinux.files_struct); ("struct fs_struct", Vmlinux.fs_struct);
   ("struct mm_struct", Vmlinux.mm_struct); ("struct cred", Vmlinux.cred);
   ("struct linux_binprm", Vmlinux.linux_binprm); ("struct pt_regs", Vmlinux.pt_regs);
   ("struct trace_event_raw_sys_enter", Vmlinux.trace_event_raw_sys_enter);
   ("struct trace_event_raw_sys_exit", Vmlinux.trace_event_raw_sys_exit);
   ("struct pt_regs___siem", pt_regs___siem)]%string.

(** [BPF_CORE_READ(p, a, b, ...)] with [p] a pointer to [t]: the accessors'
    offsets and the type of the last member; each but the last must be a
    pointer to a known type. *)
Fixpoint core_chain (e : env) (t : ctype) (a : list string) (rest : list (list string))
    : option (list Z * ctype) :=
  f ← path t a;
  match f_bits f, rest with
  | Some _, _ => None
  | None, [] => Some ([f_bit f / 8], f_type f)
  | None, b :: rest =>
      match f_type f with
      | CPtr s =>
          t ← pointee e s;
          '(os, r) ← core_chain e t b rest;
          Some (f_bit f / 8 :: os, r)
      | _ => None
      end
  end.

(** The offset of a member of the header's struct. *)
Definition off (t : ctype) (x : string) : Z := default 0 (offsetof t [x]).

(** ** The reads of the programs

    One line per [BPF_CORE_READ] of the sources: the C expression (the type
    of the pointer and the members), and the accessors and the size with
    which the model of the program makes the read. *)
Record program_read := Read {
  pr_type : string;
  pr_first : list string;
  pr_rest : list (list string);
  pr_offs : list Z;
  pr_size : Z;
}.

Section reads.
Context {KL : KernelLayout}.
Local Open Scope string_scope.

(** [build_path] and [in_denied_dir]: BPF_CORE_READ(vm, mnt_root), (d,
    d_parent), (mnt, mnt_parent), (mnt, mnt_mountpoint), (d, d_name) and the
    address [&mp->mnt]. *)
Definition walk_reads : list program_read :=
  [Read "struct vfsmount" ["mnt_root"] [] [off_vfsmount_mnt_root] 8;
   Read "struct dentry" ["d_parent"] [] [off_dentry_d_parent] 8;
   Read "struct mount" ["mnt_parent"] [] [off_mount_mnt_parent] 8;
   Read "struct mount" ["mnt_mountpoint"] [] [off_mount_mnt_mountpoint] 8;
   Read "struct dentry" ["d_name"] [] [off_dentry_d_name] (Z.of_nat qstr_size);
   Read "struct dentry" ["d_name"; "len"] [] [(off_dentry_d_name + Z.of_nat off_qstr_len)%Z] 4;
   Read "struct dentry" ["d_name"; "name"] [] [(off_dentry_d_name + Z.of_nat off_qstr_name)%Z] 8;
   Read "struct mount" ["mnt"] [] [off_mount_mnt] (sizeof Vmlinux.vfsmount)].

(** [fd_file] and [dir_of] *)
Definition fd_reads : list program_read :=
  [Read "struct task_struct" ["files"] [["fdt"]] [off_task_files; off_files_fdt] 8;
   Read "struct fdtable" ["max_fds"] [] [off_fdtable_max_fds] 4;
   Read "struct fdtable" ["fd"] [] [off_fdtable_fd] 8;
   Read "struct task_struct" ["fs"] [] [off_task_fs] 8;
   Read "struct fs_struct" ["pwd"; "dentry"] [] [(off_fs_pwd + off_path_dentry)%Z] 8;
   Read "struct fs_struct" ["pwd"; "mnt"] [] [(off_fs_pwd + off_path_mnt)%Z] 8;
   Read "struct file" ["f_path"; "dentry"] [] [(off_file_f_path + off_path_dentry)%Z] 8;
   Read "struct file" ["f_path"; "mnt"] [] [(off_file_f_path + off_path_mnt)%Z] 8].

(** [fill] *)
Definition task_reads : list program_read :=
  [Read "struct task_struct" ["real_parent"] [["tgid"]] [off_task_real_parent; off_task_tgid] 4;
   Read "struct task_struct" ["cred"] [["euid"; "val"]] [off_task_cred; off_cred_euid] 4].

(** [handle_exec] and [handle_exit] *)
Definition life_reads : list program_read :=
  [Read "struct task_struct" ["mm"] [["exe_file"]] [off_task_mm; off_mm_exe_file] 8;
   Read "struct file" ["f_inode"] [["__i_nlink"]] [off_file_f_inode; off_inode_i_nlink] 4;
   Read "struct file" ["f_path"; "dentry"] [["d_name"; "name"]]
     [(off_file_f_path + off_path_dentry)%Z; (off_dentry_d_name + Z.of_nat off_qstr_name)%Z] 8;
   Read "struct task_struct" ["exit_code"] [] [off_task_exit_code] 4].

(** prevent.bpf.c: [in_denied_dir]'s key and [check_exec] *)
Definition lsm_reads : list program_read :=
  [Read "struct dentry" ["d_inode"] [["i_ino"]] [off_dentry_d_inode; off_inode_i_ino] 8;
   Read "struct dentry" ["d_sb"] [["s_dev"]] [off_dentry_d_sb; off_super_block_s_dev] 4;
   Read "struct linux_binprm" ["file"] [] [off_linux_binprm_file] 8;
   Read "struct task_struct" ["mm"] [["exe_file"]; ["f_path"; "dentry"]]
     [off_task_mm; off_mm_exe_file; (off_file_f_path + off_path_dentry)%Z] 8].

(** [raw_sys_enter]: the registers of the syscall's arguments, on x86
    through the header's accessors (with the registers of the header's other
    accessors), on arm64 through the program's own struct. *)
Definition x86_reg_reads : list program_read :=
  (λ r, Read "struct pt_regs" [r] [] [off_reg "pt_regs" r] 8)
    <$> (ar_parm x86_kernel_regs ++ ar_syscall x86_kernel_regs ++
         [r_ret x86_kernel_regs; r_rc x86_kernel_regs; r_sp x86_kernel_regs; r_ip x86_kernel_regs]
         ++ option_list (r_fp x86_kernel_regs))%list.

Definition arm64_reg_reads : list program_read :=
  [Read "struct pt_regs___siem" ["regs"; "[0]"] [] [off_reg "pt_regs___siem" "regs[0]"] 8;
   Read "struct pt_regs___siem" ["regs"; "[1]"] [] [off_reg "pt_regs___siem" "regs[1]"] 8;
   Read "struct pt_regs___siem" ["regs"; "[2]"] [] [off_reg "pt_regs___siem" "regs[2]"] 8;
   Read "struct pt_regs___siem" ["regs"; "[3]"] [] [off_reg "pt_regs___siem" "regs[3]"] 8].

Definition reg_reads : list program_read := (x86_reg_reads ++ arm64_reg_reads)%list.

Definition program_reads : list program_read :=
  (walk_reads ++ fd_reads ++ task_reads ++ life_reads ++ lsm_reads ++ reg_reads)%list.
End reads.

(** ** Objects in kernel memory *)

(** At each address, the spelling of the type of the object there, and its
    bytes. *)
Definition objects : Type := Z → option (string * list Z).

(** The kernel's memory holds the objects: each can be read in part. *)
Record holds_objects (e : env) (c : ctx) (objs : objects) : Prop := {
  ho_type p s obj : objs p = Some (s, obj) →
    ∃ t, pointee e s = Some t ∧ wf_type t = true ∧ Z.of_nat (length obj) = sizeof t;
  ho_addr p s obj : objs p = Some (s, obj) → 0 ≤ p ∧ p + Z.of_nat (length obj) < 2 ^ 64;
  ho_read p s obj o n : objs p = Some (s, obj) → (o + n ≤ length obj)%nat →
    cx_read_kernel c (p + Z.of_nat o) n = (0, slice obj o n);
}.

(** The bytes of the C expression [p->a->b.c] with [p] a pointer to the type
    spelled [s]: each pointer is loaded from the object it is a member of,
    and points to an object of its type. *)
Fixpoint follow (e : env) (objs : objects) (p : Z) (s : string) (a : list string)
    (rest : list (list string)) : option (list Z) :=
  '(s', obj) ← objs p;
  if negb (String.eqb s' s) then None else
  t ← pointee e s;
  v ← load t a obj;
  match rest with
  | [] => Some v
  | b :: rest =>
      f ← path t a;
      match f_type f with
      | CPtr s1 => follow e objs (le_val v) s1 b rest
      | _ => None
      end
  end.

Section follow.
Context (e : env) (c : ctx) (objs : objects) (Hobjs : holds_objects e c objs).
Local Abbreviation rd := (cx_read_kernel c).

(** One load is one helper call at the member's address. *)
Lemma read_member p s obj t a v :
  objs p = Some (s, obj) → pointee e s = Some t → load t a obj = Some v →
  ∃ f, path t a = Some f ∧ f_bits f = None ∧ Z.of_nat (length v) = sizeof (f_type f) ∧
    rd (field p (f_bit f / 8)) (length v) = (0, v).
Proof.
  intros Hp Ht Hv. destruct (ho_type _ _ _ Hobjs _ _ _ Hp) as (t' & Ht' & Hwf & Hlen).
  assert (t' = t) as -> by congruence. destruct (ho_addr _ _ _ Hobjs _ _ _ Hp) as [H0 Hmax].
  unfold load in Hv. destruct (path t a) as [f|] eqn:Hf; [|done]. cbn [mbind option_bind] in Hv.
  destruct (f_bits f) eqn:Hb; [done|]. injection Hv as <-.
  destruct (path_bytes t Hwf a f Hf Hb) as (_ & _ & Ho & Hs & Hend).
  assert (Hl : length (slice obj (Z.to_nat (f_bit f / 8)) (Z.to_nat (sizeof (f_type f))))
               = Z.to_nat (sizeof (f_type f))) by (apply length_slice; lia).
  exists f. split; [done|]. split; [done|]. rewrite Hl. split; [lia|].
  unfold field. rewrite u64_small by lia.
  rewrite <- (ho_read _ _ _ Hobjs p s obj) by (done || lia). f_equal. lia.
Qed.

Lemma follow_chase rest : ∀ p s t a v, pointee e s = Some t → follow e objs p s a rest = Some v →
  ∃ o os r, core_chain e t a rest = Some (o :: os, r) ∧ Z.of_nat (length v) = sizeof r ∧
    chase rd (length v) p o os = le_val v.
Proof.
  induction rest as [|b rest IH]; intros p s t a v Ht; cbn [follow core_chain];
    (destruct (objs p) as [[s' obj]|] eqn:Hp; [|done]); cbn [mbind option_bind];
    (destruct (String.eqb_spec s' s) as [->|]; [|done]); cbn [negb]; rewrite Ht; cbn [mbind option_bind];
    (destruct (load t a obj) as [w|] eqn:Hw; [|done]); cbn [mbind option_bind];
    destruct (read_member p s obj t a w Hp Ht Hw) as (f & Hf & Hb & Hl & Hrd).
  - intros [= ->]. rewrite Hf. cbn [mbind option_bind]. rewrite Hb.
    eexists _, [], _. split; [done|]. split; [done|]. cbn [chase]. by rewrite Hrd.
  - rewrite Hf. cbn [mbind option_bind]. rewrite Hb.
    destruct (f_type f) as [|s1| |] eqn:Hty; try done. intros Hv.
    destruct (objs (le_val w)) as [[s2 obj2]|] eqn:Hp2; [|by destruct rest; cbn [follow] in Hv; rewrite Hp2 in Hv].
    assert (s2 = s1) as ->.
    { destruct rest; cbn [follow] in Hv; rewrite Hp2 in Hv; cbn [mbind option_bind] in Hv;
        by destruct (String.eqb_spec s2 s1). }
    destruct (ho_type _ _ _ Hobjs _ _ _ Hp2) as (t1 & Ht1 & _).
    destruct (IH (le_val w) s1 t1 b v Ht1 Hv) as (o & os & r & Hc & Hr & Hch).
    rewrite Ht1. cbn [mbind option_bind]. rewrite Hc.
    eexists _, (o :: os), r. split; [done|]. split; [done|]. cbn [chase]. unfold read_ptr.
    assert (length w = 8%nat) as H8 by (cbn in Hl; lia). rewrite <- H8, Hrd. exact Hch.
Qed.
End follow.

(** ** Concrete objects *)

(** A list of objects, with decidable conditions: of known types, inside the
    address space, made of bytes, and apart. *)
Definition object_list : Type := list (Z * (string * list Z)).

Fixpoint objects_of (l : object_list) (p : Z) : option (string * list Z) :=
  match l with
  | [] => None
  | (q, o) :: l => if q =? p then Some o else objects_of l p
  end.

Definition objects_mem (l : object_list) : memory := (λ po, (fst po, snd (snd po))) <$> l.

Definition object_ok (e : env) (po : Z * (string * list Z)) : bool :=
  let '(p, (s, obj)) := po in
  match pointee e s with
  | Some t => wf_type t && (Z.of_nat (length obj) =? sizeof t)
  | None => false
  end && (0 <=? p) && (p + Z.of_nat (length obj) <? 2 ^ 64) && forallb (λ b, (0 <=? b) && (b <? 256)) obj.

Definition apart1 (po qo : Z * (string * list Z)) : bool :=
  (fst po + Z.of_nat (length (snd (snd po))) <=? fst qo)
  || (fst qo + Z.of_nat (length (snd (snd qo))) <=? fst po).

Fixpoint apart (l : object_list) : bool :=
  match l with
  | [] => true
  | po :: l => forallb (apart1 po) l && apart l
  end.

Lemma objects_of_elem l p o : objects_of l p = Some o → (p, o) ∈ l.
Proof.
  induction l as [|[q o'] l IH]; cbn; [done|]. destruct (Z.eqb_spec q p) as [->|].
  - intros [= ->]. apply list_elem_of_here.
  - intros H. by apply list_elem_of_further, IH.
Qed.

Lemma mem_byte_object l p s obj i b : apart l = true → (p, (s, obj)) ∈ l → obj !! i = Some b →
  mem_byte (objects_mem l) (p + Z.of_nat i) = Some b.
Proof.
  intros Hap Hin Hi. pose proof (lookup_lt_Some _ _ _ Hi) as Hlt.
  induction l as [|[q [s' obj']] l IH]; [by apply not_elem_of_nil in Hin|].
  cbn [apart] in Hap. apply andb_true_iff in Hap as [Hq Hap]. cbn [objects_mem fmap list_fmap mem_byte fst snd].
  apply elem_of_cons in Hin as [[= <- <- <-]|Hin].
  - rewrite (proj2 (Z.leb_le _ _)), (proj2 (Z.ltb_lt _ _)) by lia. cbn [andb].
    by replace (Z.to_nat (p + Z.of_nat i - p)) with i by lia.
  - rewrite forallb_forall in Hq. specialize (Hq _ (proj1 (list_elem_of_In _ _) Hin)).
    unfold apart1 in Hq. cbn [fst snd] in Hq. apply orb_true_iff in Hq. rewrite !Z.leb_le in Hq.
    destruct (Z.leb_spec q (p + Z.of_nat i)); cbn [andb]; [|by apply IH].
    destruct (Z.ltb_spec (p + Z.of_nat i) (q + Z.of_nat (length obj'))); [lia|by apply IH].
Qed.

Lemma mem_bytes_object l p s obj n : ∀ o, apart l = true → (p, (s, obj)) ∈ l → is_bytes obj →
  (o + n ≤ length obj)%nat → mem_bytes (objects_mem l) (p + Z.of_nat o) n = Some (slice obj o n).
Proof.
  induction n as [|n IH]; intros o Hap Hin Hb Hlen; [done|]. cbn [mem_bytes].
  destruct (lookup_lt_is_Some_2 obj o ltac:(lia)) as [b Hob].
  rewrite (mem_byte_object l p s obj o b) by done. cbn [mbind option_bind].
  replace (p + Z.of_nat o + 1) with (p + Z.of_nat (S o)) by lia.
  rewrite IH by (done || lia). cbn [mbind option_bind]. unfold slice.
  rewrite (drop_S obj b o) by done. cbn [take]. do 2 f_equal.
  unfold is_bytes in Hb. rewrite Forall_forall in Hb. apply wrap_small, Hb. by eapply list_elem_of_lookup_2.
Qed.

Lemma image_holds_objects e cpu pid uid ktime comm task umem l :
  forallb (object_ok e) l = true → apart l = true →
  holds_objects e (image_ctx cpu pid uid ktime comm task (objects_mem l) umem) (objects_of l).
Proof.
  intros Hok Hap. rewrite forallb_forall in Hok.
  assert (H : ∀ p s obj, objects_of l p = Some (s, obj) →
    (∃ t, pointee e s = Some t ∧ wf_type t = true ∧ Z.of_nat (length obj) = sizeof t) ∧
    (0 ≤ p ∧ p + Z.of_nat (length obj) < 2 ^ 64) ∧ is_bytes obj ∧ (p, (s, obj)) ∈ l).
  { intros p s obj Hp%objects_of_elem. pose proof (Hok _ (proj1 (list_elem_of_In _ _) Hp)) as Ho.
    unfold object_ok in Ho. rewrite !andb_true_iff in Ho. destruct Ho as [[[Ht H0] H1] Hb].
    apply Z.leb_le in H0. apply Z.ltb_lt in H1. split.
    - destruct (pointee e s) as [t|]; [|done]. apply andb_true_iff in Ht as [Hw Hl%Z.eqb_eq]. by exists t.
    - split; [done|]. split; [|done]. apply Forall_forall. intros b Hin. rewrite forallb_forall in Hb.
      specialize (Hb b (proj1 (list_elem_of_In _ _) Hin)). unfold is_byte. lia. }
  split.
  - intros p s obj Hp. by apply (H p s obj).
  - intros p s obj Hp. by apply (H p s obj).
  - intros p s obj o n Hp Hn. destruct (H p s obj Hp) as (_ & _ & Hb & Hin).
    cbn [image_ctx cx_read_kernel]. unfold image_read. by rewrite (mem_bytes_object l p s obj).
Qed.

(** ** The types of the header *)

Section types.
Import Vmlinux.
Definition kernel_types : list ctype :=
  [vfsmount; hlist_node; rb_node; callback_head; llist_node; list_head; hlist_head; __u32; __u64;
   u64; mount; seqcount; seqcount_t; seqcount_spinlock; seqcount_spinlock_t; hlist_bl_node; u32;
   qstr; shortname_store; atomic_t; __u8; u8; __u16; u16; qspinlock; arch_spinlock_t;
   raw_spinlock; spinlock; spinlock_t; lockref; dentry; umode_t; __kernel_uid32_t; uid_t; kuid_t;
   __kernel_gid32_t; gid_t; kgid_t; __kernel_dev_t; dev_t; __kernel_loff_t; loff_t; __s64;
   time64_t; rw_hint; blkcnt_t; inode_state_flags_enum; inode_state_flags; s64; atomic64_t;
   atomic_long_t; optimistic_spin_queue; raw_spinlock_t; rw_semaphore; gfp_t; xarray; rb_root;
   rb_root_cached; errseq_t; address_space; inode; hlist_bl_head; qsize_t; mem_dqinfo; quota_info;
   wait_queue_head; wait_queue_head_t; rcu_sync; rcuwait; percpu_rw_semaphore; sb_writers; uuid_t;
   mutex; list_lru; work_func_t; work_struct; refcount_struct; refcount_t; super_block; path;
   fmode_t; file_ra_state; freeptr_t; file_ref_t; file; fdtable; files_struct; seqlock; seqlock_t;
   fs_struct; maple_tree; __call_single_node; irq_work; mm_mm_cid; vm_flags_t; percpu_counter;
   __s16; s16; mm_context_t; mm_flags_t; uprobes_state; mm_id_t; mm_struct; kernel_cap_t; cred;
   thread_info; load_weight; sched_avg; sched_entity; sched_rt_entity; ktime_t; timerqueue_node;
   hrtimer; dl_server_pick_f; sched_dl_entity; scx_dsq_list_node; __s32; s32; sched_ext_entity;
   uclamp_se; sched_statistics; cpumask; cpumask_t; rcu_special; timespec64; sched_info;
   plist_node; __kernel_clockid_t; clockid_t; timespec_type; restart_block; __kernel_pid_t; pid_t;
   prev_cputime; vtime_state; vtime; timerqueue_head; posix_cputimer_base; posix_cputimers;
   posix_cputimers_work; sysv_sem; sysv_shm; sigset_t; sigpending; __kernel_ulong_t;
   __kernel_size_t; size_t; seccomp; syscall_user_dispatch; wake_q_node; task_io_accounting;
   nodemask_t; rseq_event; rseq_ids; rseq_data; sched_mm_cid; arch_tlbflush_unmap_batch;
   tlbflush_unmap_batch; page_frag; lazy_mmu_state; kmap_ctrl; timer_list; llist_head;
   unwind_task_id; unwind_task_info; desc_struct; thread_shstk; thread_struct; task_struct;
   rlimit; linux_binprm; fred_cs; fred_ss; pt_regs; trace_entry; trace_event_raw_sys_enter;
   trace_event_raw_sys_exit; trace_event_raw_sched_process_exec; __kernel_sa_family_t; __be16;
   __be32; in_addr; sockaddr_in; sa_family_t; sockaddr].
End types.

Lemma kernel_types_wf t : t ∈ kernel_types → wf_type t = true.
Proof.
  assert (H : forallb wf_type kernel_types = true) by (vm_compute; reflexivity).
  rewrite forallb_forall in H. intros Ht. by apply H, list_elem_of_In.
Qed.

Lemma kernel_type_at n t : kernel_types !! n = Some t → t ∈ kernel_types.
Proof. apply list_elem_of_lookup_2. Qed.

(** ** Properties *)

(** Every member of the kernel's types lies where C puts it: inside the
    type it is a member of, through any path of members, on whole bytes unless
    it is a bitfield, and, where no struct is packed, at a multiple of its
    type's alignment. *)
Theorem members_in_bounds t xs f : t ∈ kernel_types → path t xs = Some f →
  0 ≤ f_bit f ∧ f_bit f + f_width f ≤ 8 * sizeof t ∧ (f_bits f = None → (8 | f_bit f)) ∧
  (unpacked t = true → f_bits f = None → (alignof (f_type f) | f_bit f / 8)).
Proof.
  intros Hwf%kernel_types_wf Hf. destruct (path_in t xs f Hwf Hf) as [H0 H1 _ _ H8 Ha]. split_and!; [done..|].
  intros Hu Hb. destruct (Ha Hu Hb) as [[q Hq] _]. exists q.
  rewrite Hq, (Z.mul_comm 8), Z.mul_assoc. by apply Z.div_mul.
Qed.

(** A member keeps its value: in each struct of the kernel's types,
    assigning a member is read back, changes no other member's value (through
    any path below the other member) and keeps the object's size. *)
Theorem store_then_load k ms x xs y ys f g i j v obj :
  CAgg k ms ∈ kernel_types → k ≠ AUnion →
  path (CAgg k ms) (x :: xs) = Some f → path (CAgg k ms) (y :: ys) = Some g →
  f_bits f = None → f_bits g = None → index_of x ms = Some i → index_of y ms = Some j → i ≠ j →
  Z.of_nat (length v) = sizeof (f_type f) → Z.of_nat (length obj) = sizeof (CAgg k ms) →
  let obj' := store (CAgg k ms) (x :: xs) v obj in
  load (CAgg k ms) (x :: xs) obj' = Some v ∧ load (CAgg k ms) (y :: ys) obj' = load (CAgg k ms) (y :: ys) obj ∧
  length obj' = length obj.
Proof.
  intros Hwf%kernel_types_wf **.
  split_and!; [by eapply load_store_same|by eapply load_store_other|by eapply length_store].
Qed.

(** BPF_CORE_READ reads what the C expression denotes: when the kernel's
    memory holds objects laid out as the types say and the expression
    [p->a->b.c] has a value there, the macro's expansion type-checks to a
    list of accessors and reads this value with the last member's size. *)
Theorem core_read_is_the_c_expression e c objs p s t a rest v :
  holds_objects e c objs → pointee e s = Some t → follow e objs p s a rest = Some v →
  ∃ o os r, core_chain e t a rest = Some (o :: os, r) ∧
    BPF_CORE_READ (cx_read_kernel c) (Z.to_nat (sizeof r)) p o os = le_val v.
Proof.
  intros Hobjs Ht Hv. destruct (follow_chase e c objs Hobjs rest p s t a v Ht Hv) as (o & os & r & Hc & Hl & Hch).
  exists o, os, r. split; [done|]. by rewrite core_read_chase, <- Hl, Nat2Z.id.
Qed.

(** A task and its parent, of the header's types. *)
Definition demo_task (tgid parent : Z) : string * list Z :=
  ("struct task_struct"%string,
   store Vmlinux.task_struct ["tgid"%string] (le_bytes 4 tgid)
     (store Vmlinux.task_struct ["real_parent"%string] (le_bytes 8 parent)
        (zeros (Z.to_nat (sizeof Vmlinux.task_struct))))).
Definition demo_tasks : object_list := [(0x100000, demo_task 700 0x200000); (0x200000, demo_task 77 0x200000)].

Lemma members_in_bounds_witness :
  (alignof Vmlinux.inode | 0) ∧
  ∃ f, path Vmlinux.dentry ["d_name"; "len"]%string = Some f ∧
    f_bit f + f_width f ≤ 8 * sizeof Vmlinux.dentry ∧ (8 | f_bit f).
Proof.
  split; [apply Z.divide_0_r|]. eexists. split; [reflexivity|].
  destruct (members_in_bounds Vmlinux.dentry ["d_name"; "len"]%string _ (kernel_type_at 30 _ eq_refl) eq_refl) as (_ & H1 & H2 & _).
  split; [exact H1|by apply H2].
Defined.

Lemma store_then_load_witness :
  let obj := zeros (Z.to_nat (sizeof Vmlinux.dentry)) in
  let obj' := store Vmlinux.dentry ["d_name"; "len"]%string (le_bytes 4 5) obj in
  load Vmlinux.dentry ["d_name"; "len"]%string obj' = Some [5; 0; 0; 0] ∧
  load Vmlinux.dentry ["d_inode"]%string obj' = Some (zeros 8).
Proof.
  pose proof (λ f g i j, store_then_load AStruct
    (match Vmlinux.dentry with CAgg _ ms => ms | _ => [] end) "d_name" ["len"%string] "d_inode" []
    f g i j (le_bytes 4 5) (zeros (Z.to_nat (sizeof Vmlinux.dentry)))) as H.
  edestruct H as (H1 & H2 & _); [exact (kernel_type_at 30 _ eq_refl)|done|reflexivity..|done|reflexivity|reflexivity|].
  split; [exact H1|]. etrans; [exact H2|]. reflexivity.
Defined.

Lemma core_read_is_the_c_expression_witness :
  let c := image_ctx 0 0 0 0 [] 0x100000 (objects_mem demo_tasks) [] in
  BPF_CORE_READ (cx_read_kernel c) 4 0x100000 (off Vmlinux.task_struct "real_parent")
    [off Vmlinux.task_struct "tgid"] = 77.
Proof.
  intros c.
  destruct (core_read_is_the_c_expression vmlinux_env c (objects_of demo_tasks) 0x100000 "struct task_struct"
              Vmlinux.task_struct ["real_parent"]%string [["tgid"]]%string (le_bytes 4 77))
    as (o & os & r & Hc & Hr).
  - apply image_holds_objects; vm_compute; reflexivity.
  - reflexivity.
  - vm_compute. reflexivity.
  - vm_compute in Hc. injection Hc as <- <- <-. exact Hr.
Defined.
