(* ===== verification/Relocation.v ===== *)
(** * CO-RE relocations, and kernels with other layouts

    The query macros of [bpf_core_read.h] ([bpf_core_field_exists],
    [bpf_core_type_size], ...) are calls of compiler builtins, which the
    loader answers from the type information of the kernel it loads the
    program into.  The builtins are a parameter, with what the header says
    of them as laws ([relocates]).  [relocated] is the layout the programs
    see once their accesses are relocated this way: on any kernel whose
    members keep their types, every [BPF_CORE_READ] of the programs reads
    what its C expression means there, wherever the members lie. *)
From Stdlib Require Import ZArith Lia String.
From stdpp Require Import base tactics list strings.
From S2P Require Import Prelude.
From S2P Require Import CLayout.
From S2P Require Import Vmlinux.
From S2P Require Import Kernel.
From S2P Require Import Varargs.
From S2P Require Import CoreRead.
From S2P Require Import Tracing.
From S2P Require Import KernelTypes.
Local Open Scope Z_scope.

(** ** The builtins *)

Inductive bpf_type_id_kind := BPF_TYPE_ID_LOCAL | BPF_TYPE_ID_TARGET.

Definition bpf_type_id_kind_val (k : bpf_type_id_kind) : Z :=
  match k with BPF_TYPE_ID_LOCAL => 0 | BPF_TYPE_ID_TARGET => 1 end.

Inductive bpf_type_info_kind := BPF_TYPE_EXISTS | BPF_TYPE_SIZE | BPF_TYPE_MATCHES.

Definition bpf_type_info_kind_val (k : bpf_type_info_kind) : Z :=
  match k with BPF_TYPE_EXISTS => 0 | BPF_TYPE_SIZE => 1 | BPF_TYPE_MATCHES => 2 end.

Inductive bpf_enum_value_kind := BPF_ENUMVAL_EXISTS | BPF_ENUMVAL_VALUE.

Definition bpf_enum_value_kind_val (k : bpf_enum_value_kind) : Z :=
  match k with BPF_ENUMVAL_EXISTS => 0 | BPF_ENUMVAL_VALUE => 1 end.

(** What a builtin returns in the loaded program; a type is its spelling, a
    field its path of members, the second argument the number of the enum
    above (of [bpf_field_info_kind] for a field).  [preserve_access_index]
    is the offset added to the base pointer. *)
Record core_builtins := {
  preserve_access_index : string → list string → Z;
  preserve_field_info : string → list string → Z → Z;
  btf_type_id : string → Z → Z;
  preserve_type_info : string → Z → Z;
  preserve_enum_value : string → string → Z → Z;
}.

(** ** The query macros *)

(** An argument of [bpf_core_field_exists] and the like: an access
    [p->a.b] with [p] a pointer to [s], a type, or a path of members. *)
Inductive ref_arg :=
  | RefAccess (s : string) (a : list string)
  | RefType (s : string)
  | RefMembers (a : list string).

(** [___bpf_field_ref1(field)] and [___bpf_field_ref2(type, field)], as clang
    expands them; an argument of the other sort does not compile. *)
Definition bpf_field_ref1 (x : ref_arg) : option (string * list string) :=
  match x with RefAccess s a => Some (s, a) | _ => None end.

Definition bpf_field_ref2 (x y : ref_arg) : option (string * list string) :=
  match x, y with RefType s, RefMembers a => Some (s, a) | _, _ => None end.

(** [___bpf_field_ref(args...)] *)
Definition bpf_field_ref (args : list ref_arg) : option (string * list string) :=
  apply_ (λ n, match n, args with
               | 1%nat, [x] => bpf_field_ref1 x
               | 2%nat, [x; y] => bpf_field_ref2 x y
               | _, _ => None
               end) (bpf_narg args).

Section macros.
Variable B : core_builtins.

Definition bpf_core_field_exists (field : list ref_arg) : option Z :=
  '(s, a) ← bpf_field_ref field;
  Some (preserve_field_info B s a (bpf_field_info_kind_val BPF_FIELD_EXISTS)).

Definition bpf_core_field_size (field : list ref_arg) : option Z :=
  '(s, a) ← bpf_field_ref field;
  Some (preserve_field_info B s a (bpf_field_info_kind_val BPF_FIELD_BYTE_SIZE)).

Definition bpf_core_field_offset (field : list ref_arg) : option Z :=
  '(s, a) ← bpf_field_ref field;
  Some (preserve_field_info B s a (bpf_field_info_kind_val BPF_FIELD_BYTE_OFFSET)).

Definition bpf_core_type_id_local (s : string) : Z :=
  btf_type_id B s (bpf_type_id_kind_val BPF_TYPE_ID_LOCAL).

Definition bpf_core_type_id_kernel (s : string) : Z :=
  btf_type_id B s (bpf_type_id_kind_val BPF_TYPE_ID_TARGET).

Definition bpf_core_type_exists (s : string) : Z :=
  preserve_type_info B s (bpf_type_info_kind_val BPF_TYPE_EXISTS).

Definition bpf_core_type_matches (s : string) : Z :=
  preserve_type_info B s (bpf_type_info_kind_val BPF_TYPE_MATCHES).

Definition bpf_core_type_size (s : string) : Z :=
  preserve_type_info B s (bpf_type_info_kind_val BPF_TYPE_SIZE).

Definition bpf_core_enum_value_exists (enum_type enum_value : string) : Z :=
  preserve_enum_value B enum_type enum_value (bpf_enum_value_kind_val BPF_ENUMVAL_EXISTS).

Definition bpf_core_enum_value (enum_type enum_value : string) : Z :=
  preserve_enum_value B enum_type enum_value (bpf_enum_value_kind_val BPF_ENUMVAL_VALUE).

(** [bpf_core_cast(ptr, type)], with the kernel's [bpf_rdonly_cast]. *)
Definition bpf_core_cast (bpf_rdonly_cast : Z → Z → Z) (ptr : Z) (s : string) : Z :=
  bpf_rdonly_cast ptr (bpf_core_type_id_kernel s).

(** [&p->a.b] inside [bpf_core_read]: the relocated offset of the access. *)
Definition access (s : string) (a : list string) : Z := preserve_access_index B s a.

(** ** The layout of a loaded program

    The offset of each access the programs make.  [q.len] and [q.name] are
    accesses of the local copy [struct qstr q], of the header's type. *)
#[local] Instance relocated : KernelLayout := {
  off_vfsmount_mnt_root := access "struct vfsmount" ["mnt_root"%string];
  off_mount_mnt := access "struct mount" ["mnt"%string];
  off_mount_mnt_parent := access "struct mount" ["mnt_parent"%string];
  off_mount_mnt_mountpoint := access "struct mount" ["mnt_mountpoint"%string];
  off_dentry_d_parent := access "struct dentry" ["d_parent"%string];
  off_dentry_d_name := access "struct dentry" ["d_name"%string];
  off_dentry_d_inode := access "struct dentry" ["d_inode"%string];
  off_dentry_d_sb := access "struct dentry" ["d_sb"%string];
  off_qstr_len := Z.to_nat (off Vmlinux.qstr "len");
  off_qstr_name := Z.to_nat (off Vmlinux.qstr "name");
  off_inode_i_ino := access "struct inode" ["i_ino"%string];
  off_inode_i_nlink := access "struct inode" ["__i_nlink"%string];
  off_super_block_s_dev := access "struct super_block" ["s_dev"%string];
  off_path_mnt := access "struct path" ["mnt"%string];
  off_path_dentry := access "struct path" ["dentry"%string];
  off_file_f_path := access "struct file" ["f_path"%string];
  off_file_f_inode := access "struct file" ["f_inode"%string];
  off_fdtable_max_fds := access "struct fdtable" ["max_fds"%string];
  off_fdtable_fd := access "struct fdtable" ["fd"%string];
  off_files_fdt := access "struct files_struct" ["fdt"%string];
  off_fs_pwd := access "struct fs_struct" ["pwd"%string];
  off_mm_exe_file := access "struct mm_struct" ["exe_file"%string];
  off_cred_euid := access "struct cred" ["euid"; "val"]%string;
  off_task_files := access "struct task_struct" ["files"%string];
  off_task_fs := access "struct task_struct" ["fs"%string];
  off_task_mm := access "struct task_struct" ["mm"%string];
  off_task_real_parent := access "struct task_struct" ["real_parent"%string];
  off_task_tgid := access "struct task_struct" ["tgid"%string];
  off_task_cred := access "struct task_struct" ["cred"%string];
  off_task_exit_code := access "struct task_struct" ["exit_code"%string];
  off_linux_binprm_file := access "struct linux_binprm" ["file"%string];
  off_reg s r := access ("struct " +:+ s) (accessors r);
}.
End macros.

(** ** What the loader answers *)

(** The types and enums of the kernel the program is loaded into. *)
Record kernel_btf := {
  kb_types : env;
  kb_enums : list (string * list (string * Z));
}.

Fixpoint assoc {V} (l : list (string * V)) (x : string) : option V :=
  match l with
  | [] => None
  | (y, v) :: l => if String.eqb y x then Some v else assoc l x
  end.

Definition target_field (k : kernel_btf) (s : string) (a : list string) : option found :=
  t ← pointee (kb_types k) s; path t a.

Definition target_enum_value (k : kernel_btf) (s x : string) : option Z :=
  l ← assoc (kb_enums k) s; assoc l x.

(** 1 for what is found, 0 for what is not. *)
Definition present {A} (o : option A) : Z := match o with Some _ => 1 | None => 0 end.

(** The header's comments on the macros, and on [bpf_core_read] ("allows
    libbpf to adjust BPF instruction to use correct actual field offset,
    based on target kernel BTF type"). *)
Record relocates (k : kernel_btf) (B : core_builtins) : Prop := {
  rel_access s a f : target_field k s a = Some f → f_bits f = None → access B s a = f_bit f / 8;
  rel_exists s a : preserve_field_info B s a 2 = present (target_field k s a);
  rel_offset s a f : target_field k s a = Some f → f_bits f = None →
    preserve_field_info B s a 0 = f_bit f / 8;
  rel_size s a f : target_field k s a = Some f → f_bits f = None →
    preserve_field_info B s a 1 = sizeof (f_type f);
  rel_type_id s t : pointee (kb_types k) s = Some t → 0 < btf_type_id B s 1 < 2 ^ 32;
  rel_type_id_none s : pointee (kb_types k) s = None → btf_type_id B s 1 = 0;
  rel_type_exists s : preserve_type_info B s 0 = present (pointee (kb_types k) s);
  rel_type_size s : preserve_type_info B s 1 = default 0 (sizeof <$> pointee (kb_types k) s);
  rel_enum_exists s x : preserve_enum_value B s x 0 = present (target_enum_value k s x);
  rel_enum_value s x : preserve_enum_value B s x 1 = default 0 (target_enum_value k s x);
}.

(** ** The loader, concretely

    Type IDs are positions, from 1; a type matches when it is there. *)
Fixpoint position (e : env) (s : string) : option Z :=
  match e with
  | [] => None
  | (x, _) :: e => if String.eqb x s then Some 1 else Z.succ <$> position e s
  end.

Definition btf_builtins (k : kernel_btf) : core_builtins := {|
  preserve_access_index s a := default 0 (t ← pointee (kb_types k) s; offsetof t a);
  preserve_field_info s a kind :=
    match target_field k s a, kind with
    | Some f, 0 => f_bit f / 8
    | Some f, 1 => sizeof (f_type f)
    | Some _, 2 => 1
    | _, _ => 0
    end;
  btf_type_id s _ := default 0 (position (kb_types k) s);
  preserve_type_info s kind :=
    match pointee (kb_types k) s, kind with
    | Some t, 1 => sizeof t
    | Some _, _ => 1
    | None, _ => 0
    end;
  preserve_enum_value s x kind :=
    match target_enum_value k s x, kind with
    | Some _, 0 => 1
    | Some v, _ => v
    | None, _ => 0
    end;
|}.

Lemma position_pointee e s :
  match pointee e s with
  | Some _ => ∃ i, position e s = Some i ∧ 0 < i ≤ Z.of_nat (length e)
  | None => position e s = None
  end.
Proof.
  induction e as [|[x t] e IH]; [done|]. cbn [pointee position length].
  destruct (String.eqb x s); [exists 1; split; [done|lia]|].
  destruct (pointee e s).
  - destruct IH as (i & -> & Hi). exists (Z.succ i). split; [done|lia].
  - by rewrite IH.
Qed.

Lemma btf_relocates k : Z.of_nat (length (kb_types k)) < 2 ^ 32 → relocates k (btf_builtins k).
Proof.
  intros Hlen. split; cbn [btf_builtins preserve_access_index preserve_field_info btf_type_id
    preserve_type_info preserve_enum_value].
  - intros s a f Hf Hb. unfold access, target_field in *. cbn [preserve_access_index].
    destruct (pointee (kb_types k) s) as [t|] eqn:Ht; [|done]. cbn [mbind option_bind] in Hf.
    cbn [btf_builtins preserve_access_index]. rewrite Ht. cbn [mbind option_bind].
    unfold offsetof. rewrite Hf. cbn [mbind option_bind]. by rewrite Hb.
  - intros s a. by destruct (target_field k s a).
  - by intros s a f -> _.
  - by intros s a f -> _.
  - intros s t Ht. pose proof (position_pointee (kb_types k) s) as H. rewrite Ht in H.
    destruct H as (i & -> & Hi). cbn. lia.
  - intros s Ht. pose proof (position_pointee (kb_types k) s) as H. rewrite Ht in H. by rewrite H.
  - intros s. by destruct (pointee (kb_types k) s).
  - intros s. by destruct (pointee (kb_types k) s).
  - intros s x. by destruct (target_enum_value k s x).
  - intros s x. by destruct (target_enum_value k s x).
Qed.

(** ** Fields queried before they are read *)

Section queries.
Context (k : kernel_btf) (B : core_builtins) (HB : relocates k B).

(** A program that asks whether the kernel has a member, and reads as many
    bytes as the kernel says at the offset it says, gets the member of the
    kernel's own type; the two forms of reference ask for the same member. *)
Theorem checked_field_read c objs p s a t obj :
  holds_objects (kb_types k) c objs → objs p = Some (s, obj) → pointee (kb_types k) s = Some t →
  (∀ f, path t a = Some f → f_bits f = None) →
  ∀ field, field ∈ [[RefAccess s a]; [RefType s; RefMembers a]] →
  match bpf_core_field_exists B field with
  | Some 1 => ∃ o n v, bpf_core_field_offset B field = Some o ∧ bpf_core_field_size B field = Some n ∧
                load t a obj = Some v ∧ cx_read_kernel c (Kernel.field p o) (Z.to_nat n) = (0, v)
  | Some 0 => path t a = None
  | _ => False
  end.
Proof.
  intros Hobjs Hp Ht Hbits field Hin.
  assert (Href : bpf_field_ref field = Some (s, a)).
  { repeat (apply elem_of_cons in Hin as [->|Hin]; [reflexivity|]). by apply not_elem_of_nil in Hin. }
  assert (Htf : target_field k s a = path t a) by (unfold target_field; by rewrite Ht).
  unfold bpf_core_field_exists, bpf_core_field_offset, bpf_core_field_size. rewrite Href.
  cbn [mbind option_bind bpf_field_info_kind_val]. rewrite (rel_exists _ _ HB), Htf.
  destruct (path t a) as [f|] eqn:Hf; [|done]. pose proof (Hbits f eq_refl) as Hb.
  rewrite (rel_offset _ _ HB s a f), (rel_size _ _ HB s a f) by done.
  assert (Hv : load t a obj =
    Some (slice obj (Z.to_nat (f_bit f / 8)) (Z.to_nat (sizeof (f_type f))))).
  { unfold load. rewrite Hf. cbn [mbind option_bind]. by rewrite Hb. }
  eexists _, _, _. split_and!; [done..|exact Hv|].
  destruct (read_member _ c objs Hobjs p s obj t a _ Hp Ht Hv) as (f' & Hf' & _ & Hl & Hrd).
  rewrite Hf in Hf'. injection Hf' as <-. rewrite <- Hl at 1. rewrite Nat2Z.id. exact Hrd.
Qed.

(** [bpf_core_type_id_kernel], [bpf_core_type_exists] and
    [bpf_core_type_size] agree on whether the kernel has the type, and so do
    the two enumerator queries. *)
Theorem type_queries_agree s :
  (bpf_core_type_exists B s = 1 ↔ bpf_core_type_id_kernel B s ≠ 0) ∧
  (bpf_core_type_exists B s = 0 → bpf_core_type_size B s = 0) ∧
  (∀ x, bpf_core_enum_value_exists B s x = 0 → bpf_core_enum_value B s x = 0).
Proof.
  unfold bpf_core_type_exists, bpf_core_type_id_kernel, bpf_core_type_size, bpf_core_enum_value_exists,
    bpf_core_enum_value. cbn [bpf_type_info_kind_val bpf_type_id_kind_val bpf_enum_value_kind_val].
  rewrite (rel_type_exists _ _ HB), (rel_type_size _ _ HB). split_and!.
  - destruct (pointee (kb_types k) s) as [t|] eqn:Ht.
    + pose proof (rel_type_id _ _ HB s t Ht). split; [lia|done].
    + rewrite (rel_type_id_none _ _ HB s Ht). by split.
  - by destruct (pointee (kb_types k) s).
  - intros x. rewrite (rel_enum_exists _ _ HB), (rel_enum_value _ _ HB).
    by destruct (target_enum_value k s x).
Qed.
End queries.

(** ** The programs' reads on another kernel *)

(** What a read follows and how much it reads: the structs its pointers
    point to, and the size of its last member. *)
Fixpoint chain_shape (e : env) (t : ctype) (a : list string) (rest : list (list string))
    : option (list string * Z) :=
  f ← path t a;
  match f_bits f, rest with
  | Some _, _ => None
  | None, [] => Some ([], sizeof (f_type f))
  | None, b :: rest =>
      match f_type f with
      | CPtr s => t ← pointee e s; '(ns, n) ← chain_shape e t b rest; Some (s :: ns, n)
      | _ => None
      end
  end.

Definition read_shape (e : env) (r : program_read) : option (list string * Z) :=
  t ← pointee e (pr_type r); chain_shape e t (pr_first r) (pr_rest r).

Definition member_type (e : env) (s x : string) : option ctype :=
  t ← pointee e s; f_type <$> path t [x].

(** The structs the programs see inside others: [f_path] and [pwd] are
    [struct path] of the kernel, and [d_name] is copied into the program's
    own [struct qstr]. *)
Record keeps_structs (e : env) : Prop := {
  ks_f_path : member_type e "struct file" "f_path" = pointee e "struct path";
  ks_pwd : member_type e "struct fs_struct" "pwd" = pointee e "struct path";
  ks_d_name : member_type e "struct dentry" "d_name" = Some Vmlinux.qstr;
}.

(** [a] of the type spelled [s] is a member at byte [o]. *)
Definition at_member (e : env) (s : string) (a : list string) (o : Z) : Prop :=
  ∃ t f, pointee e s = Some t ∧ wf_type t = true ∧ path t a = Some f ∧ f_bits f = None ∧ o = f_bit f / 8.

Lemma chain_at_members e (Hwf : ∀ s t, pointee e s = Some t → wf_type t = true) rest :
  ∀ s t a os ty, pointee e s = Some t → core_chain e t a rest = Some (os, ty) →
  ∃ ns, chain_shape e t a rest = Some (ns, sizeof ty) ∧ Forall3 (at_member e) (s :: ns) (a :: rest) os.
Proof.
  induction rest as [|b rest IH]; intros s t a os ty Ht; cbn [core_chain chain_shape];
    (destruct (path t a) as [f|] eqn:Hf; [|done]); cbn [mbind option_bind]; destruct (f_bits f) eqn:Hb; try done.
  - intros [= <- <-]. eexists. split; [done|]. repeat constructor. exists t, f. split_and!; eauto.
  - destruct (f_type f) as [|s1| |]; try done. destruct (pointee e s1) as [t1|] eqn:Ht1; [|done].
    cbn [mbind option_bind]. destruct (core_chain e t1 b rest) as [[os1 ty1]|] eqn:Hc; [|done].
    cbn [mbind option_bind]. intros [= <- <-]. destruct (IH s1 t1 b os1 ty1 Ht1 Hc) as (ns & -> & HF).
    eexists. split; [done|]. constructor; [|done]. exists t, f. split_and!; eauto.
Qed.

Section offsets.
Context (k : kernel_btf) (B : core_builtins) (HB : relocates k B) (Hks : keeps_structs (kb_types k)).
Local Abbreviation e := (kb_types k).

Lemma at_access s a o : at_member e s a o → access B s a = o.
Proof.
  intros (t & f & Ht & _ & Hf & Hb & ->). apply (rel_access _ _ HB); [|done].
  unfold target_field. by rewrite Ht.
Qed.

(** A member of an embedded struct lies at the sum of the offsets. *)
Lemma at_embedded s x y t' o : y ≠ [] → member_type e s x = Some t' → wf_type t' = true →
  at_member e s (x :: y) o →
  ∃ f, path t' y = Some f ∧ f_bits f = None ∧ 0 ≤ f_bit f / 8 ∧ o = access B s [x] + f_bit f / 8.
Proof.
  intros Hy Hm Hwf' (t & f & Ht & Hwf & Hf & Hb & ->).
  destruct (path_cons t x y f Hf Hy) as (g & h & Hg & Hgb & Hh & ->).
  assert (Hp : path t [x] = Some g) by (cbn [path]; by rewrite Hg).
  unfold member_type in Hm. rewrite Ht in Hm. cbn [mbind option_bind] in Hm. rewrite Hp in Hm.
  injection Hm as <-. exists h. cbn [shift f_bit f_bits] in *.
  destruct (path_bytes t Hwf [x] g Hp Hgb) as (_ & Hg8 & _).
  destruct (path_bytes (f_type g) Hwf' y h Hh Hb) as (_ & Hh8 & Hh0 & _). split_and!; [done..|].
  rewrite (at_access s [x] (f_bit g / 8)).
  - rewrite Hg8 at 1. rewrite (Z.mul_comm 8), Z.add_comm, Z.div_add by done. lia.
  - exists t, g. by split_and!.
Qed.

(** A member of a struct that is a member [x] itself: the two accesses. *)
Lemma at_inner s' s x y o : y ≠ [] → member_type e s x = pointee e s' →
  (∀ t, pointee e s' = Some t → wf_type t = true) → at_member e s (x :: y) o →
  access B s [x] + access B s' y = o.
Proof.
  intros Hy Hm Hwf Ho. pose proof Ho as (t & f & Ht & _ & Hf & _ & _).
  destruct (member_type e s x) as [t'|] eqn:Hs.
  - destruct (at_embedded s x y t' o Hy Hs (Hwf t' (eq_sym Hm)) Ho) as (g & Hg & Hb & _ & ->).
    f_equal. apply at_access. exists t', g. split_and!; eauto.
  - exfalso. destruct (path_cons t x y f Hf Hy) as (g & h & Hg & _).
    unfold member_type in Hs. rewrite Ht in Hs. cbn [mbind option_bind path] in Hs. by rewrite Hg in Hs.
Qed.

Lemma at_path s x y o : y ≠ [] → member_type e s x = pointee e "struct path"%string →
  (∀ t, pointee e "struct path"%string = Some t → wf_type t = true) → at_member e s (x :: y) o →
  access B s [x] + access B "struct path" y = o.
Proof. apply at_inner. Qed.

Lemma at_d_name y o : at_member e "struct dentry" ["d_name"%string; y] o →
  access B "struct dentry" ["d_name"%string] + Z.of_nat (Z.to_nat (off Vmlinux.qstr y)) = o.
Proof.
  intros Ho. destruct (at_embedded _ _ [y] _ _ ltac:(done) (ks_d_name _ Hks) (eq_refl : wf_type Vmlinux.qstr = true) Ho)
    as (f & Hf & Hb & H0 & ->). unfold off, offsetof. rewrite Hf. cbn [mbind option_bind]. rewrite Hb.
  cbn [from_option id]. unfold id. lia.
Qed.
End offsets.

(** One offset of a read. *)
Ltac offset_of H :=
  symmetry; first
    [ by eapply at_access
    | by eapply at_d_name
    | eapply (at_path _ _ ltac:(eassumption) _ _ [_]); [..|exact H]; eauto using ks_f_path, ks_pwd ].

Section reads_relocated.
Context (k : kernel_btf) (B : core_builtins) (HB : relocates k B) (Hks : keeps_structs (kb_types k)).
Context (Hwf : ∀ s t, pointee (kb_types k) s = Some t → wf_type t = true).
Local Abbreviation e := (kb_types k).

(** The offsets with which the models make a read are those of the members
    the loader finds. *)
Lemma reads_relocated r ns n os : r ∈ program_reads (KL := relocated B) →
  read_shape vmlinux_env r = Some (ns, n) → Forall3 (at_member e) (pr_type r :: ns) (pr_first r :: pr_rest r) os →
  os = pr_offs r ∧ n = pr_size r.
Proof.
  intros Hr.
  repeat (apply elem_of_cons in Hr as [->|Hr]; [intros Hsh HF; vm_compute in Hsh; injection Hsh as <- <-|]);
    [..|by apply not_elem_of_nil in Hr].
  all: split; [|reflexivity]; cbn [pr_type pr_first pr_rest pr_offs] in *.
  all: repeat match goal with H : Forall3 _ _ _ _ |- _ => inversion H; clear H; subst end.
  all: repeat apply (f_equal2 cons); try reflexivity.
  all: match goal with H : at_member _ _ _ ?o |- ?o = _ => offset_of H end.
Qed.
End reads_relocated.

Lemma wf_types e : forallb (λ st, wf_type (snd st)) e = true → ∀ s t, pointee e s = Some t → wf_type t = true.
Proof.
  intros H s t. induction e as [|[x t'] e IH]; [done|]. cbn [pointee forallb snd] in *.
  apply andb_true_iff in H as [Ht He]. destruct (String.eqb x s); [by intros [= <-]|by apply IH].
Qed.

Lemma follow_pointee e objs p s a rest v c : holds_objects e c objs →
  follow e objs p s a rest = Some v → ∃ t, pointee e s = Some t.
Proof.
  intros Hobjs Hv. destruct rest; cbn [follow] in Hv;
    (destruct (objs p) as [[s' obj]|]; [|done]); cbn [mbind option_bind] in Hv;
    (destruct (negb (s' =? s)%string); [done|]); destruct (pointee e s) as [t|]; try done; by exists t.
Qed.

(** One read of the table, on the kernel's objects. *)
Lemma relocated_read k B c objs r p v :
  relocates k B → keeps_structs (kb_types k) → forallb (λ st, wf_type (snd st)) (kb_types k) = true →
  holds_objects (kb_types k) c objs → r ∈ program_reads (KL := relocated B) →
  read_shape (kb_types k) r = read_shape vmlinux_env r →
  follow (kb_types k) objs p (pr_type r) (pr_first r) (pr_rest r) = Some v →
  match pr_offs r with
  | o :: os => BPF_CORE_READ (cx_read_kernel c) (Z.to_nat (pr_size r)) p o os = le_val v
  | [] => False
  end ∧ Z.of_nat (length v) = pr_size r.
Proof.
  intros HB Hks Hall Hobjs Hr Hsh Hv. pose proof (wf_types _ Hall) as Hwf.
  destruct (follow_pointee _ _ _ _ _ _ _ c Hobjs Hv) as [t Ht].
  destruct (follow_chase _ c objs Hobjs _ p _ t _ v Ht Hv) as (o & os & ty & Hc & Hl & Hch).
  destruct (chain_at_members _ Hwf _ _ t _ _ _ Ht Hc) as (ns & Hs & HF).
  assert (Hshape : read_shape vmlinux_env r = Some (ns, sizeof ty)).
  { rewrite <- Hsh. unfold read_shape. rewrite Ht. exact Hs. }
  destruct (reads_relocated k B HB Hks Hwf r ns _ _ Hr Hshape HF) as [Hos Hn].
  rewrite <- Hos, core_read_chase, <- Hn, <- Hl, Nat2Z.id. by split.
Qed.

(** C25. The programs read any kernel: on a kernel whose structs may have
    their members elsewhere, once the loader has relocated the accesses, each
    BPF_CORE_READ of the programs, of the x86 build and of the arm64 build,
    made with the accessors the models use,
    reads the value its C expression has on that kernel's objects, provided
    only that the members it follows still point to the same structs, the
    last one still has the size the program was compiled for, and the structs
    the programs see inside others are the same ones. *)
Theorem programs_read_any_kernel k B c objs r p v :
  relocates k B → keeps_structs (kb_types k) → forallb (λ st, wf_type (snd st)) (kb_types k) = true →
  holds_objects (kb_types k) c objs → r ∈ program_reads (KL := relocated B) →
  read_shape (kb_types k) r = read_shape vmlinux_env r →
  follow (kb_types k) objs p (pr_type r) (pr_first r) (pr_rest r) = Some v →
  match pr_offs r with
  | o :: os => BPF_CORE_READ (cx_read_kernel c) (Z.to_nat (pr_size r)) p o os = le_val v
  | [] => False
  end ∧ Z.of_nat (length v) = pr_size r.
Proof. apply relocated_read. Qed.

(** ** A kernel with another layout *)

(** Its tasks begin with a member the header's do not have. *)
Definition other_task : ctype :=
  match Vmlinux.task_struct with
  | CAgg k ms => CAgg k ((Declr "reserved"%string None, c_ulong) :: ms)
  | t => t
  end.

Definition other_kernel : kernel_btf := {|
  kb_types := ("struct task_struct", other_task) :: ("struct path", Vmlinux.path) :: vmlinux_env;
  kb_enums := [];
|}%string.

Definition other_tasks : object_list :=
  let task (tgid parent : Z) :=
    ("struct task_struct"%string,
     store other_task ["tgid"%string] (le_bytes 4 tgid)
       (store other_task ["real_parent"%string] (le_bytes 8 parent) (zeros (Z.to_nat (sizeof other_task))))) in
  [(0x100000, task 700 0x200000); (0x200000, task 77 0x200000)].

Lemma other_kernel_relocates : relocates other_kernel (btf_builtins other_kernel).
Proof. by apply btf_relocates. Qed.

Lemma other_kernel_keeps : keeps_structs (kb_types other_kernel).
Proof. by split. Qed.

Lemma programs_read_any_kernel_witness :
  let B := btf_builtins other_kernel in
  let c := image_ctx 0 0 0 0 [] 0x100000 (objects_mem other_tasks) [] in
  access B "struct task_struct" ["real_parent"%string] = off Vmlinux.task_struct "real_parent" + 8 ∧
  BPF_CORE_READ (cx_read_kernel c) 4 0x100000 (access B "struct task_struct" ["real_parent"%string])
    [access B "struct task_struct" ["tgid"%string]] = 77.
Proof.
  intros B c. split; [vm_compute; reflexivity|].
  refine (proj1 (programs_read_any_kernel other_kernel B c (objects_of other_tasks)
    (Read "struct task_struct" ["real_parent"] [["tgid"]]
       [off_task_real_parent (KernelLayout := relocated B); off_task_tgid (KernelLayout := relocated B)] 4)
    0x100000 (le_bytes 4 77) _ _ _ _ _ _ _)).
  - exact other_kernel_relocates.
  - exact other_kernel_keeps.
  - vm_compute. reflexivity.
  - apply image_holds_objects; vm_compute; reflexivity.
  - refine (list_elem_of_lookup_2 (program_reads (KL := relocated B)) 16 _ _). reflexivity.
  - vm_compute. reflexivity.
  - vm_compute. reflexivity.
Defined.

(** Whether the kernel has the member is asked and answered before it is
    read: [struct task_struct] has [reserved] there only. *)
Example reserved_is_asked_for :
  bpf_core_field_exists (btf_builtins other_kernel) [RefType "struct task_struct"; RefMembers ["reserved"]]%string = Some 1 ∧
  bpf_core_field_exists (btf_builtins {| kb_types := vmlinux_env; kb_enums := [] |})
    [RefAccess "struct task_struct" ["reserved"]]%string = Some 0.
Proof. split; vm_compute; reflexivity. Qed.
