(* ===== verification/PathWalk.v ===== *)
(** * The path walk of linsensor.bpf.c and prevent.bpf.c

    Both programs turn a (dentry, vfsmount) pair into an absolute path
    with the same two loops: the first collects at most [MAX_DEPTH] name
    pointers from the leaf up, crossing mount points; the second writes
    the names backwards into a scratch buffer.  [path_parts] is the
    per-CPU scratch ([struct path_parts], the first members of [struct
    scratch]).  The reference is [path_slots]: the chain of names an
    abstract mount namespace gives for the pair. *)
From Stdlib Require Import ZArith Lia.
From stdpp Require Import base tactics list gmap.
From S2P Require Import Prelude.
From S2P Require Import Kernel.
From S2P Require Import CoreRead.
Local Open Scope Z_scope.

Definition PATH_LEN : nat := 256.
Definition MAX_DEPTH : nat := 16.
Definition NAME_CAP : Z := 127.
Definition DIR_BUF : Z := 2048.

(** '/' *)
Definition SLASH : Z := 47.

Record path_parts := PathParts {
  pp_name : list Z;   (* __u64 name[MAX_DEPTH] *)
  pp_len : list Z;    (* __u32 len[MAX_DEPTH] *)
  pp_buf : list Z;    (* char buf[DIR_BUF * 2] *)
}.

Definition pp_zero : path_parts :=
  PathParts (zeros MAX_DEPTH) (zeros MAX_DEPTH) (zeros 4096).

Record pp_ok (pp : path_parts) : Prop := {
  pp_name_len : length (pp_name pp) = MAX_DEPTH;
  pp_len_len : length (pp_len pp) = MAX_DEPTH;
  pp_buf_len : length (pp_buf pp) = 4096%nat;
}.

(** [pp->name[i] = name; pp->len[i] = len] *)
Definition set_part (pp : path_parts) (i : nat) (name len : Z) : path_parts :=
  PathParts (<[i := name]> (pp_name pp)) (<[i := len]> (pp_len pp)) (pp_buf pp).

(** The variables of the first loop. *)
Record walk := Walk { w_d : Z; w_vm : Z; w_mnt : Z; w_done : bool }.

Section walk.
Context {KL : KernelLayout} (c : ctx).

Let rd := cx_read_kernel c.

(** The pointer fields the walk reads. *)
Definition rd_mnt_root (vm : Z) : Z := BPF_CORE_READ rd 8 vm off_vfsmount_mnt_root [].
Definition rd_d_parent (d : Z) : Z := BPF_CORE_READ rd 8 d off_dentry_d_parent [].
Definition rd_mnt_parent (mnt : Z) : Z := BPF_CORE_READ rd 8 mnt off_mount_mnt_parent [].
Definition rd_mnt_mountpoint (mnt : Z) : Z := BPF_CORE_READ rd 8 mnt off_mount_mnt_mountpoint [].

(** [struct qstr q = BPF_CORE_READ(d, d_name)], and its two members. *)
Definition rd_d_name (d : Z) : list Z := BPF_CORE_READ_BYTES rd qstr_size d off_dentry_d_name [].
Definition q_name (q : list Z) : Z := le_val (slice q off_qstr_name 8).
Definition q_len (q : list Z) : Z := le_val (slice q off_qstr_len 4).

(** One iteration of the first loop. *)
Definition walk_step (i : nat) (w : walk) (pp : path_parts) : walk * path_parts :=
  let pp := set_part pp i 0 0 in
  if w_done w then (w, pp) else
  let mnt_root := rd_mnt_root (w_vm w) in
  let parent := rd_d_parent (w_d w) in
  if w_d w =? mnt_root then
    let mp := rd_mnt_parent (w_mnt w) in
    if mp =? w_mnt w then (Walk (w_d w) (w_vm w) (w_mnt w) true, pp)
    else (Walk (rd_mnt_mountpoint (w_mnt w)) (field mp off_mount_mnt) mp false, pp)
  else
    let q := rd_d_name (w_d w) in
    if w_d w =? parent then
      (Walk (w_d w) (w_vm w) (w_mnt w) true,
       if decide (i = 0%nat) then set_part pp 0 (q_name q) (q_len q) else pp)
    else (Walk parent (w_vm w) (w_mnt w) false, set_part pp i (q_name q) (q_len q)).

(** [for (int i = 0; i < MAX_DEPTH; i++)]: [n] iterations left, from [i]. *)
Fixpoint walk_loop (n i : nat) (w : walk) (pp : path_parts) : path_parts :=
  match n with
  | O => pp
  | S n => let '(w, pp) := walk_step i w pp in walk_loop n (S i) w pp
  end.

(** One iteration of the second loop, on [pos] and the buffer. *)
Definition write_step (name len : Z) (st : Z * list Z) : Z * list Z :=
  let '(pos, buf) := st in
  let len := if NAME_CAP <? len then NAME_CAP else len in
  let has := Z.shiftr (u32 (len + NAME_CAP)) 7 in
  let pos := u32 (pos - len) in
  let buf := splice buf (Z.to_nat (Z.land pos (DIR_BUF - 1)))
               (snd (rd name (Z.to_nat (Z.land len NAME_CAP)))) in
  let buf := splice buf (Z.to_nat (Z.land (u32 (pos - 1)) (DIR_BUF - 1))) [SLASH] in
  (u32 (pos - has), buf).

Fixpoint write_loop (parts : list (Z * Z)) (st : Z * list Z) : Z * list Z :=
  match parts with
  | [] => st
  | (name, len) :: parts => write_loop parts (write_step name len st)
  end.

(** Both loops: the scratch after them and the final [pos]. *)
Definition walk_and_write (d vm : Z) (pp : path_parts) : Z * path_parts :=
  let mnt := container_of vm off_mount_mnt in
  let pp := walk_loop MAX_DEPTH 0 (Walk d vm mnt false) pp in
  let buf := splice (pp_buf pp) (Z.to_nat DIR_BUF) [0] in
  let '(pos, buf) := write_loop (zip (pp_name pp) (pp_len pp)) (DIR_BUF, buf) in
  (pos, PathParts (pp_name pp) (pp_len pp) buf).

(** The string that starts at [&buf[pos & (DIR_BUF - 1)]]. *)
Definition buf_str (pos : Z) (pp : path_parts) : list Z :=
  cstr (drop (Z.to_nat (Z.land pos (DIR_BUF - 1))) (pp_buf pp)).
End walk.

(** ** Reference: paths in a mount namespace *)

Record dentry := Dentry {
  de_parent : Z;          (* address of the parent dentry; itself at a root *)
  de_name : list Z;
  de_ino : Z;
  de_dev : Z;
}.

Record mount := Mount {
  mt_root : Z;            (* the dentry mounted *)
  mt_parent : Z;          (* the mount it is mounted on; itself at the namespace root *)
  mt_mountpoint : Z;      (* the dentry it covers *)
}.

Record mnt_ns := MntNs { ns_dentries : gmap Z dentry; ns_mounts : gmap Z mount }.

(** The steps from [d] in mount [m] to the root of the namespace, one
    entry per step: a name, or the empty list for a mount crossing.  A
    disconnected dentry (a memfd) gives its own name. *)
Inductive path_slots (ns : mnt_ns) : bool → Z → Z → list (list Z) → Prop :=
  | slots_root leaf d m mt :
      ns_mounts ns !! m = Some mt → d = mt_root mt → mt_parent mt = m →
      path_slots ns leaf d m []
  | slots_cross leaf d m mt l :
      ns_mounts ns !! m = Some mt → d = mt_root mt → mt_parent mt ≠ m →
      path_slots ns false (mt_mountpoint mt) (mt_parent mt) l →
      path_slots ns leaf d m ([] :: l)
  | slots_up leaf d m mt de l :
      ns_mounts ns !! m = Some mt → ns_dentries ns !! d = Some de →
      d ≠ mt_root mt → de_parent de ≠ d →
      path_slots ns false (de_parent de) m l →
      path_slots ns leaf d m (de_name de :: l)
  | slots_disconnected d m mt de :
      ns_mounts ns !! m = Some mt → ns_dentries ns !! d = Some de →
      d ≠ mt_root mt → de_parent de = d →
      path_slots ns true d m [de_name de]
  | slots_detached d m mt de :
      ns_mounts ns !! m = Some mt → ns_dentries ns !! d = Some de →
      d ≠ mt_root mt → de_parent de = d →
      path_slots ns false d m [].

(** A step as it is written: "/name", the name cut at [NAME_CAP] bytes. *)
Definition slot_text (n : list Z) : list Z :=
  match n with
  | [] => []
  | _ => SLASH :: take (Z.to_nat NAME_CAP) n
  end.

(** Steps are leaf first; the text is root first. *)
Definition slots_text (l : list (list Z)) : list Z := concat (rev (map slot_text l)).

(** The path of a chain of steps: "/" for the root itself. *)
Definition slots_path (l : list (list Z)) : list Z :=
  match slots_text l with
  | [] => [SLASH]
  | t => t
  end.

(** Kernel memory holds the namespace [ns]. *)
Record holds_ns {KL : KernelLayout} (c : ctx) (ns : mnt_ns) : Prop := {
  hn_dentry d de : ns_dentries ns !! d = Some de →
    rd_d_parent c d = de_parent de ∧ (0 ∉ de_name de) ∧
    q_len (rd_d_name c d) = Z.of_nat (length (de_name de)) ∧
    kmem_at c (q_name (rd_d_name c d)) (de_name de);
  hn_mount m mt : ns_mounts ns !! m = Some mt →
    0 ≤ m < 2 ^ 64 ∧
    rd_mnt_root c (field m off_mount_mnt) = mt_root mt ∧
    rd_mnt_parent c m = mt_parent mt ∧
    rd_mnt_mountpoint c m = mt_mountpoint mt;
}.

(** ** The first loop collects the steps *)

Section collect.
Context {KL : KernelLayout} (c : ctx).

(** Slot [k] of the scratch holds the step [s]. *)
Definition part_ok (name len : Z) (s : list Z) : Prop :=
  len = Z.of_nat (length s) ∧ (0 ∉ s) ∧ (s ≠ [] → kmem_at c name s).

Definition slot_at (pp : path_parts) (k : nat) (s : list Z) : Prop :=
  ∃ name len, pp_name pp !! k = Some name ∧ pp_len pp !! k = Some len ∧ part_ok name len s.

Lemma part_ok_empty name : part_ok name 0 [].
Proof. split; [done|]. split; [set_solver|done]. Qed.

Lemma slot_at_set pp i name len s :
  (i < length (pp_name pp))%nat → (i < length (pp_len pp))%nat →
  part_ok name len s → slot_at (set_part pp i name len) i s.
Proof.
  intros H1 H2 Hs. exists name, len. cbn.
  rewrite !list_lookup_insert_eq by done. done.
Qed.

(** Iteration [i] writes slot [i] only. *)
Lemma walk_step_parts i w pp w' pp' :
  walk_step c i w pp = (w', pp') →
  length (pp_name pp') = length (pp_name pp) ∧ length (pp_len pp') = length (pp_len pp) ∧
  pp_buf pp' = pp_buf pp ∧
  ∀ k, k ≠ i → pp_name pp' !! k = pp_name pp !! k ∧ pp_len pp' !! k = pp_len pp !! k.
Proof.
  unfold walk_step, set_part. intros H.
  repeat case_match; simplify_eq; cbn; rewrite ?length_insert;
    repeat split; try done; intros; rewrite ?list_lookup_insert_ne by done; done.
Qed.

Lemma walk_loop_parts n i w pp :
  let pp' := walk_loop c n i w pp in
  length (pp_name pp') = length (pp_name pp) ∧ length (pp_len pp') = length (pp_len pp) ∧
  pp_buf pp' = pp_buf pp ∧
  ∀ k, (k < i)%nat → pp_name pp' !! k = pp_name pp !! k ∧ pp_len pp' !! k = pp_len pp !! k.
Proof.
  revert i w pp; induction n as [|n IH]; intros i w pp; cbn; [done|].
  destruct (walk_step c i w pp) as [w' pp1] eqn:E.
  apply walk_step_parts in E as (L1 & L2 & B & F).
  destruct (IH (S i) w' pp1) as (L1' & L2' & B' & F').
  rewrite L1', L2', B'. do 3 (split; [done|]). intros k Hk.
  destruct (F' k ltac:(lia)) as [-> ->]. apply F. lia.
Qed.

(** A slot written in iteration [i] survives the later iterations. *)
Lemma slot_at_later n i w pp s k :
  (k < i)%nat → slot_at pp k s → slot_at (walk_loop c n i w pp) k s.
Proof.
  intros Hk (nm & ln & H1 & H2 & H3). exists nm, ln.
  destruct (walk_loop_parts n i w pp) as (_ & _ & _ & F).
  destruct (F k Hk) as [-> ->]. done.
Qed.

Lemma walk_loop_done n i w pp k :
  w_done w = true → (i ≤ k < i + n)%nat →
  (i + n ≤ length (pp_name pp))%nat → (i + n ≤ length (pp_len pp))%nat →
  slot_at (walk_loop c n i w pp) k [].
Proof.
  intros Hd. revert i pp; induction n as [|n IH]; intros i pp Hk H1 H2; [lia|].
  cbn. unfold walk_step. rewrite Hd.
  destruct (decide (k = i)) as [->|].
  - apply slot_at_later; [lia|]. apply slot_at_set; [lia..|apply part_ok_empty].
  - apply IH; cbn; rewrite ?length_insert; lia.
Qed.

Lemma container_of_field p off : 0 ≤ p < 2 ^ 64 → container_of (field p off) off = p.
Proof.
  intros Hp. unfold container_of, field, u64, wrap. rewrite Zminus_mod_idemp_l.
  replace (p + off - off) with p by lia. by apply Z.mod_small.
Qed.

Context (ns : mnt_ns) (Hns : holds_ns c ns).

Lemma walk_loop_slots leaf d m l :
  path_slots ns leaf d m l →
  ∀ n i pp k, leaf = bool_decide (i = 0%nat) → (i ≤ k < i + n)%nat →
  (i + n ≤ length (pp_name pp))%nat → (i + n ≤ length (pp_len pp))%nat →
  slot_at (walk_loop c n i (Walk d (field m off_mount_mnt) m false) pp) k
          (default [] (l !! (k - i)%nat)).
Proof.
  induction 1 as [leaf d m mt Hm Hd Hp | leaf d m mt l Hm Hd Hp _ IH
    | leaf d m mt de l Hm Hde Hd Hp _ IH | d m mt de Hm Hde Hd Hp | d m mt de Hm Hde Hd Hp];
    intros n i pp k Hi Hk H1 H2; (destruct n as [|n]; [lia|]); cbn;
    unfold walk_step; cbn [w_d w_vm w_mnt w_done];
    destruct (hn_mount _ _ Hns _ _ Hm) as (Hr & -> & -> & ->).
  - rewrite (proj2 (Z.eqb_eq _ _) Hd), (proj2 (Z.eqb_eq _ _) Hp).
    destruct (decide (k = i)) as [->|].
    + apply slot_at_later; [lia|]. rewrite lookup_nil. cbn.
      apply slot_at_set; [lia..|apply part_ok_empty].
    + rewrite lookup_nil. cbn [default]. apply walk_loop_done; cbn; rewrite ?length_insert; lia || done.
  - rewrite (proj2 (Z.eqb_eq _ _) Hd), (proj2 (Z.eqb_neq _ _) Hp).
    destruct (decide (k = i)) as [->|].
    + apply slot_at_later; [lia|]. rewrite Nat.sub_diag. cbn.
      apply slot_at_set; [lia..|apply part_ok_empty].
    + replace (k - i)%nat with (S (k - S i)) by lia. cbn [lookup list_lookup].
      apply IH; cbn; rewrite ?length_insert; lia || done.
  - destruct (hn_dentry _ _ Hns _ _ Hde) as (-> & Hz & Hlen & Hmem).
    rewrite (proj2 (Z.eqb_neq _ _) Hd). rewrite (proj2 (Z.eqb_neq d _)) by congruence.
    destruct (decide (k = i)) as [->|].
    + apply slot_at_later; [lia|]. rewrite Nat.sub_diag. cbn.
      apply slot_at_set; cbn; rewrite ?length_insert; [lia..|]. split; [done|]. auto.
    + replace (k - i)%nat with (S (k - S i)) by lia. cbn [lookup list_lookup].
      apply IH; cbn; rewrite ?length_insert; lia || done.
  - destruct (hn_dentry _ _ Hns _ _ Hde) as (-> & Hz & Hlen & Hmem).
    rewrite (proj2 (Z.eqb_neq _ _) Hd). rewrite (proj2 (Z.eqb_eq d _)) by congruence.
    symmetry in Hi. apply bool_decide_eq_true in Hi as ->. rewrite decide_True by done.
    destruct (decide (k = 0%nat)) as [->|].
    + apply slot_at_later; [lia|]. cbn.
      apply slot_at_set; cbn; rewrite ?length_insert; [lia..|]. split; [done|]. auto.
    + destruct k as [|k]; [done|]. cbn.
      apply walk_loop_done; cbn; rewrite ?length_insert; lia || done.
  - destruct (hn_dentry _ _ Hns _ _ Hde) as (-> & Hz & Hlen & Hmem).
    rewrite (proj2 (Z.eqb_neq _ _) Hd). rewrite (proj2 (Z.eqb_eq d _)) by congruence.
    symmetry in Hi. apply bool_decide_eq_false in Hi. rewrite decide_False by done.
    rewrite lookup_nil. cbn [default].
    destruct (decide (k = i)) as [->|].
    + apply slot_at_later; [lia|].
      apply slot_at_set; [lia..|apply part_ok_empty].
    + apply walk_loop_done; cbn; rewrite ?length_insert; lia || done.
Qed.
End collect.

(** ** The second loop writes them *)

Lemma length_slot_text s : (length (slot_text s) ≤ 128)%nat.
Proof. destruct s; cbn [slot_text length]; [lia|]. rewrite length_take. unfold NAME_CAP. lia. Qed.

Lemma slots_text_cons s l : slots_text (s :: l) = slots_text l ++ slot_text s.
Proof. unfold slots_text. cbn. rewrite concat_app. cbn. by rewrite app_nil_r. Qed.

Lemma land_dir_buf z : Z.land z (DIR_BUF - 1) = z mod 2048.
Proof. exact (Z.land_ones z 11 ltac:(lia)). Qed.

Lemma land_name_cap z : Z.land z NAME_CAP = z mod 128.
Proof. exact (Z.land_ones z 7 ltac:(lia)). Qed.

Section write.
Context {KL : KernelLayout} (c : ctx) {Hc : ctx_ok c}.

(** [buf] holds the text [t] right before its NUL at [DIR_BUF]. *)
Definition written (t : list Z) (st : Z * list Z) : Prop :=
  ∃ tl, length (snd st) = 4096%nat ∧ fst st = DIR_BUF - Z.of_nat (length t) ∧
        drop (Z.to_nat (fst st)) (snd st) = t ++ 0 :: tl.

(** The name's bytes, cut to what a part may take. *)
Lemma part_cut_length (s : list Z) :
  (if NAME_CAP <? Z.of_nat (length s) then NAME_CAP else Z.of_nat (length s))
  = Z.of_nat (length (take (Z.to_nat NAME_CAP) s)) ∧ (length (take (Z.to_nat NAME_CAP) s) ≤ 127)%nat.
Proof.
  rewrite length_take. unfold NAME_CAP. destruct (Z.ltb_spec 127 (Z.of_nat (length s))); lia.
Qed.

Lemma part_read name len s : part_ok c name len s →
  snd (cx_read_kernel c name (Z.to_nat (Z.land (Z.of_nat (length (take (Z.to_nat NAME_CAP) s))) NAME_CAP)))
  = take (Z.to_nat NAME_CAP) s.
Proof.
  intros (-> & Hz & Hmem). destruct (part_cut_length s) as [_ Hu].
  rewrite land_name_cap, Z.mod_small, Nat2Z.id by lia. destruct s as [|b s'].
  - rewrite take_nil. apply nil_length_inv. by rewrite ok_read_kernel_len.
  - rewrite Hmem; [|done|rewrite length_take; lia].
    cbn [snd]. by rewrite length_take, <- take_take, firstn_all.
Qed.

(** The shift of the code: 1 for the slash of a name that is not empty. *)
Lemma part_has (s : list Z) (n := Z.of_nat (length (take (Z.to_nat NAME_CAP) s))) :
  Z.shiftr (n + NAME_CAP) 7 = Z.of_nat (length (slot_text s)) - n.
Proof.
  destruct (part_cut_length s) as [_ Hu]. rewrite Z.shiftr_div_pow2 by lia. change (2 ^ 7) with 128.
  subst n. destruct s as [|b s']; [done|]. cbn [slot_text length].
  set (u := take _ _) in *. assert (length u ≠ 0%nat) by by subst u. unfold NAME_CAP.
  replace (Z.of_nat (S (length u)) - Z.of_nat (length u)) with 1 by lia.
  symmetry. apply (Z.div_unique _ _ _ (Z.of_nat (length u) - 1)); lia.
Qed.

Lemma write_step_written name len s t st :
  part_ok c name len s → (length t ≤ 1920)%nat → written t st →
  written (slot_text s ++ t) (write_step c name len st).
Proof.
  intros Hpart Ht (tl & Hl & Hpos & Hd). destruct st as [pos buf]; cbn in Hl, Hpos, Hd.
  unfold DIR_BUF in Hpos. unfold write_step. pose proof (part_read _ _ _ Hpart) as Hrd.
  destruct Hpart as (-> & _). pose proof (part_has s) as Hh. cbv zeta in Hh.
  destruct (part_cut_length s) as [-> Hu]. set (u := take (Z.to_nat NAME_CAP) s) in *.
  set (n := Z.of_nat (length u)) in *.
  rewrite Hrd, !land_dir_buf. rewrite (u32_small (pos - n)) by lia.
  rewrite (u32_small (pos - n - 1)), (Z.mod_small (pos - n - 1)) by lia.
  rewrite (u32_small (n + NAME_CAP)) by (unfold NAME_CAP; lia).
  assert (Hb : splice buf (Z.to_nat ((pos - n) mod 2048)) u = splice buf (Z.to_nat (pos - n)) u).
  { destruct (decide (length u = 0%nat)) as [->%nil_length_inv|]; [by rewrite !splice_nil|].
    by rewrite Z.mod_small by lia. }
  rewrite Hb. clear Hb Hrd.
  assert (Hl1 : length (splice buf (Z.to_nat (pos - n)) u) = 4096%nat) by (rewrite length_splice; lia).
  assert (Hd1 : drop (Z.to_nat (pos - n)) (splice buf (Z.to_nat (pos - n)) u) = u ++ t ++ 0 :: tl).
  { rewrite drop_splice by lia. by replace (Z.to_nat (pos - n) + length u)%nat with (Z.to_nat pos) by lia;
      rewrite Hd. }
  set (buf1 := splice buf (Z.to_nat (pos - n)) u) in *.
  exists tl. cbn [fst snd]. rewrite length_splice by (cbn; lia). split; [done|].
  pose proof (length_slot_text s). rewrite Hh, length_app, u32_small by lia.
  split; [unfold DIR_BUF; lia|].
  destruct s as [|b s']; cbn [slot_text length app].
  - replace (pos - n - (Z.of_nat 0 - n)) with pos by lia.
    rewrite drop_splice_after by (cbn; lia). change n with 0 in Hd1. by rewrite Z.sub_0_r in Hd1.
  - fold u. replace (pos - n - (Z.of_nat (S (length u)) - n)) with (pos - n - 1) by lia.
    rewrite drop_splice by lia. cbn [length app].
    replace (Z.to_nat (pos - n - 1) + 1)%nat with (Z.to_nat (pos - n)) by lia.
    rewrite Hd1. by rewrite (assoc_L (++)).
Qed.

Lemma write_loop_written parts l t st :
  Forall2 (λ p s, part_ok c (fst p) (snd p) s) parts l →
  (length t + 128 * length l ≤ 2048)%nat → written t st →
  written (slots_text l ++ t) (write_loop c parts st).
Proof.
  intros Hp. revert t st. induction Hp as [|[name len] s parts l Hs _ IH]; intros t st Ht Hw; [done|].
  cbn [write_loop fst snd]. rewrite slots_text_cons, <- (assoc_L (++)). cbn [length] in Ht.
  apply IH; [rewrite length_app; pose proof (length_slot_text s); lia|].
  apply write_step_written; [done|lia|done].
Qed.
End write.

(** ** Both loops *)

Lemma slots_text_empties l k : slots_text (l ++ replicate k []) = slots_text l.
Proof.
  unfold slots_text. rewrite map_app, rev_app_distr, concat_app.
  replace (concat (rev (map slot_text (replicate k [])))) with (@nil Z); [done|].
  induction k as [|k IH]; [done|]. cbn. by rewrite concat_app, <- IH.
Qed.

Lemma slots_text_no_nul l : Forall (λ s, 0 ∉ s) l → 0 ∉ slots_text l.
Proof.
  induction 1 as [|s l Hs _ IH]; [by intros ?%elem_of_nil|]. rewrite slots_text_cons, elem_of_app.
  intros [?|Ht]; [done|]. destruct s as [|b s]; [by apply elem_of_nil in Ht|].
  apply elem_of_cons in Ht as [?|Ht]; [done|]. revert Ht. by apply not_elem_of_take.
Qed.

Section both.
Context {KL : KernelLayout} (c : ctx) {Hc : ctx_ok c}.

Lemma write_step_length name len pos buf :
  length buf = 4096%nat → length (snd (write_step c name len (pos, buf))) = 4096%nat.
Proof.
  intros Hl. unfold write_step. cbn [snd].
  set (n := if NAME_CAP <? len then NAME_CAP else len).
  pose proof (ok_read_kernel_len name (Z.to_nat (Z.land n NAME_CAP))) as Hn.
  rewrite !land_dir_buf. rewrite land_name_cap in *.
  pose proof (Z.mod_pos_bound n 128 ltac:(lia)).
  pose proof (Z.mod_pos_bound (u32 (pos - n)) 2048 ltac:(lia)).
  pose proof (Z.mod_pos_bound (u32 (u32 (pos - n) - 1)) 2048 ltac:(lia)).
  rewrite !length_splice; rewrite ?length_splice; cbn [length]; lia.
Qed.

Lemma write_loop_length parts st :
  length (snd st) = 4096%nat → length (snd (write_loop c parts st)) = 4096%nat.
Proof.
  revert st. induction parts as [|[name len] parts IH]; intros [pos buf] Hl; [done|].
  apply IH, write_step_length, Hl.
Qed.

(** Whatever kernel memory holds, every access stays inside the scratch. *)
Lemma walk_and_write_ok d vm pp : pp_ok pp → pp_ok (snd (walk_and_write c d vm pp)).
Proof.
  intros [H1 H2 H3]. unfold walk_and_write.
  set (pp1 := walk_loop c _ _ _ _).
  destruct (walk_loop_parts c MAX_DEPTH 0 (Walk d vm (container_of vm off_mount_mnt) false) pp)
    as (L1 & L2 & B & _). fold pp1 in L1, L2, B.
  pose proof (write_loop_length (zip (pp_name pp1) (pp_len pp1))
    (DIR_BUF, splice (pp_buf pp1) (Z.to_nat DIR_BUF) [0])) as Hl.
  destruct (write_loop _ _ _) as [pos buf]. cbn [fst snd] in *.
  split; cbn [pp_name pp_len pp_buf]; [congruence..|]. apply Hl.
  rewrite length_splice; rewrite B, H3; [done|unfold DIR_BUF; cbn [length]; lia].
Qed.

Context (ns : mnt_ns) (Hns : holds_ns c ns).

Lemma path_slots_no_nul leaf d m l : path_slots ns leaf d m l → Forall (λ s, 0 ∉ s) l.
Proof.
  induction 1 as [|? ? ? ? ? ? ? ? ? IH|? ? ? ? de ? ? Hde ? ? ? IH|? ? ? de ? Hde|];
    rewrite ?Forall_cons, ?Forall_nil; repeat split; try done; try apply not_elem_of_nil.
  - by destruct (hn_dentry _ _ Hns _ _ Hde) as (_ & ? & _).
  - by destruct (hn_dentry _ _ Hns _ _ Hde) as (_ & ? & _).
Qed.

Lemma path_slots_mount leaf d m l : path_slots ns leaf d m l → is_Some (ns_mounts ns !! m).
Proof. destruct 1; eauto. Qed.

(** The scratch after the loops holds the text of the first
    [MAX_DEPTH] steps. *)
Lemma walk_and_write_written d m l pp :
  path_slots ns true d m l → pp_ok pp →
  let r := walk_and_write c d (field m off_mount_mnt) pp in
  written (slots_text (take MAX_DEPTH l)) (fst r, pp_buf (snd r)).
Proof.
  intros Hp [H1 H2 H3]. destruct (path_slots_mount _ _ _ _ Hp) as [mt Hm].
  destruct (hn_mount _ _ Hns _ _ Hm) as (Hr & _). cbv zeta. unfold walk_and_write.
  rewrite container_of_field by done. set (pp1 := walk_loop c _ _ _ _).
  destruct (walk_loop_parts c MAX_DEPTH 0 (Walk d (field m off_mount_mnt) m false) pp)
    as (L1 & L2 & B & _). fold pp1 in L1, L2, B.
  set (st0 := (DIR_BUF, splice (pp_buf pp1) (Z.to_nat DIR_BUF) [0])).
  assert (Hw : written [] st0).
  { exists (drop 2049 (pp_buf pp1)). unfold st0, DIR_BUF. cbn [fst snd length].
    rewrite length_splice; rewrite B, H3; [|cbn [length]; lia].
    split; [done|]. split; [done|]. rewrite drop_splice; [done|]. rewrite H3. lia. }
  set (steps := take MAX_DEPTH (l ++ replicate MAX_DEPTH [])).
  assert (Hst : slots_text steps = slots_text (take MAX_DEPTH l)).
  { subst steps. rewrite take_app, take_replicate. apply slots_text_empties. }
  assert (Hlen : length steps = MAX_DEPTH).
  { subst steps. rewrite length_take, length_app, length_replicate. lia. }
  assert (Hf : Forall2 (λ p s, part_ok c (fst p) (snd p) s)
                 (zip (pp_name pp1) (pp_len pp1)) steps).
  { apply Forall2_same_length_lookup. split; [rewrite length_zip_with, Hlen; lia|].
    intros k [nm ln] s Hk Hs. apply lookup_zip_with_Some in Hk as (nm' & ln' & [= <- <-] & Hnm & Hln).
    pose proof (lookup_lt_Some _ _ _ Hs) as Hlt. rewrite Hlen in Hlt.
    destruct (walk_loop_slots c ns Hns true d m l Hp MAX_DEPTH 0 pp k) as (nm2 & ln2 & E1 & E2 & Hok);
      [done|lia|lia|lia|]. fold pp1 in E1, E2. simplify_eq. cbn.
    rewrite Nat.sub_0_r in Hok. subst steps. rewrite lookup_take_lt in Hs by done.
    apply lookup_app_Some in Hs as [Hs|[Hge Hs]]; [by rewrite Hs in Hok|].
    apply lookup_replicate in Hs as [-> _]. by rewrite lookup_ge_None_2 in Hok. }
  pose proof (write_loop_written c _ steps [] st0 Hf) as Hfin. rewrite Hlen, app_nil_r, Hst in Hfin.
  destruct (write_loop _ _ st0) as [pos buf]. cbn. apply Hfin; [cbn; unfold MAX_DEPTH; lia|done].
Qed.

(** Read back from [pos]: nothing for the root itself, the text
    otherwise. *)
Lemma written_read t pos pp :
  0 ∉ t → (length t ≤ 2048)%nat → written t (pos, pp_buf pp) →
  (t = [] → pos = DIR_BUF) ∧ (t ≠ [] → pos ≠ DIR_BUF ∧ buf_str pos pp = t).
Proof.
  intros Ht Hlen (tl & Hl & Hpos & Hd). cbn in *. unfold DIR_BUF in *. split.
  - intros ->. cbn in Hpos. lia.
  - intros Hne. assert (length t ≠ 0%nat) by (by destruct t).
    split; [lia|]. unfold buf_str. rewrite land_dir_buf, Z.mod_small by lia.
    rewrite Hd. by apply cstr_app_nul.
Qed.

Lemma length_slots_text l : (length (slots_text l) ≤ 128 * length l)%nat.
Proof.
  induction l as [|s l IH]; [done|]. rewrite slots_text_cons, length_app.
  pose proof (length_slot_text s). cbn. lia.
Qed.

(** What the code copies out: "/" when [pos] did not move, else the
    string at [pos]. *)
Lemma walk_and_write_path d m l pp :
  path_slots ns true d m l → pp_ok pp →
  let r := walk_and_write c d (field m off_mount_mnt) pp in
  (if fst r =? DIR_BUF then [SLASH] else buf_str (fst r) (snd r)) = slots_path (take MAX_DEPTH l)
  ∧ 0 ∉ slots_path (take MAX_DEPTH l).
Proof.
  intros Hp Hpp. cbv zeta. pose proof (walk_and_write_written _ _ _ _ Hp Hpp) as Hw.
  cbv zeta in Hw. destruct (walk_and_write _ _ _ _) as [pos pp']. cbn [fst snd] in *.
  assert (Hz : 0 ∉ slots_text (take MAX_DEPTH l))
    by (apply slots_text_no_nul, Forall_take; by eapply path_slots_no_nul).
  pose proof (length_slots_text (take MAX_DEPTH l)) as Hlen. rewrite length_take in Hlen.
  destruct (written_read _ _ _ Hz ltac:(unfold MAX_DEPTH in *; lia) Hw) as [H0 H1].
  unfold slots_path. destruct (slots_text (take MAX_DEPTH l)) as [|b t] eqn:E.
  - rewrite (H0 eq_refl), Z.eqb_refl. split; [done|]. intros ?%list_elem_of_singleton. done.
  - destruct (H1 ltac:(done)) as [Hne ->]. by rewrite (proj2 (Z.eqb_neq _ _) Hne).
Qed.
End both.
