(* ===== verification/Endian.v ===== *)
(** * Byte order ([bpf_endian.h])

    The byte-swap macros for constants, with C's integer widths (a 16-bit
    operand is promoted to a 32-bit int before it is shifted), the compiler's
    byte swap they stand for, and the conversions selected by the target's
    byte order. *)
From Stdlib Require Import ZArith Lia.
From stdpp Require Import base tactics list.
From S2P Require Import Prelude.
Local Open Scope Z_scope.

(** ** The macros *)

(** [((__u##b)(x) << (b-(n+1)*8) >> (b-8) << (m*8))]: the shifts are done
    at the promoted width. *)
Definition mvb_width (b : Z) : Z := Z.max b 32.

Definition bpf_mvb (x b n m : Z) : Z :=
  let w := mvb_width b in
  wrap w (Z.shiftl (Z.shiftr (wrap w (Z.shiftl (wrap b x) (b - (n + 1) * 8))) (b - 8)) (m * 8)).

Definition bpf_swab16 (x : Z) : Z := u16 (Z.lor (bpf_mvb x 16 0 1) (bpf_mvb x 16 1 0)).

Definition bpf_swab32 (x : Z) : Z :=
  u32 (Z.lor (Z.lor (Z.lor (bpf_mvb x 32 0 3) (bpf_mvb x 32 1 2)) (bpf_mvb x 32 2 1))
         (bpf_mvb x 32 3 0)).

Definition bpf_swab64 (x : Z) : Z :=
  u64 (Z.lor (Z.lor (Z.lor (Z.lor (Z.lor (Z.lor (Z.lor
    (bpf_mvb x 64 0 7) (bpf_mvb x 64 1 6)) (bpf_mvb x 64 2 5)) (bpf_mvb x 64 3 4))
    (bpf_mvb x 64 4 3)) (bpf_mvb x 64 5 2)) (bpf_mvb x 64 6 1)) (bpf_mvb x 64 7 0)).

(** [__builtin_bswapN]: the value with its [n] bytes in reverse order. *)
Definition builtin_bswap (n : nat) (x : Z) : Z := le_val (rev (le_bytes n x)).

(** [__BYTE_ORDER__] of the target. *)
Inductive byte_order := LITTLE_ENDIAN | BIG_ENDIAN.

(** [bpf_ntohs] and the others: [const] is [__builtin_constant_p(x)].  The
    argument has the conversion's width. *)
Definition bpf_ntohs (o : byte_order) (const : bool) (x : Z) : Z :=
  match o with
  | LITTLE_ENDIAN => if const then bpf_swab16 x else builtin_bswap 2 x
  | BIG_ENDIAN => x
  end.
Definition bpf_htons (o : byte_order) (const : bool) (x : Z) : Z :=
  match o with
  | LITTLE_ENDIAN => if const then bpf_swab16 x else builtin_bswap 2 x
  | BIG_ENDIAN => x
  end.
Definition bpf_ntohl (o : byte_order) (const : bool) (x : Z) : Z :=
  match o with
  | LITTLE_ENDIAN => if const then bpf_swab32 x else builtin_bswap 4 x
  | BIG_ENDIAN => x
  end.
Definition bpf_htonl (o : byte_order) (const : bool) (x : Z) : Z :=
  match o with
  | LITTLE_ENDIAN => if const then bpf_swab32 x else builtin_bswap 4 x
  | BIG_ENDIAN => x
  end.
Definition bpf_be64_to_cpu (o : byte_order) (const : bool) (x : Z) : Z :=
  match o with
  | LITTLE_ENDIAN => if const then bpf_swab64 x else builtin_bswap 8 x
  | BIG_ENDIAN => x
  end.
Definition bpf_cpu_to_be64 (o : byte_order) (const : bool) (x : Z) : Z :=
  match o with
  | LITTLE_ENDIAN => if const then bpf_swab64 x else builtin_bswap 8 x
  | BIG_ENDIAN => x
  end.

(** ** Bytes *)

(** Byte [n] of [x]. *)
Definition byte_of (x n : Z) : Z := (x / 2 ^ (8 * n)) mod 256.

Lemma byte_of_range x n : 0 ≤ byte_of x n < 256.
Proof. apply Z.mod_pos_bound. lia. Qed.

(** The byte a macro moves, at a width that holds it. *)
Lemma mvb_byte b x n m : mvb_width b = b → 0 ≤ n → 8 * (n + 1) ≤ b → 0 ≤ m → 8 * (m + 1) ≤ b →
  bpf_mvb x b n m = byte_of x n * 2 ^ (8 * m).
Proof.
  intros Hw Hn Hnb Hm Hmb. unfold bpf_mvb. rewrite Hw.
  replace (b - (n + 1) * 8) with (b - 8 * (n + 1)) by lia.
  rewrite Z.shiftr_div_pow2, !Z.shiftl_mul_pow2 by lia.
  assert (Hp : 2 ^ b = 2 ^ (8 * (n + 1)) * 2 ^ (b - 8 * (n + 1)))
    by (rewrite <- Z.pow_add_r by lia; f_equal; lia).
  assert (Hin : wrap b (wrap b x * 2 ^ (b - 8 * (n + 1)))
    = (x mod 2 ^ (8 * (n + 1))) * 2 ^ (b - 8 * (n + 1))).
  { unfold wrap. rewrite Hp at 2. rewrite Z.mul_mod_distr_r by lia. f_equal.
    rewrite Hp. rewrite Z.rem_mul_r by lia. rewrite (Z.mul_comm (2 ^ (8 * (n + 1)))).
    by rewrite Z_mod_plus_full, Zmod_mod. }
  rewrite Hin. replace (b - 8) with ((8 * n) + (b - 8 * (n + 1))) by lia.
  rewrite Z.pow_add_r, Z.div_mul_cancel_r by lia.
  assert (Hb : x mod 2 ^ (8 * (n + 1)) / 2 ^ (8 * n) = byte_of x n).
  { pose proof (Z.pow_pos_nonneg 2 (8 * n) ltac:(lia) ltac:(lia)). unfold byte_of. replace (8 * (n + 1)) with (8 * n + 8) by lia.
    rewrite Z.pow_add_r, Z.rem_mul_r by lia. rewrite Z.add_comm, (Z.mul_comm (2 ^ (8 * n))).
    rewrite Z.div_add_l by lia. change (2 ^ 8) with 256.
    rewrite (Z.div_small (x mod _)); [lia|]. apply Z.mod_pos_bound. lia. }
  rewrite Hb. replace (m * 8) with (8 * m) by lia. apply wrap_small.
  pose proof (byte_of_range x n). split; [lia|].
  apply Z.lt_le_trans with (256 * 2 ^ (8 * m)); [nia|].
  change 256 with (2 ^ 8). rewrite <- Z.pow_add_r by lia. apply Z.pow_le_mono_r; lia.
Qed.

Lemma lor_add a y k : 0 ≤ k → a mod 2 ^ k = 0 → 0 ≤ y < 2 ^ k → Z.lor a y = a + y.
Proof.
  intros Hk Ha Hy. enough (Z.land a y = 0) by (pose proof (Z.add_lor_land a y); lia).
  apply Z.bits_inj'. intros i Hi. rewrite Z.land_spec, Z.bits_0.
  destruct (Z.ltb_spec i k).
  - rewrite <- (Z.mod_pow2_bits_low a k i) by lia. by rewrite Ha, Z.bits_0.
  - rewrite <- (wrap_small k y Hy), testbit_wrap by lia.
    rewrite (proj2 (Z.ltb_ge i k)) by lia. apply andb_false_r.
Qed.

(** The bytes of [x], lowest first. *)
Lemma le_bytes_byte_of n x : le_bytes n x = map (λ i, byte_of x (Z.of_nat i)) (seq 0 n).
Proof.
  revert x; induction n as [|n IH]; intros x; [done|]. cbn [le_bytes seq map]. f_equal.
  - unfold byte_of. by rewrite Z.mul_0_r, Z.pow_0_r, Z.div_1_r.
  - rewrite IH. rewrite <- seq_shift, map_map. apply map_ext. intros i. unfold byte_of.
    replace (8 * Z.of_nat (S i)) with (8 + 8 * Z.of_nat i) by lia.
    rewrite Z.pow_add_r by lia. by rewrite <- Z.div_div by lia.
Qed.

(** The powers of two of the byte positions as numbers. *)
Ltac pow2_const :=
  try change (2 ^ 8) with 256 in *;
  try change (2 ^ 16) with 65536 in *;
  try change (2 ^ 24) with 16777216 in *;
  try change (2 ^ 32) with 4294967296 in *;
  try change (2 ^ 40) with 1099511627776 in *;
  try change (2 ^ 48) with 281474976710656 in *;
  try change (2 ^ 56) with 72057594037927936 in *;
  try change (2 ^ (8 * 0)) with 1 in *;
  try change (2 ^ (8 * 1)) with 256 in *;
  try change (2 ^ (8 * 2)) with 65536 in *;
  try change (2 ^ (8 * 3)) with 16777216 in *;
  try change (2 ^ (8 * 4)) with 4294967296 in *;
  try change (2 ^ (8 * 5)) with 1099511627776 in *;
  try change (2 ^ (8 * 6)) with 281474976710656 in *;
  try change (2 ^ (8 * 7)) with 72057594037927936 in *;
  try change (2 ^ 0) with 1 in *.

(** A shifted byte into a sum of higher bytes. *)
Ltac join_bytes x :=
  repeat match goal with
  | |- context [byte_of x ?n] =>
      let b := fresh "b" in let Hb := fresh "H" in
      pose proof (byte_of_range x n) as Hb; set (b := byte_of x n) in *; clearbody b
  end.

Lemma swab16_bswap x : bpf_swab16 x = builtin_bswap 2 x.
Proof.
  replace (builtin_bswap 2 x) with (byte_of x 1 + 256 * (byte_of x 0 + 0))
    by (unfold builtin_bswap; by rewrite le_bytes_byte_of).
  assert (Hx : 0 ≤ wrap 16 x < 2 ^ 16) by (apply wrap_range; lia).
  assert (H0 : byte_of x 0 = wrap 16 x mod 256 ∧ byte_of x 1 = wrap 16 x / 256).
  { unfold byte_of, wrap. change (2 ^ (8 * 0)) with 1. change (2 ^ (8 * 1)) with 256.
    change (2 ^ 16) with (256 * 256). rewrite Z.rem_mul_r, Z.div_1_r by lia.
    pose proof (Z.mod_pos_bound x 256 ltac:(lia)). split; [|].
    - rewrite (Z.mul_comm 256), Z_mod_plus_full. by rewrite Zmod_mod.
    - rewrite (Z.mul_comm 256), Z.div_add, (Z.div_small (x mod 256)) by lia. lia. }
  destruct H0 as [-> ->]. unfold bpf_swab16, bpf_mvb, mvb_width. set (v := wrap 16 x) in *.
  change (Z.max 16 32) with 32. change (16 - (0 + 1) * 8) with 8. change (16 - (1 + 1) * 8) with 0.
  change (16 - 8) with 8. change (1 * 8) with 8. change (0 * 8) with 0.
  rewrite !Z.shiftl_0_r, Z.shiftl_mul_pow2, !Z.shiftr_div_pow2, Z.shiftl_mul_pow2 by lia.
  rewrite (wrap_small 32 (v * 2 ^ 8)), (wrap_small 32 v) by lia. rewrite Z.div_mul by lia.
  rewrite !wrap_small by (pose proof (Z.div_le_upper_bound v (2 ^ 8) (2 ^ 8));
    pose proof (Z.div_pos v (2 ^ 8)); lia).
  rewrite (lor_add (v * 2 ^ 8) (v / 2 ^ 8) 8); [|lia|apply Z_mod_mult|].
  2: { split; [apply Z.div_pos; lia|]. apply Z.div_lt_upper_bound; lia. }
  unfold u16, wrap. change (2 ^ 8) with 256.
  rewrite (Z.div_mod v 256) at 1 by lia. set (q := v / 256) in *.
  assert (0 ≤ q < 256).
  { split; [apply Z.div_pos; lia|]. apply Z.div_lt_upper_bound; lia. }
  pose proof (Z.mod_pos_bound v 256 ltac:(lia)).
  replace ((256 * q + v mod 256) * 256 + q) with ((v mod 256 * 256 + q) + q * 2 ^ 16) by lia.
  rewrite Z_mod_plus_full, Z.mod_small by lia. lia.
Qed.

Lemma swab32_bswap x : bpf_swab32 x = builtin_bswap 4 x.
Proof.
  replace (builtin_bswap 4 x) with (byte_of x 3 + 256 * (byte_of x 2 + 256 *
    (byte_of x 1 + 256 * (byte_of x 0 + 0)))) by (unfold builtin_bswap; by rewrite le_bytes_byte_of).
  unfold bpf_swab32. rewrite !mvb_byte by (reflexivity || lia).
  join_bytes x.
  pow2_const.
  rewrite (lor_add (_ * 16777216) _ 24) by (pow2_const; Z.to_euclidean_division_equations; lia).
  rewrite (lor_add (_ * 16777216 + _) _ 16) by (pow2_const; Z.to_euclidean_division_equations; lia).
  rewrite (lor_add (_ * 16777216 + _ + _) _ 8) by (pow2_const; Z.to_euclidean_division_equations; lia).

  rewrite u32_small; [lia|]. change (2 ^ 32) with 4294967296. lia.
Qed.

Lemma swab64_bswap x : bpf_swab64 x = builtin_bswap 8 x.
Proof.
  replace (builtin_bswap 8 x) with (byte_of x 7 + 256 * (byte_of x 6 + 256 * (byte_of x 5 + 256 *
    (byte_of x 4 + 256 * (byte_of x 3 + 256 * (byte_of x 2 + 256 *
    (byte_of x 1 + 256 * (byte_of x 0 + 0)))))))) by (unfold builtin_bswap; by rewrite le_bytes_byte_of).
  unfold bpf_swab64. rewrite !mvb_byte by (reflexivity || lia).
  join_bytes x. pow2_const.
  rewrite (lor_add (_ * 72057594037927936) _ 56) by (pow2_const; Z.to_euclidean_division_equations; lia).
  rewrite (lor_add (_ * 72057594037927936 + _) _ 48) by (pow2_const; Z.to_euclidean_division_equations; lia).
  rewrite (lor_add (_ * 72057594037927936 + _ + _) _ 40) by (pow2_const; Z.to_euclidean_division_equations; lia).

  rewrite (lor_add (_ * 72057594037927936 + _ + _ + _) _ 32) by (pow2_const; Z.to_euclidean_division_equations; lia).
  rewrite (lor_add (_ * 72057594037927936 + _ + _ + _ + _) _ 24) by (pow2_const; Z.to_euclidean_division_equations; lia).
  rewrite (lor_add (_ * 72057594037927936 + _ + _ + _ + _ + _) _ 16) by (pow2_const; Z.to_euclidean_division_equations; lia).

  rewrite (lor_add (_ * 72057594037927936 + _ + _ + _ + _ + _ + _) _ 8) by (pow2_const; Z.to_euclidean_division_equations; lia).
  rewrite u64_small; [lia|]. change (2 ^ 64) with 18446744073709551616. lia.
Qed.

(** ** Network order *)

(** An integer loaded from memory, in the target's byte order. *)
Definition load_native (o : byte_order) (l : list Z) : Z :=
  match o with LITTLE_ENDIAN => le_val l | BIG_ENDIAN => le_val (rev l) end.

(** The number a big-endian byte string stands for. *)
Definition be_val (l : list Z) : Z := le_val (rev l).

Lemma bswap_le_val l : is_bytes l → builtin_bswap (length l) (le_val l) = be_val l.
Proof. intros H. unfold builtin_bswap. by rewrite le_bytes_le_val. Qed.

Lemma bswap_le_val' n l : is_bytes l → length l = n → builtin_bswap n (le_val l) = be_val l.
Proof. intros H <-. by apply bswap_le_val. Qed.

(** The byte-order conversions are right on both targets and for
    constants as for run-time values: the macros for constants compute the
    byte swap (although the 16-bit one shifts at 32 bits), and reading a
    2-, 4- or 8-byte big-endian field gives the number it stands for. *)
Theorem byte_order_conversions :
  (∀ x, bpf_swab16 x = builtin_bswap 2 x ∧ bpf_swab32 x = builtin_bswap 4 x ∧
        bpf_swab64 x = builtin_bswap 8 x) ∧
  (∀ o const l, is_bytes l →
     (length l = 2%nat → bpf_ntohs o const (load_native o l) = be_val l) ∧
     (length l = 4%nat → bpf_ntohl o const (load_native o l) = be_val l) ∧
     (length l = 8%nat → bpf_be64_to_cpu o const (load_native o l) = be_val l)).
Proof.
  split; [auto using swab16_bswap, swab32_bswap, swab64_bswap|].
  intros o const l Hl. unfold bpf_ntohs, bpf_ntohl, bpf_be64_to_cpu.
  rewrite swab16_bswap, swab32_bswap, swab64_bswap.
  destruct o, const; cbn [load_native]; (split; [|split]); intros Hn; try done;
    by apply bswap_le_val'.
Qed.

Lemma byte_order_conversions_witness :
  bpf_ntohs LITTLE_ENDIAN false (load_native LITTLE_ENDIAN [0; 53]) = be_val [0; 53] ∧
  be_val [0; 53] = 53.
Proof.
  split; [|reflexivity]. refine (proj1 (proj2 byte_order_conversions LITTLE_ENDIAN false [0; 53] _) _);
    [|reflexivity]. repeat constructor; done.
Defined.

(** ** Host order is undone by network order *)

Lemma rev_le_bytes_bytes n x : is_bytes (rev (le_bytes n x)).
Proof.
  pose proof (le_bytes_bytes n x) as H. unfold is_bytes in *. rewrite Forall_forall in *.
  intros b Hb. apply H. by rewrite <- elem_of_list_In, <- in_rev, elem_of_list_In in Hb
    || (apply list_elem_of_In; apply list_elem_of_In in Hb; by apply in_rev in Hb).
Qed.

Lemma bswap_bswap n x : 0 ≤ x < 256 ^ Z.of_nat n → builtin_bswap n (builtin_bswap n x) = x.
Proof.
  intros Hx. unfold builtin_bswap at 1 2.
  replace (le_bytes n (le_val (rev (le_bytes n x)))) with (rev (le_bytes n x)).
  - rewrite rev_involutive. by apply le_val_le_bytes_small.
  - rewrite <- (length_le_bytes n x) at 2. rewrite <- length_rev.
    by rewrite le_bytes_le_val by apply rev_le_bytes_bytes.
Qed.

(** Converting to network order and back is the identity, at each
    width, on both targets. *)
Theorem byte_order_roundtrip o const const' x :
  (0 ≤ x < 2 ^ 16 → bpf_ntohs o const (bpf_htons o const' x) = x) ∧
  (0 ≤ x < 2 ^ 32 → bpf_ntohl o const (bpf_htonl o const' x) = x) ∧
  (0 ≤ x < 2 ^ 64 → bpf_be64_to_cpu o const (bpf_cpu_to_be64 o const' x) = x).
Proof.
  unfold bpf_ntohs, bpf_htons, bpf_ntohl, bpf_htonl, bpf_be64_to_cpu, bpf_cpu_to_be64.
  destruct o; [|done].
  destruct const, const'; rewrite ?swab16_bswap, ?swab32_bswap, ?swab64_bswap;
    (split; [|split]); intros Hx; apply bswap_bswap; apply Hx.
Qed.

Lemma byte_order_roundtrip_witness :
  (0 ≤ 443 < 2 ^ 16 → bpf_ntohs LITTLE_ENDIAN false (bpf_htons LITTLE_ENDIAN true 443) = 443) ∧
  bpf_htons LITTLE_ENDIAN true 443 = 47873.
Proof. split; [apply byte_order_roundtrip|reflexivity]. Defined.
