(* ===== verification/BpfHelpers.v ===== *)
(** * libbpf conveniences (bpf_helpers.h)

    The printing macros, which pack any number of arguments into one helper
    call, and the loops over the kernel's open-coded number iterator.  The
    helpers and the iterator are the kernel's: calls of the first are
    values here, the second is a parameter with its documented laws. *)
From Stdlib Require Import ZArith Lia.
From stdpp Require Import base tactics list.
From S2P Require Import Prelude.
From S2P Require Import Varargs.
Local Open Scope Z_scope.

(** ** Packing arguments *)

(** [arr[p] = x] on an array of [unsigned long long]; [None] outside it. *)
Definition arr_set (arr : list Z) (p : nat) (x : Z) : option (list Z) :=
  if decide (p < length arr)%nat then Some (<[p := u64 x]> arr) else None.

(** [___bpf_fill<n>(arr, p, x, args...)] *)
Fixpoint fill (n : nat) (arr : list Z) (p : nat) (args : list Z) : option (list Z) :=
  match n, args with
  | O, [] => Some arr
  | S O, [x] => arr_set arr p x
  | S (S _ as k), x :: args => arr ← arr_set arr p x; fill k arr (p + 1) args
  | _, _ => None
  end.

(** [___bpf_fill(arr, args...)]: there is [___bpf_fill0] to [12]. *)
Definition bpf_fill (arr : list Z) (args : list Z) : option (list Z) :=
  apply_ (λ n, if (n <=? 12)%nat then fill n arr 0 args else None) (bpf_narg args).

(** [unsigned long long ___param[___bpf_narg(args)]], filled; [garbage] is
    what the stack held. *)
Definition param (garbage : nat → Z) (args : list Z) : option (list Z) :=
  apply_ (λ n, bpf_fill (garbage <$> seq 0 n) args) (bpf_narg args).

(** ** Helper calls *)

(** A call of one of the kernel's printing helpers with its arguments. *)
Inductive print_call :=
  | call_seq_printf (seq : Z) (fmt : list Z) (fmt_size : Z) (data : list Z) (data_len : Z)
  | call_snprintf (out out_size : Z) (fmt : list Z) (data : list Z) (data_len : Z)
  | call_trace_printk (fmt : list Z) (fmt_size : Z) (args : list Z)
  | call_trace_vprintk (fmt : list Z) (fmt_size : Z) (data : list Z) (data_len : Z)
  | call_stream_vprintk (stream_id : Z) (fmt : list Z) (data : list Z) (data_len : Z).

Section print.
Variable garbage : nat → Z.

(** [static const char ___fmt[] = fmt], and [sizeof] of the two arrays. *)
Definition fmt_array (fmt : list Z) : list Z := fmt ++ [0].
Definition sizeof_fmt (fmt : list Z) : Z := Z.of_nat (length (fmt_array fmt)).
Definition sizeof_param (p : list Z) : Z := 8 * Z.of_nat (length p).

Definition BPF_SEQ_PRINTF (seq : Z) (fmt : list Z) (args : list Z) : option print_call :=
  p ← param garbage args;
  Some (call_seq_printf seq (fmt_array fmt) (sizeof_fmt fmt) p (sizeof_param p)).

Definition BPF_SNPRINTF (out out_size : Z) (fmt : list Z) (args : list Z) : option print_call :=
  p ← param garbage args;
  Some (call_snprintf out out_size (fmt_array fmt) p (sizeof_param p)).

Definition bpf_printk_ (fmt : list Z) (args : list Z) : option print_call :=
  Some (call_trace_printk (fmt_array fmt) (sizeof_fmt fmt) (u64 <$> args)).

Definition bpf_vprintk_ (fmt : list Z) (args : list Z) : option print_call :=
  p ← param garbage args;
  Some (call_trace_vprintk (fmt_array fmt) (sizeof_fmt fmt) p (sizeof_param p)).

Definition bpf_stream_printk (stream_id : Z) (fmt : list Z) (args : list Z) : option print_call :=
  p ← param garbage args;
  Some (call_stream_vprintk stream_id (fmt_array fmt) p (sizeof_param p)).

(** The macro names [___bpf_pick_printk] chooses from. *)
Inductive printk_macro := PRINTK | VPRINTK.

Definition pick_printk (args : list Z) : option (token (Z + printk_macro)) :=
  bpf_nth (Underscore :: map Arg (map inl args)
           ++ replicate 9 (Arg (inr VPRINTK)) ++ replicate 4 (Arg (inr PRINTK))).

Definition bpf_printk (fmt : list Z) (args : list Z) : option print_call :=
  match pick_printk args with
  | Some (Arg (inr PRINTK)) => bpf_printk_ fmt args
  | Some (Arg (inr VPRINTK)) => bpf_vprintk_ fmt args
  | _ => None
  end.
End print.

(** ** Loops *)

(** [struct bpf_iter_num] and its three functions. *)
Class NumIter := {
  bpf_iter_num : Type;
  bpf_iter_num_new : Z → Z → bpf_iter_num;
  bpf_iter_num_next : bpf_iter_num → option Z * bpf_iter_num;
}.

(** An iterator gives the elements of [l] and then no more. *)
Fixpoint gives {NI : NumIter} (it : bpf_iter_num) (l : list Z) : Prop :=
  match l with
  | [] => fst (bpf_iter_num_next it) = None
  | x :: l => fst (bpf_iter_num_next it) = Some x ∧ gives (snd (bpf_iter_num_next it)) l
  end.

(** The kernel's limit on a range. *)
Definition BPF_MAX_LOOPS : Z := 8 * 1024 * 1024.

(** [start], [start + 1], ..., [end - 1] *)
Definition range (start stop : Z) : list Z := (λ k, start + Z.of_nat k) <$> seq 0 (Z.to_nat (stop - start)).

(** The kernel's documentation: the numbers of the range; an error in
    [bpf_iter_num_new] (a range that is reversed or too long) leaves an
    iterator that gives nothing. *)
Class NumIterOk (NI : NumIter) : Prop := {
  new_range start stop : start ≤ stop → stop - start ≤ BPF_MAX_LOOPS →
    gives (bpf_iter_num_new start stop) (range start stop);
  new_error start stop : stop < start ∨ BPF_MAX_LOOPS < stop - start →
    gives (bpf_iter_num_new start stop) [];
}.

Section loops.
Context {NI : NumIter} {S : Type}.

(** A C [for] over the iterator: [test] is the condition on what [next]
    gave, on the loop variable, which it sets; the body says whether it
    breaks.  [None] is out of fuel. *)
Fixpoint for_loop (fuel : nat) (test : option Z → Z → bool * Z) (body : Z → S → bool * S)
    (it : bpf_iter_num) (i : Z) (s : S) : option (Z * S) :=
  match fuel with
  | O => None
  | Datatypes.S fuel =>
      let '(t, it) := bpf_iter_num_next it in
      let '(go, i) := test t i in
      if go : bool then
        let '(break, s) := body i s in
        if break : bool then Some (i, s) else for_loop fuel test body it i s
      else Some (i, s)
  end.

(** [___t && ((i) = *___t, (i) >= (start) && (i) < (end))] *)
Definition bpf_for_test (start stop : Z) (t : option Z) (i : Z) : bool * Z :=
  match t with
  | None => (false, i)
  | Some x => ((start <=? x) && (x <? stop), x)
  end.

Definition bpf_for (fuel : nat) (start stop : Z) (body : Z → S → bool * S) (i : Z) (s : S)
    : option (Z * S) :=
  for_loop fuel (bpf_for_test start stop) body (bpf_iter_num_new start stop) i s.

(** [bpf_for_each(num, cur, start, end)], the loop variable read through
    [cur]: it ends when [cur] is NULL. *)
Definition bpf_for_each_test (t : option Z) (i : Z) : bool * Z :=
  match t with
  | None => (false, i)
  | Some x => (true, x)
  end.

Definition bpf_for_each_num (fuel : nat) (start stop : Z) (body : Z → S → bool * S) (i : Z) (s : S)
    : option (Z * S) :=
  for_loop fuel bpf_for_each_test body (bpf_iter_num_new start stop) i s.

(** [bpf_repeat(N)]: neither the body nor what follows sees the number. *)
Definition bpf_repeat (fuel : nat) (N : Z) (body : S → bool * S) (s : S) : option S :=
  snd <$> for_loop fuel bpf_for_each_test (λ _, body) (bpf_iter_num_new 0 N) 0 s.

(** ** Reference: a body run on the elements of a list *)

Fixpoint run_body (body : Z → S → bool * S) (l : list Z) (i : Z) (s : S) : Z * S :=
  match l with
  | [] => (i, s)
  | x :: l =>
      let '(break, s) := body x s in
      if break : bool then (x, s) else run_body body l x s
  end.

Lemma for_loop_gives fuel test body it l i s :
  gives it l → (length l < fuel)%nat → (∀ i, test None i = (false, i)) →
  (∀ x i, x ∈ l → test (Some x) i = (true, x)) →
  for_loop fuel test body it i s = Some (run_body body l i s).
Proof.
  revert fuel it i s. induction l as [|x l IH]; intros [|fuel] it i s Hg Hf Hn Ht; cbn [length] in Hf;
    try lia; cbn [for_loop gives run_body] in *.
  - destruct (bpf_iter_num_next it) as [t it']. cbn in Hg. subst t. by rewrite Hn.
  - destruct (bpf_iter_num_next it) as [t it']. cbn in Hg. destruct Hg as [-> Hg].
    rewrite Ht by apply list_elem_of_here. destruct (body x s) as [[] s']; [done|].
    apply IH; try done; [lia|]. intros y j Hy. apply Ht. by apply list_elem_of_further.
Qed.

Lemma range_empty start stop : stop ≤ start → range start stop = [].
Proof. intros H. unfold range. by replace (Z.to_nat (stop - start)) with 0%nat by lia. Qed.

Lemma range_step start stop : start < stop → range start stop = start :: range (start + 1) stop.
Proof.
  intros H. unfold range.
  replace (Z.to_nat (stop - start)) with (Datatypes.S (Z.to_nat (stop - (start + 1)))) by lia.
  cbn [seq fmap list_fmap]. rewrite Z.add_0_r. f_equal. rewrite <- seq_shift. unfold fmap.
  rewrite <- list_fmap_compose. apply list_fmap_ext. intros _ k _. unfold compose. lia.
Qed.

Lemma elem_of_range start stop x : x ∈ range start stop ↔ start ≤ x < stop.
Proof.
  unfold range. rewrite list_elem_of_fmap. split.
  - intros (k & -> & Hk%elem_of_seq). lia.
  - intros H. exists (Z.to_nat (x - start)). rewrite elem_of_seq. lia.
Qed.

Lemma length_range start stop : length (range start stop) = Z.to_nat (stop - start).
Proof. unfold range. by rewrite length_fmap, length_seq. Qed.
End loops.

(** ** What the printing macros pass *)

Lemma length_garbage {A} (f : nat → A) n : length (f <$> seq 0 n) = n.
Proof. by rewrite length_fmap, length_seq. Qed.

Lemma fill_all n arr pre args :
  length args = n → length arr = (length pre + n)%nat → take (length pre) arr = pre →
  fill n arr (length pre) args = Some (pre ++ (u64 <$> args)).
Proof.
  revert arr pre args. induction n as [|n IH]; intros arr pre [|x args] Hn Hl Ht; try discriminate Hn.
  - cbn. rewrite app_nil_r. rewrite take_ge in Ht by lia. by subst.
  - assert (Hset : arr_set arr (length pre) x = Some (<[length pre := u64 x]> arr)).
    { unfold arr_set. by rewrite decide_True by lia. }
    assert (Htk : take (length (pre ++ [u64 x])) (<[length pre := u64 x]> arr) = pre ++ [u64 x]).
    { rewrite length_app, Nat.add_1_r. rewrite (take_S_r _ _ (u64 x)).
      - by rewrite take_insert_ge, Ht by lia.
      - apply list_lookup_insert_eq. lia. }
    destruct n as [|n].
    + destruct args; [|done]. cbn [fill]. rewrite Hset. f_equal.
      rewrite take_ge in Htk by (rewrite length_app, length_insert; cbn; lia). by rewrite Htk.
    + change (fill (S (S n)) arr (length pre) (x :: args))
        with (arr ← arr_set arr (length pre) x; fill (S n) arr (length pre + 1) args).
      rewrite Hset. cbn [mbind option_bind].
      replace (length pre + 1)%nat with (length (pre ++ [u64 x])) by (rewrite length_app; cbn; lia).
      rewrite IH; [by rewrite <- (assoc_L (++))|cbn in Hn; lia| |done].
      rewrite length_insert, length_app. cbn. lia.
Qed.

Lemma param_all garbage args : (length args ≤ 12)%nat → param garbage args = Some (u64 <$> args).
Proof.
  intros H. unfold param, bpf_fill. rewrite bpf_narg_length by done. cbn [apply_].
  rewrite (proj2 (Nat.leb_le _ 12)) by done.
  apply (fill_all (length args) _ [] args); [done|by rewrite length_garbage|done].
Qed.

Lemma pick_printk_spec args : (length args ≤ 12)%nat →
  pick_printk args = Some (Arg (inr (if (length args <=? 3)%nat then PRINTK else VPRINTK))).
Proof.
  intros H. unfold pick_printk, bpf_nth.
  rewrite app_comm_cons, lookup_app_r by (cbn; rewrite !length_map; lia).
  cbn [length]. rewrite !length_map. destruct (Nat.leb_spec (length args) 3).
  - rewrite lookup_app_r by (rewrite length_replicate; lia).
    rewrite length_replicate. apply lookup_replicate_2. lia.
  - rewrite lookup_app_l by (rewrite length_replicate; lia). apply lookup_replicate_2. lia.
Qed.

Lemma long_is_no_macro garbage args : (12 < length args)%nat → param garbage args = None.
Proof. intros H. unfold param. by rewrite bpf_narg_long, apply_arg. Qed.

Lemma long_is_no_printk garbage fmt args : (12 < length args)%nat → bpf_printk garbage fmt args = None.
Proof.
  intros H. unfold bpf_printk, pick_printk, bpf_nth.
  rewrite app_comm_cons, lookup_app_l by (cbn; rewrite !length_map; lia).
  change ((Underscore :: map Arg (map inl args)) !! 13%nat)
    with (map Arg (map (@inl Z printk_macro) args) !! 12%nat).
  rewrite !list_lookup_fmap. by destruct (args !! 12%nat).
Qed.

Lemma loops_give {NI : NumIter} {NO : NumIterOk NI} start stop :
  gives (bpf_iter_num_new start stop) (if stop - start <=? BPF_MAX_LOOPS then range start stop else []).
Proof.
  destruct (Z.leb_spec (stop - start) BPF_MAX_LOOPS); [|by apply new_error; right].
  destruct (decide (start ≤ stop)); [by apply new_range|].
  rewrite range_empty by lia. apply new_error. lia.
Qed.

(** ** Properties *)

(** Printing passes every argument: with up to 12 arguments the macros
    make exactly one helper call, with the format and its NUL, its size, all
    the arguments in order as 64-bit values, none of the stack garbage the
    array held, and the array's size in bytes; [bpf_printk] takes the helper
    with three argument registers exactly when three are enough.  With more
    than 12 arguments nothing compiles. *)
Theorem printing_passes_every_argument garbage fmt args seq out n id :
  let size := Z.of_nat (length fmt) + 1 in
  let data := u64 <$> args in
  let len := 8 * Z.of_nat (length args) in
  if (length args <=? 12)%nat then
    bpf_printk garbage fmt args =
      Some (if (length args <=? 3)%nat then call_trace_printk (fmt ++ [0]) size data
            else call_trace_vprintk (fmt ++ [0]) size data len) ∧
    BPF_SEQ_PRINTF garbage seq fmt args = Some (call_seq_printf seq (fmt ++ [0]) size data len) ∧
    BPF_SNPRINTF garbage out n fmt args = Some (call_snprintf out n (fmt ++ [0]) data len) ∧
    bpf_stream_printk garbage id fmt args = Some (call_stream_vprintk id (fmt ++ [0]) data len)
  else
    bpf_printk garbage fmt args = None ∧ BPF_SEQ_PRINTF garbage seq fmt args = None ∧
    BPF_SNPRINTF garbage out n fmt args = None ∧ bpf_stream_printk garbage id fmt args = None.
Proof.
  intros size data len. unfold BPF_SEQ_PRINTF, BPF_SNPRINTF, bpf_stream_printk.
  destruct (Nat.leb_spec (length args) 12) as [H|H].
  - assert (Hs : sizeof_fmt fmt = size) by (unfold sizeof_fmt, fmt_array; rewrite length_app; cbn; lia).
    assert (Hp : sizeof_param (u64 <$> args) = len) by (unfold sizeof_param; by rewrite length_fmap).
    unfold bpf_printk. rewrite pick_printk_spec by done. unfold bpf_vprintk_, bpf_printk_.
    rewrite param_all by done. cbn [mbind option_bind]. rewrite Hs, Hp.
    by destruct (length args <=? 3)%nat.
  - by rewrite long_is_no_printk, long_is_no_macro by done.
Qed.

(** The loop macros run their range: for an iterator with the kernel's
    documented behaviour, [bpf_for] and [bpf_for_each(num, ...)] run the body
    on start, start + 1, ... below end, in order, until it breaks, and leave
    the loop variable at the last number; the bounds test of [bpf_for] never
    ends the loop early; [bpf_repeat(N)] runs its body N times.  A reversed
    range, and one of more than 8 Mi numbers, runs nothing.  The loops end:
    one step more than the range has numbers is enough. *)
Theorem loops_run_their_range {NI : NumIter} {NO : NumIterOk NI} {S : Type} fuel start stop
    (body : Z → S → bool * S) i s :
  (Z.to_nat (stop - start) < fuel)%nat →
  let l := if stop - start <=? BPF_MAX_LOOPS then range start stop else [] in
  bpf_for fuel start stop body i s = Some (run_body body l i s) ∧
  bpf_for_each_num fuel start stop body i s = Some (run_body body l i s) ∧
  ∀ body1, start = 0 → bpf_repeat fuel stop body1 s = Some (snd (run_body (λ _, body1) l 0 s)).
Proof.
  intros Hf l. pose proof (loops_give start stop) as Hg. fold l in Hg.
  assert (Hl : (length l < fuel)%nat).
  { unfold l. destruct (_ <=? _); [by rewrite length_range|cbn; lia]. }
  assert (Hin : ∀ x, x ∈ l → start ≤ x < stop).
  { intros x. unfold l. destruct (_ <=? _); [apply elem_of_range|by intros ?%not_elem_of_nil]. }
  split; [|split].
  - apply for_loop_gives; try done. intros x j Hx%Hin. cbn.
    by rewrite (proj2 (Z.leb_le _ _)), (proj2 (Z.ltb_lt _ _)) by lia.
  - by apply for_loop_gives.
  - intros body1 ->. unfold bpf_repeat. by rewrite (for_loop_gives fuel _ _ _ l).
Qed.

(** An iterator as the kernel's: the next number and the end. *)
#[local] Instance demo_iter : NumIter := {
  bpf_iter_num := Z * Z;
  bpf_iter_num_new start stop :=
    if (start <=? stop) && (stop - start <=? BPF_MAX_LOOPS) then (start, stop) else (0, 0);
  bpf_iter_num_next '(cur, stop) :=
    if cur <? stop then (Some cur, (cur + 1, stop)) else (None, (cur, stop));
}.

Lemma demo_gives start stop : gives (start, stop) (range start stop).
Proof.
  remember (Z.to_nat (stop - start)) as n eqn:Hn. revert start Hn.
  induction n as [|n IH]; intros start Hn.
  - rewrite range_empty by lia. cbn. by rewrite (proj2 (Z.ltb_ge _ _)) by lia.
  - rewrite range_step by lia. cbn. rewrite (proj2 (Z.ltb_lt _ _)) by lia. cbn.
    split; [done|]. apply IH. lia.
Qed.

#[local] Instance demo_iter_ok : NumIterOk demo_iter.
Proof.
  split; intros start stop.
  - intros H1 H2. cbn [bpf_iter_num_new demo_iter]. rewrite !(proj2 (Z.leb_le _ _)) by lia. apply demo_gives.
  - intros H. cbn [bpf_iter_num_new demo_iter].
    replace ((start <=? stop) && (stop - start <=? BPF_MAX_LOOPS)) with false; [done|].
    symmetry. apply andb_false_iff. rewrite !Z.leb_gt. lia.
Qed.

(** Sums of 3, 4, 5, 6, stopped at 5. *)
Lemma loops_run_their_range_witness :
  let body i s := (i =? 5, s + i) in
  bpf_for 10 3 7 body 0 0 = Some (5, 12) ∧ bpf_for_each_num 10 3 7 body 0 0 = Some (5, 12).
Proof.
  intros body. destruct (loops_run_their_range 10 3 7 body 0 0) as (H1 & H2 & _); [lia|].
  split; [by rewrite H1|by rewrite H2].
Defined.
