(* ===== verification/Linsensor.v ===== *)
(** * linsensor.bpf.c: the host telemetry sensor

    One section per group of functions of the file.  [st] is what the BPF
    maps hold, [sensor_event] and [pending] are the structs; a function
    is a run of the state monad.  [c] is the run's kernel context and
    [slot] what [bpf_ringbuf_reserve] returns in this run: [None] when the
    ring buffer is full, else the record memory, whose old contents the
    helper does not clear. *)
From Stdlib Require Import ZArith Lia Ascii String.
From stdpp Require Import base tactics list gmap.
From S2P Require Import Prelude.
From S2P Require Import Kernel.
From S2P Require Import CoreRead.
From S2P Require Import Tracing.
From S2P Require Import PathWalk.
Local Open Scope Z_scope.

(** ** Constants *)

Definition AT_FDCWD : Z := -100.
Definition O_WRONLY : Z := 1.
Definition O_RDWR : Z := 2.
Definition O_CREAT : Z := 64.     (* 0100 *)
Definition O_TRUNC : Z := 512.    (* 01000 *)

Definition K_OPEN : Z := 1.
Definition K_RENAME : Z := 2.
Definition K_UNLINK : Z := 3.
Definition K_MODULE_INIT : Z := 4.
Definition K_MODULE_FINIT : Z := 5.
Definition K_MODULE_DELETE : Z := 6.
Definition K_PTRACE : Z := 7.
Definition K_SETID : Z := 8.
Definition K_CAPSET : Z := 9.
Definition K_MEMFD : Z := 10.
Definition K_EXEC : Z := 11.
Definition K_FILELESS_EXEC : Z := 12.
Definition K_EXIT : Z := 13.
Definition K_VM_ACCESS : Z := 14.

Definition ID_SETUID : Z := 1.
Definition ID_SETREUID : Z := 2.
Definition ID_SETRESUID : Z := 3.
Definition ID_SETGID : Z := 4.
Definition ID_SETREGID : Z := 5.
Definition ID_SETRESGID : Z := 6.

Definition SELF_MAGIC : Z := 0x4c53454e.

Definition ST_STASH : Z := 0.
Definition ST_TAKE_OK : Z := 1.
Definition ST_MISSING : Z := 2.
Definition ST_KIND : Z := 3.
Definition ST_FAILED : Z := 4.
Definition ST_STASH_ERR : Z := 5.
Definition ST_N : nat := 6.

(** ** Data *)

Record sensor_event := SensorEvent {
  ev_ts : Z;
  ev_ret : Z;         (* __s64 *)
  ev_arg0 : Z;
  ev_arg1 : Z;
  ev_arg2 : Z;
  ev_kind : Z;
  ev_pid : Z;
  ev_tgid : Z;
  ev_ppid : Z;
  ev_uid : Z;
  ev_euid : Z;
  ev_dfd : Z;         (* __s32 *)
  ev_dfd2 : Z;        (* __s32 *)
  ev_comm : list Z;   (* char[TASK_COMM_LEN] *)
  ev_path : list Z;   (* char[PATH_LEN] *)
  ev_path2 : list Z;
  ev_dir : list Z;
  ev_dir2 : list Z;
}.

(** Assignments to single members. *)
Definition set_ret (v : Z) (e : sensor_event) : sensor_event :=
  let '(SensorEvent ts _ a0 a1 a2 k p t pp u eu d d2 cm pa pa2 di di2) := e in
  SensorEvent ts v a0 a1 a2 k p t pp u eu d d2 cm pa pa2 di di2.
Definition set_arg0 (v : Z) (e : sensor_event) : sensor_event :=
  let '(SensorEvent ts r _ a1 a2 k p t pp u eu d d2 cm pa pa2 di di2) := e in
  SensorEvent ts r v a1 a2 k p t pp u eu d d2 cm pa pa2 di di2.
Definition set_arg1 (v : Z) (e : sensor_event) : sensor_event :=
  let '(SensorEvent ts r a0 _ a2 k p t pp u eu d d2 cm pa pa2 di di2) := e in
  SensorEvent ts r a0 v a2 k p t pp u eu d d2 cm pa pa2 di di2.
Definition set_arg2 (v : Z) (e : sensor_event) : sensor_event :=
  let '(SensorEvent ts r a0 a1 _ k p t pp u eu d d2 cm pa pa2 di di2) := e in
  SensorEvent ts r a0 a1 v k p t pp u eu d d2 cm pa pa2 di di2.
Definition set_uid (v : Z) (e : sensor_event) : sensor_event :=
  let '(SensorEvent ts r a0 a1 a2 k p t pp _ eu d d2 cm pa pa2 di di2) := e in
  SensorEvent ts r a0 a1 a2 k p t pp v eu d d2 cm pa pa2 di di2.
Definition set_euid (v : Z) (e : sensor_event) : sensor_event :=
  let '(SensorEvent ts r a0 a1 a2 k p t pp u _ d d2 cm pa pa2 di di2) := e in
  SensorEvent ts r a0 a1 a2 k p t pp u v d d2 cm pa pa2 di di2.
Definition set_dfd (v : Z) (e : sensor_event) : sensor_event :=
  let '(SensorEvent ts r a0 a1 a2 k p t pp u eu _ d2 cm pa pa2 di di2) := e in
  SensorEvent ts r a0 a1 a2 k p t pp u eu v d2 cm pa pa2 di di2.
Definition set_dfd2 (v : Z) (e : sensor_event) : sensor_event :=
  let '(SensorEvent ts r a0 a1 a2 k p t pp u eu d _ cm pa pa2 di di2) := e in
  SensorEvent ts r a0 a1 a2 k p t pp u eu d v cm pa pa2 di di2.
Definition set_path (v : list Z) (e : sensor_event) : sensor_event :=
  let '(SensorEvent ts r a0 a1 a2 k p t pp u eu d d2 cm _ pa2 di di2) := e in
  SensorEvent ts r a0 a1 a2 k p t pp u eu d d2 cm v pa2 di di2.
Definition set_path2 (v : list Z) (e : sensor_event) : sensor_event :=
  let '(SensorEvent ts r a0 a1 a2 k p t pp u eu d d2 cm pa _ di di2) := e in
  SensorEvent ts r a0 a1 a2 k p t pp u eu d d2 cm pa v di di2.
Definition set_dir (v : list Z) (e : sensor_event) : sensor_event :=
  let '(SensorEvent ts r a0 a1 a2 k p t pp u eu d d2 cm pa pa2 _ di2) := e in
  SensorEvent ts r a0 a1 a2 k p t pp u eu d d2 cm pa pa2 v di2.
Definition set_dir2 (v : list Z) (e : sensor_event) : sensor_event :=
  let '(SensorEvent ts r a0 a1 a2 k p t pp u eu d d2 cm pa pa2 di _) := e in
  SensorEvent ts r a0 a1 a2 k p t pp u eu d d2 cm pa pa2 di v.

(** A record slot of the ring buffer: the buffers have their sizes. *)
Record event_ok (e : sensor_event) : Prop := {
  eo_path : length (ev_path e) = PATH_LEN;
  eo_path2 : length (ev_path2 e) = PATH_LEN;
  eo_dir : length (ev_dir e) = PATH_LEN;
  eo_dir2 : length (ev_dir2 e) = PATH_LEN;
}.

Record pending := Pending {
  p_kind : Z;
  p_pad : Z;
  p_a : list Z;       (* __u64 a[4] *)
  p_uid : Z;
  p_euid : Z;
}.

(** [p.a[i]] *)
Definition arg (p : pending) (i : nat) : Z := nth i (p_a p) 0.

(** The maps of the object; [M] is the LRU hash [pending_args]. *)
Record st (M : Type) := St {
  st_self : list Z;                       (* self: ARRAY of one __u32 *)
  st_events : list sensor_event;          (* sensor_events, oldest first *)
  st_scratch : list (list path_parts);    (* path_scratch, per CPU *)
  st_drops : list (list Z);               (* drops, per CPU *)
  st_pending : M;                         (* pending_args *)
  st_stats : list (list Z);               (* stats, per CPU *)
}.
Arguments St {M} _ _ _ _ _ _.
Arguments st_self {M} _.
Arguments st_events {M} _.
Arguments st_scratch {M} _.
Arguments st_drops {M} _.
Arguments st_pending {M} _.
Arguments st_stats {M} _.

Definition up_self {M} (v : list Z) (s : st M) : st M :=
  St v (st_events s) (st_scratch s) (st_drops s) (st_pending s) (st_stats s).
Definition up_events {M} (v : list sensor_event) (s : st M) : st M :=
  St (st_self s) v (st_scratch s) (st_drops s) (st_pending s) (st_stats s).
Definition up_scratch {M} (v : list (list path_parts)) (s : st M) : st M :=
  St (st_self s) (st_events s) v (st_drops s) (st_pending s) (st_stats s).
Definition up_drops {M} (v : list (list Z)) (s : st M) : st M :=
  St (st_self s) (st_events s) (st_scratch s) v (st_pending s) (st_stats s).
Definition up_pending {M} (v : M) (s : st M) : st M :=
  St (st_self s) (st_events s) (st_scratch s) (st_drops s) v (st_stats s).
Definition up_stats {M} (v : list (list Z)) (s : st M) : st M :=
  St (st_self s) (st_events s) (st_scratch s) (st_drops s) (st_pending s) v.

(** The maps right after loading, on [ncpu] CPUs. *)
Definition st_init {M} (empty : M) (ncpu : nat) : st M :=
  St [0] [] (replicate ncpu [pp_zero]) (replicate ncpu [0]) empty (replicate ncpu (zeros ST_N)).

(** ** Operations *)

Section linsensor.
Context {KL : KernelLayout} {M : Type} `{HM : !LruHash M Z pending}.
Context (c : ctx) (slot : option sensor_event).

Let rd := cx_read_kernel c.

(** *** Counters, the self check, records *)

Definition count (i : Z) : prog (st M) unit :=
  s ← get;
  match percpu_lookup (st_stats s) (cx_cpu c) i with
  | Some n => put (up_stats (percpu_store (st_stats s) (cx_cpu c) i (u64 (n + 1))) s)
  | None => mret tt
  end.

Definition skip_self : prog (st M) bool :=
  s ← get;
  mret match array_lookup (st_self s) 0 with
       | Some tgid => tgid =? cx_tgid c
       | None => false
       end.

(** The argument array of a syscall: [args[i]]. *)
Definition sysarg (args : list Z) (i : nat) : Z := nth i args 0.

Definition enter_prctl (args : list Z) : prog (st M) Z :=
  if negb (sysarg args 0 =? SELF_MAGIC) then mret 0
  else
    s ← get;
    match array_lookup (st_self s) 0 with
    | Some tgid =>
        if tgid =? 0
        then put (up_self (array_store (st_self s) 0 (u32 (cx_tgid c))) s);; mret 0
        else mret 0
    | None => mret 0
    end.

(** [BPF_CORE_READ(task, real_parent, tgid)], [BPF_CORE_READ(task, cred, euid.val)] *)
Definition task_ppid : Z := BPF_CORE_READ rd 4 (cx_task c) off_task_real_parent [off_task_tgid].
Definition task_euid : Z := BPF_CORE_READ rd 4 (cx_task c) off_task_cred [off_cred_euid].

(** The record as [reserve] fills it; everything else keeps the old
    contents of the slot. *)
Definition fresh_event (kind : Z) (e : sensor_event) : sensor_event :=
  SensorEvent (cx_ktime c) 0 0 0 0 kind (cx_pid c) (u32 (cx_tgid c)) task_ppid (cx_uid c)
    task_euid AT_FDCWD AT_FDCWD (cx_comm c)
    (<[0%nat := 0]> (ev_path e)) (<[0%nat := 0]> (ev_path2 e))
    (<[0%nat := 0]> (ev_dir e)) (<[0%nat := 0]> (ev_dir2 e)).

Definition reserve (kind : Z) : prog (st M) (option sensor_event) :=
  match slot with
  | None =>
      s ← get;
      match percpu_lookup (st_drops s) (cx_cpu c) 0 with
      | Some n => put (up_drops (percpu_store (st_drops s) (cx_cpu c) 0 (u64 (n + 1))) s);; mret None
      | None => mret None
      end
  | Some e => mret (Some (fresh_event kind e))
  end.

(** [bpf_ringbuf_submit(ev, 0)] *)
Definition submit (e : sensor_event) : prog (st M) unit :=
  modify (λ s, up_events (st_events s ++ [e]) s).

(** *** The sys_enter / sys_exit pairing *)

Definition stash (kind a0 a1 a2 a3 : Z) : prog (st M) unit :=
  s ← get;
  let p := Pending kind 0 [a0; a1; a2; a3] 0 0 in
  let r := hash_update (st_pending s) (cx_pid_tgid c) p in
  put (up_pending (snd r) s);;
  if fst r =? 0 then count ST_STASH else count ST_STASH_ERR.

Definition take (kind ret : Z) : prog (st M) (option pending) :=
  s ← get;
  match hash_lookup (st_pending s) (cx_pid_tgid c) with
  | None => count ST_MISSING;; mret None
  | Some p =>
      let ok := (p_kind p =? kind) && (0 <=? ret) in
      (if ok then count ST_TAKE_OK
       else count (if p_kind p =? kind then ST_FAILED else ST_KIND));;
      modify (λ s, up_pending (hash_delete (st_pending s) (cx_pid_tgid c)) s);;
      mret (if ok then Some p else None)
  end.

(** *** Paths *)

Definition build_path (d vm : Z) (out : list Z) : prog (st M) (list Z) :=
  s ← get;
  match percpu_lookup (st_scratch s) (cx_cpu c) 0 with
  | None => mret out
  | Some pp =>
      if (d =? 0) || (vm =? 0) then mret out else
      let '(pos, pp) := walk_and_write c d vm pp in
      put (up_scratch (percpu_store (st_scratch s) (cx_cpu c) 0 pp) s);;
      if pos =? DIR_BUF then mret (<[1%nat := 0]> (<[0%nat := SLASH]> out))
      else mret (snd (str_copy out (buf_str pos pp)))
  end.

(** The struct file of descriptor [fd], or NULL. *)
Definition fd_file (fd : Z) : Z :=
  let fdt := BPF_CORE_READ rd 8 (cx_task c) off_task_files [off_files_fdt] in
  let max := BPF_CORE_READ rd 4 fdt off_fdtable_max_fds [] in
  if (fd <? 0) || (max <=? u32 fd) then 0
  else
    let fds := BPF_CORE_READ rd 8 fdt off_fdtable_fd [] in
    le_val (snd (rd (field fds (8 * fd)) 8)).

(** [f_path.dentry] and [f_path.mnt] of a struct file, [pwd] of the
    task's fs_struct. *)
Definition file_dentry (f : Z) : Z := BPF_CORE_READ rd 8 f (off_file_f_path + off_path_dentry) [].
Definition file_mnt (f : Z) : Z := BPF_CORE_READ rd 8 f (off_file_f_path + off_path_mnt) [].

Definition dir_of (dfd : Z) (out : list Z) : prog (st M) (list Z) :=
  if dfd =? AT_FDCWD then
    let fs := BPF_CORE_READ rd 8 (cx_task c) off_task_fs [] in
    build_path (BPF_CORE_READ rd 8 fs (off_fs_pwd + off_path_dentry) [])
               (BPF_CORE_READ rd 8 fs (off_fs_pwd + off_path_mnt) []) out
  else
    let f := fd_file dfd in
    if f =? 0 then mret out else build_path (file_dentry f) (file_mnt f) out.

(** [bpf_probe_read_user_str(buf, sizeof(buf), p)] into a record buffer,
    then the directory when the path is relative. *)
Definition read_path (p : Z) (buf : list Z) : list Z := snd (cx_read_user_str c p buf).

Definition rel_dir (path : list Z) (dfd : Z) (out : list Z) : prog (st M) (list Z) :=
  if nth 0 path 0 =? SLASH then mret out else dir_of dfd out.

(** *** File writes *)

(** The buffer tests of [sensitive_read], on [b] and [n] as
    bpf_probe_read_user_str left them. *)
Definition at_ (b : list Z) (i : nat) (ch : ascii) : bool :=
  nth i b 0 =? Z.of_nat (nat_of_ascii ch).
Definition mem_suffix_at (b : list Z) (i : nat) : bool :=
  at_ b (i - 4) "/" && at_ b (i - 3) "m" && at_ b (i - 2) "e" && at_ b (i - 1) "m".
Fixpoint mem_suffix_loop (b : list Z) (n : Z) (idx : list nat) : bool :=
  match idx with
  | [] => false
  | i :: idx => if Z.of_nat i =? n - 1 then mem_suffix_at b i else mem_suffix_loop b n idx
  end.

Definition sensitive_buf (n : Z) (b : list Z) : bool :=
  if n <=? 0 then false
  else if at_ b 0 "/" && at_ b 1 "e" && at_ b 2 "t" && at_ b 3 "c" && at_ b 4 "/" then
    if (n =? 12) && at_ b 5 "s" && at_ b 6 "h" && at_ b 7 "a" && at_ b 8 "d" && at_ b 9 "o"
       && at_ b 10 "w" then true
    else (n =? 13) && at_ b 5 "g" && at_ b 6 "s" && at_ b 7 "h" && at_ b 8 "a" && at_ b 9 "d"
         && at_ b 10 "o" && at_ b 11 "w"
  else if negb (at_ b 0 "/" && at_ b 1 "p" && at_ b 2 "r" && at_ b 3 "o" && at_ b 4 "c"
                && at_ b 5 "/") then false
  else if (nth 6 b 0 <? 48) || (57 <? nth 6 b 0) then false
  else mem_suffix_loop b n (seq 11 9).

Definition sensitive_read (name : Z) : bool :=
  let r := cx_read_user_str c name (zeros 20) in sensitive_buf (fst r) (snd r).

Definition O_WRITE : Z := Z.lor (Z.lor (Z.lor O_WRONLY O_RDWR) O_CREAT) O_TRUNC.

Definition open_enter (dfd name flags : Z) : prog (st M) unit :=
  self ← skip_self;
  if self : bool then mret tt
  else if (Z.land flags O_WRITE =? 0) && negb (sensitive_read name) then mret tt
  else stash K_OPEN (u64 dfd) name (u64 flags) 0.

Definition enter_open (args : list Z) : prog (st M) Z :=
  open_enter AT_FDCWD (sysarg args 0) (s64 (sysarg args 1));; mret 0.

Definition enter_creat (args : list Z) : prog (st M) Z :=
  open_enter AT_FDCWD (sysarg args 0) (Z.lor (Z.lor O_CREAT O_WRONLY) O_TRUNC);; mret 0.

Definition open_exit (ret : Z) : prog (st M) unit :=
  p ← take K_OPEN ret;
  match p with
  | None => mret tt
  | Some p =>
      e ← reserve K_OPEN;
      match e with
      | None => mret tt
      | Some e =>
          let e := set_arg0 (arg p 2) (set_dfd (s32 (arg p 0)) (set_ret ret e)) in
          let e := set_path (read_path (arg p 1) (ev_path e)) e in
          dir ← rel_dir (ev_path e) (ev_dfd e) (ev_dir e);
          submit (set_dir dir e)
      end
  end.

Definition exit_openat (ret : Z) : prog (st M) Z := open_exit ret;; mret 0.
Definition exit_open (ret : Z) : prog (st M) Z := open_exit ret;; mret 0.
Definition exit_creat (ret : Z) : prog (st M) Z := open_exit ret;; mret 0.

Definition rename_enter (olddfd old newdfd new : Z) : prog (st M) unit :=
  self ← skip_self;
  if self : bool then mret tt
  else stash K_RENAME (u64 olddfd) old (u64 newdfd) new.

Definition enter_rename (args : list Z) : prog (st M) Z :=
  rename_enter AT_FDCWD (sysarg args 0) AT_FDCWD (sysarg args 1);; mret 0.

Definition rename_exit (ret : Z) : prog (st M) unit :=
  p ← take K_RENAME ret;
  match p with
  | None => mret tt
  | Some p =>
      e ← reserve K_RENAME;
      match e with
      | None => mret tt
      | Some e =>
          let e := set_dfd2 (s32 (arg p 2)) (set_dfd (s32 (arg p 0)) (set_ret ret e)) in
          let e := set_path (read_path (arg p 1) (ev_path e)) e in
          dir ← rel_dir (ev_path e) (ev_dfd e) (ev_dir e);
          let e := set_dir dir e in
          let e := set_path2 (read_path (arg p 3) (ev_path2 e)) e in
          dir2 ← rel_dir (ev_path2 e) (ev_dfd2 e) (ev_dir2 e);
          submit (set_dir2 dir2 e)
      end
  end.

Definition exit_renameat (ret : Z) : prog (st M) Z := rename_exit ret;; mret 0.
Definition exit_renameat2 (ret : Z) : prog (st M) Z := rename_exit ret;; mret 0.
Definition exit_rename (ret : Z) : prog (st M) Z := rename_exit ret;; mret 0.

Definition AT_REMOVEDIR : Z := 0x200.

Definition unlink_enter (dfd name flags : Z) : prog (st M) unit :=
  self ← skip_self;
  if self : bool then mret tt
  else stash K_UNLINK (u64 dfd) name (u64 flags) 0.

Definition enter_unlink (args : list Z) : prog (st M) Z :=
  unlink_enter AT_FDCWD (sysarg args 0) 0;; mret 0.

Definition enter_rmdir (args : list Z) : prog (st M) Z :=
  unlink_enter AT_FDCWD (sysarg args 0) AT_REMOVEDIR;; mret 0.

Definition unlink_exit (ret : Z) : prog (st M) unit :=
  p ← take K_UNLINK ret;
  match p with
  | None => mret tt
  | Some p =>
      e ← reserve K_UNLINK;
      match e with
      | None => mret tt
      | Some e =>
          let e := set_arg0 (arg p 2) (set_dfd (s32 (arg p 0)) (set_ret ret e)) in
          let e := set_path (read_path (arg p 1) (ev_path e)) e in
          dir ← rel_dir (ev_path e) (ev_dfd e) (ev_dir e);
          submit (set_dir dir e)
      end
  end.

Definition exit_unlinkat (ret : Z) : prog (st M) Z := unlink_exit ret;; mret 0.
Definition exit_unlink (ret : Z) : prog (st M) Z := unlink_exit ret;; mret 0.
Definition exit_rmdir (ret : Z) : prog (st M) Z := unlink_exit ret;; mret 0.

(** *** Kernel modules *)

Definition exit_init_module (ret : Z) : prog (st M) Z :=
  p ← take K_MODULE_INIT ret;
  match p with
  | None => mret 0
  | Some p =>
      e ← reserve K_MODULE_INIT;
      match e with
      | None => mret 0
      | Some e =>
          let e := set_arg0 (arg p 0) e in
          submit (set_path2 (read_path (arg p 1) (ev_path2 e)) e);; mret 0
      end
  end.

Definition exit_finit_module (ret : Z) : prog (st M) Z :=
  p ← take K_MODULE_FINIT ret;
  match p with
  | None => mret 0
  | Some p =>
      e ← reserve K_MODULE_FINIT;
      match e with
      | None => mret 0
      | Some e =>
          let e := set_arg0 (arg p 2) (set_dfd (s32 (arg p 0)) e) in
          let f := fd_file (s32 (arg p 0)) in
          path ← (if f =? 0 then mret (ev_path e)
                  else build_path (file_dentry f) (file_mnt f) (ev_path e));
          let e := set_path path e in
          submit (set_path2 (read_path (arg p 1) (ev_path2 e)) e);; mret 0
      end
  end.

Definition enter_delete_module (args : list Z) : prog (st M) Z :=
  stash K_MODULE_DELETE (sysarg args 0) (sysarg args 1) 0 0;; mret 0.

Definition exit_delete_module (ret : Z) : prog (st M) Z :=
  p ← take K_MODULE_DELETE ret;
  match p with
  | None => mret 0
  | Some p =>
      e ← reserve K_MODULE_DELETE;
      match e with
      | None => mret 0
      | Some e =>
          let e := set_arg0 (arg p 1) e in
          submit (set_path (read_path (arg p 0) (ev_path e)) e);; mret 0
      end
  end.

(** *** ptrace and process_vm_readv / writev *)

Definition PTRACE_POKETEXT : Z := 4.
Definition PTRACE_POKEDATA : Z := 5.
Definition PTRACE_POKEUSER : Z := 6.
Definition PTRACE_SETREGS : Z := 13.
Definition PTRACE_ATTACH : Z := 16.
Definition PTRACE_SEIZE : Z := 0x4206.

Definition enter_ptrace (args : list Z) : prog (st M) Z :=
  let req := s64 (sysarg args 0) in
  if negb (req =? PTRACE_ATTACH) && negb (req =? PTRACE_SEIZE) && negb (req =? PTRACE_POKETEXT)
     && negb (req =? PTRACE_POKEDATA) && negb (req =? PTRACE_POKEUSER)
     && negb (req =? PTRACE_SETREGS)
  then mret 0
  else
    self ← skip_self;
    if self : bool then mret 0
    else stash K_PTRACE (u64 req) (sysarg args 1) (sysarg args 2) 0;; mret 0.

Definition exit_ptrace (ret : Z) : prog (st M) Z :=
  p ← take K_PTRACE ret;
  match p with
  | None => mret 0
  | Some p =>
      e ← reserve K_PTRACE;
      match e with
      | None => mret 0
      | Some e => submit (set_arg2 (arg p 2) (set_arg1 (arg p 1) (set_arg0 (arg p 0) e)));; mret 0
      end
  end.

Definition enter_vm_access (args : list Z) (write : Z) : prog (st M) Z :=
  self ← skip_self;
  if self : bool then mret 0
  else
    let target := u32 (sysarg args 0) in
    if target =? u32 (cx_tgid c) then mret 0
    else stash K_VM_ACCESS target write 0 0;; mret 0.

Definition exit_vm_access (ret : Z) : prog (st M) Z :=
  p ← take K_VM_ACCESS ret;
  match p with
  | None => mret 0
  | Some p =>
      e ← reserve K_VM_ACCESS;
      match e with
      | None => mret 0
      | Some e => submit (set_ret ret (set_arg1 (arg p 1) (set_arg0 (arg p 0) e)));; mret 0
      end
  end.

Definition exit_process_vm_readv (ret : Z) : prog (st M) Z := exit_vm_access ret.
Definition exit_process_vm_writev (ret : Z) : prog (st M) Z := exit_vm_access ret.

(** *** Privilege gain *)

(** The parameters [a], [b], [c'] are __u32. *)
Definition setid_enter (which a b c' : Z) (n : nat) : prog (st M) unit :=
  if cx_uid c =? 0 then mret tt
  else
    let to_root := (a =? 0) || ((1 <? n)%nat && (b =? 0)) || ((2 <? n)%nat && (c' =? 0)) in
    if negb to_root then mret tt
    else
      let p := Pending K_SETID 0 [which; a; b; c'] (cx_uid c) task_euid in
      modify (λ s, up_pending (snd (hash_update (st_pending s) (cx_pid_tgid c) p)) s).

Definition enter_setuid (args : list Z) : prog (st M) Z :=
  setid_enter ID_SETUID (u32 (sysarg args 0)) 0 0 1;; mret 0.
Definition enter_setreuid (args : list Z) : prog (st M) Z :=
  setid_enter ID_SETREUID (u32 (sysarg args 0)) (u32 (sysarg args 1)) 0 2;; mret 0.
Definition enter_setresuid (args : list Z) : prog (st M) Z :=
  setid_enter ID_SETRESUID (u32 (sysarg args 0)) (u32 (sysarg args 1)) (u32 (sysarg args 2)) 3;;
  mret 0.
Definition enter_setgid (args : list Z) : prog (st M) Z :=
  setid_enter ID_SETGID (u32 (sysarg args 0)) 0 0 1;; mret 0.
Definition enter_setregid (args : list Z) : prog (st M) Z :=
  setid_enter ID_SETREGID (u32 (sysarg args 0)) (u32 (sysarg args 1)) 0 2;; mret 0.
Definition enter_setresgid (args : list Z) : prog (st M) Z :=
  setid_enter ID_SETRESGID (u32 (sysarg args 0)) (u32 (sysarg args 1)) (u32 (sysarg args 2)) 3;;
  mret 0.

Definition setid_exit (ret : Z) : prog (st M) unit :=
  p ← take K_SETID ret;
  match p with
  | None => mret tt
  | Some p =>
      e ← reserve K_SETID;
      match e with
      | None => mret tt
      | Some e =>
          let e := set_arg0 (arg p 0) e in
          let e := set_arg1 (Z.lor (arg p 1) (u64 (Z.shiftl (arg p 2) 32))) e in
          let e := set_arg2 (arg p 3) e in
          submit (set_euid (p_euid p) (set_uid (p_uid p) e))
      end
  end.

Definition exit_setuid (ret : Z) : prog (st M) Z := setid_exit ret;; mret 0.
Definition exit_setreuid (ret : Z) : prog (st M) Z := setid_exit ret;; mret 0.
Definition exit_setresuid (ret : Z) : prog (st M) Z := setid_exit ret;; mret 0.
Definition exit_setgid (ret : Z) : prog (st M) Z := setid_exit ret;; mret 0.
Definition exit_setregid (ret : Z) : prog (st M) Z := setid_exit ret;; mret 0.
Definition exit_setresgid (ret : Z) : prog (st M) Z := setid_exit ret;; mret 0.

(** [struct __user_cap_data_struct]: effective, permitted, inheritable. *)
Definition cap_effective (data : list Z) : Z := le_val (slice data 0 4).
Definition cap_permitted (data : list Z) : Z := le_val (slice data 4 4).

Definition enter_capset (args : list Z) : prog (st M) Z :=
  if cx_uid c =? 0 then mret 0
  else
    let r := cx_read_user c (sysarg args 1) 12 in
    if fst r <? 0 then mret 0
    else if cap_effective (snd r) =? 0 then mret 0
    else stash K_CAPSET (cap_effective (snd r)) (cap_permitted (snd r)) 0 0;; mret 0.

Definition exit_capset (ret : Z) : prog (st M) Z :=
  p ← take K_CAPSET ret;
  match p with
  | None => mret 0
  | Some p =>
      e ← reserve K_CAPSET;
      match e with
      | None => mret 0
      | Some e => submit (set_arg1 (arg p 1) (set_arg0 (arg p 0) e));; mret 0
      end
  end.

(** *** memfd, exec and exit *)

Definition enter_memfd_create (args : list Z) : prog (st M) Z :=
  self ← skip_self;
  if self : bool then mret 0
  else stash K_MEMFD (sysarg args 0) (sysarg args 1) 0 0;; mret 0.

Definition exit_memfd_create (ret : Z) : prog (st M) Z :=
  p ← take K_MEMFD ret;
  match p with
  | None => mret 0
  | Some p =>
      e ← reserve K_MEMFD;
      match e with
      | None => mret 0
      | Some e =>
          let e := set_arg0 (arg p 1) (set_ret ret e) in
          submit (set_path (read_path (arg p 0) (ev_path e)) e);; mret 0
      end
  end.

(** [head] starts with "memfd:". *)
Definition is_memfd (head : list Z) : bool :=
  at_ head 0 "m" && at_ head 1 "e" && at_ head 2 "m" && at_ head 3 "f" && at_ head 4 "d"
  && at_ head 5 ":".

(** The tracepoint record at [ctx] and its [__data_loc_filename]. *)
Definition handle_exec (ctx data_loc : Z) : prog (st M) Z :=
  self ← skip_self;
  if self : bool then mret 0
  else
    let exe := BPF_CORE_READ rd 8 (cx_task c) off_task_mm [off_mm_exe_file] in
    let nlink := BPF_CORE_READ rd 4 exe off_file_f_inode [off_inode_i_nlink] in
    let name := BPF_CORE_READ rd 8 exe (off_file_f_path + off_path_dentry)
                  [off_dentry_d_name + Z.of_nat off_qstr_name] in
    let memfd := is_memfd (snd (rd name 6)) in
    e ← reserve (if memfd || (nlink =? 0) then K_FILELESS_EXEC else K_EXEC);
    match e with
    | None => mret 0
    | Some e =>
        let e := set_arg0 nlink e in
        path ← build_path (file_dentry exe) (file_mnt exe) (ev_path e);
        let e := set_path path e in
        let loc := Z.land data_loc 0xFFFF in
        submit (set_path2 (snd (cx_read_kernel_str c (field ctx loc) (ev_path2 e))) e);; mret 0
    end.

Definition handle_exit : prog (st M) Z :=
  if negb (cx_pid c =? cx_tgid c) then mret 0
  else
    self ← skip_self;
    if self : bool then mret 0
    else
      e ← reserve K_EXIT;
      match e with
      | None => mret 0
      | Some e =>
          submit (set_arg0 (u64 (s32 (BPF_CORE_READ rd 4 (cx_task c) off_task_exit_code []))) e);;
          mret 0
      end.
End linsensor.

(** ** Syscall entry *)

(** The object is built for x86 or for arm64; the syscalls the other
    architecture lacks have negative numbers there. *)
Inductive build := X86 | ARM64.

Definition NR_openat (b : build) : Z := match b with X86 => 257 | ARM64 => 56 end.
Definition NR_unlinkat (b : build) : Z := match b with X86 => 263 | ARM64 => 35 end.
Definition NR_renameat (b : build) : Z := match b with X86 => 264 | ARM64 => 38 end.
Definition NR_renameat2 (b : build) : Z := match b with X86 => 316 | ARM64 => 276 end.
Definition NR_init_module (b : build) : Z := match b with X86 => 175 | ARM64 => 105 end.
Definition NR_finit_module (b : build) : Z := match b with X86 => 313 | ARM64 => 273 end.
Definition NR_prctl (b : build) : Z := match b with X86 => 157 | ARM64 => 167 end.
Definition NR_open (b : build) : Z := match b with X86 => 2 | ARM64 => -2 end.
Definition NR_creat (b : build) : Z := match b with X86 => 85 | ARM64 => -3 end.
Definition NR_rename (b : build) : Z := match b with X86 => 82 | ARM64 => -4 end.
Definition NR_unlink (b : build) : Z := match b with X86 => 87 | ARM64 => -5 end.
Definition NR_rmdir (b : build) : Z := match b with X86 => 84 | ARM64 => -6 end.
Definition NR_delete_module (b : build) : Z := match b with X86 => 176 | ARM64 => 106 end.
Definition NR_ptrace (b : build) : Z := match b with X86 => 101 | ARM64 => 117 end.
Definition NR_setuid (b : build) : Z := match b with X86 => 105 | ARM64 => 146 end.
Definition NR_setreuid (b : build) : Z := match b with X86 => 113 | ARM64 => 145 end.
Definition NR_setresuid (b : build) : Z := match b with X86 => 117 | ARM64 => 147 end.
Definition NR_setgid (b : build) : Z := match b with X86 => 106 | ARM64 => 144 end.
Definition NR_setregid (b : build) : Z := match b with X86 => 114 | ARM64 => 143 end.
Definition NR_setresgid (b : build) : Z := match b with X86 => 119 | ARM64 => 149 end.
Definition NR_capset (b : build) : Z := match b with X86 => 126 | ARM64 => 91 end.
Definition NR_memfd_create (b : build) : Z := match b with X86 => 319 | ARM64 => 279 end.
Definition NR_process_vm_readv (b : build) : Z := match b with X86 => 310 | ARM64 => 270 end.
Definition NR_process_vm_writev (b : build) : Z := match b with X86 => 311 | ARM64 => 271 end.

(** The first switch: the syscalls that are looked at. *)
Definition sys_enter_ids (b : build) : list Z :=
  [NR_openat b; NR_unlinkat b; NR_renameat b; NR_renameat2 b; NR_init_module b; NR_finit_module b;
   NR_prctl b; NR_open b; NR_creat b; NR_rename b; NR_unlink b; NR_rmdir b; NR_delete_module b;
   NR_ptrace b; NR_setuid b; NR_setreuid b; NR_setresuid b; NR_setgid b; NR_setregid b;
   NR_setresgid b; NR_capset b; NR_memfd_create b; NR_process_vm_readv b; NR_process_vm_writev b].

(** The member of [struct pt_regs] argument [i] is read from. *)
Definition syscall_arg_reg (b : build) (i : nat) : string * string :=
  match b with
  | ARM64 => ("pt_regs___siem", nth i ["regs[0]"; "regs[1]"; "regs[2]"; "regs[3]"] EmptyString)
  | X86 => (PT_REGS_SYSCALL_CAST A_x86_kernel (S i),
            default EmptyString (PT_PARM_SYSCALL_REG A_x86_kernel (S i)))
  end%string.

Section sys_enter.
Context {KL : KernelLayout} {M : Type} `{HM : !LruHash M Z pending}.
Context (c : ctx) (b : build).

Definition read_sysargs (regs : Z) : list Z :=
  map (λ i, BPF_CORE_READ (cx_read_kernel c) 8 regs
              (off_reg (fst (syscall_arg_reg b i)) (snd (syscall_arg_reg b i))) []) (seq 0 4).

(** The second switch, on the argument array [a]. *)
Definition sys_enter_dispatch (id : Z) (a : list Z) : prog (st M) unit :=
  if id =? NR_openat b then open_enter c (s64 (sysarg a 0)) (sysarg a 1) (s64 (sysarg a 2))
  else if id =? NR_unlinkat b then
    unlink_enter c (s64 (sysarg a 0)) (sysarg a 1) (s64 (sysarg a 2))
  else if (id =? NR_renameat b) || (id =? NR_renameat2 b) then
    rename_enter c (s64 (sysarg a 0)) (sysarg a 1) (s64 (sysarg a 2)) (sysarg a 3)
  else if id =? NR_init_module b then stash c K_MODULE_INIT (sysarg a 1) (sysarg a 2) 0 0
  else if id =? NR_finit_module b then
    stash c K_MODULE_FINIT (sysarg a 0) (sysarg a 1) (sysarg a 2) 0
  else if id =? NR_prctl b then enter_prctl c a;; mret tt
  else if id =? NR_open b then enter_open c a;; mret tt
  else if id =? NR_creat b then enter_creat c a;; mret tt
  else if id =? NR_rename b then enter_rename c a;; mret tt
  else if id =? NR_unlink b then enter_unlink c a;; mret tt
  else if id =? NR_rmdir b then enter_rmdir c a;; mret tt
  else if id =? NR_delete_module b then enter_delete_module c a;; mret tt
  else if id =? NR_ptrace b then enter_ptrace c a;; mret tt
  else if id =? NR_setuid b then enter_setuid c a;; mret tt
  else if id =? NR_setreuid b then enter_setreuid c a;; mret tt
  else if id =? NR_setresuid b then enter_setresuid c a;; mret tt
  else if id =? NR_setgid b then enter_setgid c a;; mret tt
  else if id =? NR_setregid b then enter_setregid c a;; mret tt
  else if id =? NR_setresgid b then enter_setresgid c a;; mret tt
  else if id =? NR_capset b then enter_capset c a;; mret tt
  else if id =? NR_memfd_create b then enter_memfd_create c a;; mret tt
  else if id =? NR_process_vm_readv b then enter_vm_access c a 0;; mret tt
  else if id =? NR_process_vm_writev b then enter_vm_access c a 1;; mret tt
  else mret tt.

(** [ctx->args[0]] = the registers, [ctx->args[1]] = the number. *)
Definition raw_sys_enter (regs id : Z) : prog (st M) Z :=
  let id := s64 id in
  if existsb (Z.eqb id) (sys_enter_ids b)
  then sys_enter_dispatch id (read_sysargs regs);; mret 0
  else mret 0.
End sys_enter.

(** ** The programs of the object *)

Inductive exit_probe :=
  | X_openat | X_open | X_creat
  | X_renameat | X_renameat2 | X_rename
  | X_unlinkat | X_unlink | X_rmdir
  | X_init_module | X_finit_module | X_delete_module
  | X_ptrace
  | X_process_vm_readv | X_process_vm_writev
  | X_setuid | X_setreuid | X_setresuid | X_setgid | X_setregid | X_setresgid
  | X_capset | X_memfd_create.

(** One attached program and the arguments its tracepoint gives it. *)
Inductive probe :=
  | P_sys_enter (regs id : Z)                (* raw_tracepoint/sys_enter *)
  | P_sys_exit (x : exit_probe) (ret : Z)    (* tracepoint/syscalls/sys_exit_... *)
  | P_exec (ctx data_loc : Z)                (* tracepoint/sched/sched_process_exec *)
  | P_exit.                                  (* tracepoint/sched/sched_process_exit *)

(** The kind of record a sys_exit program takes. *)
Definition exit_kind (x : exit_probe) : Z :=
  match x with
  | X_openat | X_open | X_creat => K_OPEN
  | X_renameat | X_renameat2 | X_rename => K_RENAME
  | X_unlinkat | X_unlink | X_rmdir => K_UNLINK
  | X_init_module => K_MODULE_INIT
  | X_finit_module => K_MODULE_FINIT
  | X_delete_module => K_MODULE_DELETE
  | X_ptrace => K_PTRACE
  | X_process_vm_readv | X_process_vm_writev => K_VM_ACCESS
  | X_setuid | X_setreuid | X_setresuid | X_setgid | X_setregid | X_setresgid => K_SETID
  | X_capset => K_CAPSET
  | X_memfd_create => K_MEMFD
  end.

Section programs.
Context {KL : KernelLayout} {M : Type} `{HM : !LruHash M Z pending}.

Definition run_exit (c : ctx) (slot : option sensor_event) (x : exit_probe) (ret : Z)
    : prog (st M) Z :=
  match x with
  | X_openat => exit_openat c slot ret
  | X_open => exit_open c slot ret
  | X_creat => exit_creat c slot ret
  | X_renameat => exit_renameat c slot ret
  | X_renameat2 => exit_renameat2 c slot ret
  | X_rename => exit_rename c slot ret
  | X_unlinkat => exit_unlinkat c slot ret
  | X_unlink => exit_unlink c slot ret
  | X_rmdir => exit_rmdir c slot ret
  | X_init_module => exit_init_module c slot ret
  | X_finit_module => exit_finit_module c slot ret
  | X_delete_module => exit_delete_module c slot ret
  | X_ptrace => exit_ptrace c slot ret
  | X_process_vm_readv => exit_process_vm_readv c slot ret
  | X_process_vm_writev => exit_process_vm_writev c slot ret
  | X_setuid => exit_setuid c slot ret
  | X_setreuid => exit_setreuid c slot ret
  | X_setresuid => exit_setresuid c slot ret
  | X_setgid => exit_setgid c slot ret
  | X_setregid => exit_setregid c slot ret
  | X_setresgid => exit_setresgid c slot ret
  | X_capset => exit_capset c slot ret
  | X_memfd_create => exit_memfd_create c slot ret
  end.

Definition run_probe (b : build) (c : ctx) (slot : option sensor_event) (p : probe)
    : prog (st M) Z :=
  match p with
  | P_sys_enter regs id => raw_sys_enter c b regs id
  | P_sys_exit x ret => run_exit c slot x ret
  | P_exec ctx data_loc => handle_exec c slot ctx data_loc
  | P_exit => handle_exit c slot
  end.
End programs.
