(* ===== verification/Scenario.v ===== *)
(** * A concrete machine for the witnesses

    A kernel layout with distinct offsets and a small memory image: the
    directories "/" and "/etc", the files "/etc/shadow" and "/tmp/sh"
    (unlinked), one mount, a task that runs "/etc/shadow", has "/etc" as
    working directory and descriptor 3 on it.  The theorems are applied to
    runs on this machine where they have hypotheses. *)
From Stdlib Require Import ZArith Lia Ascii String.
From stdpp Require Import base tactics list gmap strings.
From S2P Require Import Prelude.
From S2P Require Import Kernel.
From S2P Require Import CoreRead.
From S2P Require Import PathWalk.
Local Open Scope Z_scope.

(** The offset of a register in [struct pt_regs] (x86-64). *)
Definition demo_reg (m : string) : Z :=
  if decide (m = "di"%string) then 112
  else if decide (m = "si"%string) then 104
  else if decide (m = "dx"%string) then 96
  else if decide (m = "r10"%string) then 56
  else 0.

#[export] Instance demo_layout : KernelLayout := {
  off_vfsmount_mnt_root := 0;
  off_mount_mnt := 32;
  off_mount_mnt_parent := 16;
  off_mount_mnt_mountpoint := 24;
  off_dentry_d_parent := 24;
  off_dentry_d_name := 32;
  off_dentry_d_inode := 48;
  off_dentry_d_sb := 56;
  off_qstr_len := 4;
  off_qstr_name := 8;
  off_inode_i_ino := 8;
  off_inode_i_nlink := 16;
  off_super_block_s_dev := 0;
  off_path_mnt := 0;
  off_path_dentry := 8;
  off_file_f_path := 16;
  off_file_f_inode := 32;
  off_fdtable_max_fds := 0;
  off_fdtable_fd := 8;
  off_files_fdt := 0;
  off_fs_pwd := 8;
  off_mm_exe_file := 0;
  off_cred_euid := 0;
  off_task_files := 0;
  off_task_fs := 8;
  off_task_mm := 16;
  off_task_real_parent := 24;
  off_task_tgid := 32;
  off_task_cred := 40;
  off_task_exit_code := 48;
  off_linux_binprm_file := 0;
  off_reg _ m := demo_reg m;
}.

Definition w64 (z : Z) : list Z := le_bytes 8 z.
Definition w32 (z : Z) : list Z := le_bytes 4 z.

(** The bytes of the structs, laid out by [demo_layout]. *)
Definition demo_dentry (parent len name inode : Z) : list Z :=
  zeros 24 ++ w64 parent ++ w32 0 ++ w32 len ++ w64 name ++ w64 inode ++ w64 0x6000.
Definition demo_inode (ino nlink : Z) : list Z := zeros 8 ++ w64 ino ++ w32 nlink.
Definition demo_file (vm d inode : Z) : list Z := zeros 16 ++ w64 vm ++ w64 d ++ w64 inode.

Definition demo_kernel : memory := [
  (0x1000, demo_dentry 0x1000 1 0x3000 0x5000);        (* "/" *)
  (0x1100, demo_dentry 0x1000 3 0x3010 0x5100);        (* "/etc" *)
  (0x1200, demo_dentry 0x1100 6 0x3020 0x5200);        (* "/etc/shadow" *)
  (0x1300, demo_dentry 0x1000 5 0x3030 0x5300);        (* "/sh123" *)
  (0x1400, demo_dentry 0x1000 33 0x3100 0x5400);       (* a file with a long name *)
  (0x2000, zeros 16 ++ w64 0x2000 ++ w64 0x1000 ++ w64 0x1000);   (* the root mount *)
  (0x3000, zs "/" ++ [0]);
  (0x3010, zs "etc" ++ [0] ++ zeros 4);
  (0x3020, zs "shadow" ++ [0]);
  (0x3030, zs "sh123" ++ [0]);
  (0x3100, zs "a-program-with-a-very-long-name-1" ++ [0]);
  (0x5000, demo_inode 2 1); (0x5100, demo_inode 11 1); (0x5200, demo_inode 12 1);
  (0x5300, demo_inode 13 0); (0x5400, demo_inode 14 1);
  (0x6000, w32 0x800001);                              (* the super block *)
  (0x4000, demo_file 0x2020 0x1200 0x5200);            (* an open "/etc/shadow" *)
  (0x4100, demo_file 0x2020 0x1100 0x5100);            (* an open "/etc" *)
  (0x4200, demo_file 0x2020 0x1300 0x5300);            (* an open deleted "/sh123" *)
  (0x4300, demo_file 0x2020 0x1400 0x5400);            (* the long name, open *)
  (0x8000, w64 0x8100 ++ w64 0x8200 ++ w64 0x8300 ++ w64 0x8400 ++ w64 0 ++ w64 0x8500
             ++ w32 0x8B);                             (* the task *)
  (0x8100, w64 0x8110); (0x8110, w32 4 ++ w32 0 ++ w64 0x8120);
  (0x8120, w64 0 ++ w64 0x4000 ++ w64 0x4000 ++ w64 0x4100);      (* descriptors 0 .. 3 *)
  (0x8200, zeros 8 ++ w64 0x2020 ++ w64 0x1100);
  (0x8300, w64 0x4000);
  (0x8400, zeros 32 ++ w32 77);                        (* its parent *)
  (0x8500, w32 1000);
  (0xA000, w64 0x4000); (0xA100, w64 0x4300);          (* two linux_binprm *)
  (0xB000, zs "memfd:x" ++ [0])
].

(** The saved registers at 0x9000, with four syscall arguments. *)
Definition demo_regs (a0 a1 a2 a3 : Z) : memory :=
  [(0x9000, zeros 56 ++ w64 a3 ++ zeros 32 ++ w64 a2 ++ w64 a1 ++ w64 a0)].

(** User memory: two path names and a capability set. *)
Definition demo_user : memory :=
  [(0x10000, zs "/etc/shadow" ++ [0]); (0x10100, zs "notes.txt" ++ [0]);
   (0x10200, w32 0x200000 ++ w32 0x300000 ++ w32 0)].

Definition demo_ctx (cpu : nat) (tgid pid uid : Z) (a0 a1 a2 a3 : Z) : ctx :=
  image_ctx cpu (Z.lor (Z.shiftl tgid 32) pid) (Z.lor (Z.shiftl uid 32) uid) 1000000
    (zs "demo") 0x8000 (demo_kernel ++ demo_regs a0 a1 a2 a3) demo_user.

(** The same directories as a mount namespace. *)
Definition demo_ns : mnt_ns :=
  MntNs (list_to_map [(0x1000, Dentry 0x1000 (zs "/") 2 0x800001);
                      (0x1100, Dentry 0x1000 (zs "etc") 11 0x800001);
                      (0x1200, Dentry 0x1100 (zs "shadow") 12 0x800001);
                      (0x1400, Dentry 0x1000 (zs "a-program-with-a-very-long-name-1") 14 0x800001)])
        (list_to_map [(0x2000, Mount 0x1000 0x2000 0x1000)]).

Lemma demo_ctx_ok cpu tgid pid uid a0 a1 a2 a3 : ctx_ok (demo_ctx cpu tgid pid uid a0 a1 a2 a3).
Proof. apply image_ctx_ok. Qed.

(** What the image holds does not depend on the registers. *)
Lemma mem_byte_app m m' a b : mem_byte m a = Some b → mem_byte (m ++ m') a = Some b.
Proof.
  induction m as [|[base l] m IH]; cbn; [done|]. by destruct (_ && _).
Qed.

Lemma mem_bytes_app m m' a n l : mem_bytes m a n = Some l → mem_bytes (m ++ m') a n = Some l.
Proof.
  revert a l; induction n as [|n IH]; cbn; intros a l H; [done|].
  destruct (mem_byte m a) eqn:Eb; [|done]; cbn in H. rewrite (mem_byte_app _ _ _ _ Eb); cbn.
  destruct (mem_bytes m (a + 1) n) eqn:E; [|done]; cbn in H. by rewrite (IH _ _ E).
Qed.

Lemma demo_kernel_read cpu tgid pid uid a0 a1 a2 a3 a n l :
  mem_bytes demo_kernel a n = Some l →
  cx_read_kernel (demo_ctx cpu tgid pid uid a0 a1 a2 a3) a n = (0, l).
Proof.
  intros H. cbn [demo_ctx image_ctx cx_read_kernel]. unfold image_read.
  by rewrite (mem_bytes_app _ _ _ _ _ H).
Qed.

Section demo_ns.
Context (cpu : nat) (tgid pid uid a0 a1 a2 a3 : Z).
Let c := demo_ctx cpu tgid pid uid a0 a1 a2 a3.

Lemma zs_no_nul s : existsb (Z.eqb 0) (zs s) = false → 0 ∉ zs s.
Proof.
  intros H Hin. apply (not_true_iff_false (existsb (Z.eqb 0) (zs s))) in H. apply H.
  apply existsb_exists. exists 0. split; [by apply list_elem_of_In|done].
Qed.

Lemma demo_name_at d nm :
  mem_bytes demo_kernel (q_name (rd_d_name c d)) (length nm) = Some nm →
  kmem_at c (q_name (rd_d_name c d)) nm.
Proof. intros H. by apply image_kmem_at, mem_bytes_app. Qed.

Lemma demo_holds : holds_ns c demo_ns.
Proof.
  split.
  - intros d de H. apply elem_of_list_to_map_2 in H.
    repeat (apply elem_of_cons in H as [H|H]; [simplify_eq/=|]); [..|by apply elem_of_nil in H].
    all: split_and!; [vm_compute; reflexivity|by apply zs_no_nul|vm_compute; reflexivity|].
    all: apply demo_name_at; vm_compute; reflexivity.
  - intros m mt H. apply elem_of_list_to_map_2 in H.
    repeat (apply elem_of_cons in H as [H|H]; [simplify_eq/=|]); [..|by apply elem_of_nil in H].
    split_and!; [lia..|vm_compute; reflexivity|vm_compute; reflexivity|vm_compute; reflexivity].
Qed.
End demo_ns.
