(* ===== verification/SensorFacts.v ===== *)
(** * Lemmas on the operations of the sensor

    What each primitive of [Linsensor] changes, the common form of the
    sys_exit programs ([run_exit_form]) and what one program run does to
    the other threads' stashed arguments, the self map, the counters and
    the submitted records.  The properties are in [SensorProps] and
    [SensorTrace]. *)
From Stdlib Require Import ZArith Lia Ascii String.
From stdpp Require Import base tactics list gmap.
From S2P Require Import Prelude.
From S2P Require Import Kernel.
From S2P Require Import CoreRead.
From S2P Require Import Tracing.
From S2P Require Import PathWalk.
From S2P Require Import Linsensor.
Local Open Scope Z_scope.

(** ** The common form of the sys_exit programs *)

Section fill.
Context {KL : KernelLayout} {M : Type} (c : ctx).

(** How a record is completed from the stashed arguments [p] and the
    syscall's return value before it is submitted. *)
Definition fill_open (ret : Z) (p : pending) (e : sensor_event) : prog (st M) sensor_event :=
  let e := set_arg0 (arg p 2) (set_dfd (s32 (arg p 0)) (set_ret ret e)) in
  let e := set_path (read_path c (arg p 1) (ev_path e)) e in
  dir ← rel_dir c (ev_path e) (ev_dfd e) (ev_dir e);
  mret (set_dir dir e).

Definition fill_rename (ret : Z) (p : pending) (e : sensor_event) : prog (st M) sensor_event :=
  let e := set_dfd2 (s32 (arg p 2)) (set_dfd (s32 (arg p 0)) (set_ret ret e)) in
  let e := set_path (read_path c (arg p 1) (ev_path e)) e in
  dir ← rel_dir c (ev_path e) (ev_dfd e) (ev_dir e);
  let e := set_dir dir e in
  let e := set_path2 (read_path c (arg p 3) (ev_path2 e)) e in
  dir2 ← rel_dir c (ev_path2 e) (ev_dfd2 e) (ev_dir2 e);
  mret (set_dir2 dir2 e).

Definition fill_finit (p : pending) (e : sensor_event) : prog (st M) sensor_event :=
  let e := set_arg0 (arg p 2) (set_dfd (s32 (arg p 0)) e) in
  let f := fd_file c (s32 (arg p 0)) in
  path ← (if f =? 0 then mret (ev_path e)
          else build_path c (file_dentry c f) (file_mnt c f) (ev_path e));
  let e := set_path path e in
  mret (set_path2 (read_path c (arg p 1) (ev_path2 e)) e).

Definition exit_fill (x : exit_probe) (ret : Z) (p : pending) (e : sensor_event)
    : prog (st M) sensor_event :=
  match x with
  | X_openat | X_open | X_creat => fill_open ret p e
  | X_renameat | X_renameat2 | X_rename => fill_rename ret p e
  | X_unlinkat | X_unlink | X_rmdir => fill_open ret p e
  | X_init_module =>
      let e := set_arg0 (arg p 0) e in mret (set_path2 (read_path c (arg p 1) (ev_path2 e)) e)
  | X_finit_module => fill_finit p e
  | X_delete_module =>
      let e := set_arg0 (arg p 1) e in mret (set_path (read_path c (arg p 0) (ev_path e)) e)
  | X_ptrace => mret (set_arg2 (arg p 2) (set_arg1 (arg p 1) (set_arg0 (arg p 0) e)))
  | X_process_vm_readv | X_process_vm_writev =>
      mret (set_ret ret (set_arg1 (arg p 1) (set_arg0 (arg p 0) e)))
  | X_setuid | X_setreuid | X_setresuid | X_setgid | X_setregid | X_setresgid =>
      let e := set_arg0 (arg p 0) e in
      let e := set_arg1 (Z.lor (arg p 1) (u64 (Z.shiftl (arg p 2) 32))) e in
      mret (set_euid (p_euid p) (set_uid (p_uid p) (set_arg2 (arg p 3) e)))
  | X_capset => mret (set_arg1 (arg p 1) (set_arg0 (arg p 0) e))
  | X_memfd_create =>
      let e := set_arg0 (arg p 1) (set_ret ret e) in
      mret (set_path (read_path c (arg p 0) (ev_path e)) e)
  end.
End fill.

Section exit_form.
Context {KL : KernelLayout} {M : Type} `{HM : !LruHash M Z pending}.
Context (c : ctx) (slot : option sensor_event).

(** take, reserve, fill, submit. *)
Definition exit_form (x : exit_probe) (ret : Z) : prog (st M) Z :=
  p ← take c (exit_kind x) ret;
  match p with
  | None => mret 0
  | Some p =>
      e ← reserve c slot (exit_kind x);
      match e with
      | None => mret 0
      | Some e => e' ← exit_fill c x ret p e; submit e';; mret 0
      end
  end.

Ltac exit_step :=
  match goal with
  | |- context [take c ?k ?r ?s] => destruct (take c k r s) as [[?|] ?]
  | |- context [reserve c slot ?k ?s] => destruct (reserve c slot k s) as [[?|] ?]
  | |- context [rel_dir c ?p ?d ?o ?s] => destruct (rel_dir c p d o s) as [? ?]
  | |- context [(if ?b then _ else _) ?s] => destruct b
  | |- context [build_path c ?d ?v ?o ?s] => destruct (build_path c d v o s) as [? ?]
  end; cbn beta iota.

Lemma run_exit_form x ret s : run_exit c slot x ret s = exit_form x ret s.
Proof.
  destruct x; cbn [run_exit];
    unfold exit_form, exit_openat, exit_open, exit_creat, exit_renameat, exit_renameat2,
      exit_rename, exit_unlinkat, exit_unlink, exit_rmdir, exit_init_module, exit_finit_module,
      exit_delete_module, exit_ptrace, exit_process_vm_readv, exit_process_vm_writev,
      exit_vm_access, exit_setuid, exit_setreuid, exit_setresuid, exit_setgid, exit_setregid,
      exit_setresgid, setid_exit, exit_capset, exit_memfd_create, open_exit, rename_exit,
      unlink_exit, exit_fill, fill_open, fill_rename, fill_finit, exit_kind, mbind, prog_bind,
      mret, prog_ret, submit, modify; cbn beta iota; repeat exit_step; try reflexivity.
Qed.
End exit_form.

(** ** Primitives as pure updates *)

(** One counter of a per-CPU array plus one. *)
Definition incr (m : list (list Z)) (cpu : nat) (i : Z) : list (list Z) :=
  match percpu_lookup m cpu i with
  | Some n => percpu_store m cpu i (u64 (n + 1))
  | None => m
  end.

Section primitives.
Context {KL : KernelLayout} {M : Type} `{HM : !LruHash M Z pending}.
Context (c : ctx) (slot : option sensor_event).

(** [skip_self]'s answer. *)
Definition is_self (s : st M) : bool :=
  match array_lookup (st_self s) 0 with
  | Some tgid => tgid =? cx_tgid c
  | None => false
  end.

Lemma skip_self_run s : skip_self c s = (is_self s, s).
Proof. done. Qed.

Lemma up_stats_id (s : st M) : up_stats (st_stats s) s = s.
Proof. by destruct s. Qed.

Lemma up_drops_id (s : st M) : up_drops (st_drops s) s = s.
Proof. by destruct s. Qed.

Lemma up_scratch_id (s : st M) : up_scratch (st_scratch s) s = s.
Proof. by destruct s. Qed.

Lemma count_run i (s : st M) :
  count c i s = (tt, up_stats (incr (st_stats s) (cx_cpu c) i) s).
Proof.
  unfold count, incr, mbind, prog_bind, get, put; cbn.
  destruct (percpu_lookup _ _ _); [done|]. by rewrite up_stats_id.
Qed.

Lemma reserve_run kind (s : st M) :
  reserve c slot kind s =
    match slot with
    | None => (None, up_drops (incr (st_drops s) (cx_cpu c) 0) s)
    | Some e => (Some (fresh_event c kind e), s)
    end.
Proof.
  unfold reserve, incr, mbind, prog_bind, get, put, mret, prog_ret; cbn.
  destruct slot; [done|]. destruct (percpu_lookup _ _ _); [done|]. by rewrite up_drops_id.
Qed.

(** The counter [take] bumps for a stashed [p]. *)
Definition take_stat (kind ret : Z) (p : pending) : Z :=
  if (p_kind p =? kind) && (0 <=? ret) then ST_TAKE_OK
  else if p_kind p =? kind then ST_FAILED else ST_KIND.

Lemma take_run kind ret (s : st M) :
  take c kind ret s =
    match hash_lookup (st_pending s) (cx_pid_tgid c) with
    | None => (None, up_stats (incr (st_stats s) (cx_cpu c) ST_MISSING) s)
    | Some p =>
        (if (p_kind p =? kind) && (0 <=? ret) then Some p else None,
         up_pending (hash_delete (st_pending s) (cx_pid_tgid c))
           (up_stats (incr (st_stats s) (cx_cpu c) (take_stat kind ret p)) s))
    end.
Proof.
  unfold take, mbind, prog_bind, get, mret, prog_ret, modify; cbn beta iota.
  destruct (hash_lookup _ _) as [p|]; [|by rewrite count_run].
  unfold take_stat. destruct (_ && _); cbn beta iota; by rewrite count_run.
Qed.

(** What a successful or refused stash of [p] leaves. *)
Definition stash_state (p : pending) (s : st M) : st M :=
  let r := hash_update (st_pending s) (cx_pid_tgid c) p in
  let s := up_pending (snd r) s in
  if p_kind p =? K_SETID then s
  else up_stats (incr (st_stats s) (cx_cpu c)
                   (if fst r =? 0 then ST_STASH else ST_STASH_ERR)) s.

Lemma stash_run kind a0 a1 a2 a3 (s : st M) :
  (kind =? K_SETID) = false →
  stash c kind a0 a1 a2 a3 s = (tt, stash_state (Pending kind 0 [a0; a1; a2; a3] 0 0) s).
Proof.
  intros Hk. unfold stash, stash_state, mbind, prog_bind, get, put; cbn [p_kind]. rewrite Hk.
  cbn beta iota. destruct (fst _ =? 0); by rewrite count_run.
Qed.
End primitives.

(** ** Runs that touch the scratch only *)

Definition scratch_only {M A} (m : prog (st M) A) : Prop :=
  ∀ s, ∃ v, exec m s = up_scratch v s.

Lemma scratch_only_ret {M A} (x : A) : scratch_only (M := M) (mret x).
Proof. intros s. exists (st_scratch s). by rewrite up_scratch_id. Qed.

Lemma scratch_only_bind {M A B} (m : prog (st M) A) (f : A → prog (st M) B) :
  scratch_only m → (∀ x, scratch_only (f x)) → scratch_only (m ≫= f).
Proof.
  intros Hm Hf s. rewrite exec_bind. destruct (Hm s) as [v ->].
  destruct (Hf (eval m s) (up_scratch v s)) as [v' ->]. by exists v'.
Qed.

Create HintDb scratch.
#[export] Hint Resolve scratch_only_ret : scratch.

Section scratch.
Context {KL : KernelLayout} {M : Type} (c : ctx).

Lemma build_path_scratch d vm out : scratch_only (M := M) (build_path c d vm out).
Proof.
  intros s. unfold build_path, exec, mbind, prog_bind, get, put, mret, prog_ret; cbn beta iota.
  destruct (percpu_lookup _ _ _) as [pp|]; [|exists (st_scratch s); by rewrite up_scratch_id].
  destruct (_ || _); [exists (st_scratch s); by rewrite up_scratch_id|].
  destruct (walk_and_write _ _ _ _) as [pos pp']; cbn beta iota.
  destruct (pos =? DIR_BUF); by eexists.
Qed.

Lemma dir_of_scratch dfd out : scratch_only (M := M) (dir_of c dfd out).
Proof.
  unfold dir_of. destruct (_ =? _); [apply build_path_scratch|].
  destruct (_ =? 0); [apply scratch_only_ret|apply build_path_scratch].
Qed.

Lemma rel_dir_scratch path dfd out : scratch_only (M := M) (rel_dir c path dfd out).
Proof. unfold rel_dir. destruct (_ =? _); [apply scratch_only_ret|apply dir_of_scratch]. Qed.

#[local] Hint Resolve rel_dir_scratch build_path_scratch : scratch.

Lemma exit_fill_scratch x ret p e : scratch_only (M := M) (exit_fill c x ret p e).
Proof.
  destruct x; cbn [exit_fill]; unfold fill_open, fill_rename, fill_finit; auto with scratch;
    repeat (apply scratch_only_bind; [|intros]); auto with scratch;
    case_match; auto with scratch.
Qed.
End scratch.

(** The members that say who did it, and what kind of record it is. *)
Definition ev_who (e : sensor_event) : Z * Z * Z * Z * list Z :=
  (ev_kind e, ev_pid e, ev_tgid e, ev_ts e, ev_comm e).

Section who.
Context {KL : KernelLayout} {M : Type} (c : ctx).

Lemma eval_prog_eq {A} (m : prog (st M) A) s : eval m s = fst (m s).
Proof. done. Qed.

Lemma exit_fill_who x ret p e (s : st M) : ev_who (eval (exit_fill c x ret p e) s) = ev_who e.
Proof.
  destruct e; destruct x; cbn [exit_fill]; unfold fill_open, fill_rename, fill_finit; cbv zeta;
    run_prog; reflexivity.
Qed.
End who.

(** ** One sys_exit run *)

Section exit_run.
Context {KL : KernelLayout} {M : Type} `{HM : !LruHash M Z pending}.
Context (c : ctx) (slot : option sensor_event) (x : exit_probe) (ret : Z).

Let key := cx_pid_tgid c.
Let cpu := cx_cpu c.

(** The four outcomes: nothing stashed; another syscall's arguments or a
    failed syscall; no room in the ring buffer; a record. *)
Inductive exit_result (s : st M) : st M → Prop :=
  | exit_missing :
      hash_lookup (st_pending s) key = None →
      exit_result s (up_stats (incr (st_stats s) cpu ST_MISSING) s)
  | exit_rejected p :
      hash_lookup (st_pending s) key = Some p → p_kind p ≠ exit_kind x ∨ ret < 0 →
      exit_result s (up_pending (hash_delete (st_pending s) key)
        (up_stats (incr (st_stats s) cpu (take_stat (exit_kind x) ret p)) s))
  | exit_dropped p :
      hash_lookup (st_pending s) key = Some p → p_kind p = exit_kind x → 0 ≤ ret →
      slot = None →
      exit_result s (up_drops (incr (st_drops s) cpu 0)
        (up_pending (hash_delete (st_pending s) key)
          (up_stats (incr (st_stats s) cpu ST_TAKE_OK) s)))
  | exit_submitted p e v :
      hash_lookup (st_pending s) key = Some p → p_kind p = exit_kind x → 0 ≤ ret →
      slot = Some e →
      let s1 := up_pending (hash_delete (st_pending s) key)
                  (up_stats (incr (st_stats s) cpu ST_TAKE_OK) s) in
      exit_result s (up_scratch v (up_events
        (st_events s ++ [eval (exit_fill c x ret p (fresh_event c (exit_kind x) e)) s1]) s1)).

Lemma run_exit_result s : exit_result s (exec (run_exit c slot x ret) s).
Proof.
  unfold exec. rewrite run_exit_form. unfold exit_form.
  rewrite prog_bind_run. unfold eval at 1, exec. rewrite take_run. fold key cpu.
  destruct (hash_lookup (st_pending s) key) as [p|] eqn:El; [|by apply exit_missing].
  cbn [fst snd]. destruct (Z.eqb_spec (p_kind p) (exit_kind x)) as [Hk|Hk]; cbn [andb].
  - destruct (Z.leb_spec 0 ret) as [Hr|Hr]; [|apply exit_rejected; auto].
    unfold take_stat. rewrite Hk, Z.eqb_refl, (proj2 (Z.leb_le _ _) Hr). cbn [andb].
    rewrite prog_bind_run. unfold eval at 1, exec. rewrite reserve_run. fold cpu.
    destruct slot as [e|] eqn:Es; cbn [fst snd]; [|by apply exit_dropped with p].
    rewrite prog_bind_run. unfold submit. run_prog.
    set (s1 := up_pending _ _). destruct (exit_fill_scratch (M := M) c x ret p
      (fresh_event c (exit_kind x) e) s1) as [v Hv].
    unfold modify, mbind, prog_bind, mret, prog_ret; cbn [snd]. rewrite Hv.
    apply (exit_submitted s p e v); done.
  - destruct (0 <=? ret) eqn:Er; apply exit_rejected; auto.
Qed.
End exit_run.

(** ** One sys_enter run *)

Section enter_run.
Context {KL : KernelLayout} {M : Type} `{HM : !LruHash M Z pending}.
Context (c : ctx) (b : build).

(** What a syscall's arguments are stashed as, before the self check:
    the reference the dispatch is compared with. *)
Definition open_pending (dfd name flags : Z) : option pending :=
  if (Z.land flags O_WRITE =? 0) && negb (sensitive_read c name) then None
  else Some (Pending K_OPEN 0 [u64 dfd; name; u64 flags; 0] 0 0).

Definition rename_pending (olddfd old newdfd new : Z) : option pending :=
  Some (Pending K_RENAME 0 [u64 olddfd; old; u64 newdfd; new] 0 0).

Definition unlink_pending (dfd name flags : Z) : option pending :=
  Some (Pending K_UNLINK 0 [u64 dfd; name; u64 flags; 0] 0 0).

Definition ptrace_requests : list Z :=
  [PTRACE_ATTACH; PTRACE_SEIZE; PTRACE_POKETEXT; PTRACE_POKEDATA; PTRACE_POKEUSER; PTRACE_SETREGS].

Definition ptrace_pending (a : list Z) : option pending :=
  if existsb (Z.eqb (s64 (sysarg a 0))) ptrace_requests
  then Some (Pending K_PTRACE 0 [u64 (s64 (sysarg a 0)); sysarg a 1; sysarg a 2; 0] 0 0)
  else None.

Definition vm_pending (a : list Z) (write : Z) : option pending :=
  if u32 (sysarg a 0) =? u32 (cx_tgid c) then None
  else Some (Pending K_VM_ACCESS 0 [u32 (sysarg a 0); write; 0; 0] 0 0).

Definition setid_pending (which : Z) (ids : list Z) : option pending :=
  if (cx_uid c =? 0) || negb (existsb (Z.eqb 0) ids) then None
  else Some (Pending K_SETID 0 [which; nth 0 ids 0; nth 1 ids 0; nth 2 ids 0]
               (cx_uid c) (task_euid c)).

Definition capset_pending (a : list Z) : option pending :=
  let r := cx_read_user c (sysarg a 1) 12 in
  if (cx_uid c =? 0) || (fst r <? 0) || (cap_effective (snd r) =? 0) then None
  else Some (Pending K_CAPSET 0 [cap_effective (snd r); cap_permitted (snd r); 0; 0] 0 0).

Definition enter_pending (id : Z) (a : list Z) : option pending :=
  if id =? NR_openat b then open_pending (s64 (sysarg a 0)) (sysarg a 1) (s64 (sysarg a 2))
  else if id =? NR_unlinkat b then
    unlink_pending (s64 (sysarg a 0)) (sysarg a 1) (s64 (sysarg a 2))
  else if (id =? NR_renameat b) || (id =? NR_renameat2 b) then
    rename_pending (s64 (sysarg a 0)) (sysarg a 1) (s64 (sysarg a 2)) (sysarg a 3)
  else if id =? NR_init_module b then
    Some (Pending K_MODULE_INIT 0 [sysarg a 1; sysarg a 2; 0; 0] 0 0)
  else if id =? NR_finit_module b then
    Some (Pending K_MODULE_FINIT 0 [sysarg a 0; sysarg a 1; sysarg a 2; 0] 0 0)
  else if id =? NR_prctl b then None
  else if id =? NR_open b then open_pending AT_FDCWD (sysarg a 0) (s64 (sysarg a 1))
  else if id =? NR_creat b then
    open_pending AT_FDCWD (sysarg a 0) (Z.lor (Z.lor O_CREAT O_WRONLY) O_TRUNC)
  else if id =? NR_rename b then rename_pending AT_FDCWD (sysarg a 0) AT_FDCWD (sysarg a 1)
  else if id =? NR_unlink b then unlink_pending AT_FDCWD (sysarg a 0) 0
  else if id =? NR_rmdir b then unlink_pending AT_FDCWD (sysarg a 0) AT_REMOVEDIR
  else if id =? NR_delete_module b then
    Some (Pending K_MODULE_DELETE 0 [sysarg a 0; sysarg a 1; 0; 0] 0 0)
  else if id =? NR_ptrace b then ptrace_pending a
  else if id =? NR_setuid b then setid_pending ID_SETUID [u32 (sysarg a 0)]
  else if id =? NR_setreuid b then
    setid_pending ID_SETREUID [u32 (sysarg a 0); u32 (sysarg a 1)]
  else if id =? NR_setresuid b then
    setid_pending ID_SETRESUID [u32 (sysarg a 0); u32 (sysarg a 1); u32 (sysarg a 2)]
  else if id =? NR_setgid b then setid_pending ID_SETGID [u32 (sysarg a 0)]
  else if id =? NR_setregid b then
    setid_pending ID_SETREGID [u32 (sysarg a 0); u32 (sysarg a 1)]
  else if id =? NR_setresgid b then
    setid_pending ID_SETRESGID [u32 (sysarg a 0); u32 (sysarg a 1); u32 (sysarg a 2)]
  else if id =? NR_capset b then capset_pending a
  else if id =? NR_memfd_create b then
    Some (Pending K_MEMFD 0 [sysarg a 0; sysarg a 1; 0; 0] 0 0)
  else if id =? NR_process_vm_readv b then vm_pending a 0
  else if id =? NR_process_vm_writev b then vm_pending a 1
  else None.

(** The kinds the agent's own process is not watched for. *)
Definition self_filtered (kind : Z) : bool :=
  existsb (Z.eqb kind) [K_OPEN; K_RENAME; K_UNLINK; K_PTRACE; K_VM_ACCESS; K_MEMFD].

(** The state after a sys_enter that would stash [p]. *)
Definition enter_state (p : option pending) (s : st M) : st M :=
  match p with
  | None => s
  | Some p => if self_filtered (p_kind p) && is_self c s then s else stash_state c p s
  end.

(** prctl: the first caller with the magic number is the agent. *)
Definition prctl_state (a : list Z) (s : st M) : st M :=
  if sysarg a 0 =? SELF_MAGIC then
    match array_lookup (st_self s) 0 with
    | Some 0 => up_self (array_store (st_self s) 0 (u32 (cx_tgid c))) s
    | _ => s
    end
  else s.

Ltac enter_unfold :=
  unfold enter_state, open_enter, unlink_enter, rename_enter, enter_open, enter_creat,
    enter_rename, enter_unlink, enter_rmdir, enter_delete_module, enter_ptrace, enter_vm_access,
    enter_setuid, enter_setreuid, enter_setresuid, enter_setgid, enter_setregid, enter_setresgid,
    setid_enter, enter_capset, enter_memfd_create, open_pending, rename_pending, unlink_pending,
    ptrace_pending, vm_pending, setid_pending, capset_pending, exec;
  unfold mbind, prog_bind, mret, prog_ret; cbn beta iota; rewrite ?skip_self_run; cbn beta iota.

Lemma open_enter_run dfd name flags (s : st M) :
  open_enter c dfd name flags s = (tt, enter_state (open_pending dfd name flags) s).
Proof.
  enter_unfold. destruct (_ && negb _); [by destruct (is_self c s)|]. cbn [p_kind].
  cbn [self_filtered existsb Z.eqb Pos.eqb K_OPEN orb andb].
  destruct (is_self c s); [done|]. by rewrite stash_run.
Qed.

Lemma rename_enter_run d1 p1 d2 p2 (s : st M) :
  rename_enter c d1 p1 d2 p2 s = (tt, enter_state (rename_pending d1 p1 d2 p2) s).
Proof. enter_unfold. cbn -[u64]. destruct (is_self c s); [done|]. by rewrite stash_run. Qed.

Lemma unlink_enter_run dfd name flags (s : st M) :
  unlink_enter c dfd name flags s = (tt, enter_state (unlink_pending dfd name flags) s).
Proof. enter_unfold. cbn -[u64]. destruct (is_self c s); [done|]. by rewrite stash_run. Qed.

Lemma enter_ptrace_exec a (s : st M) :
  exec (enter_ptrace c a) s = enter_state (ptrace_pending a) s.
Proof.
  enter_unfold. unfold ptrace_requests. cbn [existsb]. rewrite orb_false_r.
  rewrite <- !negb_orb, !orb_assoc. destruct (_ || _); cbn [negb]; [|done].
  cbn -[u64 s64 sysarg]. rewrite skip_self_run. destruct (is_self c s); [done|].
  by rewrite stash_run.
Qed.

Lemma enter_vm_exec a w (s : st M) :
  exec (enter_vm_access c a w) s = enter_state (vm_pending a w) s.
Proof.
  enter_unfold. destruct (_ =? _); [by destruct (is_self c s)|].
  cbn -[u64 u32 sysarg]. destruct (is_self c s); [done|]. by rewrite stash_run.
Qed.

Lemma setid_enter_run which x y z n (s : st M) :
  (n = 1 ∨ n = 2 ∨ n = 3)%nat → ((n < 2)%nat → y = 0) → ((n < 3)%nat → z = 0) →
  setid_enter c which x y z n s
  = (tt, enter_state (setid_pending which (list.take n [x; y; z])) s).
Proof.
  intros Hn Hy Hz. enter_unfold. unfold modify. destruct (cx_uid c =? 0); [done|]. cbn [orb].
  destruct Hn as [->|[->| ->]]; cbn [list.take existsb nth Nat.ltb Nat.leb andb];
    rewrite ?(Z.eqb_sym 0), ?orb_false_r, ?orb_assoc.
  - rewrite Hy, Hz by lia. by destruct (x =? 0).
  - rewrite Hz by lia. by destruct ((x =? 0) || (y =? 0)).
  - by destruct ((x =? 0) || (y =? 0) || (z =? 0)).
Qed.

Lemma enter_capset_exec a (s : st M) :
  exec (enter_capset c a) s = enter_state (capset_pending a) s.
Proof.
  enter_unfold. destruct (cx_uid c =? 0); [done|].
  destruct (fst _ <? 0); [done|]. cbn [orb]. destruct (_ =? 0); [done|].
  cbn -[cap_effective cap_permitted]. by rewrite stash_run.
Qed.

Lemma enter_prctl_exec a (s : st M) : exec (enter_prctl c a) s = prctl_state a s.
Proof.
  unfold enter_prctl, prctl_state. destruct (_ =? SELF_MAGIC); cbn [negb]; [|done].
  unfold exec, mbind, prog_bind, get, put, mret, prog_ret; cbn beta iota.
  destruct (array_lookup _ _) as [[| |]|]; done.
Qed.

(** The state after the second switch. *)
Definition dispatch_state (id : Z) (a : list Z) (s : st M) : st M :=
  if id =? NR_prctl b then prctl_state a s else enter_state (enter_pending id a) s.
End enter_run.

Section dispatch.
Context {KL : KernelLayout} {M : Type} `{HM : !LruHash M Z pending}.
Context (c : ctx) (b : build).

Lemma exec_seq_ret {S A B} (m : prog S A) (x : B) s : exec (m;; mret x) s = exec m s.
Proof. by rewrite exec_bind. Qed.

Lemma exec_pair {S A} (m : prog S A) s x s' : m s = (x, s') → exec m s = s'.
Proof. unfold exec. by intros ->. Qed.

Lemma stash_enter_run kind a0 a1 a2 a3 (s : st M) :
  (kind =? K_SETID) = false → self_filtered kind = false →
  stash c kind a0 a1 a2 a3 s = (tt, enter_state c (Some (Pending kind 0 [a0; a1; a2; a3] 0 0)) s).
Proof.
  intros Hk Hs. rewrite stash_run by done. unfold enter_state. cbn [p_kind]. by rewrite Hs.
Qed.

Lemma enter_memfd_exec a (s : st M) :
  exec (enter_memfd_create c a) s
  = enter_state c (Some (Pending K_MEMFD 0 [sysarg a 0; sysarg a 1; 0; 0] 0 0)) s.
Proof.
  unfold enter_memfd_create, enter_state. rewrite exec_bind. unfold eval, exec at 2.
  rewrite skip_self_run. cbn [fst snd p_kind]. change (self_filtered K_MEMFD) with true. cbn [andb].
  destruct (is_self c s); [done|]. rewrite exec_seq_ret. by apply exec_pair with tt, stash_run.
Qed.

Lemma dispatch_exec id a (s : st M) :
  exec (sys_enter_dispatch c b id a) s = dispatch_state c b id a s.
Proof.
  unfold sys_enter_dispatch, dispatch_state, enter_pending.
  destruct (Z.eqb_spec id (NR_prctl b)) as [->|Hp].
  { destruct b; cbn -[prctl_state enter_prctl]; rewrite exec_seq_ret; apply enter_prctl_exec. }
  repeat match goal with
    |- exec (if ?t then _ else _) s = enter_state c (if ?t then _ else _) s => destruct t end;
    unfold enter_open, enter_creat, enter_rename, enter_unlink, enter_rmdir,
      enter_delete_module, enter_setuid, enter_setreuid, enter_setresuid, enter_setgid,
      enter_setregid, enter_setresgid;
    rewrite ?exec_seq_ret, ?enter_ptrace_exec, ?enter_vm_exec, ?enter_capset_exec,
      ?enter_memfd_exec; try reflexivity;
    try (eapply exec_pair; first [apply open_enter_run|apply rename_enter_run
      |apply unlink_enter_run|by apply stash_enter_run
      |apply setid_enter_run; [auto|intros; (reflexivity || lia)|intros; (reflexivity || lia)]]).
Qed.

(** One run of the sys_enter program. *)
Lemma raw_sys_enter_exec regs id (s : st M) :
  exec (raw_sys_enter c b regs id) s
  = if existsb (Z.eqb (s64 id)) (sys_enter_ids b)
    then dispatch_state c b (s64 id) (read_sysargs c b regs) s else s.
Proof.
  unfold raw_sys_enter. destruct (existsb _ _); [|done].
  rewrite exec_seq_ret. apply dispatch_exec.
Qed.
End dispatch.

(** ** One exec or exit run *)

Section lifecycle.
Context {KL : KernelLayout} {M : Type} `{HM : !LruHash M Z pending}.
Context (c : ctx) (slot : option sensor_event).

Let rd := cx_read_kernel c.

(** The executable of the current task, and what its inode and name say. *)
Definition task_exe : Z := BPF_CORE_READ rd 8 (cx_task c) off_task_mm [off_mm_exe_file].
Definition exe_nlink : Z := BPF_CORE_READ rd 4 task_exe off_file_f_inode [off_inode_i_nlink].
Definition exe_name_head : list Z :=
  snd (rd (BPF_CORE_READ rd 8 task_exe (off_file_f_path + off_path_dentry)
             [off_dentry_d_name + Z.of_nat off_qstr_name]) 6).

(** fileless: run from a memfd, or from a file that has no name left *)
Definition exec_kind : Z :=
  if is_memfd exe_name_head || (exe_nlink =? 0) then K_FILELESS_EXEC else K_EXEC.

Definition exec_event (ctx data_loc : Z) (path : list Z) (e : sensor_event) : sensor_event :=
  let e := set_path path (set_arg0 exe_nlink (fresh_event c exec_kind e)) in
  set_path2 (snd (cx_read_kernel_str c (field ctx (Z.land data_loc 0xFFFF)) (ev_path2 e))) e.

(** The path [build_path] leaves in the record. *)
Definition exec_path (e : sensor_event) (s : st M) : list Z :=
  eval (build_path c (file_dentry c task_exe) (file_mnt c task_exe)
          (ev_path (set_arg0 exe_nlink (fresh_event c exec_kind e)))) s.

Lemma handle_exec_exec ctx data_loc (s : st M) :
  ∃ v, exec (handle_exec c slot ctx data_loc) s =
    if is_self c s then s
    else match slot with
         | None => up_drops (incr (st_drops s) (cx_cpu c) 0) s
         | Some e => up_scratch v
             (up_events (st_events s ++ [exec_event ctx data_loc (exec_path e s) e]) s)
         end.
Proof.
  unfold handle_exec. rewrite exec_bind. unfold eval at 1, exec at 2. rewrite skip_self_run.
  cbn [fst snd]. destruct (is_self c s); [by exists []|].
  cbv zeta. rewrite exec_bind. unfold eval at 1, exec at 2. rewrite reserve_run.
  destruct slot as [e|]; cbn [fst snd]; [|by exists []].
  rewrite exec_bind.
  match goal with |- context [exec (build_path c ?d ?v ?o) s] =>
    destruct (build_path_scratch (M := M) c d v o s) as [w Hw] end.
  exists w. rewrite Hw. unfold submit. run_prog. reflexivity.
Qed.

(** [(__s32)] of the exit code, stored in a __u64. *)
Definition exit_event (e : sensor_event) : sensor_event :=
  set_arg0 (u64 (s32 (BPF_CORE_READ rd 4 (cx_task c) off_task_exit_code [])))
    (fresh_event c K_EXIT e).

Lemma handle_exit_exec (s : st M) :
  exec (handle_exit c slot) s =
    if negb (cx_pid c =? cx_tgid c) || is_self c s then s
    else match slot with
         | None => up_drops (incr (st_drops s) (cx_cpu c) 0) s
         | Some e => up_events (st_events s ++ [exit_event e]) s
         end.
Proof.
  unfold handle_exit. destruct (cx_pid c =? cx_tgid c); cbn [negb orb]; [|done].
  rewrite exec_bind. unfold eval at 1, exec at 2. rewrite skip_self_run. cbn [fst snd].
  destruct (is_self c s); [done|].
  rewrite exec_bind. unfold eval at 1, exec at 2. rewrite reserve_run.
  by destruct slot as [e|].
Qed.
End lifecycle.
