(* ===== verification/SensorTrace.v ===== *)
(** * Runs of the sensor

    A [firing] is one run of one attached program: the context it runs in,
    the ring-buffer slot it gets and the program.  [run_trace] is a sequence
    of firings over all threads and CPUs, in the order in which they touch
    the maps.  The theorems hold for every sequence: the order in which
    threads interleave, the slots and the kernel memory are arbitrary. *)
From Stdlib Require Import ZArith Lia Ascii String.
From stdpp Require Import base tactics list gmap.
From S2P Require Import Prelude.
From S2P Require Import Kernel.
From S2P Require Import CoreRead.
From S2P Require Import Tracing.
From S2P Require Import PathWalk.
From S2P Require Import Linsensor.
From S2P Require Import SensorFacts.
Local Open Scope Z_scope.

(** ** Traces *)

Record firing := Firing {
  f_ctx : ctx;
  f_slot : option sensor_event;
  f_probe : probe;
}.

(** The thread: [bpf_get_current_pid_tgid], the key of [pending_args]. *)
Definition f_key (f : firing) : Z := cx_pid_tgid (f_ctx f).

Definition is_exit (f : firing) : bool :=
  match f_probe f with P_sys_exit _ _ => true | _ => false end.

Section trace.
Context {KL : KernelLayout} {M : Type} `{HM : !LruHash M Z pending}.
Context (b : build).

Definition fire (f : firing) (s : st M) : st M :=
  exec (run_probe b (f_ctx f) (f_slot f) (f_probe f)) s.

Fixpoint run_trace (fs : list firing) (s : st M) : st M :=
  match fs with
  | [] => s
  | f :: fs => run_trace fs (fire f s)
  end.

Lemma run_trace_app fs1 fs2 s : run_trace (fs1 ++ fs2) s = run_trace fs2 (run_trace fs1 s).
Proof. revert s; induction fs1; intros; cbn; auto. Qed.

Lemma run_trace_snoc fs f s : run_trace (fs ++ [f]) s = fire f (run_trace fs s).
Proof. by rewrite run_trace_app. Qed.

(** Firing [f] in state [s] is a sys_enter that stashes [p]. *)
Definition stashes (f : firing) (s : st M) (p : pending) : Prop :=
  match f_probe f with
  | P_sys_enter regs id =>
      existsb (Z.eqb (s64 id)) (sys_enter_ids b) = true ∧ s64 id ≠ NR_prctl b ∧
      enter_pending (f_ctx f) b (s64 id) (read_sysargs (f_ctx f) b regs) = Some p ∧
      self_filtered (p_kind p) && is_self (f_ctx f) s = false
  | _ => False
  end.

Lemma stash_state_pending c p (s : st M) :
  st_pending (stash_state c p s) = snd (hash_update (st_pending s) (cx_pid_tgid c) p).
Proof. unfold stash_state. by destruct (p_kind p =? K_SETID). Qed.

Lemma stash_state_frame c p (s : st M) :
  st_self (stash_state c p s) = st_self s ∧ st_events (stash_state c p s) = st_events s ∧
  st_drops (stash_state c p s) = st_drops s ∧ st_scratch (stash_state c p s) = st_scratch s.
Proof. unfold stash_state. by destruct (p_kind p =? K_SETID). Qed.

Lemma prctl_state_frame c a (s : st M) :
  st_events (prctl_state c a s) = st_events s ∧ st_drops (prctl_state c a s) = st_drops s ∧
  st_scratch (prctl_state c a s) = st_scratch s ∧ st_pending (prctl_state c a s) = st_pending s
  ∧ st_stats (prctl_state c a s) = st_stats s.
Proof. unfold prctl_state. repeat case_match; done. Qed.

(** A sys_enter stashes, or registers the agent, or changes nothing. *)
Inductive enter_effect (f : firing) (s : st M) : st M → Prop :=
  | enter_none : (∀ p, ¬ stashes f s p) → enter_effect f s s
  | enter_prctl_effect regs id :
      f_probe f = P_sys_enter regs id → s64 id = NR_prctl b → (∀ p, ¬ stashes f s p) →
      enter_effect f s (prctl_state (f_ctx f) (read_sysargs (f_ctx f) b regs) s)
  | enter_stash p : stashes f s p → enter_effect f s (stash_state (f_ctx f) p s).

Lemma fire_enter f s regs id : f_probe f = P_sys_enter regs id → enter_effect f s (fire f s).
Proof.
  intros Hp. unfold fire. rewrite Hp. cbn [run_probe]. rewrite raw_sys_enter_exec.
  destruct (existsb _ _) eqn:Ei; last first.
  { apply enter_none. unfold stashes. rewrite Hp. intros p (? & _). congruence. }
  unfold dispatch_state. destruct (Z.eqb_spec (s64 id) (NR_prctl b)) as [E|E].
  { eapply enter_prctl_effect; eauto. unfold stashes. rewrite Hp. by intros p (_ & ? & _). }
  unfold enter_state. destruct (enter_pending _ _ _ _) as [p|] eqn:Ep; last first.
  { apply enter_none. unfold stashes. rewrite Hp, Ep. by intros p (_ & _ & ? & _). }
  destruct (_ && _) eqn:Es.
  - apply enter_none. unfold stashes. rewrite Hp, Ep. intros p' (_ & _ & ? & H').
    simplify_eq. congruence.
  - apply enter_stash. unfold stashes. by rewrite Hp.
Qed.

Lemma fire_exit f s x ret :
  f_probe f = P_sys_exit x ret → exit_result (f_ctx f) (f_slot f) x ret s (fire f s).
Proof. intros Hp. unfold fire. rewrite Hp. apply run_exit_result. Qed.

Lemma fire_exec f s ctx dl : f_probe f = P_exec ctx dl →
  fire f s = exec (handle_exec (f_ctx f) (f_slot f) ctx dl) s.
Proof. intros Hp. unfold fire. by rewrite Hp. Qed.

Lemma fire_leave f s : f_probe f = P_exit → fire f s = exec (handle_exit (f_ctx f) (f_slot f)) s.
Proof. intros Hp. unfold fire. by rewrite Hp. Qed.

(** The record a process exec or exit adds, if any. *)
Definition life_event (f : firing) (s : st M) : option sensor_event :=
  match f_probe f, f_slot f with
  | P_exec ctx dl, Some e =>
      if is_self (f_ctx f) s then None
      else Some (exec_event (f_ctx f) ctx dl (exec_path (f_ctx f) e s) e)
  | P_exit, Some e =>
      if negb (cx_pid (f_ctx f) =? cx_tgid (f_ctx f)) || is_self (f_ctx f) s then None
      else Some (exit_event (f_ctx f) e)
  | _, _ => None
  end.

(** A lifecycle run leaves everything but the records, the drop counter
    and the scratch. *)
Lemma fire_life f s :
  match f_probe f with P_exec _ _ | P_exit => True | _ => False end →
  st_self (fire f s) = st_self s ∧ st_pending (fire f s) = st_pending s ∧
  st_stats (fire f s) = st_stats s ∧
  st_events (fire f s) = st_events s ++ option_list (life_event f s).
Proof.
  unfold life_event. destruct (f_probe f) as [| |ctx dl|] eqn:Hp; try done; intros _.
  - rewrite (fire_exec _ _ _ _ Hp). destruct (handle_exec_exec (f_ctx f) (f_slot f) ctx dl s)
      as [v ->].
    destruct (is_self _ s), (f_slot f); cbn; by rewrite ?app_nil_r.
  - rewrite (fire_leave _ _ Hp), handle_exit_exec.
    destruct (_ || _), (f_slot f); cbn; by rewrite ?app_nil_r.
Qed.
End trace.

(** Case analysis on the program a firing runs. *)
Ltac fire_cases f s Hp :=
  destruct (f_probe f) as [?regs ?id|?x ?ret|?ctx ?dl|] eqn:Hp.

(** ** The entry of a thread *)

Section pending_entry.
Context {KL : KernelLayout} {M : Type} `{HM : !LruHash M Z pending} `{!LruHashLaws M Z pending}.
Context (b : build).

Let entry (s : st M) (k : Z) : option pending := hash_lookup (st_pending s) k.

(** A run leaves the entry of every other thread alone, or evicts it. *)
Lemma fire_other f (s : st M) k :
  f_key f ≠ k → entry (fire b f s) k = entry s k ∨ entry (fire b f s) k = None.
Proof.
  intros Hk. unfold entry, f_key in *. fire_cases f s Hp.
  - destruct (fire_enter b f s _ _ Hp); [by left| |].
    + left. by destruct (prctl_state_frame (f_ctx f) (read_sysargs (f_ctx f) b regs0) s)
        as (_ & _ & _ & -> & _).
    + rewrite stash_state_pending. apply hash_update_other. congruence.
  - left. destruct (fire_exit b f s _ _ Hp); cbn; try done; by apply hash_delete_other.
  - left. by destruct (fire_life b f s) as (_ & -> & _); [rewrite Hp|].
  - left. by destruct (fire_life b f s) as (_ & -> & _); [rewrite Hp|].
Qed.

(** An entry is old, or this run stashed it; and no sys_exit run of its
    own thread leaves one behind. *)
Lemma fire_entry f (s : st M) k p :
  entry (fire b f s) k = Some p →
  (entry s k = Some p ∧ (f_key f = k → is_exit f = false)) ∨ (f_key f = k ∧ stashes b f s p).
Proof.
  intros He. destruct (decide (f_key f = k)) as [Hk|Hk]; last first.
  { left. destruct (fire_other f s k Hk) as [E|E]; rewrite E in He; done. }
  unfold entry, f_key, is_exit in *. fire_cases f s Hp.
  - destruct (fire_enter b f s _ _ Hp) as [|? ? ?|p' Hs].
    + by left.
    + left. by destruct (prctl_state_frame (f_ctx f) (read_sysargs (f_ctx f) b regs0) s)
        as (_ & _ & _ & E & _); rewrite E in He.
    + rewrite stash_state_pending, Hk in He.
      destruct (decide (fst (hash_update (st_pending s) k p') = 0)) as [E|E].
      * rewrite (hash_update_hit _ _ _ E) in He. simplify_eq. right. done.
      * destruct (hash_update_err _ _ _ E) as [E'|E']; rewrite E' in He; [by left|done].
  - exfalso. destruct (fire_exit b f s _ _ Hp); cbn in He; rewrite Hk in *;
      rewrite ?hash_delete_hit in He; congruence.
  - left. destruct (fire_life b f s) as (_ & E & _); [by rewrite Hp|]. by rewrite E in He.
  - left. destruct (fire_life b f s) as (_ & E & _); [by rewrite Hp|]. by rewrite E in He.
Qed.

(** [fs] stashed [p] for thread [k] last, and that thread has had no
    sys_exit run since. *)
Definition stashed_by (fs : list firing) (s0 : st M) (k : Z) (p : pending) : Prop :=
  ∃ f1 fe f2, fs = f1 ++ fe :: f2 ∧ f_key fe = k ∧ stashes b fe (run_trace b f1 s0) p ∧
    Forall (λ f, f_key f = k → is_exit f = false) f2.

Lemma run_trace_entry fs (s0 : st M) k p :
  (∀ k, entry s0 k = None) → entry (run_trace b fs s0) k = Some p → stashed_by fs s0 k p.
Proof.
  intros H0. revert p. induction fs as [|f fs IH] using rev_ind; intros p.
  { cbn. by rewrite H0. }
  rewrite run_trace_snoc. intros [[He Hx]|[Hk Hs]]%fire_entry.
  - destruct (IH p He) as (f1 & fe & f2 & -> & Hk & Hs & Hq).
    exists f1, fe, (f2 ++ [f]). rewrite <- (assoc_L (++)). split_and!; try done.
    apply Forall_app. auto.
  - exists fs, f, []. auto.
Qed.
End pending_entry.
