(* ===== verification/SensorProps.v ===== *)
(** * Properties of the sensor's runs

    What holds of every sequence of program runs on the sensor's maps:
    where each record comes from, how a syscall's entry and exit are paired
    while other threads run, which records the agent's own process can
    cause, who the agent is, and what the counters count. *)
From Stdlib Require Import ZArith Lia Ascii String.
From stdpp Require Import base tactics list gmap strings.
From S2P Require Import Prelude.
From S2P Require Import Kernel.
From S2P Require Import CoreRead.
From S2P Require Import Tracing.
From S2P Require Import PathWalk.
From S2P Require Import Scenario.
From S2P Require Import Linsensor.
From S2P Require Import SensorFacts.
From S2P Require Import SensorTrace.
Local Open Scope Z_scope.

(** ** Where the records come from *)

Section provenance.
Context {KL : KernelLayout} {M : Type} `{HM : !LruHash M Z pending} `{!LruHashLaws M Z pending}.
Context (b : build) (s0 : st M).

(** The syscall record [e] of a trace: its thread stashed [p] at a
    sys_enter, and the matching sys_exit with a non-negative result, the
    first of that thread since, completed and submitted it. *)
Definition syscall_origin (fs : list firing) (e : sensor_event) : Prop :=
  ∃ f1 fe f2 fx f3 x ret e0 p s1,
    fs = f1 ++ fe :: f2 ++ fx :: f3 ∧ f_key fe = f_key fx ∧
    Forall (λ f, f_key f = f_key fx → is_exit f = false) f2 ∧
    stashes b fe (run_trace b f1 s0) p ∧ p_kind p = exit_kind x ∧
    f_probe fx = P_sys_exit x ret ∧ 0 ≤ ret ∧ f_slot fx = Some e0 ∧
    e = eval (exit_fill (M := M) (f_ctx fx) x ret p (fresh_event (f_ctx fx) (exit_kind x) e0)) s1.

(** The record of a process that was not the agent and started a program
    or (its main thread) ended. *)
Definition life_origin (fs : list firing) (e : sensor_event) : Prop :=
  ∃ f1 f f2, fs = f1 ++ f :: f2 ∧ life_event f (run_trace b f1 s0) = Some e.

Lemma syscall_origin_snoc fs f e : syscall_origin fs e → syscall_origin (fs ++ [f]) e.
Proof.
  intros (f1 & fe & f2 & fx & f3 & x & ret & e0 & p & s1 & -> & H).
  exists f1, fe, f2, fx, (f3 ++ [f]), x, ret, e0, p, s1. split; [|done].
  by rewrite <- !(assoc_L (++)), <- !app_comm_cons, <- !(assoc_L (++)).
Qed.

Lemma life_origin_snoc fs f e : life_origin fs e → life_origin (fs ++ [f]) e.
Proof.
  intros (f1 & f' & f2 & -> & H). exists f1, f', (f2 ++ [f]). split; [|done].
  by rewrite <- !(assoc_L (++)).
Qed.

Lemma elem_of_option_list {A} (x : A) (o : option A) : x ∈ option_list o → o = Some x.
Proof. destruct o; cbn; [|by intros ?%elem_of_nil]. by intros ->%list_elem_of_singleton. Qed.

(** What one run adds to the ring buffer. *)
Lemma fire_new_event fs f e :
  (∀ k, hash_lookup (st_pending s0) k = None) →
  e ∈ st_events (fire b f (run_trace b fs s0)) → e ∉ st_events (run_trace b fs s0) →
  syscall_origin (fs ++ [f]) e ∨ life_origin (fs ++ [f]) e.
Proof.
  intros H0 He Hn. set (s := run_trace b fs s0) in *. fire_cases f s Hp.
  - exfalso. destruct (fire_enter b f s _ _ Hp) as [|? ? _ _|p _]; [done| |].
    + destruct (prctl_state_frame (f_ctx f) (read_sysargs (f_ctx f) b regs0) s) as [E _].
      by rewrite E in He.
    + destruct (stash_state_frame (f_ctx f) p s) as (_ & E & _). by rewrite E in He.
  - destruct (fire_exit b f s _ _ Hp) as [| | |p e0 v El Hk Hr Hs s1]; cbn in He; try done.
    left. apply elem_of_app in He as [He|He%list_elem_of_singleton]; [done|].
    destruct (run_trace_entry b fs s0 _ p H0 El) as (f1 & fe & f2 & -> & Hke & Hst & Hq).
    exists f1, fe, f2, f, [], x, ret, e0, p, s1. split_and!; try done.
    + by rewrite <- (assoc_L (++)), <- app_comm_cons.
  - right. destruct (fire_life b f s) as (_ & _ & _ & E); [by rewrite Hp|].
    rewrite E in He. apply elem_of_app in He as [He|He]; [done|].
    exists fs, f, []. split; [done|]. by apply elem_of_option_list.
  - right. destruct (fire_life b f s) as (_ & _ & _ & E); [by rewrite Hp|].
    rewrite E in He. apply elem_of_app in He as [He|He]; [done|].
    exists fs, f, []. split; [done|]. by apply elem_of_option_list.
Qed.

Lemma sensor_event_dec (e : sensor_event) (l : list sensor_event) : e ∈ l ∨ e ∉ l.
Proof.
  induction l as [|x l IH]; [right; set_solver|].
  assert (e = x ∨ e ≠ x) as [->|Hx].
  { assert (EqDecision sensor_event) by solve_decision. destruct (decide (e = x)); auto. }
  - left. set_solver.
  - destruct IH; [left|right]; set_solver.
Qed.

Lemma record_origin fs e :
  (∀ k, hash_lookup (st_pending s0) k = None) → st_events s0 = [] →
  e ∈ st_events (run_trace b fs s0) → syscall_origin fs e ∨ life_origin fs e.
Proof.
  intros H0 Hv. induction fs as [|f fs IH] using rev_ind; cbn.
  { rewrite Hv. set_solver. }
  rewrite run_trace_snoc. intros He.
  destruct (sensor_event_dec e (st_events (run_trace b fs s0))) as [Hold|Hnew].
  - destruct (IH Hold) as [H|H]; [left; by apply syscall_origin_snoc|].
    right; by apply life_origin_snoc.
  - by apply fire_new_event.
Qed.
End provenance.

(** C1. No record is made up: after any sequence of program runs over the
    freshly loaded maps, each record in the ring buffer is either a process
    exec/exit record of a process that is not the agent, or a syscall record
    whose arguments the same thread stashed at the sys_enter of a call of
    that kind, with no other sys_exit of that thread in between, completed
    by a sys_exit with a non-negative result. *)
Theorem every_record_has_its_syscall {KL : KernelLayout} {M : Type} `{HM : !LruHash M Z pending}
    `{!LruHashLaws M Z pending} b (empty : M) ncpu fs e :
  (∀ k, hash_lookup empty k = None) →
  e ∈ st_events (run_trace b fs (st_init empty ncpu)) →
  syscall_origin b (st_init empty ncpu) fs e ∨ life_origin b (st_init empty ncpu) fs e.
Proof. intros H0 He. by apply record_origin. Qed.

(** *** A run for the witnesses *)

Definition blank_event : sensor_event :=
  SensorEvent 7 7 7 7 7 7 7 7 7 7 7 7 7 (replicate 16 7) (replicate PATH_LEN 7)
    (replicate PATH_LEN 7) (replicate PATH_LEN 7) (replicate PATH_LEN 7).

(** Process 500 opens "notes.txt" in its working directory for writing;
    another process opens "/etc/shadow" meanwhile. *)
Definition demo_open : firing :=
  Firing (demo_ctx 0 500 501 1000 (u64 (-100)) 0x10100 1 0) None (P_sys_enter 0x9000 257).
Definition demo_other : firing :=
  Firing (demo_ctx 0 600 600 1000 (u64 (-100)) 0x10000 0 0) None (P_sys_enter 0x9000 257).
Definition demo_opened : firing :=
  Firing (demo_ctx 0 500 501 1000 0 0 0 0) (Some blank_event) (P_sys_exit X_openat 3).
Definition demo_trace : list firing := [demo_open; demo_other; demo_opened].
Definition demo_start : st (gmap Z pending) := st_init ∅ 1.

Lemma every_record_has_its_syscall_witness :
  let s := run_trace X86 demo_trace demo_start in
  length (st_events s) = 1%nat ∧
  (syscall_origin X86 demo_start demo_trace (hd blank_event (st_events s)) ∨
   life_origin X86 demo_start demo_trace (hd blank_event (st_events s))).
Proof.
  split; [vm_compute; reflexivity|].
  apply every_record_has_its_syscall; [intros k; apply lookup_empty|].
  vm_compute. apply elem_of_cons. by left.
Defined.

(** ** Pairing an entry with its exit *)

Section pairing.
Context {KL : KernelLayout} {M : Type} `{HM : !LruHash M Z pending} `{!LruHashLaws M Z pending}.
Context (b : build).

(** The state in which a taken record is completed. *)
Definition taken (c : ctx) (s : st M) : st M :=
  up_pending (hash_delete (st_pending s) (cx_pid_tgid c))
    (up_stats (incr (st_stats s) (cx_cpu c) ST_TAKE_OK) s).

(** The entry of thread [k] while only other threads run. *)
Lemma trace_other fs (s : st M) k :
  Forall (λ f, f_key f ≠ k) fs →
  hash_lookup (st_pending (run_trace b fs s)) k = hash_lookup (st_pending s) k ∨
  hash_lookup (st_pending (run_trace b fs s)) k = None.
Proof.
  intros H. revert s; induction H as [|f fs Hf _ IH]; intros s; cbn; [by left|].
  destruct (IH (fire b f s)) as [E|E]; [|by right].
  rewrite E. by apply fire_other.
Qed.

Lemma fire_stash f (s : st M) p :
  stashes b f s p → fire b f s = stash_state (f_ctx f) p s.
Proof.
  intros Hs. unfold stashes in Hs. fire_cases f s Hp; try done.
  destruct (fire_enter b f s _ _ Hp) as [Hn|? ? Hp' Hid Hn|p' Hs'].
  - destruct (Hn p). unfold stashes. by rewrite Hp.
  - destruct (Hn p). unfold stashes. by rewrite Hp.
  - unfold stashes in Hs'. rewrite Hp in Hs'.
    destruct Hs as (_ & _ & E & _), Hs' as (_ & _ & E' & _). by simplify_eq.
Qed.

Lemma fire_take f (s : st M) x ret p e0 :
  f_probe f = P_sys_exit x ret → hash_lookup (st_pending s) (f_key f) = Some p →
  p_kind p = exit_kind x → 0 ≤ ret → f_slot f = Some e0 →
  st_events (fire b f s) = st_events s ++
    [eval (exit_fill (M := M) (f_ctx f) x ret p (fresh_event (f_ctx f) (exit_kind x) e0))
       (taken (f_ctx f) s)] ∧
  hash_lookup (st_pending (fire b f s)) (f_key f) = None.
Proof.
  intros Hp El Hk Hr Hs. unfold f_key in *.
  destruct (fire_exit b f s _ _ Hp) as [E|p' E [?|?]|p' E ? ? E'|p' e v E ? ? E'];
    rewrite El in E; simplify_eq; try congruence; try lia.
  split; [done|]. cbn. apply hash_delete_hit.
Qed.
End pairing.

(** C10. Entry and exit of one syscall are paired across any interleaving:
    when a sys_enter run stashed [p] and only other threads ran since, the
    thread's matching sys_exit with a non-negative result submits exactly
    one record, completed from [p], and clears the entry; unless the LRU map
    evicted the entry, and then the run only counts a missing one. *)
Theorem entry_and_exit_are_paired {KL : KernelLayout} {M : Type} `{HM : !LruHash M Z pending}
    `{!LruHashLaws M Z pending} b (s : st M) fe mid fx p x ret e0 :
  stashes b fe s p → fst (hash_update (st_pending s) (f_key fe) p) = 0 →
  Forall (λ f, f_key f ≠ f_key fe) mid →
  f_key fx = f_key fe → f_probe fx = P_sys_exit x ret → p_kind p = exit_kind x → 0 ≤ ret →
  f_slot fx = Some e0 →
  let s1 := run_trace b (fe :: mid) s in
  let s2 := fire b fx s1 in
  (hash_lookup (st_pending s1) (f_key fe) = Some p ∧
   st_events s2 = st_events s1 ++
     [eval (exit_fill (M := M) (f_ctx fx) x ret p (fresh_event (f_ctx fx) (exit_kind x) e0))
        (taken (f_ctx fx) s1)] ∧
   hash_lookup (st_pending s2) (f_key fe) = None) ∨
  (hash_lookup (st_pending s1) (f_key fe) = None ∧
   s2 = up_stats (incr (st_stats s1) (cx_cpu (f_ctx fx)) ST_MISSING) s1).
Proof.
  intros Hst Hok Hmid Hkey Hp Hk Hr Hs s1 s2.
  assert (El : hash_lookup (st_pending (fire b fe s)) (f_key fe) = Some p).
  { rewrite (fire_stash _ _ _ _ Hst), stash_state_pending. by apply hash_update_hit. }
  destruct (trace_other b mid (fire b fe s) _ Hmid) as [E|E].
  - left. rewrite El in E. rewrite <- Hkey in E |- *.
    split; [done|]. by apply (fire_take b fx s1 x ret p e0).
  - right. split; [done|]. rewrite <- Hkey in E. unfold f_key in E.
    change (run_trace b mid (fire b fe s)) with s1 in E.
    destruct (fire_exit b fx s1 _ _ Hp); [done|congruence..].
Qed.

Lemma entry_and_exit_are_paired_witness :
  let p := Pending K_OPEN 0 [u64 (-100); 0x10100; 1; 0] 0 0 in
  let s1 := run_trace X86 [demo_open; demo_other] demo_start in
  let s2 := fire X86 demo_opened s1 in
  (hash_lookup (st_pending s1) (f_key demo_open) = Some p ∧
   st_events s2 = st_events s1 ++
     [eval (exit_fill (f_ctx demo_opened) X_openat 3 p
              (fresh_event (f_ctx demo_opened) (exit_kind X_openat) blank_event))
        (taken (f_ctx demo_opened) s1)] ∧
   hash_lookup (st_pending s2) (f_key demo_open) = None) ∨
  (hash_lookup (st_pending s1) (f_key demo_open) = None ∧
   s2 = up_stats (incr (st_stats s1) (cx_cpu (f_ctx demo_opened)) ST_MISSING) s1).
Proof.
  apply (entry_and_exit_are_paired X86 demo_start demo_open [demo_other] demo_opened
           (Pending K_OPEN 0 [u64 (-100); 0x10100; 1; 0] 0 0) X_openat 3 blank_event);
    try (vm_compute; done).
  constructor; [vm_compute; done|constructor].
Defined.

(** ** Who the agent is *)

Section self.
Context {KL : KernelLayout} {M : Type} `{HM : !LruHash M Z pending}.
Context (b : build).

(** The process that calls prctl with the agent's magic number. *)
Definition magic_tgid (f : firing) : option Z :=
  match f_probe f with
  | P_sys_enter regs id =>
      if (s64 id =? NR_prctl b) && (sysarg (read_sysargs (f_ctx f) b regs) 0 =? SELF_MAGIC)
      then let t := u32 (cx_tgid (f_ctx f)) in if t =? 0 then None else Some t
      else None
  | _ => None
  end.

Lemma NR_prctl_entered : existsb (Z.eqb (NR_prctl b)) (sys_enter_ids b) = true.
Proof. by destruct b. Qed.

Lemma fire_self f (s : st M) t :
  st_self s = [t] →
  st_self (fire b f s) = [if t =? 0 then default 0 (magic_tgid f) else t].
Proof.
  intros Ht. unfold magic_tgid.
  assert (Hsame : [if t =? 0 then 0 else t] = st_self s).
  { rewrite Ht. by destruct (Z.eqb_spec t 0) as [->|]. }
  fire_cases f s Hp; cbn [from_option].
  - destruct (Z.eqb_spec (s64 id) (NR_prctl b)) as [E|E]; cbn [andb].
    + unfold fire. rewrite Hp. cbn [run_probe]. rewrite raw_sys_enter_exec, E, NR_prctl_entered.
      unfold dispatch_state. rewrite Z.eqb_refl. unfold prctl_state.
      destruct (_ =? SELF_MAGIC); [|done]. rewrite Ht. cbn [array_lookup Z.leb Z.compare lookup
        list_lookup Z.to_nat]. destruct t as [|p|p]; cbn -[u32]; rewrite ?Ht; try done.
      by destruct (Z.eqb_spec (u32 (cx_tgid (f_ctx f))) 0) as [->|].
    + change (st_self (fire b f s) = [if t =? 0 then 0 else t]). rewrite Hsame. destruct (fire_enter b f s _ _ Hp) as [|? ? Hp' E' _|p _]; [done| |].
      * rewrite Hp in Hp'. simplify_eq.
      * by destruct (stash_state_frame (f_ctx f) p s).
  - change (st_self (fire b f s) = [if t =? 0 then 0 else t]). rewrite Hsame. by destruct (fire_exit b f s _ _ Hp).
  - change (st_self (fire b f s) = [if t =? 0 then 0 else t]). rewrite Hsame. by destruct (fire_life b f s); [rewrite Hp|].
  - change (st_self (fire b f s) = [if t =? 0 then 0 else t]). rewrite Hsame. by destruct (fire_life b f s); [rewrite Hp|].
Qed.

Lemma magic_nonzero f t : magic_tgid f = Some t → t ≠ 0.
Proof.
  unfold magic_tgid. destruct (f_probe f); try done. destruct (_ && _); [|done]. cbv zeta.
  destruct (Z.eqb_spec (u32 (cx_tgid (f_ctx f))) 0); [done|]. by intros [= <-].
Qed.

Lemma omap_cons f fs :
  omap magic_tgid (f :: fs)
  = match magic_tgid f with Some t => t :: omap magic_tgid fs | None => omap magic_tgid fs end.
Proof. done. Qed.

Lemma trace_self fs (s : st M) t :
  st_self s = [t] →
  st_self (run_trace b fs s) = [if t =? 0 then default 0 (head (omap magic_tgid fs)) else t].
Proof.
  revert s t; induction fs as [|f fs IH]; intros s t Ht; cbn [run_trace].
  { rewrite Ht. cbn. by destruct (Z.eqb_spec t 0) as [->|]. }
  rewrite (IH _ _ (fire_self f s t Ht)). rewrite omap_cons.
  destruct (Z.eqb_spec t 0) as [->|Hn]; [|by destruct (Z.eqb_spec t 0)].
  destruct (magic_tgid f) as [t'|] eqn:E; cbn; [|done].
  apply magic_nonzero in E. by destruct (Z.eqb_spec t' 0).
Qed.
End self.

(** The agent's identity is learnt once: after any sequence of program
    runs the self map holds the tgid of the first process that called
    prctl(SELF_MAGIC), and 0 before that; no later caller replaces it. *)
Theorem self_is_the_first_caller {KL : KernelLayout} {M : Type} `{HM : !LruHash M Z pending}
    b (empty : M) ncpu fs :
  st_self (run_trace b fs (st_init empty ncpu)) = [default 0 (head (omap (magic_tgid b) fs))].
Proof. by rewrite (trace_self b fs _ 0). Qed.

(** ** The agent's own process *)

Lemma exit_kind_filtered x :
  self_filtered (exit_kind x) = false →
  exit_kind x ∈ [K_MODULE_INIT; K_MODULE_FINIT; K_MODULE_DELETE; K_SETID; K_CAPSET].
Proof. destruct x; intros H; try done; set_solver. Qed.

Lemma exit_fill_kind {KL : KernelLayout} {M : Type} c x ret p k e (s : st M) :
  ev_kind (eval (exit_fill c x ret p (fresh_event c k e)) s) = k.
Proof.
  pose proof (exit_fill_who c x ret p (fresh_event c k e) s) as H. unfold ev_who in H.
  cbn in H. congruence.
Qed.

Section agent.
Context {KL : KernelLayout} {M : Type} `{HM : !LruHash M Z pending} `{!LruHashLaws M Z pending}.
Context (b : build) (t : Z).
Hypothesis Ht : t ≠ 0.

(** The agent is registered as [t] and none of its threads has the
    arguments of a call it is not watched for. *)
Definition agent_clean (s : st M) : Prop :=
  st_self s = [t] ∧
  ∀ k p, Z.shiftr k 32 = t → hash_lookup (st_pending s) k = Some p →
         self_filtered (p_kind p) = false.

Lemma agent_is_self c (s : st M) : st_self s = [t] → cx_tgid c = t → is_self c s = true.
Proof. unfold is_self. intros -> ->. cbn. apply Z.eqb_refl. Qed.

Lemma fire_agent_clean f (s : st M) : agent_clean s → agent_clean (fire b f s).
Proof.
  intros [Hs Hp]. split.
  { rewrite (fire_self b f s t Hs). by destruct (Z.eqb_spec t 0). }
  intros k p Hk [[He _]|[Hf Hst]]%fire_entry; [by eapply Hp|].
  unfold stashes in Hst. destruct (f_probe f); try done. destruct Hst as (_ & _ & _ & Hst).
  rewrite agent_is_self, andb_true_r in Hst; [done|done|].
  unfold cx_tgid. unfold f_key in Hf. congruence.
Qed.

Lemma trace_agent_clean fs (s : st M) : agent_clean s → agent_clean (run_trace b fs s).
Proof. revert s; induction fs; intros s Hs; cbn; auto using fire_agent_clean. Qed.

End agent.

(** C28. Once registered, with none of its own file, process or memory calls
    stashed from before ([agent_clean]), the agent is not watched at its own
    work: whatever runs in between, a program run in one of its threads adds no record, or
    one about a kernel module, an id change or a capability change; never an
    open, rename, unlink, ptrace, memory access, memfd, exec or exit. *)
Theorem agent_is_not_watched {KL : KernelLayout} {M : Type} `{HM : !LruHash M Z pending}
    `{!LruHashLaws M Z pending} b t (s : st M) fs f :
  t ≠ 0 → agent_clean t s → cx_tgid (f_ctx f) = t →
  let s1 := run_trace b fs s in
  st_events (fire b f s1) = st_events s1 ∨
  ∃ e, st_events (fire b f s1) = st_events s1 ++ [e] ∧
       ev_kind e ∈ [K_MODULE_INIT; K_MODULE_FINIT; K_MODULE_DELETE; K_SETID; K_CAPSET].
Proof.
  intros Ht Hs Hf s1. apply (trace_agent_clean b t Ht fs) in Hs as [Hself Hp]. fold s1 in Hself, Hp.
  fire_cases f s1 Hpr.
  - left. destruct (fire_enter b f s1 _ _ Hpr) as [|? ? _ _ _|p _]; [done| |].
    + by destruct (prctl_state_frame (f_ctx f) (read_sysargs (f_ctx f) b regs0) s1).
    + by destruct (stash_state_frame (f_ctx f) p s1) as (_ & E & _).
  - destruct (fire_exit b f s1 _ _ Hpr) as [| | |p e v El Hk Hr Hsl s2]; [by left..|].
    right. eexists. split; [done|].
    rewrite exit_fill_kind. apply exit_kind_filtered. rewrite <- Hk. by eapply Hp.
  - left. destruct (fire_life b f s1) as (_ & _ & _ & ->); [by rewrite Hpr|].
    unfold life_event. rewrite Hpr, (agent_is_self t) by done.
    destruct (f_slot f); by rewrite app_nil_r.
  - left. destruct (fire_life b f s1) as (_ & _ & _ & ->); [by rewrite Hpr|].
    unfold life_event. rewrite Hpr, (agent_is_self t), orb_true_r by done.
    destruct (f_slot f); by rewrite app_nil_r.
Qed.

(** Process 900 is the agent: it registers, then opens a file and loads a
    module. *)
Definition demo_agent : st (gmap Z pending) := up_self [900] demo_start.
Definition demo_insmod : firing :=
  Firing (demo_ctx 0 900 900 0 3 0x10100 0 0) None (P_sys_enter 0x9000 313).
Definition demo_insmod_done : firing :=
  Firing (demo_ctx 0 900 900 0 0 0 0 0) (Some blank_event) (P_sys_exit X_finit_module 0).

Lemma agent_is_not_watched_witness :
  agent_clean 900 demo_agent ∧
  let s1 := run_trace X86 [demo_insmod] demo_agent in
  st_events (fire X86 demo_insmod_done s1) = st_events s1 ∨
  ∃ e, st_events (fire X86 demo_insmod_done s1) = st_events s1 ++ [e] ∧
       ev_kind e ∈ [K_MODULE_INIT; K_MODULE_FINIT; K_MODULE_DELETE; K_SETID; K_CAPSET].
Proof.
  assert (agent_clean 900 demo_agent).
  { split; [reflexivity|]. intros k p _ H. cbn in H. by rewrite lookup_empty in H. }
  split; [assumption|].
  apply (agent_is_not_watched X86 900 demo_agent [demo_insmod] demo_insmod_done);
    [lia|assumption|vm_compute; reflexivity].
Defined.
