(* ===== verification/SensorRace.v ===== *)
(** * Runs of the sensor that overlap

    [SensorTrace] takes a program run for one step on the maps.  On a real
    host the CPUs run the programs of linsensor.bpf.c at the same time.  Here
    a run is the [code] of its accesses to the maps, one constructor per
    helper call or store on a map, and [run_moves] interleaves the runs of
    several CPUs access by access.  [code_runs_the_program]: on its own, a
    run's code does what [Linsensor] says. *)
From Stdlib Require Import ZArith Lia Ascii String.
From stdpp Require Import base tactics list gmap.
From S2P Require Import Prelude.
From S2P Require Import Kernel.
From S2P Require Import CoreRead.
From S2P Require Import Tracing.
From S2P Require Import PathWalk.
From S2P Require Import Linsensor.
From S2P Require Import SensorFacts.
From S2P Require Import SensorTrace.
Local Open Scope Z_scope.

(** ** The accesses of a run *)

(** [pending_args] is accessed at the run's own thread, the per-CPU maps at
    its own CPU.  The counters are bumped by one atomic add.  [Fill] is all
    of [exit_fill] or [build_path]: apart from kernel and user memory it
    touches only the CPU's scratch.  [Submit] appends the record; the ring
    buffer keeps the order of the reservations, so that [same_maps] below
    compares the records up to order. *)
Inductive code :=
  | Halt
  | Self_read (k : option Z → code)
  | Self_write (v : Z) (k : code)
  | Lookup (k : option pending → code)
  | Update (p : pending) (k : Z → code)
  | Delete (k : code)
  | Count (i : Z) (k : code)
  | Drop_count (k : code)
  | Fill (m : prog (st unit) sensor_event) (k : sensor_event → code)
  | Submit (e : sensor_event) (k : code).

Section accesses.
Context {M : Type} `{HM : !LruHash M Z pending} (c : ctx).

Definition scratch_view (s : st M) : st unit := St [] [] (st_scratch s) [] tt [].

(** One access: what is left to do, and the maps after it. *)
Definition access (r : code) (s : st M) : code * st M :=
  match r with
  | Halt => (Halt, s)
  | Self_read k => (k (array_lookup (st_self s) 0), s)
  | Self_write v k => (k, up_self (array_store (st_self s) 0 v) s)
  | Lookup k => (k (hash_lookup (st_pending s) (cx_pid_tgid c)), s)
  | Update p k =>
      let r := hash_update (st_pending s) (cx_pid_tgid c) p in (k (fst r), up_pending (snd r) s)
  | Delete k => (k, up_pending (hash_delete (st_pending s) (cx_pid_tgid c)) s)
  | Count i k => (k, up_stats (incr (st_stats s) (cx_cpu c) i) s)
  | Drop_count k => (k, up_drops (incr (st_drops s) (cx_cpu c) 0) s)
  | Fill m k =>
      let r := m (scratch_view s) in (k (fst r), up_scratch (st_scratch (snd r)) s)
  | Submit e k => (k, up_events (st_events s ++ [e]) s)
  end.

(** All accesses, with nothing in between. *)
Fixpoint finish (r : code) (s : st M) : st M :=
  match r with
  | Halt => s
  | Self_read k => finish (k (array_lookup (st_self s) 0)) s
  | Self_write v k => finish k (up_self (array_store (st_self s) 0 v) s)
  | Lookup k => finish (k (hash_lookup (st_pending s) (cx_pid_tgid c))) s
  | Update p k =>
      let r := hash_update (st_pending s) (cx_pid_tgid c) p in
      finish (k (fst r)) (up_pending (snd r) s)
  | Delete k => finish k (up_pending (hash_delete (st_pending s) (cx_pid_tgid c)) s)
  | Count i k => finish k (up_stats (incr (st_stats s) (cx_cpu c) i) s)
  | Drop_count k => finish k (up_drops (incr (st_drops s) (cx_cpu c) 0) s)
  | Fill m k =>
      let r := m (scratch_view s) in finish (k (fst r)) (up_scratch (st_scratch (snd r)) s)
  | Submit e k => finish k (up_events (st_events s ++ [e]) s)
  end.

Lemma finish_access r s : finish r s = finish (fst (access r s)) (snd (access r s)).
Proof. by destruct r. Qed.
End accesses.

(** ** The programs *)

Section programs.
Context {KL : KernelLayout} (c : ctx) (slot : option sensor_event).

Definition skip_self_code (k : bool → code) : code :=
  Self_read (λ v, k match v with Some tgid => tgid =? cx_tgid c | None => false end).

Definition enter_prctl_code (args : list Z) : code :=
  if negb (sysarg args 0 =? SELF_MAGIC) then Halt
  else Self_read (λ v,
    match v with
    | Some tgid => if tgid =? 0 then Self_write (u32 (cx_tgid c)) Halt else Halt
    | None => Halt
    end).

Definition reserve_code (kind : Z) (k : option sensor_event → code) : code :=
  match slot with
  | None => Drop_count (k None)
  | Some e => k (Some (fresh_event c kind e))
  end.

(** [stash]; [setid_enter] updates the map itself and counts nothing. *)
Definition stash_code (p : pending) : code :=
  Update p (λ r,
    if p_kind p =? K_SETID then Halt
    else Count (if r =? 0 then ST_STASH else ST_STASH_ERR) Halt).

Definition take_code (kind ret : Z) (k : option pending → code) : code :=
  Lookup (λ o,
    match o with
    | None => Count ST_MISSING (k None)
    | Some p =>
        let ok := (p_kind p =? kind) && (0 <=? ret) in
        Count (if ok then ST_TAKE_OK else if p_kind p =? kind then ST_FAILED else ST_KIND)
          (Delete (k (if ok then Some p else None)))
    end).

Definition enter_code (p : option pending) : code :=
  match p with
  | None => Halt
  | Some p =>
      if self_filtered (p_kind p)
      then skip_self_code (λ self, if self : bool then Halt else stash_code p)
      else stash_code p
  end.

Definition raw_sys_enter_code (b : build) (regs id : Z) : code :=
  let id := s64 id in
  if existsb (Z.eqb id) (sys_enter_ids b) then
    let a := read_sysargs c b regs in
    if id =? NR_prctl b then enter_prctl_code a else enter_code (enter_pending c b id a)
  else Halt.

Definition run_exit_code (x : exit_probe) (ret : Z) : code :=
  take_code (exit_kind x) ret (λ p,
    match p with
    | None => Halt
    | Some p =>
        reserve_code (exit_kind x) (λ e,
          match e with
          | None => Halt
          | Some e => Fill (exit_fill c x ret p e) (λ e, Submit e Halt)
          end)
    end).

Definition handle_exec_code (ctx data_loc : Z) : code :=
  skip_self_code (λ self,
    if self : bool then Halt
    else reserve_code (exec_kind c) (λ e,
      match e with
      | None => Halt
      | Some e =>
          let e := set_arg0 (exe_nlink c) e in
          Fill (path ← build_path c (file_dentry c (task_exe c)) (file_mnt c (task_exe c)) (ev_path e);
                mret (set_path path e))
            (λ e, Submit (set_path2 (snd (cx_read_kernel_str c
                            (field ctx (Z.land data_loc 0xFFFF)) (ev_path2 e))) e) Halt)
      end)).

Definition handle_exit_code : code :=
  if negb (cx_pid c =? cx_tgid c) then Halt
  else skip_self_code (λ self,
    if self : bool then Halt
    else reserve_code K_EXIT (λ e,
      match e with
      | None => Halt
      | Some e =>
          Submit (set_arg0 (u64 (s32 (BPF_CORE_READ (cx_read_kernel c) 4 (cx_task c)
                    off_task_exit_code []))) e) Halt
      end)).
End programs.

Definition firing_code {KL : KernelLayout} (b : build) (f : firing) : code :=
  let c := f_ctx f in
  match f_probe f with
  | P_sys_enter regs id => raw_sys_enter_code c b regs id
  | P_sys_exit x ret => run_exit_code c (f_slot f) x ret
  | P_exec ctx data_loc => handle_exec_code c (f_slot f) ctx data_loc
  | P_exit => handle_exit_code c (f_slot f)
  end.

(** ** A run on its own is the program *)

(** Two runs that do the same to the scratch of [cpu], on maps that agree
    there, and nothing else. *)
Definition same_fill {M M' A} (cpu : nat) (m : prog (st M) A) (m' : prog (st M') A) : Prop :=
  ∀ s s', st_scratch s !! cpu = st_scratch s' !! cpu →
    eval m s = eval m' s' ∧
    ∃ g, exec m s = up_scratch (alter g cpu (st_scratch s)) s ∧
         exec m' s' = up_scratch (alter g cpu (st_scratch s')) s'.

Create HintDb fill.

Lemma same_fill_ret {M M' A} cpu (x : A) : same_fill (M:=M) (M':=M') cpu (mret x) (mret x).
Proof.
  intros s s' _. split; [done|]. exists id. unfold exec; cbn.
  rewrite !list_alter_id, !up_scratch_id by done. done.
Qed.

Lemma same_fill_bind {M M' A B} cpu (m : prog (st M) A) (m' : prog (st M') A)
    (f : A → prog (st M) B) (f' : A → prog (st M') B) :
  same_fill cpu m m' → (∀ x, same_fill cpu (f x) (f' x)) → same_fill cpu (m ≫= f) (m' ≫= f').
Proof.
  intros Hm Hf s s' Hs. destruct (Hm s s' Hs) as [E (g & E1 & E2)].
  rewrite !eval_bind, !exec_bind, E, E1, E2.
  destruct (Hf (eval m' s') (up_scratch (alter g cpu (st_scratch s)) s)
              (up_scratch (alter g cpu (st_scratch s')) s')) as [E' (g' & E1' & E2')].
  { cbn. by rewrite !list_lookup_alter_eq, Hs. }
  split; [done|]. exists (g' ∘ g). rewrite E1', E2'. cbn.
  by rewrite !list_alter_alter_eq.
Qed.
#[export] Hint Resolve same_fill_ret same_fill_bind : fill.

Section fills.
Context {KL : KernelLayout} {M M' : Type} (c : ctx).

Local Abbreviation same m := (same_fill (M:=M) (M':=M') (cx_cpu c) m m).

Lemma same_fill_if {A} (t : bool) (m n : prog (st M) A) (m' n' : prog (st M') A) :
  same_fill (cx_cpu c) m m' → same_fill (cx_cpu c) n n' →
  same_fill (cx_cpu c) (if t then m else n) (if t then m' else n').
Proof. by destruct t. Qed.

Lemma build_path_fill d vm out : same (build_path c d vm out).
Proof.
  intros s s' Hs. unfold build_path, eval, exec, mbind, prog_bind, get, put, mret, prog_ret.
  cbn beta iota. unfold percpu_lookup. rewrite Hs.
  assert (Hid : ∃ g, s = up_scratch (alter g (cx_cpu c) (st_scratch s)) s ∧
                     s' = up_scratch (alter g (cx_cpu c) (st_scratch s')) s').
  { exists id. rewrite !list_alter_id, !up_scratch_id by done. done. }
  destruct (_ ≫= _) as [pp|]; [|done]. destruct (_ || _); [done|].
  destruct (walk_and_write c d vm pp) as [pos pp'].
  destruct (pos =? DIR_BUF); cbn; (split; [done|by eexists]).
Qed.

Lemma dir_of_fill dfd out : same (dir_of c dfd out).
Proof.
  unfold dir_of. apply same_fill_if; [apply build_path_fill|].
  cbv zeta. apply same_fill_if; [apply same_fill_ret|apply build_path_fill].
Qed.

Lemma rel_dir_fill path dfd out : same (rel_dir c path dfd out).
Proof. unfold rel_dir. apply same_fill_if; [apply same_fill_ret|apply dir_of_fill]. Qed.
#[local] Hint Resolve rel_dir_fill build_path_fill same_fill_if : fill.

Lemma exit_fill_fill x ret p e : same (exit_fill c x ret p e).
Proof.
  destruct x; cbn [exit_fill]; unfold fill_open, fill_rename, fill_finit; cbv zeta;
    repeat (apply same_fill_bind; [|intros]); auto with fill.
Qed.
End fills.

Section alone.
Context {KL : KernelLayout} {M : Type} `{HM : !LruHash M Z pending}.
Context (c : ctx) (slot : option sensor_event).

(** The record [Fill] computes on the scratch alone. *)
Lemma finish_fill (m : prog (st unit) sensor_event) (m' : prog (st M) sensor_event) k s :
  same_fill (cx_cpu c) m m' →
  finish c (Fill m k) s = finish c (k (eval m' s)) (exec m' s).
Proof.
  intros Hm. destruct (Hm (scratch_view s) s eq_refl) as [E (g & E1 & E2)].
  cbn [finish]. cbv zeta. fold (eval m (scratch_view s)) (exec m (scratch_view s)).
  by rewrite E, E1, E2.
Qed.

Lemma finish_stash p (s : st M) : finish c (stash_code p) s = stash_state c p s.
Proof. unfold stash_code, stash_state. cbn. by destruct (_ =? K_SETID). Qed.

Lemma finish_take kind ret k (s : st M) :
  finish c (take_code kind ret k) s
  = finish c (k (eval (take c kind ret) s)) (exec (take c kind ret) s).
Proof.
  unfold take_code, eval, exec. rewrite take_run. cbn. destruct (hash_lookup _ _); [|done].
  done.
Qed.

Lemma finish_reserve kind k (s : st M) :
  finish c (reserve_code c slot kind k) s
  = finish c (k (eval (reserve c slot kind) s)) (exec (reserve c slot kind) s).
Proof. unfold reserve_code, eval, exec. rewrite reserve_run. by destruct slot. Qed.

Lemma finish_enter p (s : st M) : finish c (enter_code c p) s = enter_state c p s.
Proof.
  destruct p as [p|]; [|done]. unfold enter_code, enter_state, skip_self_code.
  destruct (self_filtered _); cbn [andb finish]; [|apply finish_stash].
  change (match array_lookup (st_self s) 0 with Some t => t =? cx_tgid c | None => false end)
    with (is_self c s). destruct (is_self c s); [done|]. apply finish_stash.
Qed.

Lemma finish_prctl a (s : st M) : finish c (enter_prctl_code c a) s = prctl_state c a s.
Proof.
  unfold enter_prctl_code, prctl_state. destruct (_ =? SELF_MAGIC); cbn [negb finish]; [|done].
  by destruct (array_lookup (st_self s) 0) as [[| |]|].
Qed.

Lemma finish_exit x ret (s : st M) :
  finish c (run_exit_code c slot x ret) s = exec (run_exit c slot x ret) s.
Proof.
  unfold exec. rewrite run_exit_form. unfold exit_form. rewrite prog_bind_run.
  unfold run_exit_code. rewrite finish_take. destruct (eval (take _ _ _) s) as [p|]; [|done].
  rewrite prog_bind_run, finish_reserve.
  destruct (eval (reserve _ _ _) _) as [e|]; [|done].
  rewrite (finish_fill _ (exit_fill c x ret p e)) by apply exit_fill_fill.
  by rewrite prog_bind_run.
Qed.

Lemma finish_exec ctx dl (s : st M) :
  finish c (handle_exec_code c slot ctx dl) s = exec (handle_exec c slot ctx dl) s.
Proof.
  unfold handle_exec, handle_exec_code, skip_self_code. rewrite exec_bind.
  unfold eval at 1, exec at 2. rewrite skip_self_run. cbn [finish fst snd].
  change (match array_lookup (st_self s) 0 with Some t => t =? cx_tgid c | None => false end)
    with (is_self c s). destruct (is_self c s); [done|].
  rewrite finish_reserve, exec_bind. fold (exec_kind c).
  destruct (eval (reserve _ _ _) _) as [e|]; [|done]. cbv zeta.
  match goal with |- context [build_path c ?d ?v ?o] =>
    rewrite (finish_fill _ (path ← build_path c d v o; mret (set_path path (set_arg0 (exe_nlink c) e))))
  end.
  2:{ apply same_fill_bind; [apply build_path_fill|intros; apply same_fill_ret]. }
  by rewrite !exec_bind, eval_bind.
Qed.

Lemma finish_leave (s : st M) :
  finish c (handle_exit_code c slot) s = exec (handle_exit c slot) s.
Proof.
  rewrite handle_exit_exec. unfold handle_exit_code, skip_self_code.
  destruct (cx_pid c =? cx_tgid c); cbn [negb orb finish]; [|done].
  change (match array_lookup (st_self s) 0 with Some t => t =? cx_tgid c | None => false end)
    with (is_self c s). destruct (is_self c s); [done|]. by destruct slot.
Qed.
End alone.

(** The accesses of a run are the run: made with nothing in between, in
    the order of [firing_code], they leave the maps as the program of
    linsensor.bpf.c does, for each of the 26 programs, whatever the maps
    hold and the kernel answers. *)
Lemma code_runs_the_program {KL : KernelLayout} {M : Type} `{HM : !LruHash M Z pending} b f
    (s : st M) :
  finish (f_ctx f) (firing_code b f) s = fire b f s.
Proof.
  unfold firing_code, fire. destruct (f_probe f); cbn [run_probe].
  - rewrite raw_sys_enter_exec. unfold raw_sys_enter_code, dispatch_state.
    destruct (existsb _ _); [|done]. destruct (_ =? _); [apply finish_prctl|apply finish_enter].
  - apply finish_exit.
  - apply finish_exec.
  - apply finish_leave.
Qed.

(** ** Several runs at once *)

Record running := Running {
  rn_firing : firing;
  rn_code : code;      (* what it has left to do *)
}.

Record conf (M : Type) := Conf {
  cf_maps : st M;
  cf_running : gmap nat running;    (* by CPU *)
}.
Arguments Conf {M} _ _.
Arguments cf_maps {M} _.
Arguments cf_running {M} _.

(** Tracepoint programs are not preempted, so a CPU executes one run at a
    time; and a thread is on one CPU at a time. *)
Definition same_lane (f g : firing) : Prop :=
  cx_cpu (f_ctx f) = cx_cpu (f_ctx g) ∨ f_key f = f_key g.
#[export] Instance same_lane_dec f g : Decision (same_lane f g).
Proof. unfold same_lane. apply _. Defined.

(** A program starts; or CPU [cpu] makes its run's next access, or returns. *)
Inductive move :=
  | Begin (f : firing)
  | Go (cpu : nat).

Section moves.
Context {KL : KernelLayout} {M : Type} `{HM : !LruHash M Z pending} (b : build).

Definition begin_run (f : firing) (cf : conf M) : option (conf M) :=
  if decide (map_Forall (λ _ r, ¬ same_lane f (rn_firing r)) (cf_running cf))
  then Some (Conf (cf_maps cf)
               (<[cx_cpu (f_ctx f) := Running f (firing_code b f)]> (cf_running cf)))
  else None.

Definition go_on (cpu : nat) (cf : conf M) : option (conf M) :=
  match cf_running cf !! cpu with
  | None => None
  | Some (Running f Halt) => Some (Conf (cf_maps cf) (delete cpu (cf_running cf)))
  | Some (Running f r) =>
      let a := access (f_ctx f) r (cf_maps cf) in
      Some (Conf (snd a) (<[cpu := Running f (fst a)]> (cf_running cf)))
  end.

Definition do_move (m : move) (cf : conf M) : option (conf M) :=
  match m with Begin f => begin_run f cf | Go cpu => go_on cpu cf end.

(** [None] when some move is not possible. *)
Fixpoint run_moves (ms : list move) (cf : conf M) : option (conf M) :=
  match ms with
  | [] => Some cf
  | m :: ms => do_move m cf ≫= run_moves ms
  end.
End moves.

(** [f] calls prctl with the agent's magic number. *)
Definition registers {KL : KernelLayout} (b : build) (f : firing) : bool :=
  match f_probe f with
  | P_sys_enter regs id =>
      (s64 id =? NR_prctl b) && (sysarg (read_sysargs (f_ctx f) b regs) 0 =? SELF_MAGIC)
  | _ => false
  end.

(** While a process registers, another run is not a registration, nor a run
    of that process; the idle process 0 makes no calls. *)
Definition calm_with {KL : KernelLayout} (b : build) (f g : firing) : Prop :=
  registers b f = true →
  registers b g = false ∧ cx_tgid (f_ctx g) ≠ 0 ∧ cx_tgid (f_ctx g) ≠ u32 (cx_tgid (f_ctx f)).

(** Before an agent is registered, no registration overlaps such a run. *)
Fixpoint calm {KL : KernelLayout} {M} `{!LruHash M Z pending} (b : build) (ms : list move)
    (cf : conf M) : Prop :=
  match ms with
  | [] => True
  | m :: ms =>
      match m with
      | Begin f =>
          array_lookup (st_self (cf_maps cf)) 0 = Some 0 →
          map_Forall (λ _ r, calm_with b f (rn_firing r) ∧ calm_with b (rn_firing r) f)
            (cf_running cf)
      | Go _ => True
      end ∧
      match do_move b m cf with Some cf => calm b ms cf | None => True end
  end.

#[export] Instance calm_with_dec {KL : KernelLayout} b f g : Decision (calm_with b f g).
Proof. unfold calm_with. apply _. Defined.
#[export] Instance calm_dec {KL : KernelLayout} {M} `{!LruHash M Z pending} b ms :
  ∀ cf : conf M, Decision (calm b ms cf).
Proof.
  induction ms as [|m ms IH]; intros cf; cbn [calm]; [apply _|].
  apply and_dec; [destruct m; apply _|destruct (do_move b m cf); apply _].
Defined.

(** The runs of an execution, in the order in which they start. *)
Definition begun (ms : list move) : list firing :=
  omap (λ m, match m with Begin f => Some f | Go _ => None end) ms.

(** Two sequences of runs that every CPU and every thread sees in the same
    order. *)
Definition lane (P : firing → Prop) : Prop := ∀ f g, P f → P g → same_lane f g.
Definition in_lanes (l l' : list firing) : Prop :=
  ∀ (P : firing → Prop) `{!∀ f, Decision (P f)}, lane P → filter P l = filter P l'.

(** The same maps, up to the order of the records and to what an LRU map
    keeps besides its entries. *)
Record same_maps {M M'} `{!LruHash M Z pending} `{!LruHash M' Z pending}
    (s : st M) (a : st M') : Prop := {
  sm_self : st_self s = st_self a;
  sm_events : st_events s ≡ₚ st_events a;
  sm_scratch : st_scratch s = st_scratch a;
  sm_drops : st_drops s = st_drops a;
  sm_stats : st_stats s = st_stats a;
  sm_pending : ∀ k, hash_lookup (st_pending s) k = hash_lookup (st_pending a) k;
}.

(** *** An LRU map that evicts by a plan *)

(** What an update returns, and the keys it evicts. *)
Definition choice : Type := Z * gset Z.

Definition choose_update (ch : choice) (k : Z) (p : pending) (m : gmap Z pending)
    : Z * gmap Z pending :=
  let m := filter (λ kp, kp.1 ∉ ch.2) m in
  (ch.1, if ch.1 =? 0 then <[k := p]> m else m).

Definition choice_hash (ch : choice) : LruHash (gmap Z pending) Z pending := {|
  hash_lookup m k := m !! k;
  hash_update m k p := choose_update ch k p m;
  hash_delete m k := delete k m;
|}.

(** [pl_plan] has the choices of the updates to come. *)
Record planned := Planned {
  pl_map : gmap Z pending;
  pl_plan : list choice;
}.

#[export] Instance planned_hash : LruHash planned Z pending := {
  hash_lookup m k := pl_map m !! k;
  hash_update m k p :=
    let ch := default (0, ∅) (head (pl_plan m)) in
    let r := choose_update ch k p (pl_map m) in (fst r, Planned (snd r) (tail (pl_plan m)));
  hash_delete m k := Planned (delete k (pl_map m)) (pl_plan m);
}.

Lemma choose_update_lookup ch k p m k' :
  snd (choose_update ch k p m) !! k' =
    if decide (k' = k ∧ fst ch = 0) then Some p
    else if decide (k' ∈ snd ch) then None else m !! k'.
Proof.
  unfold choose_update; cbn.
  assert (Hf : filter (λ kp : Z * pending, kp.1 ∉ snd ch) m !! k'
               = if decide (k' ∈ snd ch) then None else m !! k').
  { rewrite map_lookup_filter. destruct (m !! k') as [x|]; cbn; [|by case_decide].
    unfold guard. repeat case_decide; done. }
  destruct (Z.eqb_spec (fst ch) 0) as [E|E].
  - destruct (decide (k' = k)) as [->|Hk].
    + rewrite lookup_insert_eq. by rewrite decide_True.
    + rewrite lookup_insert_ne by done. rewrite Hf. rewrite (decide_False (P:=_ ∧ _)) by tauto. done.
  - rewrite Hf. rewrite (decide_False (P:=_ ∧ _)) by tauto. done.
Qed.

#[export] Instance planned_laws : LruHashLaws planned Z pending.
Proof.
  split; intros m k; cbn [hash_lookup hash_update hash_delete planned_hash fst snd pl_map].
  - intros p E. rewrite choose_update_lookup. by rewrite decide_True.
  - intros p E. rewrite choose_update_lookup. rewrite decide_False by (intros [_ ?]; done).
    case_decide; auto.
  - intros k' p E. rewrite choose_update_lookup. rewrite decide_False by (intros [? _]; done).
    case_decide; auto.
  - apply lookup_delete_eq.
  - intros k' E. by apply lookup_delete_ne.
Qed.

(** The sensor's maps with [pending_args] as such a map. *)
Definition with_plan (a : st (gmap Z pending)) (plan : list choice) : st planned :=
  St (st_self a) (st_events a) (st_scratch a) (st_drops a) (Planned (st_pending a) plan)
    (st_stats a).
