(* ===== verification/SensorLinear.v ===== *)
(** * Overlapping runs of the sensor are sequential ones

    An execution of [SensorRace] in which registrations are [calm] leaves the
    maps as some sequence of whole runs does, on a map that evicts by a plan.
    The proof takes each run for made at its last access that another run
    could notice: what is left then ([quiet]) touches only the run's own
    CPU, its own entry and the ring buffer ([finish_local]). *)
From Stdlib Require Import ZArith Lia Ascii String.
From stdpp Require Import base tactics list gmap.
From S2P Require Import Prelude.
From S2P Require Import Kernel.
From S2P Require Import CoreRead.
From S2P Require Import Tracing.
From S2P Require Import PathWalk.
From S2P Require Import Scenario.
From S2P Require Import Linsensor.
From S2P Require Import SensorFacts.
From S2P Require Import SensorTrace.
From S2P Require Import SensorProps.
From S2P Require Import SensorRace.
Local Open Scope Z_scope.

(** ** What a run sees *)

(** The rows of a CPU in the per-CPU maps. *)
Definition rows : Type := option (list Z) * option (list Z) * option (list path_parts).
Definition rows_of {M} (cpu : nat) (s : st M) : rows :=
  (st_stats s !! cpu, st_drops s !! cpu, st_scratch s !! cpu).

(** A CPU's rows and a thread's entry. *)
Definition view : Type := rows * option pending.

Section view.
Context {M : Type} `{HM : !LruHash M Z pending}.

Definition entry (s : st M) (k : Z) : option pending := hash_lookup (st_pending s) k.
Definition view_of (c : ctx) (s : st M) : view :=
  (rows_of (cx_cpu c) s, entry s (cx_pid_tgid c)).
End view.

(** One cell of a row plus one. *)
Definition bump (i : Z) (l : list Z) : list Z :=
  match array_lookup l i with Some n => array_store l i (u64 (n + 1)) | None => l end.

Lemma incr_row m cpu i j :
  incr m cpu i !! j = if decide (j = cpu) then bump i <$> m !! cpu else m !! j.
Proof.
  unfold incr, percpu_lookup. destruct (decide (j = cpu)) as [->|Hj].
  - destruct (m !! cpu) as [l|] eqn:E; cbn; [|done]. unfold bump.
    destruct (array_lookup l i); [|done]. unfold percpu_store.
    by rewrite list_lookup_alter_eq, E.
  - destruct (m !! cpu ≫= _); [|done]. unfold percpu_store. by rewrite list_lookup_alter_ne.
Qed.

(** Maps with a single row of scratch, that of [cpu]. *)
Definition lone_scratch (cpu : nat) (row : option (list path_parts)) : st unit :=
  St [] [] (from_option (λ l, replicate cpu [] ++ [l]) [] row) [] tt [].

Lemma lone_scratch_row cpu row : st_scratch (lone_scratch cpu row) !! cpu = row.
Proof.
  destruct row as [l|]; cbn; [|done].
  rewrite lookup_app_r by (rewrite length_replicate; lia).
  by rewrite length_replicate, Nat.sub_diag.
Qed.
Arguments lone_scratch : simpl never.

(** [r] touches nothing another run looks at. *)
Fixpoint quiet (c : ctx) (r : code) : Prop :=
  match r with
  | Halt => True
  | Delete k | Count _ k | Drop_count k | Submit _ k => quiet c k
  | Fill m k => same_fill (cx_cpu c) m m ∧ ∀ e, quiet c (k e)
  | Self_read _ | Self_write _ _ | Lookup _ | Update _ _ => False
  end.

(** What a quiet [r] makes of the view, and the records it submits. *)
Fixpoint finish_local (c : ctx) (r : code) (v : view) : view * list sensor_event :=
  let '((stats, drops, scratch), e) := v in
  match r with
  | Count i k => finish_local c k ((bump i <$> stats, drops, scratch), e)
  | Drop_count k => finish_local c k ((stats, bump 0 <$> drops, scratch), e)
  | Delete k => finish_local c k ((stats, drops, scratch), None)
  | Fill m k =>
      let r := m (lone_scratch (cx_cpu c) scratch) in
      finish_local c (k (fst r)) ((stats, drops, st_scratch (snd r) !! cx_cpu c), e)
  | Submit ev k => let r := finish_local c k v in (fst r, ev :: snd r)
  | _ => (v, [])
  end.

Lemma finish_local_halt c v : finish_local c Halt v = (v, []).
Proof. by destruct v as [[[??]?]?]. Qed.

(** An evicted entry stays evicted, and nothing else depends on it. *)
Lemma finish_local_evict c r rw e :
  quiet c r →
  finish_local c r (rw, None)
  = ((fst (fst (finish_local c r (rw, e))), None), snd (finish_local c r (rw, e))).
Proof.
  revert rw e. induction r as [|k IH|v k IH|k IH|p k IH|k IH|i k IH|k IH|m k IH|ev k IH];
    intros [[stats drops] scratch] e Hq; cbn [finish_local quiet] in *; try done; auto.
  - destruct Hq as [_ Hq]. auto.
  - by rewrite (IH _ e Hq).
Qed.

(** ** What a run leaves alone *)

Section frame.
Context {M : Type} `{HM : !LruHash M Z pending} `{!LruHashLaws M Z pending}.

(** [s'] differs from [s] only where [c] may touch it. *)
Record framed (c : ctx) (s s' : st M) : Prop := {
  fr_self : st_self s' = st_self s;
  fr_rows : ∀ i, i ≠ cx_cpu c → rows_of i s' = rows_of i s;
  fr_entry : ∀ k, k ≠ cx_pid_tgid c → entry s' k = entry s k;
}.

Lemma framed_refl c s : framed c s s.
Proof. done. Qed.

Lemma framed_trans c s1 s2 s3 : framed c s1 s2 → framed c s2 s3 → framed c s1 s3.
Proof.
  intros [E1 E2 E3] [F1 F2 F3]. split; [congruence|..]; intros.
  - by rewrite F2, E2.
  - by rewrite F3, E3.
Qed.

(** One access of a quiet run. *)
Lemma quiet_access c r (s : st M) :
  quiet c r →
  quiet c (fst (access c r s)) ∧ framed c s (snd (access c r s)) ∧
  ∃ es, st_events (snd (access c r s)) = st_events s ++ es ∧
        finish_local c r (view_of c s)
        = (fst (finish_local c (fst (access c r s)) (view_of c (snd (access c r s)))),
           es ++ snd (finish_local c (fst (access c r s)) (view_of c (snd (access c r s))))).
Proof.
  destruct r as [|k|v k|k|p k|k|i k|k|m k|ev k]; cbn [quiet]; try done; intros Hq;
    cbn [access fst snd].
  - split_and!; [done..|]. exists []. rewrite app_nil_r. by destruct (finish_local _ _ _).
  - split_and!; [done|split; try done|].
    + intros k' Hk. by apply hash_delete_other.
    + exists []. rewrite app_nil_r. split; [done|]. unfold view_of, entry, rows_of; cbn.
      rewrite hash_delete_hit. by destruct (finish_local _ _ _).
  - split_and!; [done|split; try done|].
    + intros j Hj. unfold rows_of; cbn. rewrite incr_row. by rewrite decide_False.
    + exists []. rewrite app_nil_r. split; [done|]. unfold view_of, entry, rows_of; cbn.
      rewrite incr_row, decide_True by done. by destruct (finish_local _ _ _).
  - split_and!; [done|split; try done|].
    + intros j Hj. unfold rows_of; cbn. rewrite incr_row. by rewrite decide_False.
    + exists []. rewrite app_nil_r. split; [done|]. unfold view_of, entry, rows_of; cbn.
      rewrite incr_row, decide_True by done. by destruct (finish_local _ _ _).
  - destruct Hq as [Hm Hk]. cbv zeta. cbn [fst snd].
    destruct (Hm (scratch_view s) (lone_scratch (cx_cpu c) (st_scratch s !! cx_cpu c)))
      as [E (g & E1 & E2)]; [by rewrite lone_scratch_row|].
    unfold eval, exec in E, E1, E2.
    split_and!; [done|split; try done|].
    + intros j Hj. unfold rows_of; cbn. rewrite E1; cbn. by rewrite list_lookup_alter_ne.
    + exists []. rewrite app_nil_r. split; [done|]. unfold view_of, entry, rows_of; cbn.
      rewrite <- E, E1, E2; cbn. rewrite !list_lookup_alter_eq, lone_scratch_row.
      by destruct (finish_local _ _ _).
  - split_and!; [done..|]. exists [ev]. done.
Qed.

(** A quiet run on its own. *)
Lemma quiet_finish c r (s : st M) :
  quiet c r →
  framed c s (finish c r s) ∧
  finish_local c r (view_of c s)
  = (view_of c (finish c r s), snd (finish_local c r (view_of c s))) ∧
  st_events (finish c r s) = st_events s ++ snd (finish_local c r (view_of c s)).
Proof.
  revert s. induction r as [|k IH|v k IH|k IH|p k IH|k IH|i k IH|k IH|m k IH|ev k IH];
    intros s Hq; try (by destruct Hq); [by cbn; rewrite app_nil_r|..];
    rewrite finish_access;
    pose proof (quiet_access c _ s Hq) as (Hq' & Hf & es & Hes & E); rewrite E;
    cbn [fst snd];
    match type of Hf with framed _ _ ?s' =>
      first [destruct (IH s' Hq') as (Hf' & E' & Hes')
            |destruct (IH _ s' Hq') as (Hf' & E' & Hes')] end;
    cbn [access fst snd] in *; cbv zeta in *; cbn [fst snd] in *;
    rewrite Hes', Hes, (assoc_L (++));
    (split; [by eapply framed_trans|split; [|done]]); by rewrite E' at 1.
Qed.

Lemma quiet_self c r (s : st M) : quiet c r → st_self (finish c r s) = st_self s.
Proof. intros Hq. by destruct (quiet_finish c r s Hq) as [[? _ _] _]. Qed.
End frame.

(** ** Until the last noticeable access *)

(** What is left to do starts with an access to what other runs may touch. *)
Definition waiting (r : code) : bool :=
  match r with Self_read _ | Self_write _ _ | Lookup _ | Update _ _ => true | _ => false end.

(** [r] stores in the self map, which holds [v], if that is 0, or makes at
    most one access to [pending_args] before it is quiet. *)
Definition decided (c : ctx) (v : option Z) (r : code) : Prop :=
  match r with
  | Self_read _ => False
  | Self_write _ k => v = Some 0 ∧ quiet c k
  | Lookup k => ∀ o, quiet c (k o)
  | Update p k => ∀ z, quiet c (k z)
  | _ => quiet c r
  end.

(** It may look at the self map before. *)
Definition phased (c : ctx) (v : option Z) (r : code) : Prop :=
  match r with Self_read k => decided c v (k v) | _ => decided c v r end.

Lemma phased_quiet c v r : phased c v r → waiting r = false → quiet c r.
Proof. by destruct r. Qed.

Section phases.
Context {KL : KernelLayout} (b : build).

Lemma quiet_decided c v r : quiet c r → decided c v r.
Proof. by destruct r. Qed.

Lemma stash_phased c v p : decided c v (stash_code p).
Proof. cbn. intros z. by destruct (_ =? K_SETID). Qed.

Lemma enter_phased c v p : phased c v (enter_code c p).
Proof.
  destruct p as [p|]; [|done]. unfold enter_code.
  destruct (self_filtered _); [|apply stash_phased]. cbn.
  destruct v as [t|]; [destruct (t =? _); [done|]|]; apply stash_phased.
Qed.

Lemma reserve_quiet c slot kind k :
  (∀ e, quiet c (k e)) → quiet c (reserve_code c slot kind k).
Proof. intros Hk. unfold reserve_code. destruct slot; cbn; auto. Qed.

Lemma exit_phased c slot x ret v : phased c v (run_exit_code c slot x ret).
Proof.
  cbn. intros [p|]; [|done]. cbn. destruct (_ && _); [|done].
  apply reserve_quiet. intros [e|]; [|done]. cbn. split; [apply exit_fill_fill|done].
Qed.

Lemma exec_phased c slot ctx dl v : phased c v (handle_exec_code c slot ctx dl).
Proof.
  cbn. destruct (match v with Some _ => _ | None => _ end); [done|]. apply quiet_decided.
  apply reserve_quiet. intros [e|]; [|done]. cbn. split; [|done].
  apply same_fill_bind; [apply build_path_fill|intros; apply same_fill_ret].
Qed.

Lemma leave_phased c slot v : phased c v (handle_exit_code c slot).
Proof.
  unfold handle_exit_code. destruct (negb _); [done|]. cbn.
  destruct (match v with Some _ => _ | None => _ end); [done|]. apply quiet_decided.
  apply reserve_quiet. by intros [e|].
Qed.

(** Every program. *)
Lemma firing_phased f v : phased (f_ctx f) v (firing_code b f).
Proof.
  unfold firing_code. destruct (f_probe f).
  - unfold raw_sys_enter_code. destruct (existsb _ _); [|done].
    destruct (_ =? NR_prctl b); [|apply enter_phased]. unfold enter_prctl_code.
    destruct (negb _); [done|]. cbn. destruct v as [t|]; [|done].
    destruct (Z.eqb_spec t 0) as [->|]; done.
  - apply exit_phased.
  - apply exec_phased.
  - apply leave_phased.
Qed.
End phases.

(** ** Sequential runs, with a choice for each *)

Section choices.
Context {KL : KernelLayout} (b : build).

Definition fire_choice (fc : firing * choice) (a : st (gmap Z pending)) : st (gmap Z pending) :=
  @fire KL (gmap Z pending) (choice_hash (snd fc)) b (fst fc) a.
Definition run_choices (fcs : list (firing * choice)) (a : st (gmap Z pending))
    : st (gmap Z pending) := foldl (flip fire_choice) a fcs.

#[export] Instance choice_laws ch : @LruHashLaws (gmap Z pending) Z pending (choice_hash ch).
Proof.
  split; intros m k; cbn [hash_lookup hash_update hash_delete choice_hash].
  - intros p E. rewrite choose_update_lookup. by rewrite decide_True.
  - intros p E. rewrite choose_update_lookup. rewrite decide_False by (intros [_ ?]; done).
    case_decide; auto.
  - intros k' p E. rewrite choose_update_lookup. rewrite decide_False by (intros [? _]; done).
    case_decide; auto.
  - apply lookup_delete_eq.
  - intros k' E. by apply lookup_delete_ne.
Qed.

(** A quiet code does not look at the plan, a phased one at its head only. *)
Lemma finish_quiet_planned c r ch (a : st (gmap Z pending)) plan :
  quiet c r →
  finish c r (with_plan a plan) = with_plan (@finish _ (choice_hash ch) c r a) plan.
Proof.
  revert a. induction r as [|k IH|v k IH|k IH|p k IH|k IH|i k IH|k IH|m k IH|ev k IH];
    intros a Hq; try (by destruct Hq); cbn [finish quiet] in *; cbv zeta;
    try (by rewrite <- IH).
  destruct Hq as [_ Hq]. by rewrite <- IH.
Qed.

Lemma finish_decided c v r ch (a : st (gmap Z pending)) : decided c v r →
  ∃ used, ∀ plan, finish c r (with_plan a (if used : bool then ch :: plan else plan))
                  = with_plan (@finish _ (choice_hash ch) c r a) plan.
Proof.
  intros Hp. destruct r as [|k|w k|k|p k| | | | |];
    try (exists false; intros plan; by apply finish_quiet_planned).
  - destruct Hp as [_ Hp]. exists false. intros plan. cbn [finish].
    by rewrite <- (finish_quiet_planned _ _ ch).
  - exists false. intros plan. cbn. apply finish_quiet_planned, Hp.
  - exists true. intros plan. cbn. by rewrite <- (finish_quiet_planned _ _ ch).
Qed.

Lemma finish_planned c r ch (a : st (gmap Z pending)) :
  phased c (array_lookup (st_self a) 0) r →
  ∃ used, ∀ plan, finish c r (with_plan a (if used : bool then ch :: plan else plan))
                  = with_plan (@finish _ (choice_hash ch) c r a) plan.
Proof.
  destruct r as [|k| | | | | | | |]; try apply finish_decided.
  set (v := array_lookup (st_self a) 0). intros Hp. by apply (finish_decided c v (k v)).
Qed.

(** The choices make a plan. *)
Lemma run_choices_planned fcs a :
  ∃ plan, run_trace b fcs.*1 (with_plan a plan) = with_plan (run_choices fcs a) [].
Proof.
  revert a. induction fcs as [|fc fcs IH]; intros a; [by exists []|].
  destruct (IH (fire_choice fc a)) as [plan Hplan].
  destruct (finish_planned (f_ctx (fst fc)) (firing_code b (fst fc)) (snd fc) a
              (firing_phased _ _ _)) as [used Hu].
  exists (if used then snd fc :: plan else plan). cbn [fmap list_fmap run_trace].
  rewrite <- code_runs_the_program, Hu, code_runs_the_program. exact Hplan.
Qed.
End choices.

(** ** The maps of an execution and those of whole runs *)

(** The records the runs under way have still to submit. *)
Definition tot (E : gmap nat (list sensor_event)) : list sensor_event :=
  concat (map_to_list E).*2.

Lemma tot_delete E i : tot E ≡ₚ default [] (E !! i) ++ tot (delete i E).
Proof.
  destruct (E !! i) as [es|] eqn:Ei; cbn; [|by rewrite delete_id].
  unfold tot. rewrite <- (map_to_list_delete E i es Ei). done.
Qed.

Lemma tot_insert E i es : tot (<[i := es]> E) ≡ₚ es ++ tot (delete i E).
Proof. by rewrite (tot_delete _ i), lookup_insert_eq, delete_insert_eq. Qed.

(** What [f] does next when the self map holds [v], if nothing it did so far
    could be noticed. *)
Definition expected {KL : KernelLayout} (b : build) (f : firing) (v : option Z) (r : code) : Prop :=
  r = firing_code b f ∨ ∃ k, firing_code b f = Self_read k ∧ r = k v.

Section expected.
Context {KL : KernelLayout} (b : build).

Lemma expected_phased f v r : expected b f v r → phased (f_ctx f) v r.
Proof.
  pose proof (firing_phased b f v) as Hp. intros [->|(k & E & ->)]; [done|].
  rewrite E in Hp. cbn [phased] in Hp. by destruct (k v).
Qed.

(** A run looks at the self map once. *)
Lemma expected_look f v k : expected b f v (Self_read k) → expected b f v (k v).
Proof.
  pose proof (firing_phased b f v) as Hp. intros [E|(k0 & E & Hk)]; [right; by exists k|].
  rewrite E in Hp. cbn [phased] in Hp. by rewrite <- Hk in Hp.
Qed.

Lemma expected_fire f v r ch (a : st (gmap Z pending)) :
  expected b f v r → array_lookup (st_self a) 0 = v →
  @finish _ (choice_hash ch) (f_ctx f) r a = fire_choice b (f, ch) a.
Proof.
  intros He Hv. unfold fire_choice. cbn [fst snd]. rewrite <- code_runs_the_program.
  destruct He as [->|(k & -> & ->)]; [done|]. cbn [finish]. by rewrite Hv.
Qed.

(** Apart from a registration a run only asks whether it is the agent's. *)
Lemma asks_for_self f k : firing_code b f = Self_read k → registers b f = false →
  ∃ r, ∀ v, k v = if match v with Some t => t =? cx_tgid (f_ctx f) | None => false end
                  then Halt else r.
Proof.
  unfold firing_code, registers. destruct (f_probe f) as [regs id|x ret|ctx dl|].
  - unfold raw_sys_enter_code. destruct (existsb _ _); [|done].
    destruct (s64 id =? NR_prctl b); cbn [andb].
    + intros E Hn. unfold enter_prctl_code in E. by rewrite Hn in E.
    + destruct (enter_pending _ _ _ _) as [p|]; [|done]. cbn [enter_code].
      destruct (self_filtered _); [|done]. intros [= <-] _. by eexists.
  - done.
  - intros [= <-] _. by eexists.
  - unfold handle_exit_code. destruct (negb _); [done|]. intros [= <-] _.
    by eexists.
Qed.

(** Another process registers. *)
Lemma expected_registered f t r :
  expected b f (Some 0) r → registers b f = false → cx_tgid (f_ctx f) ≠ 0 →
  cx_tgid (f_ctx f) ≠ t → expected b f (Some t) r.
Proof.
  intros [->|(k & E & ->)] Hn H0 Ht; [by left|]. right. exists k. split; [done|].
  destruct (asks_for_self f k E Hn) as [r' Hr']. rewrite !Hr'.
  destruct (Z.eqb_spec 0 (cx_tgid (f_ctx f))), (Z.eqb_spec t (cx_tgid (f_ctx f))); congruence.
Qed.
End expected.

Section linked.
Context {KL : KernelLayout} {M : Type} `{HM : !LruHash M Z pending} `{!LruHashLaws M Z pending}.
Context (b : build).

(** How far a run is: nobody could notice it so far, and whole runs have it
    still to come; or it is quiet, and whole runs have it behind them. *)
Inductive stage (f : firing) (v : option Z) (r : code) (vs va : view) (es : list sensor_event)
    : Prop :=
  | st_waiting : waiting r = true → expected b f v r → vs = va → es = [] → stage f v r vs va es
  | st_made :
      waiting r = false → quiet (f_ctx f) r → finish_local (f_ctx f) r vs = (va, es) →
      stage f v r vs va es.

Local Abbreviation key r := (f_key (rn_firing r)).
Local Abbreviation rctx r := (f_ctx (rn_firing r)).
Local Abbreviation self s := (array_lookup (st_self s) 0).

Record linked (s : st M) (rs : gmap nat running) (a : st (gmap Z pending))
    (E : gmap nat (list sensor_event)) : Prop := {
  lk_self : st_self s = st_self a;
  lk_events : st_events a ≡ₚ st_events s ++ tot E;
  lk_runs : ∀ i r, rs !! i = Some r → ∃ es,
    E !! i = Some es ∧ cx_cpu (rctx r) = i ∧
    stage (rn_firing r) (self a) (rn_code r) (view_of (rctx r) s) (view_of (rctx r) a) es;
  lk_idle : ∀ i, rs !! i = None → E !! i = None ∧ rows_of i s = rows_of i a;
  lk_keys : ∀ i j r r', rs !! i = Some r → rs !! j = Some r' → key r = key r' → i = j;
  lk_calm : self a = Some 0 → ∀ i j r r', rs !! i = Some r → rs !! j = Some r' → i ≠ j →
            calm_with b (rn_firing r) (rn_firing r');
  lk_entries : ∀ k, (∀ i r, rs !! i = Some r → key r ≠ k) → entry s k = entry a k;
}.

(** A step of [f] changes nothing for the others, or evicts their entry on
    both sides, or registers another process. *)
Record others (f : firing) (s s' : st M) (a a' : st (gmap Z pending)) : Prop := {
  ot_self : st_self s' = st_self a';
  ot_known : self a' = self a ∨
    (registers b f = true ∧ self a = Some 0 ∧ self a' = Some (u32 (cx_tgid (f_ctx f))));
  ot_rows : ∀ i, i ≠ cx_cpu (f_ctx f) → rows_of i s' = rows_of i s ∧ rows_of i a' = rows_of i a;
  ot_entry : ∀ k, k ≠ f_key f →
    (entry s' k = entry s k ∧ entry a' k = entry a k) ∨ (entry s' k = None ∧ entry a' k = None);
}.

Lemma others_framed f s s' a a' : st_self s = st_self a →
  framed (f_ctx f) s s' → framed (f_ctx f) a a' → others f s s' a a'.
Proof.
  intros Hs [E1 E2 E3] [F1 F2 F3]. split; auto; [congruence|]. left. by rewrite F1.
Qed.

(** The stage of the others. *)
Lemma stage_others g s s' a a' f r es :
  others g s s' a a' → cx_cpu (f_ctx f) ≠ cx_cpu (f_ctx g) → f_key f ≠ f_key g →
  (self a = Some 0 → calm_with b g f) →
  stage f (self a) r (view_of (f_ctx f) s) (view_of (f_ctx f) a) es →
  stage f (self a') r (view_of (f_ctx f) s') (view_of (f_ctx f) a') es.
Proof.
  intros [_ Hk Hr He] Hc Hkey Hcalm Hst. unfold f_key in Hkey. unfold view_of in *.
  destruct (Hr _ Hc) as [-> ->].
  assert (Hw : waiting r = true → expected b f (self a) r → expected b f (self a') r).
  { intros _ Hx. destruct Hk as [->|(Hg & H0 & ->)]; [done|]. rewrite H0 in Hx.
    destruct (Hcalm H0 Hg) as (? & ? & ?). by apply expected_registered. }
  destruct (He _ Hkey) as [[-> ->]|[-> ->]].
  - destruct Hst as [? ? ? ->|? ? ?]; [apply st_waiting|apply st_made]; auto.
  - destruct Hst as [? ? E ->|? ? E].
    + apply st_waiting; auto. congruence.
    + apply st_made; try done.
      by rewrite (finish_local_evict _ _ _ (entry s (cx_pid_tgid (f_ctx f)))), E.
Qed.

(** The other runs under way. *)
Definition apart (f : firing) (rs : gmap nat running) (a : st (gmap Z pending)) : Prop :=
  ∀ j r, rs !! j = Some r → j ≠ cx_cpu (f_ctx f) →
    key r ≠ f_key f ∧
    (self a = Some 0 → calm_with b f (rn_firing r) ∧ calm_with b (rn_firing r) f).

(** The run on CPU [i] starts or goes on. *)
Lemma linked_update s rs a E s' a' f r es x y :
  let i := cx_cpu (f_ctx f) in
  linked s rs a E → others f s s' a a' → apart f rs a →
  (∀ r0, rs !! i = Some r0 → rn_firing r0 = f) →
  st_events s' = st_events s ++ x → st_events a' = st_events a ++ y →
  y ++ default [] (E !! i) ≡ₚ x ++ es →
  stage f (self a') r (view_of (f_ctx f) s') (view_of (f_ctx f) a') es →
  linked s' (<[i := Running f r]> rs) a' (<[i := es]> E).
Proof.
  intros i [Hself Hev Hr Hi Hkeys Hcalm He] Ho Hap Hrs Hx Hy Hxy Hst. split.
  - apply Ho.
  - rewrite Hx, Hy, Hev, (tot_delete E i), tot_insert.
    rewrite <- !(assoc_L (++)). apply Permutation_app_head.
    rewrite (assoc_L (++) x), <- Hxy. solve_Permutation.
  - intros j r0. rewrite lookup_insert. case_decide as Hj; subst.
    + intros [= <-]. exists es. by rewrite lookup_insert_eq.
    + intros Hr0. rewrite lookup_insert_ne by done. destruct (Hr _ _ Hr0) as (es0 & H1 & H2 & H3).
      destruct (Hap j r0 Hr0 (not_eq_sym Hj)) as (Hk & Hc).
      exists es0. split; [done|]. split; [done|]. eapply stage_others; [done| |done| |done].
      * rewrite H2. by apply not_eq_sym.
      * intros H0. by apply Hc.
  - intros j. rewrite lookup_insert. case_decide as Hj; [done|]. intros Hr0.
    rewrite lookup_insert_ne by done. destruct (Hi _ Hr0) as [H1 H2]. split; [done|].
    destruct (ot_rows _ _ _ _ _ Ho j) as [-> ->]; [by apply not_eq_sym|done].
  - intros j j' r0 r0'. rewrite !lookup_insert.
    destruct (decide (i = j)) as [<-|], (decide (i = j')) as [<-|]; try done; [| |by apply Hkeys].
    + intros [= <-] H Hk. by destruct (Hap j' r0' H) as [[] _].
    + intros H [= <-] Hk. by destruct (Hap j r0 H) as [[] _].
  - intros H0' j j' r0 r0'. rewrite !lookup_insert.
    assert (H0 : self a = Some 0) by (destruct (ot_known _ _ _ _ _ Ho) as [<-|(_ & ? & _)]; done).
    destruct (decide (i = j)) as [<-|], (decide (i = j')) as [<-|]; try done; [| |by apply Hcalm].
    + intros [= <-] H Hne. by apply (Hap j' r0' H).
    + intros H [= <-] Hne. by apply (Hap j r0 H).
  - intros k Hnk. assert (Hk' : k ≠ f_key f).
    { intros ->. apply (Hnk i (Running f r)); [apply lookup_insert_eq|done]. }
    destruct (ot_entry _ _ _ _ _ Ho k Hk') as [[-> ->]|[-> ->]]; [|done].
    apply He. intros j r0 Hr0 <-. destruct (decide (j = i)) as [->|Hj].
    + by rewrite (Hrs _ Hr0) in Hk'.
    + apply (Hnk j r0); [by rewrite lookup_insert_ne|done].
Qed.

(** The run on CPU [i] returns. *)
Lemma linked_return s rs a E i f :
  linked s rs a E → rs !! i = Some (Running f Halt) → linked s (delete i rs) a (delete i E).
Proof.
  intros [Hself Hev Hr Hi Hkeys Hcalm He] Hf. destruct (Hr _ _ Hf) as (es & HE & Hc & Hst).
  destruct Hst as [?|_ _ Hl]; [done|]. cbn [rn_firing] in Hc, Hl.
  rewrite finish_local_halt in Hl. unfold view_of in Hl. rewrite Hc in Hl.
  injection Hl as Hst Hd Hs He' <-. split; try done.
  - by rewrite Hev, (tot_delete E i), HE.
  - intros j r. rewrite lookup_delete_Some. intros [Hj Hr0]. rewrite lookup_delete_ne by done.
    by apply Hr.
  - intros j. destruct (decide (j = i)) as [->|Hj].
    + rewrite !lookup_delete_eq. intros _. unfold rows_of. by rewrite Hst, Hd, Hs.
    + rewrite !lookup_delete_ne by done. apply Hi.
  - intros j j' r r'. rewrite !lookup_delete_Some. intros [_ ?] [_ ?]. by eapply Hkeys.
  - intros H0 j j' r r'. rewrite !lookup_delete_Some. intros [_ ?] [_ ?]. by eapply Hcalm.
  - intros k Hnk. destruct (decide (k = f_key f)) as [->|Hkf]; [done|].
    apply He. intros j r Hr0 E0. destruct (decide (j = i)) as [->|Hj].
    + rewrite Hf in Hr0. by simplify_eq.
    + apply (Hnk j r); [by rewrite lookup_delete_ne|done].
Qed.

Lemma quiet_not_waiting c r : quiet c r → waiting r = false.
Proof. by destruct r. Qed.

(** A run becomes quiet: whole runs make it now. *)
Lemma linked_settle s rs a E s' a1 f r ch :
  let i := cx_cpu (f_ctx f) in
  linked s rs a E → others f s s' a a1 → apart f rs a →
  (∀ r0, rs !! i = Some r0 → rn_firing r0 = f) → default [] (E !! i) = [] →
  st_events s' = st_events s → st_events a1 = st_events a →
  view_of (f_ctx f) s' = view_of (f_ctx f) a1 → quiet (f_ctx f) r →
  fire_choice b (f, ch) a = @finish _ (choice_hash ch) (f_ctx f) r a1 →
  ∃ es, linked s' (<[i := Running f r]> rs) (fire_choice b (f, ch) a) (<[i := es]> E).
Proof.
  intros i Hl Ho Hap Hrs HE Hs Ha Hvw Hq ->.
  destruct (quiet_finish (HM:=choice_hash ch) (f_ctx f) r a1 Hq) as (Hf & Hloc & Hev).
  exists (snd (finish_local (f_ctx f) r (view_of (f_ctx f) a1))).
  eapply (linked_update _ _ _ _ _ _ _ _ _ []); [done| |done|done| | | |].
  - destruct Ho as [E1 E2 E3 E4], Hf as [F1 F2 F3]. split.
    + by rewrite F1.
    + by rewrite F1.
    + intros j Hj. rewrite F2 by done. by apply E3.
    + intros k Hk. change (@entry _ plain_hash ?x ?y) with (@entry _ (choice_hash ch) x y).
      rewrite F3 by done. by apply E4.
  - by rewrite Hs, app_nil_r.
  - by rewrite Hev, Ha.
  - fold i. by rewrite HE, app_nil_r.
  - apply st_made; [by eapply quiet_not_waiting|done|]. by rewrite Hvw.
Qed.

Lemma others_refl f s a : st_self s = st_self a → others f s s a a.
Proof. intros. by apply others_framed. Qed.

(** What whole runs make when [f] goes from [r] to [r']. *)
Definition made (f : firing) (r r' : code) : list firing :=
  if waiting r && negb (waiting r') then [f] else [].

(** A waiting run looks at the self map or at its own entry. *)
Lemma linked_look s rs a E f r r' :
  let i := cx_cpu (f_ctx f) in
  linked s rs a E → waiting r = true → apart f rs a →
  (∀ r0, rs !! i = Some r0 → rn_firing r0 = f) → default [] (E !! i) = [] →
  view_of (f_ctx f) s = view_of (f_ctx f) a →
  (waiting r' = true → expected b f (self a) r') →
  (waiting r' = false → quiet (f_ctx f) r' ∧
     @finish _ (choice_hash (0, ∅)) (f_ctx f) r' a = fire_choice b (f, (0, ∅)) a) →
  ∃ fcs E', fcs.*1 = made f r r' ∧
    linked s (<[i := Running f r']> rs) (run_choices b fcs a) E'.
Proof.
  intros i Hl Hw Hap Hrs HE Hvw Hwait Hmade. unfold made. rewrite Hw.
  pose proof (others_refl f s a (lk_self _ _ _ _ Hl)) as Ho.
  destruct (waiting r') eqn:Hw'; cbn [andb negb].
  - exists [], (<[i := []]> E). split; [done|]. cbn.
    apply (linked_update s rs a E s a f r' [] [] []); try done; rewrite ?app_nil_r; try done.
    + fold i. by rewrite HE.
    + by apply st_waiting; [done|apply Hwait|..].
  - destruct (Hmade eq_refl) as [Hq Hf].
    destruct (linked_settle s rs a E s a f r' (0, ∅)) as [es Hes]; try done.
    by exists [(f, (0, ∅))], (<[i := es]> E).
Qed.

(** A run begins. *)
Lemma linked_begin s rs a E f :
  linked s rs a E → map_Forall (λ _ r, ¬ same_lane f (rn_firing r)) rs →
  (self a = Some 0 →
   map_Forall (λ _ r, calm_with b f (rn_firing r) ∧ calm_with b (rn_firing r) f) rs) →
  let r := firing_code b f in
  ∃ fcs E', fcs.*1 = (if waiting r then [] else [f]) ∧
    linked s (<[cx_cpu (f_ctx f) := Running f r]> rs) (run_choices b fcs a) E'.
Proof.
  intros Hl Hlane Hcalm r. unfold same_lane in Hlane.
  assert (Hi : rs !! cx_cpu (f_ctx f) = None).
  { apply eq_None_not_Some. intros [r0 Hr0]. destruct (Hlane _ _ Hr0). left.
    by destruct (lk_runs _ _ _ _ Hl _ _ Hr0) as (? & _ & -> & _). }
  destruct (linked_look s rs a E f (Lookup (λ _, Halt)) r) as (fcs & E' & H1 & H2); try done.
  - intros j r0 Hr0 _. split; [|intros H0; by apply (Hcalm H0 j)]. intros Hk. destruct (Hlane _ _ Hr0). by right.
  - by intros r0 ?%(eq_trans (eq_sym Hi)).
  - by destruct (lk_idle _ _ _ _ Hl _ Hi) as [-> _].
  - unfold view_of. destruct (lk_idle _ _ _ _ Hl _ Hi) as [_ ->]. f_equal.
    apply (lk_entries _ _ _ _ Hl). intros j r0 Hr0 Hk. destruct (Hlane _ _ Hr0). by right.
  - intros _. by left.
  - intros Hw. split; [|apply code_runs_the_program].
    by apply (phased_quiet _ (self a)); [apply firing_phased|].
  - exists fcs, E'. split; [|done]. rewrite H1. unfold made; cbn. by destruct (waiting r).
Qed.

(** An update of [pending_args]: the whole run evicts what the map did. *)
Definition update_choice (k : Z) (p : pending) (s : st M) (a : st (gmap Z pending)) : choice :=
  let r := hash_update (st_pending s) k p in
  (fst r, filter (λ k', hash_lookup (snd r) k' = None) (dom (st_pending a))).

Lemma update_entry k p s a k' :
  let ch := update_choice k p s a in
  let m := snd (hash_update (st_pending s) k p) in
  let m' := snd (choose_update ch k p (st_pending a)) in
  (k' = k → entry s k = entry a k → hash_lookup m k' = m' !! k') ∧
  (k' ≠ k → (hash_lookup m k' = entry s k' ∧ m' !! k' = entry a k') ∨
            (hash_lookup m k' = None ∧ m' !! k' = None)).
Proof.
  intros ch m m'. assert (Hev : ∀ k0, k0 ∈ snd ch ↔ hash_lookup m k0 = None ∧ k0 ∈ dom (st_pending a)).
  { intros k0. unfold ch, update_choice. cbn [snd]. by rewrite elem_of_filter. }
  assert (Hm' : ∀ k0, ¬ (k0 = k ∧ fst ch = 0) →
    m' !! k0 = if decide (hash_lookup m k0 = None) then None else st_pending a !! k0).
  { intros k0 Hk0. unfold m'. rewrite choose_update_lookup, decide_False by done.
    destruct (decide (k0 ∈ snd ch)) as [Hin|Hin].
    - apply Hev in Hin as [-> _]. by rewrite decide_True.
    - case_decide as Hn; [|done]. apply not_elem_of_dom. intros Hd. apply Hin, Hev. auto. }
  split.
  - intros -> He. destruct (decide (fst ch = 0)) as [E|E].
    + unfold m'. rewrite choose_update_lookup, decide_True by done.
      by apply hash_update_hit.
    + rewrite Hm' by tauto. case_decide as Hn; [done|].
      destruct (hash_update_err (st_pending s) k p E) as [E'|E']; fold m in E'; [|done].
      rewrite E'. exact He.
  - intros Hk. rewrite Hm' by tauto. unfold m.
    destruct (hash_update_other (st_pending s) k k' p Hk) as [E'|E']; rewrite E'.
    + case_decide as Hn; [|auto]. right. done.
    + right. by rewrite decide_True.
Qed.

(** A quiet access: whole runs have made it already. *)
Lemma linked_quiet s rs a E f r es :
  let i := cx_cpu (f_ctx f) in let x := access (f_ctx f) r s in
  linked s rs a E → quiet (f_ctx f) r → E !! i = Some es → apart f rs a →
  (∀ r0, rs !! i = Some r0 → rn_firing r0 = f) →
  finish_local (f_ctx f) r (view_of (f_ctx f) s) = (view_of (f_ctx f) a, es) →
  ∃ E', linked (snd x) (<[i := Running f (fst x)]> rs) a E'.
Proof.
  intros i x Hl Hq HE Hap Hrs Hloc.
  destruct (quiet_access (f_ctx f) r s Hq) as (Hq' & Hf & new & Hnew & E1). fold x in Hq', Hf, Hnew, E1.
  rewrite Hloc in E1. pose proof (f_equal fst E1) as Hvw. pose proof (f_equal snd E1) as Hes.
  cbn [fst snd] in Hvw, Hes.
  exists (<[i := snd (finish_local (f_ctx f) (fst x) (view_of (f_ctx f) (snd x)))]> E).
  apply (linked_update s rs a E (snd x) a f (fst x) _ new []); try done.
  - apply others_framed; [apply Hl|done..].
  - by rewrite app_nil_r.
  - fold i. rewrite HE; cbn. by rewrite Hes.
  - apply st_made; [by eapply quiet_not_waiting|done|].
    rewrite Hvw. apply surjective_pairing.
Qed.

(** The update of a stash. *)
Lemma linked_stash s rs a E f p k :
  let i := cx_cpu (f_ctx f) in let x := access (f_ctx f) (Update p k) s in
  linked s rs a E → (∀ z, quiet (f_ctx f) (k z)) → default [] (E !! i) = [] → apart f rs a →
  (∀ r0, rs !! i = Some r0 → rn_firing r0 = f) →
  view_of (f_ctx f) s = view_of (f_ctx f) a → expected b f (self a) (Update p k) →
  ∃ ch E', linked (snd x) (<[i := Running f (fst x)]> rs) (fire_choice b (f, ch) a) E'.
Proof.
  intros i x Hl Hq HE Hap Hrs Hvw Hx. set (ch := update_choice (f_key f) p s a).
  pose proof (λ k', update_entry (f_key f) p s a k') as Hup. cbv zeta in Hup. fold ch in Hup.
  exists ch. set (a1 := up_pending (snd (choose_update ch (f_key f) p (st_pending a))) a).
  assert (Ho : others f s (snd x) a a1).
  { split; [apply Hl|by left|done|]. intros k' Hk'. by apply Hup. }
  assert (Hv1 : view_of (f_ctx f) (snd x) = view_of (f_ctx f) a1).
  { unfold view_of in *. injection Hvw as Hst Hd Hs He. unfold rows_of; cbn.
    rewrite Hst, Hd, Hs. f_equal. by apply Hup. }
  destruct (linked_settle s rs a E (snd x) a1 f (fst x) ch) as [es Hes]; try done.
  - apply Hq.
  - by rewrite <- (expected_fire b f (self a) (Update p k)).
  - by exists (<[i := es]> E).
Qed.

(** Only a registration stores in the self map, its process. *)
Lemma expected_write f v w k : expected b f v (Self_write w k) →
  registers b f = true ∧ v = Some 0 ∧ w = u32 (cx_tgid (f_ctx f)) ∧ k = Halt.
Proof.
  assert (Hne : ∀ w k, firing_code b f ≠ Self_write w k).
  { intros w' k'. unfold firing_code. destruct (f_probe f); try done.
    - unfold raw_sys_enter_code, enter_prctl_code, enter_code. by repeat case_match.
    - unfold handle_exit_code. by case_match. }
  intros [E|(k0 & E & Hk0)]; [by destruct (Hne w k)|]. symmetry in Hk0.
  destruct (registers b f) eqn:Hg.
  - unfold registers in Hg. unfold firing_code in E. destruct (f_probe f) as [regs id| | |]; try done.
    apply andb_true_iff in Hg as [Hid Ha]. unfold raw_sys_enter_code in E. rewrite Hid in E.
    destruct (existsb _ _); [|done]. unfold enter_prctl_code in E. rewrite Ha in E.
    cbn [negb] in E. injection E as <-. destruct v as [t|]; [|done].
    destruct (Z.eqb_spec t 0) as [->|]; [|done]. by simplify_eq.
  - exfalso. pose proof (firing_phased b f None) as Hp. rewrite E in Hp. cbn [phased] in Hp.
    destruct (asks_for_self b f k0 E Hg) as [r Hr]. rewrite Hr in Hp, Hk0.
    destruct (match v with Some _ => _ | None => _ end); [done|].
    rewrite Hk0 in Hp. by destruct Hp.
Qed.

Lemma linked_write s rs a E f w k :
  let i := cx_cpu (f_ctx f) in let x := access (f_ctx f) (Self_write w k) s in
  linked s rs a E → apart f rs a → (∀ r0, rs !! i = Some r0 → rn_firing r0 = f) →
  default [] (E !! i) = [] → view_of (f_ctx f) s = view_of (f_ctx f) a →
  expected b f (self a) (Self_write w k) →
  ∃ es, linked (snd x) (<[i := Running f (fst x)]> rs) (fire_choice b (f, (0, ∅)) a) (<[i := es]> E).
Proof.
  intros i x Hl Hap Hrs HE Hvw Hx. destruct (expected_write _ _ _ _ Hx) as (Hg & H0 & Hw & ->).
  apply (linked_settle s rs a E (snd x) (up_self (array_store (st_self a) 0 w) a)); try done.
  - split; [by cbn; rewrite (lk_self _ _ _ _ Hl)| |done|by left].
    right. split_and!; [done|done|]. cbn [up_self st_self].
    rewrite array_lookup_store by (done || by eexists). by rewrite decide_True, Hw.
  - by rewrite <- (expected_fire b f (self a) (Self_write w Halt)).
Qed.

(** The next access of a run. *)
Lemma linked_go s rs a E i f r :
  linked s rs a E → rs !! i = Some (Running f r) → r ≠ Halt →
  let x := access (f_ctx f) r s in
  ∃ fcs E', fcs.*1 = made f r (fst x) ∧
    linked (snd x) (<[i := Running f (fst x)]> rs) (run_choices b fcs a) E'.
Proof.
  intros Hl Hi Hne x. destruct (lk_runs _ _ _ _ Hl _ _ Hi) as (es & HE & Hc & Hst).
  cbn [rn_firing rn_code] in *. subst i.
  assert (Hap : apart f rs a).
  { intros j r0 Hr0 Hj. split.
    - intros Hk. apply Hj. by apply (lk_keys _ _ _ _ Hl j _ r0 _ Hr0 Hi).
    - intros H0. split.
      + by apply (lk_calm _ _ _ _ Hl H0 _ j _ r0 Hi Hr0 (not_eq_sym Hj)).
      + by apply (lk_calm _ _ _ _ Hl H0 j _ r0 _ Hr0 Hi Hj). }
  assert (Hrs : ∀ r0, rs !! cx_cpu (f_ctx f) = Some r0 → rn_firing r0 = f).
  { intros r0. rewrite Hi. by intros [= <-]. }
  destruct Hst as [Hw Hx Hvw ->|Hw Hq Hloc]; last first.
  { destruct (linked_quiet s rs a E f r es) as [E' HE']; try done.
    exists [], E'. unfold made. by rewrite Hw. }
  assert (HE0 : default [] (E !! cx_cpu (f_ctx f)) = []) by by rewrite HE.
  pose proof (expected_phased b f _ r Hx) as Hp.
  pose proof (λ ch, expected_fire b f _ r ch a Hx eq_refl) as Hf.
  destruct r as [|k|w k|k|p k| | | | |]; try done; subst x; cbn [access fst snd].
  - rewrite (lk_self _ _ _ _ Hl). apply (linked_look s rs a E f (Self_read k)); try done.
    + intros _. by apply expected_look.
    + intros Hw'. apply expected_look, expected_phased in Hx.
      split; [by eapply phased_quiet|apply Hf].
  - destruct (linked_write s rs a E f w k Hl Hap Hrs HE0 Hvw Hx) as [es HE'].
    exists [(f, (0, ∅))], (<[cx_cpu (f_ctx f) := es]> E). split; [|done].
    destruct (expected_write _ _ _ _ Hx) as (_ & _ & _ & ->). done.
  - assert (Hen : hash_lookup (st_pending s) (cx_pid_tgid (f_ctx f))
                  = st_pending a !! cx_pid_tgid (f_ctx f)).
    { unfold view_of in Hvw. by injection Hvw. }
    rewrite Hen. apply (linked_look s rs a E f (Lookup k)); try done.
    + intros Hw'. by rewrite (quiet_not_waiting _ _ (Hp _)) in Hw'.
    + intros _. split; [apply Hp|apply Hf].
  - destruct (linked_stash s rs a E f p k) as (ch & E' & HE'); try done.
    exists [(f, ch)], E'. split; [|done]. unfold made; cbn.
    by rewrite (quiet_not_waiting _ _ (Hp _)).
Qed.
End linked.

(** ** The order of the whole runs *)

#[export] Instance in_lanes_equiv : Equivalence in_lanes.
Proof.
  split.
  - by intros l P ? _.
  - intros l l' H P ? HP. symmetry. by apply H.
  - intros l1 l2 l3 H1 H2 P ? HP. etrans; [by apply H1|by apply H2].
Qed.

#[export] Instance in_lanes_app : Proper (in_lanes ==> in_lanes ==> in_lanes) (++).
Proof. intros l1 l1' H1 l2 l2' H2 P ? HP. by rewrite !filter_app, H1, H2. Qed.

(** A run may go before runs of other CPUs and threads. *)
Lemma in_lanes_swap f w : (∀ g, g ∈ w → ¬ same_lane f g) → in_lanes (w ++ [f]) (f :: w).
Proof.
  intros Hw P ? HP. rewrite filter_app, !filter_cons. cbn. destruct (decide (P f)) as [Hf|Hf].
  - assert (filter P w = []) as ->; [|done].
    apply elem_of_nil_inv. intros g [HPg Hg]%list_elem_of_filter. apply (Hw g Hg). by apply HP.
  - by rewrite app_nil_r.
Qed.

#[local] Instance same_lane_sym : Symmetric same_lane.
Proof. intros f g. unfold same_lane. intros [?|?]; auto. Qed.

(** The same lanes have the same runs. *)
Lemma in_lanes_perm l l' : in_lanes l l' → l ≡ₚ l'.
Proof.
  intros H. set (on i := λ f, cx_cpu (f_ctx f) = i).
  assert (Hd : ∀ i f, Decision (on i f)) by (intros; unfold on; apply _).
  assert (Hf : ∀ i, filter (on i) l = filter (on i) l').
  { intros i. apply H. intros f g Hi Hg. left. by rewrite Hi, Hg. }
  clear H. revert l' Hf. induction l as [|f l IH]; intros l' Hf.
  - destruct l' as [|g l']; [done|]. specialize (Hf (cx_cpu (f_ctx g))).
    by rewrite (filter_cons_True (on _) g) in Hf.
  - set (i := cx_cpu (f_ctx f)) in *.
    assert (Hi : filter (on i) (f :: l) = f :: filter (on i) l) by by apply filter_cons_True.
    destruct (head_filter_Some (on i) l' f) as (l1 & l2 & -> & Hl1).
    { by rewrite <- Hf, Hi. }
    rewrite <- Permutation_middle. f_equiv. apply IH. intros j. specialize (Hf j).
    rewrite filter_app in *. destruct (decide (j = i)) as [->|Hj].
    + rewrite Hi in Hf. assert (filter (on i) l1 = []) as E.
      { apply elem_of_nil_inv. intros g [HPg Hg]%list_elem_of_filter.
        rewrite Forall_forall in Hl1. by apply (Hl1 g). }
      rewrite E, (filter_cons_True (on i) f) in Hf by done. rewrite E. by simplify_eq/=.
    + rewrite !(filter_cons_False (on j) f) in Hf by (intros E; by apply Hj). done.
Qed.

Section booked.
Context {KL : KernelLayout}.

(** [w]: the runs of [l], with their CPUs, that whole runs ([m]) have still
    to come. *)
Record booked (rs : gmap nat running) (l m : list firing) (w : list (nat * firing)) : Prop := {
  bk_lanes : in_lanes l (m ++ w.*2);
  bk_nodup : NoDup w.*1;
  bk_waiting : ∀ i f, (i, f) ∈ w ↔ ∃ r, rs !! i = Some (Running f r) ∧ waiting r = true;
  bk_apart : ∀ i j r r', rs !! i = Some r → rs !! j = Some r' → i ≠ j →
             ¬ same_lane (rn_firing r) (rn_firing r');
}.

Lemma booked_cpus rs l m w i : booked rs l m w → rs !! i = None → i ∉ w.*1.
Proof.
  intros Hb Hi [[j f] [-> Hf]]%list_elem_of_fmap.
  apply (bk_waiting _ _ _ _ Hb) in Hf as (r & Hr & _). cbn in Hi; by rewrite Hi in Hr.
Qed.

Lemma booked_begin rs l m w f r :
  let i := cx_cpu (f_ctx f) in
  booked rs l m w → rs !! i = None → map_Forall (λ _ r, ¬ same_lane f (rn_firing r)) rs →
  ∃ w', booked (<[i := Running f r]> rs) (l ++ [f]) (m ++ if waiting r then [] else [f]) w'.
Proof.
  intros i Hb Hi Hf. pose proof (booked_cpus _ _ _ _ _ Hb Hi) as Hni. destruct Hb as [Hl Hn Hw Ha].
  assert (Ha' : ∀ j k r0 r0', <[i := Running f r]> rs !! j = Some r0 →
    <[i := Running f r]> rs !! k = Some r0' → j ≠ k → ¬ same_lane (rn_firing r0) (rn_firing r0')).
  { intros j k r0 r0'. rewrite !lookup_insert.
    destruct (decide (i = j)) as [<-|], (decide (i = k)) as [<-|]; try done; [| |by apply Ha].
    - intros [= <-] H _. by apply (Hf k).
    - intros H [= <-] _ Hs%symmetry. by apply (Hf j _ H). }
  assert (Hold : ∀ j g, j ≠ i → (j, g) ∈ w ↔
    ∃ r0, <[i := Running f r]> rs !! j = Some (Running g r0) ∧ waiting r0 = true).
  { intros j g Hj. rewrite Hw. by rewrite lookup_insert_ne. }
  destruct (waiting r) eqn:Er.
  - exists (w ++ [(i, f)]). split; [| |intros j g|done].
    + by rewrite app_nil_r, fmap_app, Hl, (assoc_L (++)).
    + rewrite fmap_app. apply NoDup_app. split_and!; [done| |apply NoDup_singleton].
      intros j Hj ->%list_elem_of_singleton. done.
    + rewrite elem_of_app, list_elem_of_singleton. destruct (decide (j = i)) as [->|Hj].
      * rewrite lookup_insert_eq. split; [|intros (? & [= <- _] & _); by right].
        intros [Hin|[= ->]]; [|by exists r].
        destruct Hni. apply list_elem_of_fmap. by exists (i, g).
      * rewrite <- Hold by done. split; [intros [?|[= ??]]; done|by left].
  - exists w. split; [|done|intros j g|done].
    + rewrite Hl, <- !(assoc_L (++)). rewrite (in_lanes_swap f w.*2); [done|].
      intros g [[j g'] [-> (r0 & Hr0 & _)%Hw]]%list_elem_of_fmap. by apply (Hf _ _ Hr0).
    + destruct (decide (j = i)) as [->|Hj]; [|by apply Hold]. rewrite lookup_insert_eq. split.
      * intros Hin. destruct Hni. apply list_elem_of_fmap. by exists (i, g).
      * intros (r0 & [= _ <-] & ?). congruence.
Qed.

Lemma apart_go (rs : gmap nat running) i f r r' :
  (∀ i j r r', rs !! i = Some r → rs !! j = Some r' → i ≠ j →
     ¬ same_lane (rn_firing r) (rn_firing r')) →
  rs !! i = Some (Running f r) →
  ∀ j k r1 r2, <[i := Running f r']> rs !! j = Some r1 → <[i := Running f r']> rs !! k = Some r2 →
    j ≠ k → ¬ same_lane (rn_firing r1) (rn_firing r2).
Proof.
  intros Ha Hi j k r1 r2. rewrite !lookup_insert.
  destruct (decide (i = j)) as [<-|], (decide (i = k)) as [<-|]; try done; [| |by apply Ha].
  - intros [= <-] H Hne. by apply (Ha _ _ _ _ Hi H).
  - intros H [= <-] Hne. by apply (Ha _ _ _ _ H Hi).
Qed.

Lemma booked_go rs l m w i f r r' :
  booked rs l m w → rs !! i = Some (Running f r) → (waiting r = false → waiting r' = false) →
  ∃ w', booked (<[i := Running f r']> rs) l (m ++ made f r r') w'.
Proof.
  intros [Hl Hn Hw Ha] Hi Hq. pose proof (apart_go rs i f r r' Ha Hi) as Ha'. unfold made.
  assert (Hold : ∀ j g, j ≠ i → (j, g) ∈ w ↔
    ∃ r0, <[i := Running f r']> rs !! j = Some (Running g r0) ∧ waiting r0 = true).
  { intros j g Hj. rewrite Hw. by rewrite lookup_insert_ne. }
  destruct (waiting r) eqn:Er, (waiting r') eqn:Er'; cbn [andb negb]; rewrite ?app_nil_r;
    [| |by discriminate Hq|].
  - exists w. split; [done|done| |done]. intros j g.
    destruct (decide (j = i)) as [->|Hj]; [|by apply Hold].
    rewrite Hw, lookup_insert_eq, Hi. split; intros (r0 & [= <- <-] & _); eauto.
  - assert (Hfw : (i, f) ∈ w) by (apply Hw; eauto).
    apply list_elem_of_split in Hfw as (w1 & w2 & ->).
    rewrite fmap_app, fmap_cons in Hn. apply NoDup_app in Hn as (Hn1 & Hd & [Hf2 Hn2]%NoDup_cons).
    assert (Hf1 : i ∉ w1.*1) by (intros H; by destruct (Hd i H); left).
    exists (w1 ++ w2). split; [| | |done].
    + rewrite Hl, !fmap_app, fmap_cons, cons_middle, (assoc_L (++) w1.*2), (in_lanes_swap f w1.*2).
      { by rewrite <- !(assoc_L (++)). }
      intros g [[j g'] [-> Hg]]%list_elem_of_fmap. assert (i ≠ j).
      { intros <-. apply Hf1, list_elem_of_fmap. by exists (i, g'). }
      assert ((j, g') ∈ w1 ++ (i, f) :: w2) as (r0 & H0 & _)%Hw by (apply elem_of_app; auto).
      by apply (Ha i j _ _ Hi H0).
    + rewrite fmap_app. apply NoDup_app. split_and!; [done| |done].
      intros g Hg Hg2. apply (Hd g Hg). by right.
    + intros j g. destruct (decide (j = i)) as [->|Hj].
      * split.
        -- intros Hin%(list_elem_of_fmap_2 fst). rewrite fmap_app in Hin.
           apply elem_of_app in Hin as [?|?]; done.
        -- rewrite lookup_insert_eq. intros (r0 & [= _ <-] & ?). congruence.
      * rewrite <- Hold by done. rewrite !elem_of_app, elem_of_cons. naive_solver.
  - exists w. split; [done|done| |done]. intros j g.
    destruct (decide (j = i)) as [->|Hj]; [|by apply Hold].
    rewrite Hw, lookup_insert_eq, Hi. split; intros (r0 & [= <- <-] & ?); congruence.
Qed.

Lemma booked_return rs l m w i f :
  booked rs l m w → rs !! i = Some (Running f Halt) → booked (delete i rs) l m w.
Proof.
  intros [Hl Hn Hw Ha] Hi. split; [done|done| |].
  - intros j g. rewrite Hw. destruct (decide (j = i)) as [->|Hj]; [|by rewrite lookup_delete_ne].
    rewrite lookup_delete_eq, Hi. split; [by intros (r0 & [= <- <-] & ?)|by intros (? & ? & _)].
  - intros j k r1 r2 [_ H1]%lookup_delete_Some [_ H2]%lookup_delete_Some. eauto.
Qed.
End booked.

(** ** Executions *)

Section execution.
Context {KL : KernelLayout} {M : Type} `{HM : !LruHash M Z pending} `{!LruHashLaws M Z pending}.
Context (b : build) (a0 : st (gmap Z pending)).

(** After the runs [l] have begun, whole runs have come as far as [cf]. *)
Definition simulated (l : list firing) (cf : conf M) : Prop :=
  ∃ fcs w E, linked b (cf_maps cf) (cf_running cf) (run_choices b fcs a0) E ∧
             booked (cf_running cf) l fcs.*1 w.

Lemma run_choices_app fcs fcs' a : run_choices b (fcs ++ fcs') a = run_choices b fcs' (run_choices b fcs a).
Proof. apply foldl_app. Qed.

Lemma simulated_begin l f cf cf' :
  simulated l cf →
  (array_lookup (st_self (cf_maps cf)) 0 = Some 0 →
   map_Forall (λ _ r, calm_with b f (rn_firing r) ∧ calm_with b (rn_firing r) f) (cf_running cf)) →
  begin_run b f cf = Some cf' → simulated (l ++ [f]) cf'.
Proof.
  destruct cf as [s rs]. intros (fcs & w & E & Hl & Hb) Hcalm.
  unfold begin_run; cbn [cf_maps cf_running] in *. case_decide as Hf; [|done]. intros [= <-].
  rewrite (lk_self _ _ _ _ _ Hl) in Hcalm.
  destruct (linked_begin b s rs _ E f Hl Hf Hcalm) as (fcs' & E' & Hm & Hl').
  destruct (booked_begin rs l fcs.*1 w f (firing_code b f) Hb) as [w' Hb']; [|done|].
  { apply eq_None_not_Some. intros [r Hr]. destruct (Hf _ _ Hr). left.
    by destruct (lk_runs _ _ _ _ _ Hl _ _ Hr) as (? & _ & -> & _). }
  exists (fcs ++ fcs'), w', E'. rewrite run_choices_app, fmap_app, Hm. done.
Qed.

Lemma simulated_go l i cf cf' : simulated l cf → go_on i cf = Some cf' → simulated l cf'.
Proof.
  destruct cf as [s rs]. intros (fcs & w & E & Hl & Hb). unfold go_on; cbn [cf_maps cf_running].
  destruct (rs !! i) as [[f r]|] eqn:Hi; [|done]. intros Hcf.
  assert (r = Halt ∨ r ≠ Halt) as [->|Hr] by (destruct r; [by left|by right..]).
  { simplify_eq. exists fcs, w, (delete i E). split; [by eapply linked_return|].
    by eapply booked_return. }
  assert (cf' = Conf (snd (access (f_ctx f) r s))
                  (<[i := Running f (fst (access (f_ctx f) r s))]> rs)) as ->.
  { destruct r; simplify_eq; done. }
  destruct (linked_go b s rs _ E i f r Hl Hi Hr) as (fcs' & E' & Hm & Hl').
  destruct (booked_go rs l fcs.*1 w i f r (fst (access (f_ctx f) r s)) Hb Hi) as [w' Hb'].
  { intros Hw. destruct (lk_runs _ _ _ _ _ Hl _ _ Hi) as (es & _ & _ & [Hw'|_ Hq _]);
      cbn [rn_firing rn_code] in *; [congruence|].
    by eapply quiet_not_waiting, quiet_access. }
  exists (fcs ++ fcs'), w', E'. by rewrite run_choices_app, fmap_app, Hm.
Qed.

Lemma simulated_moves ms : ∀ l cf cf',
  simulated l cf → calm b ms cf → run_moves b ms cf = Some cf' → simulated (l ++ begun ms) cf'.
Proof.
  induction ms as [|m ms IH]; intros l cf cf' Hs; cbn [run_moves calm].
  - intros _ [= <-]. by rewrite app_nil_r.
  - destruct (do_move b m cf) as [cf1|] eqn:Em; [|by intros]. cbn. intros [Hf Hc] Hr.
    destruct m as [f|i].
    + pose proof (IH _ _ _ (simulated_begin _ _ _ _ Hs Hf Em) Hc Hr) as H.
      by rewrite <- (assoc_L (++)) in H.
    + apply (IH _ _ _ (simulated_go _ _ _ _ Hs Em) Hc Hr).
Qed.

Lemma simulated_start s : same_maps s a0 → simulated [] (Conf s ∅).
Proof.
  intros [E1 E2 E3 E4 E5 E6]. exists [], [], ∅. split; [|split; try done].
  - split; cbn [cf_maps cf_running run_choices foldl]; try done.
    + unfold tot. by rewrite map_to_list_empty, E2, app_nil_r.
    + intros i _. split; [done|]. unfold rows_of. by rewrite E3, E4, E5.
    + intros k _. apply E6.
  - apply NoDup_nil_2.
  - intros i f. split; [by intros ?%elem_of_nil|]. by intros (r & ? & _).
Qed.

Lemma simulated_end l s : simulated l (Conf s ∅) →
  ∃ fcs, in_lanes l fcs.*1 ∧ same_maps s (run_choices b fcs a0).
Proof.
  intros (fcs & w & E & [H1 H3 H4 H5 H6 H6' H7] & [B1 B2 B3 B4]). exists fcs.
  cbn [cf_maps cf_running] in *.
  assert (w = []) as ->.
  { apply elem_of_nil_inv. intros [i f] (r & ? & _)%B3. done. }
  assert (E = ∅) as ->.
  { apply map_empty. intros i. by apply H5. }
  assert (Hrows : ∀ i, rows_of i s = rows_of i (run_choices b fcs a0)) by (intros i; by apply H5).
  split; [by rewrite app_nil_r in B1|]. split.
  - done.
  - rewrite H3. unfold tot. by rewrite map_to_list_empty, app_nil_r.
  - apply list_eq. intros i. specialize (Hrows i). unfold rows_of in Hrows. congruence.
  - apply list_eq. intros i. specialize (Hrows i). unfold rows_of in Hrows. congruence.
  - apply list_eq. intros i. specialize (Hrows i). unfold rows_of in Hrows. congruence.
  - intros k. by apply H7.
Qed.
End execution.

(** Runs that overlap are sequential ones; with [in_lanes_perm], the same
    runs. *)
Lemma overlap_sequence {KL : KernelLayout} {M : Type} `{HM : !LruHash M Z pending}
    `{!LruHashLaws M Z pending} b ms (s0 s : st M) (a0 : st (gmap Z pending)) :
  same_maps s0 a0 → calm b ms (Conf s0 ∅) → run_moves b ms (Conf s0 ∅) = Some (Conf s ∅) →
  ∃ order plan, in_lanes (begun ms) order ∧
    same_maps s (run_trace b order (with_plan a0 plan)).
Proof.
  intros Hs0 Hc Hr.
  pose proof (simulated_moves b a0 ms [] _ _ (simulated_start b a0 s0 Hs0) Hc Hr) as H.
  apply simulated_end in H as (fcs & Hl & [E1 E2 E3 E4 E5 E6]).
  destruct (run_choices_planned b fcs a0) as [plan Hplan].
  exists fcs.*1, plan. split; [done|]. rewrite Hplan. by split.
Qed.
