(* ===== verification/SensorOverlap.v ===== *)
(** * What holds of overlapping runs of the sensor

    [SensorLinear] gives every execution of [SensorRace] an equivalent
    sequence of whole runs, so what [SensorProps] shows of sequences holds on
    a host of several CPUs.  Only the agent's registration must not overlap
    another one, nor a run of its own process: two registrations that overlap
    have no such sequence. *)
From Stdlib Require Import ZArith Lia Ascii String.
From stdpp Require Import base tactics list gmap.
From S2P Require Import Prelude.
From S2P Require Import Kernel.
From S2P Require Import CoreRead.
From S2P Require Import Tracing.
From S2P Require Import PathWalk.
From S2P Require Import Scenario.
From S2P Require Import Linsensor.
From S2P Require Import SensorFacts.
From S2P Require Import SensorTrace.
From S2P Require Import SensorProps.
From S2P Require Import SensorRace.
From S2P Require Import SensorLinear.
Local Open Scope Z_scope.

Section drain.
Context {KL : KernelLayout} {M : Type} `{HM : !LruHash M Z pending} (b : build).

Lemma run_moves_app ms ms' (cf : conf M) :
  run_moves b (ms ++ ms') cf = run_moves b ms cf ≫= run_moves b ms'.
Proof.
  revert cf; induction ms as [|m ms IH]; intros cf; cbn [app run_moves]; [done|].
  destruct (do_move b m cf) as [cf'|]; cbn; [apply IH|done].
Qed.

Lemma access_events c r (s : st M) : st_events s `prefix_of` st_events (snd (access c r s)).
Proof. destruct r; cbn; try done. by eexists. Qed.

(** The run on CPU [i] has finitely many accesses left, and waits for no
    other run. *)
Lemma run_returns i f r (s : st M) rs : rs !! i = Some (Running f r) →
  ∃ n s', run_moves b (replicate n (Go i)) (Conf s rs) = Some (Conf s' (delete i rs)) ∧
          st_events s `prefix_of` st_events s'.
Proof.
  assert (Hstep : ∀ r s rs, r ≠ Halt → rs !! i = Some (Running f r) →
    let x := access (f_ctx f) r s in
    (∃ n s', run_moves b (replicate n (Go i)) (Conf (snd x) (<[i := Running f (fst x)]> rs))
             = Some (Conf s' (delete i (<[i := Running f (fst x)]> rs))) ∧
             st_events (snd x) `prefix_of` st_events s') →
    ∃ n s', run_moves b (replicate n (Go i)) (Conf s rs) = Some (Conf s' (delete i rs)) ∧
            st_events s `prefix_of` st_events s').
  { intros r0 s0 rs0 Hr Hi x (n & s' & Hn & Hp). exists (S n), s'. split.
    - rewrite delete_insert_eq in Hn. rewrite <- Hn. cbn [replicate run_moves do_move].
      unfold go_on. cbn [cf_running]. rewrite Hi. by destruct r0.
    - etrans; [apply access_events|exact Hp]. }
  cbv zeta in Hstep. revert s rs.
  induction r as [|k IH|v k IH|k IH|p k IH|k IH|j k IH|k IH|m k IH|ev k IH]; intros s rs Hi;
    try (eapply (Hstep _ s rs); [|exact Hi|]; [done|]; cbn [access fst snd];
         eapply IH, lookup_insert_eq).
  exists 1%nat, s. split; [|done]. cbn. unfold go_on. cbn. by rewrite Hi.
Qed.

Lemma drain (cf : conf M) :
  ∃ ms s', Forall (λ m, ∃ i, m = Go i) ms ∧ run_moves b ms cf = Some (Conf s' ∅) ∧
           st_events (cf_maps cf) `prefix_of` st_events s'.
Proof.
  destruct cf as [s rs]. cbn [cf_maps]. remember (size rs) as n eqn:En.
  revert s rs En. induction n as [|n IH]; intros s rs En.
  { exists [], s. split_and!; [done| |done]. cbn.
    symmetry in En. apply map_size_empty_inv in En. by subst. }
  destruct (decide (rs = ∅)) as [->|Hne]; [by rewrite map_size_empty in En|].
  apply map_choose in Hne as (i & [f r] & Hi).
  destruct (run_returns i f r s rs Hi) as (k & s1 & H1 & Hp1).
  destruct (IH s1 (delete i rs)) as (ms & s' & Hms & H2 & Hp2).
  { rewrite map_size_delete, Hi. lia. }
  exists (replicate k (Go i) ++ ms), s'. split_and!.
  - apply Forall_app. split; [|done]. apply Forall_replicate. by exists i.
  - rewrite run_moves_app, H1. exact H2.
  - by etrans.
Qed.

Lemma begun_go ms : Forall (λ m, ∃ i, m = Go i) ms → begun ms = [].
Proof. by induction 1 as [|? ms [i ->] _ IH]. Qed.

Lemma calm_go ms (cf : conf M) : Forall (λ m, ∃ i, m = Go i) ms → calm b ms cf.
Proof.
  intros H. revert cf. induction H as [|? ms [i ->] _ IH]; intros cf; [done|].
  split; [done|]. destruct (do_move b (Go i) cf); [apply IH|done].
Qed.

Lemma calm_app ms ms' (cf cf' : conf M) :
  calm b ms cf → run_moves b ms cf = Some cf' → calm b ms' cf' → calm b (ms ++ ms') cf.
Proof.
  revert cf. induction ms as [|m ms IH]; intros cf; cbn [app calm run_moves].
  { by intros _ [= ->]. }
  intros [Hm Hc] Hr Hc'. split; [done|]. destruct (do_move b m cf) as [cf1|]; [|done]. eauto.
Qed.

Lemma begun_app ms ms' : begun (ms ++ ms') = begun ms ++ begun ms'.
Proof. unfold begun. induction ms as [|[f|i] ms IH]; cbn; [done|by f_equal|done]. Qed.
End drain.

(** ** Who is registered *)

(** [r] may store the values [P] in the self map, and only while it holds 0:
    [t] is what the map held before the run began. *)
Fixpoint writes (t : Z) (P : Z → Prop) (r : code) : Prop :=
  match r with
  | Halt => True
  | Self_read k => ∀ v, (t ≠ 0 → v = Some t) → writes t P (k v)
  | Self_write v k => t = 0 ∧ P v ∧ writes t P k
  | Lookup k => ∀ o, writes t P (k o)
  | Update _ k => ∀ z, writes t P (k z)
  | Fill _ k => ∀ e, writes t P (k e)
  | Delete k | Count _ k | Drop_count k | Submit _ k => writes t P k
  end.

Section registration.
Context {KL : KernelLayout} {M : Type} `{HM : !LruHash M Z pending} (b : build).

Lemma stash_writes t P p : writes t P (stash_code p).
Proof. intros z. by destruct (_ =? K_SETID). Qed.

Lemma self_writes t P c k : (∀ self, writes t P (k self)) → writes t P (skip_self_code c k).
Proof. intros Hk v _. apply Hk. Qed.

Lemma reserve_writes t P c slot kind k :
  (∀ e, writes t P (k e)) → writes t P (reserve_code c slot kind k).
Proof. intros Hk. unfold reserve_code. destruct slot; cbn; auto. Qed.

(** Only prctl(SELF_MAGIC) stores there, its caller's tgid. *)
Lemma prctl_writes t c a :
  writes t (λ v, v = u32 (cx_tgid c) ∧ sysarg a 0 = SELF_MAGIC) (enter_prctl_code c a).
Proof.
  unfold enter_prctl_code. destruct (Z.eqb_spec (sysarg a 0) SELF_MAGIC) as [Ha|]; [|done].
  intros v Hv. destruct v as [t'|]; [|done]. destruct (Z.eqb_spec t' 0) as [->|]; [|done].
  cbn. split_and!; try done. destruct (decide (t = 0)) as [|Ht]; [done|].
  specialize (Hv Ht). congruence.
Qed.

Lemma writes_mono t (P Q : Z → Prop) r : (∀ v, P v → Q v) → writes t P r → writes t Q r.
Proof. intros HPQ. induction r; cbn; naive_solver. Qed.

Lemma firing_writes f t :
  writes t (λ v, v = 0 ∨ magic_tgid b f = Some v) (firing_code b f).
Proof.
  unfold firing_code, magic_tgid. destruct (f_probe f) as [regs id|x ret|ctx dl|].
  - unfold raw_sys_enter_code. destruct (existsb _ _); [|done].
    destruct (Z.eqb_spec (s64 id) (NR_prctl b)) as [E|_]; cbn [andb].
    + eapply writes_mono; [|apply prctl_writes]. intros v [-> Ha]. rewrite Ha, Z.eqb_refl.
      cbv zeta. destruct (Z.eqb_spec (u32 (cx_tgid (f_ctx f))) 0); auto.
    + destruct (enter_pending _ _ _ _) as [p|]; [|done]. cbn [enter_code].
      destruct (self_filtered _); [|apply stash_writes].
      apply self_writes. intros [|]; [done|apply stash_writes].
  - intros [p|]; [|done]. cbn. destruct (_ && _); [|done].
    apply reserve_writes. by intros [e|].
  - apply self_writes. intros [|]; [done|]. apply reserve_writes. by intros [e|].
  - unfold handle_exit_code. destruct (negb _); [done|].
    apply self_writes. intros [|]; [done|]. apply reserve_writes. by intros [e|].
Qed.

Lemma access_writes c r t t' P (s : st M) :
  writes t P r → st_self s = [t'] → (t ≠ 0 → t' = t) →
  writes t P (fst (access c r s)) ∧
  ∃ t1, st_self (snd (access c r s)) = [t1] ∧ (t1 = t' ∨ t = 0 ∧ P t1).
Proof.
  intros Hw Hs Ht. destruct r; cbn in *; eauto.
  - split; [|by eauto]. apply Hw. rewrite Hs. intros Hn. by rewrite Ht.
  - destruct Hw as (-> & HP & Hw). split; [done|]. exists v. rewrite Hs. auto.
Qed.

(** [callers]: the processes that called with the magic number so far. *)
Definition registered (t : Z) (callers : list Z) (cf : conf M) : Prop :=
  (∃ t', st_self (cf_maps cf) = [t'] ∧ (t' = t ∨ t = 0 ∧ t' ∈ callers)) ∧
  ∀ i r, cf_running cf !! i = Some r → writes t (λ v, v = 0 ∨ v ∈ callers) (rn_code r).

Lemma registered_begin t l f cf cf' : registered t l cf → begin_run b f cf = Some cf' →
  registered t (l ++ option_list (magic_tgid b f)) cf'.
Proof.
  intros [(t' & Ht & Hin) Hr]. unfold begin_run. case_decide; [|done]. intros [= <-].
  split; cbn [cf_maps cf_running].
  - exists t'. split; [done|]. rewrite elem_of_app. tauto.
  - intros i r. rewrite lookup_insert. destruct (decide (_ = i)).
    + intros [= <-]. cbn [rn_code]. eapply writes_mono; [|apply firing_writes].
      intros v [->| ->]; [by left|right; apply elem_of_app; right]. cbn. by left.
    + intros Hi. eapply writes_mono; [|by eapply Hr]. intros v [->|?]; [by left|].
      right. apply elem_of_app. by left.
Qed.

Lemma registered_go t l i cf cf' :
  registered t l cf → go_on i cf = Some cf' → registered t l cf'.
Proof.
  destruct cf as [s rs]. intros [(t' & Ht & Hin) Hr]. unfold go_on; cbn [cf_maps cf_running] in *.
  destruct (rs !! i) as [[f r]|] eqn:Hi; [|done]. intros Hcf.
  destruct (access_writes (f_ctx f) r t t' _ s (Hr _ _ Hi) Ht) as [Hw (t1 & Ht1 & Hor)].
  { destruct Hin as [|[? _]]; tauto. }
  assert (Hnew : registered t l (Conf (snd (access (f_ctx f) r s))
                                   (<[i := Running f (fst (access (f_ctx f) r s))]> rs))).
  { split; cbn [cf_maps cf_running].
    - exists t1. split; [done|]. destruct Hor as [->|[? [->|?]]]; auto.
    - intros j r0. rewrite lookup_insert. destruct (decide (_ = j)); [|by apply Hr].
      by intros [= <-]. }
  destruct r; simplify_eq; try exact Hnew. split; cbn [cf_maps cf_running]; [by exists t'|].
  intros j r0 [_ ?]%lookup_delete_Some. by eapply Hr.
Qed.

Lemma registered_moves t ms : ∀ l cf cf', registered t l cf → run_moves b ms cf = Some cf' →
  registered t (l ++ omap (magic_tgid b) (begun ms)) cf'.
Proof.
  induction ms as [|m ms IH]; intros l cf cf' Hreg; cbn [run_moves].
  { intros [= <-]. by rewrite app_nil_r. }
  destruct (do_move b m cf) as [cf1|] eqn:Em; [|done]. cbn. intros Hr. destruct m as [f|i].
  - pose proof (IH _ _ _ (registered_begin _ _ _ _ _ Hreg Em) Hr) as H.
    change (begun (Begin f :: ms)) with (f :: begun ms). rewrite omap_cons.
    rewrite <- (assoc_L (++)) in H. by destruct (magic_tgid b f).
  - apply (IH _ _ _ (registered_go _ _ _ _ _ Hreg Em) Hr).
Qed.

(** A call with the magic number. *)
Lemma magic_code f t : magic_tgid b f = Some t →
  firing_code b f = Self_read (λ v,
    match v with
    | Some tgid => if tgid =? 0 then Self_write t Halt else Halt
    | None => Halt
    end).
Proof.
  unfold magic_tgid, firing_code. destruct (f_probe f) as [regs id| | |]; try done.
  destruct (Z.eqb_spec (s64 id) (NR_prctl b)) as [E|]; [|done].
  destruct (Z.eqb_spec (sysarg (read_sysargs (f_ctx f) b regs) 0) SELF_MAGIC) as [Ha|]; [|done].
  cbn [andb]. cbv zeta. destruct (_ =? 0); [done|]. intros [= <-].
  unfold raw_sys_enter_code. rewrite E, NR_prctl_entered, Z.eqb_refl.
  unfold enter_prctl_code. by rewrite Ha.
Qed.

Lemma begin_run_eq f (s : st M) rs : map_Forall (λ _ r, ¬ same_lane f (rn_firing r)) rs →
  begin_run b f (Conf s rs)
  = Some (Conf s (<[cx_cpu (f_ctx f) := Running f (firing_code b f)]> rs)).
Proof. intros H. unfold begin_run. by rewrite decide_True. Qed.

Lemma go_on_eq i f r (s : st M) rs : rs !! i = Some (Running f r) → r ≠ Halt →
  go_on i (Conf s rs)
  = Some (Conf (snd (access (f_ctx f) r s)) (<[i := Running f (fst (access (f_ctx f) r s))]> rs)).
Proof. intros Hi Hr. unfold go_on; cbn [cf_running cf_maps]. rewrite Hi. by destruct r. Qed.

Lemma go_on_halt i f (s : st M) rs : rs !! i = Some (Running f Halt) →
  go_on i (Conf s rs) = Some (Conf s (delete i rs)).
Proof. intros Hi. unfold go_on; cbn [cf_running cf_maps]. by rewrite Hi. Qed.

(** The two calls, access by access. *)
Definition both_read (f g : firing) : list move :=
  [Begin f; Begin g; Go (cx_cpu (f_ctx f)); Go (cx_cpu (f_ctx g))].
Definition one_stores (f : firing) : list move :=
  [Go (cx_cpu (f_ctx f)); Go (cx_cpu (f_ctx f))].

Lemma both_read_run f g tf tg (s : st M) : ¬ same_lane f g → st_self s = [0] →
  magic_tgid b f = Some tf → magic_tgid b g = Some tg →
  run_moves b (both_read f g) (Conf s ∅)
  = Some (Conf s (<[cx_cpu (f_ctx g) := Running g (Self_write tg Halt)]>
                   {[cx_cpu (f_ctx f) := Running f (Self_write tf Halt)]})).
Proof.
  intros Hn Hs Hf Hg. assert (Hc : cx_cpu (f_ctx f) ≠ cx_cpu (f_ctx g)).
  { intros E. apply Hn. by left. }
  unfold both_read. cbn [run_moves do_move]. rewrite begin_run_eq by by apply map_Forall_empty.
  cbn. rewrite begin_run_eq; cbn; last first.
  { rewrite insert_empty. apply map_Forall_singleton. cbn. intros [E|E]; apply Hn; [left|right]; done. }
  rewrite (magic_code f tf Hf), (magic_code g tg Hg).
  erewrite go_on_eq; [|by rewrite lookup_insert_ne by done; apply lookup_insert_eq|done].
  cbn [mbind option_bind access fst snd]. rewrite Hs.
  erewrite go_on_eq; [|by rewrite lookup_insert_ne by done; apply lookup_insert_eq|done].
  cbn [mbind option_bind access fst snd]. rewrite Hs. cbn. do 2 f_equal.
  rewrite insert_empty, (insert_insert_ne _ (cx_cpu (f_ctx f))) by done.
  by rewrite insert_singleton_eq, insert_insert_eq.
Qed.

Lemma one_stores_run f t (s : st M) rs t0 : st_self s = [t0] →
  rs !! cx_cpu (f_ctx f) = Some (Running f (Self_write t Halt)) →
  run_moves b (one_stores f) (Conf s rs)
  = Some (Conf (up_self [t] s) (delete (cx_cpu (f_ctx f)) rs)).
Proof.
  intros Hs Hf. unfold one_stores. cbn [run_moves do_move].
  rewrite (go_on_eq _ _ _ _ _ Hf) by done. cbn [mbind option_bind access fst snd]. rewrite Hs.
  rewrite (go_on_halt _ f) by apply lookup_insert_eq. cbn. by rewrite delete_insert_eq.
Qed.
End registration.

(** ** Properties *)

(** The same runs, in an order that no CPU and no thread can tell from [l]. *)
Definition ordering (l order : list firing) : Prop := order ≡ₚ l ∧ in_lanes l order.

Lemma in_lanes_ordering l order : in_lanes l order → ordering l order.
Proof. intros H. split; [|done]. symmetry. by apply in_lanes_perm. Qed.

(** C3. Runs that overlap are sequential.  Whatever the CPUs do, interleaved
    access by access, when no run is under way: there is an order of the same
    runs, the same on every CPU and for every thread, and a choice of what the
    LRU map evicts, such that whole runs in this order leave the self map, the
    counters, the scratch and every thread's entry as they are, and submit the
    same records.  Only a registration must be [calm]. *)
Theorem overlap_is_sequential {KL : KernelLayout} {M : Type} `{HM : !LruHash M Z pending}
    `{!LruHashLaws M Z pending} b ms (s0 s : st M) (a0 : st (gmap Z pending)) :
  same_maps s0 a0 → calm b ms (Conf s0 ∅) → run_moves b ms (Conf s0 ∅) = Some (Conf s ∅) →
  ∃ order plan, ordering (begun ms) order ∧
    same_maps s (run_trace b order (with_plan a0 plan)).
Proof.
  intros Hs0 Hc Hr. destruct (overlap_sequence b ms s0 s a0 Hs0 Hc Hr) as (order & plan & Hl & Hs).
  exists order, plan. split; [by apply in_lanes_ordering|done].
Qed.

(** Process 500 opens "notes.txt" on CPU 0 while process 600 opens
    "/etc/shadow" on CPU 1 and the agent, process 900, registers on CPU 2; the
    two exits overlap. *)
Definition caller (cpu : nat) (tgid : Z) : firing :=
  Firing (demo_ctx cpu tgid tgid 0 SELF_MAGIC 0 0 0) None (P_sys_enter 0x9000 157).
Definition other_open : firing :=
  Firing (demo_ctx 1 600 600 1000 (u64 (-100)) 0x10000 0 0) None (P_sys_enter 0x9000 257).
Definition other_opened : firing :=
  Firing (demo_ctx 1 600 600 1000 0 0 0 0) (Some blank_event) (P_sys_exit X_openat 4).
Definition demo_moves : list move :=
  [Begin demo_open; Begin (caller 2 900); Go 0; Go 2; Begin other_open; Go 2; Go 1; Go 1; Go 0;
   Go 0; Go 2; Go 1; Go 0; Go 1; Begin demo_opened; Begin other_opened; Go 0; Go 1; Go 1; Go 0;
   Go 0; Go 1; Go 1; Go 0; Go 1; Go 0; Go 0; Go 1].
Definition three_cpus : st (gmap Z pending) := st_init ∅ 3.
Definition demo_end : st (gmap Z pending) :=
  match run_moves X86 demo_moves (Conf three_cpus ∅) with
  | Some cf => cf_maps cf
  | None => three_cpus
  end.

Lemma overlap_is_sequential_witness :
  st_self demo_end = [900] ∧ length (st_events demo_end) = 2%nat ∧
  ∃ order plan, ordering [demo_open; caller 2 900; other_open; demo_opened; other_opened] order ∧
    same_maps demo_end (run_trace X86 order (with_plan three_cpus plan)).
Proof.
  split; [vm_compute; reflexivity|]. split; [vm_compute; reflexivity|].
  apply (overlap_is_sequential X86 demo_moves three_cpus demo_end three_cpus).
  - by split.
  - apply (bool_decide_eq_true_1 (calm X86 demo_moves (Conf three_cpus ∅))). vm_compute. reflexivity.
  - vm_compute. reflexivity.
Defined.

(** C4. No record is made up by runs that overlap: at any moment of an
    execution on any number of CPUs, from the freshly loaded maps on, in which
    registrations are [calm], each record in the ring buffer is an exec or
    exit record of another process than the agent, or a syscall record
    completed by a sys_exit run, with a non-negative result, from the
    arguments which the same thread's last sys_enter before it stashed. *)
Theorem overlapping_records_have_their_syscall {KL : KernelLayout} {M : Type}
    `{HM : !LruHash M Z pending} `{!LruHashLaws M Z pending} b (empty : M) ncpu ms cf e :
  (∀ k, hash_lookup empty k = None) →
  calm b ms (Conf (st_init empty ncpu) ∅) →
  run_moves b ms (Conf (st_init empty ncpu) ∅) = Some cf →
  e ∈ st_events (cf_maps cf) →
  ∃ order plan, ordering (begun ms) order ∧
    let a0 := with_plan (st_init ∅ ncpu) plan in
    syscall_origin b a0 order e ∨ life_origin b a0 order e.
Proof.
  intros H0 Hc Hr He. destruct (drain b cf) as (ms' & s & Hgo & Hr' & Hp).
  destruct (overlap_sequence b (ms ++ ms') (st_init empty ncpu) s (st_init ∅ ncpu))
    as (order & plan & Hl & Hs).
  - by split.
  - eapply calm_app; [done|done|]. by apply calm_go.
  - by rewrite run_moves_app, Hr.
  - rewrite begun_app, (begun_go ms' Hgo), app_nil_r in Hl.
    exists order, plan. split; [by apply in_lanes_ordering|].
    apply record_origin; [done|done|]. rewrite <- (sm_events _ _ Hs).
    destruct Hp as [es ->]. apply elem_of_app. by left.
Qed.

(** After 26 of the moves both threads have submitted and neither has
    returned. *)
Definition demo_moves_26 : list move := list.take 26 demo_moves.

Lemma overlapping_records_have_their_syscall_witness :
  ∃ cf, run_moves X86 demo_moves_26 (Conf three_cpus ∅) = Some cf ∧
    length (st_events (cf_maps cf)) = 2%nat ∧
    ∃ order plan, ordering (begun demo_moves_26) order ∧
      let a0 := with_plan three_cpus plan in
      syscall_origin X86 a0 order (hd blank_event (st_events (cf_maps cf))) ∨
      life_origin X86 a0 order (hd blank_event (st_events (cf_maps cf))).
Proof.
  destruct (run_moves X86 demo_moves_26 (Conf three_cpus ∅)) as [cf|] eqn:E;
    [|exfalso; revert E; vm_compute; discriminate].
  assert (Hl : length (st_events (cf_maps cf)) = 2%nat).
  { replace cf with (default cf (run_moves X86 demo_moves_26 (Conf three_cpus ∅)))
      by (rewrite E; reflexivity). vm_compute. reflexivity. }
  exists cf. split; [reflexivity|]. split; [exact Hl|].
  apply (overlapping_records_have_their_syscall X86 (∅ : gmap Z pending) 3 _ cf).
  - intros k. apply lookup_empty.
  - apply (bool_decide_eq_true_1 (calm X86 demo_moves_26 (Conf three_cpus ∅))).
    vm_compute. reflexivity.
  - exact E.
  - destruct (st_events (cf_maps cf)) as [|e l]; [discriminate|]. cbn. left.
Defined.

(** C5. Who is registered when runs overlap: a registered agent stays
    registered, and else the self map holds 0 or a process that called with
    the magic number.  But enter_prctl looks and stores in two steps: of two
    callers that overlap, the second takes the place of the first, after that
    call has returned. *)
Theorem registration_under_overlap {KL : KernelLayout} {M : Type} `{HM : !LruHash M Z pending} b
    t (s : st M) :
  st_self s = [t] →
  (∀ ms cf, run_moves b ms (Conf s ∅) = Some cf →
     ∃ t', st_self (cf_maps cf) = [t'] ∧
           (t' = t ∨ t = 0 ∧ t' ∈ omap (magic_tgid b) (begun ms))) ∧
  (t = 0 → ∀ f g tf tg, ¬ same_lane f g → magic_tgid b f = Some tf → magic_tgid b g = Some tg →
     ∃ cf, run_moves b (both_read f g ++ one_stores f) (Conf s ∅) = Some cf ∧
       st_self (cf_maps cf) = [tf] ∧ cf_running cf !! cx_cpu (f_ctx f) = None ∧
       run_moves b (one_stores g) cf = Some (Conf (up_self [tg] s) ∅)).
Proof.
  intros Hs. split.
  - intros ms cf Hr. destruct (registered_moves b t ms [] (Conf s ∅) cf) as [H _]; [|done|done].
    split; cbn [cf_maps cf_running]; [eexists; by eauto|done].
  - intros -> f g tf tg Hn Hf Hg.
    assert (Hc : cx_cpu (f_ctx f) ≠ cx_cpu (f_ctx g)) by (intros E; apply Hn; by left).
    pose proof (both_read_run b f g tf tg s Hn Hs Hf Hg) as E1.
    eexists. split; [rewrite run_moves_app, E1; cbn [mbind option_bind]|split_and!].
    + apply one_stores_run with 0; [done|]. rewrite lookup_insert_ne by done. apply lookup_insert_eq.
    + done.
    + apply lookup_delete_eq.
    + rewrite delete_insert_ne, delete_singleton_eq by done.
      rewrite (one_stores_run b g tg _ _ tf) by (done || apply lookup_insert_eq).
      by rewrite delete_insert_eq, delete_empty.
Qed.

(** Process 900 calls on CPU 0, process 901 on CPU 1. *)
Lemma registration_under_overlap_witness :
  let s := st_init (∅ : gmap Z pending) 2 in
  (∀ ms cf, run_moves X86 ms (Conf s ∅) = Some cf →
     ∃ t', st_self (cf_maps cf) = [t'] ∧
           (t' = 0 ∨ 0 = 0 ∧ t' ∈ omap (magic_tgid X86) (begun ms))) ∧
  ∃ cf, run_moves X86 (both_read (caller 0 900) (caller 1 901) ++ one_stores (caller 0 900))
          (Conf s ∅) = Some cf ∧
    st_self (cf_maps cf) = [900] ∧ cf_running cf !! 0%nat = None ∧
    run_moves X86 (one_stores (caller 1 901)) cf = Some (Conf (up_self [901] s) ∅).
Proof.
  destruct (registration_under_overlap X86 0 (st_init (∅ : gmap Z pending) 2) eq_refl) as [H1 H2].
  split; [exact H1|].
  apply (H2 eq_refl (caller 0 900) (caller 1 901) 900 901).
  - intros [E|E]; revert E; vm_compute; discriminate.
  - vm_compute. reflexivity.
  - vm_compute. reflexivity.
Defined.
