(* ===== verification/SensorCount.v ===== *)
(** * What the sensor's counters count

    The stats and drops maps are per CPU and their cells wrap at 64 bits.
    The totals over the CPUs account, modulo 2^64, for every sys_exit run
    and for every record that did not fit. *)
From Stdlib Require Import ZArith Lia Ascii String.
From stdpp Require Import base tactics list gmap strings.
From S2P Require Import Prelude.
From S2P Require Import Kernel.
From S2P Require Import CoreRead.
From S2P Require Import Tracing.
From S2P Require Import PathWalk.
From S2P Require Import Scenario.
From S2P Require Import Linsensor.
From S2P Require Import SensorFacts.
From S2P Require Import SensorTrace.
Local Open Scope Z_scope.

(** ** Totals of a per-CPU map *)

(** The sum of cell [i] over the CPUs. *)
Fixpoint tot (m : list (list Z)) (i : Z) : Z :=
  match m with
  | [] => 0
  | l :: m => default 0 (array_lookup l i) + tot m i
  end.

(** [n] cells on each of [ncpu] CPUs. *)
Definition cells (m : list (list Z)) (ncpu n : nat) : Prop :=
  length m = ncpu ∧ Forall (λ l, length l = n) m.

Lemma u64_eq a b : u64 a = u64 b ↔ ∃ k, a = b + k * 2 ^ 64.
Proof.
  unfold u64, wrap. split.
  - intros H. exists (a / 2 ^ 64 - b / 2 ^ 64).
    pose proof (Z.div_mod a (2 ^ 64) ltac:(done)). pose proof (Z.div_mod b (2 ^ 64) ltac:(done)).
    lia.
  - intros [k ->]. apply Z_mod_plus_full.
Qed.

Lemma percpu_lookup_cons {V} (l : list V) m cpu i :
  percpu_lookup (l :: m) cpu i
  = match cpu with O => array_lookup l i | S cpu => percpu_lookup m cpu i end.
Proof. by destruct cpu. Qed.

Lemma cells_lookup m ncpu n cpu i :
  cells m ncpu n → (cpu < ncpu)%nat → 0 ≤ i < Z.of_nat n → is_Some (percpu_lookup m cpu i).
Proof.
  intros [Hl Hf] Hc Hi. unfold percpu_lookup.
  destruct (lookup_lt_is_Some_2 m cpu ltac:(lia)) as [l El]. rewrite El; cbn.
  unfold array_lookup. rewrite (proj2 (Z.leb_le 0 i)) by lia.
  apply lookup_lt_is_Some_2. rewrite Forall_lookup in Hf. rewrite (Hf _ _ El). lia.
Qed.

Lemma cells_incr m ncpu n cpu i : cells m ncpu n → cells (incr m cpu i) ncpu n.
Proof.
  intros [Hl Hf]. unfold incr. destruct (percpu_lookup m cpu i); [|done].
  unfold percpu_store. split; [by rewrite length_alter|].
  rewrite Forall_lookup in *. intros k l Hk.
  destruct (decide (k = cpu)) as [->|Hne].
  - rewrite list_lookup_alter_eq in Hk. destruct (m !! cpu) eqn:E; [|done]. cbn in Hk.
    simplify_eq. rewrite length_array_store. by eapply Hf.
  - rewrite list_lookup_alter_ne in Hk by done. by eapply Hf.
Qed.

(** One increment adds one to its cell's total, modulo 2^64 ... *)
Lemma tot_incr m ncpu n cpu i :
  cells m ncpu n → (cpu < ncpu)%nat → 0 ≤ i < Z.of_nat n →
  ∃ k, tot (incr m cpu i) i = tot m i + 1 + k * 2 ^ 64.
Proof.
  intros Hc Hcpu Hi.
  pose proof (cells_lookup m ncpu n cpu i Hc Hcpu Hi) as [x Hx]. clear Hc Hcpu.
  unfold incr. rewrite Hx. revert cpu Hx.
  induction m as [|l m IH]; intros cpu Hx; [done|]. rewrite percpu_lookup_cons in Hx.
  destruct cpu as [|cpu].
  - change (percpu_store (l :: m) 0 i (u64 (x + 1))) with (array_store l i (u64 (x + 1)) :: m).
    cbn [tot]. rewrite array_lookup_store by (eauto; lia).
    rewrite decide_True, Hx by done. cbn [from_option id].
    unfold u64, wrap. rewrite Z.mod_eq by done. exists (- ((x + 1) / 2 ^ 64)). lia.
  - change (percpu_store (l :: m) (S cpu) i (u64 (x + 1)))
      with (l :: percpu_store m cpu i (u64 (x + 1))). cbn [tot].
    destruct (IH _ Hx) as [k ->]. exists k. lia.
Qed.

(** ... and leaves the others. *)
Lemma tot_incr_ne m cpu i j : 0 ≤ j → i ≠ j → tot (incr m cpu i) j = tot m j.
Proof.
  intros Hj Hij. unfold incr. destruct (percpu_lookup m cpu i) as [x|] eqn:Hx; [|done].
  revert cpu Hx. induction m as [|l m IH]; intros cpu Hx; [done|].
  rewrite percpu_lookup_cons in Hx. destruct cpu as [|cpu].
  - change (percpu_store (l :: m) 0 i (u64 (x + 1))) with (array_store l i (u64 (x + 1)) :: m).
    cbn [tot]. rewrite array_lookup_store by (eauto; lia). by rewrite decide_False.
  - change (percpu_store (l :: m) (S cpu) i (u64 (x + 1)))
      with (l :: percpu_store m cpu i (u64 (x + 1))). cbn [tot]. by rewrite IH.
Qed.

(** ** Counting along a trace *)

Section count.
Context {KL : KernelLayout} {M : Type} `{HM : !LruHash M Z pending}.
Context (b : build).

(** In how many of the firings, in the state they run in, [q] holds. *)
Fixpoint trace_count (q : firing → st M → bool) (fs : list firing) (s : st M) : Z :=
  match fs with
  | [] => 0
  | f :: fs => Z.b2z (q f s) + trace_count q fs (fire b f s)
  end.

(** An exec or exit run that wants a record. *)
Definition life_reserves (f : firing) (s : st M) : bool :=
  match f_probe f with
  | P_exec _ _ => negb (is_self (f_ctx f) s)
  | P_exit => (cx_pid (f_ctx f) =? cx_tgid (f_ctx f)) && negb (is_self (f_ctx f) s)
  | _ => false
  end.

(** sys_exit runs that found nothing, a call of another kind, a failed
    call, or arguments to report. *)
Definition exits_seen (s : st M) : Z :=
  tot (st_stats s) ST_MISSING + tot (st_stats s) ST_KIND + tot (st_stats s) ST_FAILED
  + tot (st_stats s) ST_TAKE_OK.

(** Records and refused records. *)
Definition records (s : st M) : Z := Z.of_nat (length (st_events s)) + tot (st_drops s) 0.

Definition counters_ok (ncpu : nat) (s : st M) : Prop :=
  cells (st_stats s) ncpu ST_N ∧ cells (st_drops s) ncpu 1.

Lemma stash_state_stats c p (s : st M) :
  st_stats (stash_state c p s) = st_stats s ∨
  st_stats (stash_state c p s) = incr (st_stats s) (cx_cpu c) ST_STASH ∨
  st_stats (stash_state c p s) = incr (st_stats s) (cx_cpu c) ST_STASH_ERR.
Proof. unfold stash_state. destruct (_ =? K_SETID); [by left|]. destruct (_ =? 0); cbn; auto. Qed.

Lemma life_drops f (s : st M) :
  match f_probe f with P_exec _ _ | P_exit => True | _ => False end →
  (life_reserves f s = false ∧ life_event f s = None ∧ st_drops (fire b f s) = st_drops s) ∨
  (life_reserves f s = true ∧ is_Some (life_event f s) ∧ st_drops (fire b f s) = st_drops s) ∨
  (life_reserves f s = true ∧ life_event f s = None ∧
   st_drops (fire b f s) = incr (st_drops s) (cx_cpu (f_ctx f)) 0).
Proof.
  unfold life_event, life_reserves. fire_cases f s Hp; try done; intros _.
  - rewrite (fire_exec _ _ _ _ _ Hp).
    destruct (handle_exec_exec (f_ctx f) (f_slot f) ctx dl s) as [v ->].
    destruct (is_self _ s), (f_slot f); cbn; eauto 6.
  - rewrite (fire_leave _ _ _ Hp), handle_exit_exec.
    destruct (_ =? _), (is_self _ s), (f_slot f); cbn; eauto 6.
Qed.

Lemma fire_counters f (s : st M) ncpu : counters_ok ncpu s → counters_ok ncpu (fire b f s).
Proof.
  intros [Hs Hd]. split; fire_cases f s Hp.
  - destruct (fire_enter b f s _ _ Hp) as [|? ? _ _ _|p _]; [done| |].
    + by destruct (prctl_state_frame (f_ctx f) (read_sysargs (f_ctx f) b regs0) s)
        as (_ & _ & _ & _ & ->).
    + destruct (stash_state_stats (f_ctx f) p s) as [E|[E|E]]; rewrite E; auto using cells_incr.
  - destruct (fire_exit b f s _ _ Hp); cbn; auto using cells_incr.
  - by destruct (fire_life b f s) as (_ & _ & -> & _); [rewrite Hp|].
  - by destruct (fire_life b f s) as (_ & _ & -> & _); [rewrite Hp|].
  - destruct (fire_enter b f s _ _ Hp) as [|? ? _ _ _|p _]; [done| |].
    + by destruct (prctl_state_frame (f_ctx f) (read_sysargs (f_ctx f) b regs0) s)
        as (_ & -> & _).
    + by destruct (stash_state_frame (f_ctx f) p s) as (_ & _ & -> & _).
  - destruct (fire_exit b f s _ _ Hp); cbn; auto using cells_incr.
  - destruct (life_drops f s) as [(_ & _ & E)|[(_ & _ & E)|(_ & _ & E)]];
      [by rewrite Hp|rewrite E; auto using cells_incr..].
  - destruct (life_drops f s) as [(_ & _ & E)|[(_ & _ & E)|(_ & _ & E)]];
      [by rewrite Hp|rewrite E; auto using cells_incr..].
Qed.

(** Every sys_exit run moves exactly one of the four counters. *)
Lemma fire_exits f (s : st M) ncpu :
  counters_ok ncpu s → (cx_cpu (f_ctx f) < ncpu)%nat →
  ∃ k, exits_seen (fire b f s) = exits_seen s + Z.b2z (is_exit f) + k * 2 ^ 64.
Proof.
  intros [Hs Hd] Hc. unfold exits_seen, is_exit. fire_cases f s Hp; cbn [Z.b2z].
  - exists 0. destruct (fire_enter b f s _ _ Hp) as [|? ? _ _ _|p _]; [lia| |].
    + destruct (prctl_state_frame (f_ctx f) (read_sysargs (f_ctx f) b regs0) s)
        as (_ & _ & _ & _ & ->). lia.
    + destruct (stash_state_stats (f_ctx f) p s) as [E|[E|E]]; rewrite E;
        rewrite ?tot_incr_ne by done; lia.
  - assert (Hi : ∀ i, i ∈ [ST_MISSING; ST_KIND; ST_FAILED; ST_TAKE_OK] →
      ∃ k, tot (incr (st_stats s) (cx_cpu (f_ctx f)) i) i = tot (st_stats s) i + 1 + k * 2 ^ 64).
    { intros i Hi. apply (tot_incr _ ncpu ST_N); [done..|].
      unfold ST_MISSING, ST_KIND, ST_FAILED, ST_TAKE_OK in Hi. cbn. set_solver by lia. }
    destruct (fire_exit b f s _ _ Hp) as [|p| |p e v ? ? ? ? s1]; [| | |subst s1]; cbn [up_stats up_pending up_drops up_scratch
      up_events st_stats].
    + destruct (Hi ST_MISSING) as [k E]; [set_solver|]. exists k.
      rewrite E, !tot_incr_ne by done. lia.
    + unfold take_stat. destruct (_ && _); [|destruct (p_kind p =? exit_kind x)].
      * destruct (Hi ST_TAKE_OK) as [k E]; [set_solver|]. exists k.
        rewrite E, !tot_incr_ne by done. lia.
      * destruct (Hi ST_FAILED) as [k E]; [set_solver|]. exists k.
        rewrite E, !tot_incr_ne by done. lia.
      * destruct (Hi ST_KIND) as [k E]; [set_solver|]. exists k.
        rewrite E, !tot_incr_ne by done. lia.
    + destruct (Hi ST_TAKE_OK) as [k E]; [set_solver|]. exists k.
      rewrite E, !tot_incr_ne by done. lia.
    + destruct (Hi ST_TAKE_OK) as [k E]; [set_solver|]. exists k.
      rewrite E, !tot_incr_ne by done. lia.
  - exists 0. destruct (fire_life b f s) as (_ & _ & -> & _); [by rewrite Hp|]. lia.
  - exists 0. destruct (fire_life b f s) as (_ & _ & -> & _); [by rewrite Hp|]. lia.
Qed.

(** A record that is wanted is either submitted or counted as dropped. *)
Lemma fire_records f (s : st M) ncpu :
  counters_ok ncpu s → (cx_cpu (f_ctx f) < ncpu)%nat →
  ∃ k, records (fire b f s) - tot (st_stats (fire b f s)) ST_TAKE_OK
       = records s - tot (st_stats s) ST_TAKE_OK + Z.b2z (life_reserves f s) + k * 2 ^ 64.
Proof.
  intros [Hs Hd] Hc. unfold records.
  assert (Hdrop : ∃ k, tot (incr (st_drops s) (cx_cpu (f_ctx f)) 0) 0
                       = tot (st_drops s) 0 + 1 + k * 2 ^ 64).
  { by apply (tot_incr _ ncpu 1). }
  destruct Hdrop as [kd Hdrop].
  destruct (tot_incr (st_stats s) ncpu ST_N (cx_cpu (f_ctx f)) ST_TAKE_OK) as [kt Htake];
    [done..|].
  destruct (f_probe f) as [regs id|x ret|ctx dl|] eqn:Hp.
  1: { replace (life_reserves f s) with false by (unfold life_reserves; by rewrite Hp).
    exists 0. destruct (fire_enter b f s _ _ Hp) as [|? ? _ _ _|p _]; [cbn; lia| |].
    - destruct (prctl_state_frame (f_ctx f) (read_sysargs (f_ctx f) b regs0) s)
        as (-> & -> & _ & _ & ->). cbn. lia.
    - destruct (stash_state_frame (f_ctx f) p s) as (_ & -> & -> & _).
      destruct (stash_state_stats (f_ctx f) p s) as [E|[E|E]]; rewrite E;
        rewrite ?tot_incr_ne by done; cbn; lia. }
  1: { replace (life_reserves f s) with false by (unfold life_reserves; by rewrite Hp).
    destruct (fire_exit b f s _ _ Hp) as [|p ? Hbad|p|p e v ? ? ? ? s1]; [| | |subst s1];
      cbn [up_stats up_pending up_drops up_scratch up_events st_stats st_events st_drops Z.b2z].
    - exists 0. rewrite tot_incr_ne by done. lia.
    - exists 0. unfold take_stat. destruct (p_kind p =? exit_kind x) eqn:E.
      + destruct (0 <=? ret) eqn:E'; cbn [andb]; [exfalso; lia|].
        rewrite tot_incr_ne by done. lia.
      + cbn [andb]. rewrite tot_incr_ne by done. lia.
    - exists (kd - kt). rewrite Hdrop, Htake. lia.
    - exists (- kt). rewrite Htake, length_app. cbn. lia. }
  all: destruct (fire_life b f s) as (_ & _ & -> & ->); [by rewrite Hp|].
  all: rewrite length_app.
  all: destruct (life_drops f s) as [(-> & E & ->)|[(-> & [e E] & ->)|(-> & E & ->)]];
    [by rewrite Hp| | |]; rewrite E; cbn [option_list option_rect length Z.b2z].
  all: first [exists 0; lia | exists kd; rewrite Hdrop; lia].
Qed.

(** A firing on a CPU of the machine. *)
Definition on_cpus (ncpu : nat) (fs : list firing) : Prop :=
  Forall (λ f, cx_cpu (f_ctx f) < ncpu)%nat fs.

Lemma trace_accounts fs (s : st M) ncpu :
  counters_ok ncpu s → on_cpus ncpu fs →
  (∃ k, exits_seen (run_trace b fs s)
        = exits_seen s + trace_count (λ f _, is_exit f) fs s + k * 2 ^ 64) ∧
  (∃ k, records (run_trace b fs s) - tot (st_stats (run_trace b fs s)) ST_TAKE_OK
        = records s - tot (st_stats s) ST_TAKE_OK + trace_count life_reserves fs s
          + k * 2 ^ 64).
Proof.
  intros Hs Hc. revert s Hs. induction Hc as [|f fs Hf _ IH]; intros s Hs; cbn.
  { split; exists 0; lia. }
  destruct (IH (fire b f s)) as [[k1 ->] [k2 ->]]; [by apply fire_counters|].
  destruct (fire_exits f s ncpu Hs Hf) as [k3 ->].
  destruct (fire_records f s ncpu Hs Hf) as [k4 ->].
  split; [exists (k1 + k3)|exists (k2 + k4)]; lia.
Qed.

Lemma init_counters (empty : M) ncpu : counters_ok ncpu (st_init empty ncpu).
Proof.
  split; (split; [apply length_replicate|]); apply Forall_replicate; by rewrite ?length_zeros.
Qed.

Lemma tot_init l ncpu i : 0 ≤ i → (∀ x, x ∈ l → x = 0) → tot (replicate ncpu l) i = 0.
Proof.
  intros Hi Hl. induction ncpu as [|n IH]; [done|]. cbn. rewrite IH. unfold array_lookup.
  destruct (0 <=? i); [|done]. destruct (l !! Z.to_nat i) eqn:E; [|done]. cbn.
  rewrite (Hl z); [done|]. by eapply list_elem_of_lookup_2.
Qed.
End count.

(** C16. The counters account for everything: after any sequence of runs on
    the machine's CPUs over the freshly loaded maps, the missing, wrong-kind,
    failed and taken counters add up (modulo 2^64, over all CPUs) to the
    number of sys_exit runs; and the submitted records and counted drops add
    up to the taken syscalls and the exec and exit runs that wanted a record.
    Nothing is lost without being counted. *)
Theorem counters_account_for_every_run {KL : KernelLayout} {M : Type} `{HM : !LruHash M Z pending}
    b (empty : M) ncpu fs :
  on_cpus ncpu fs →
  let s := run_trace b fs (st_init empty ncpu) in
  u64 (exits_seen s) = u64 (trace_count b (λ f _, is_exit f) fs (st_init empty ncpu)) ∧
  u64 (records s)
  = u64 (tot (st_stats s) ST_TAKE_OK + trace_count b life_reserves fs (st_init empty ncpu)).
Proof.
  intros Hc s. destruct (trace_accounts b fs _ _ (init_counters empty ncpu) Hc) as [[k1 E1] [k2 E2]].
  fold s in E1, E2.
  assert (Z1 : exits_seen (st_init empty ncpu) = 0 ∧ records (st_init empty ncpu) = 0
               ∧ tot (st_stats (st_init empty ncpu)) ST_TAKE_OK = 0).
  { unfold exits_seen, records. cbn [st_init st_stats st_drops st_events length].
    rewrite !tot_init by (done || (unfold zeros; intros ? [-> _]%elem_of_replicate; done)
      || (intros ? ->%list_elem_of_singleton; done)). done. }
  split; apply u64_eq; [exists k1|exists k2]; lia.
Qed.

Lemma counters_account_for_every_run_witness :
  let fs := [Firing (demo_ctx 0 500 501 1000 0 0 0 0) None (P_sys_exit X_openat 3);
             Firing (demo_ctx 1 500 500 1000 0 0 0 0) None (P_exec 0xA000 0)] in
  let s0 : st (gmap Z pending) := st_init ∅ 2 in
  let s := run_trace X86 fs s0 in
  records s = 1 ∧
  u64 (exits_seen s) = u64 (trace_count X86 (λ f _, is_exit f) fs s0) ∧
  u64 (records s) = u64 (tot (st_stats s) ST_TAKE_OK + trace_count X86 life_reserves fs s0).
Proof.
  split; [vm_compute; reflexivity|].
  apply (counters_account_for_every_run X86 (∅ : gmap Z pending) 2).
  constructor; [cbn; lia|constructor; [cbn; lia|constructor]].
Defined.
