(* ===== verification/SensorData.v ===== *)
(** * What the sensor reports and what the records say

    Which opens are sensitive, which syscalls are looked at, and that the
    record a sys_exit program submits says what the syscall was called with:
    descriptors keep their sign, the working directory is the path of the
    process's directory, ids are unpacked by the agent as they were passed. *)
From Stdlib Require Import ZArith Lia Ascii String.
From stdpp Require Import base tactics list gmap strings.
From S2P Require Import Prelude.
From S2P Require Import Kernel.
From S2P Require Import CoreRead.
From S2P Require Import Tracing.
From S2P Require Import PathWalk.
From S2P Require Import Scenario.
From S2P Require Import Linsensor.
From S2P Require Import SensorFacts.
From S2P Require Import SensorTrace.
Local Open Scope Z_scope.

(** ** Sensitive reads *)

Definition is_digit (d : Z) : Prop := 48 ≤ d ≤ 57.

(** The paths [sensitive_read] means, on the first 19 bytes of the name. *)
Definition sensitive_path (s : list Z) : Prop :=
  s = zs "/etc/shadow" ∨ s = zs "/etc/gshadow" ∨
  ∃ d mid, is_digit d ∧ list.take 19 s = zs "/proc/" ++ d :: mid ++ zs "/mem".

(** The buffer after the read: the copied bytes, a NUL, zeros. *)
Lemma read_buf s : (0 ∉ s) →
  str_copy (zeros 20) s
  = (Z.of_nat (length (list.take 19 s)) + 1, list.take 19 s ++ zeros (20 - length (list.take 19 s))).
Proof.
  intros Hs. unfold str_copy. rewrite length_zeros. change (20 - 1)%nat with 19%nat.
  f_equal. f_equal. unfold zeros. rewrite drop_replicate.
  assert (length (list.take 19 s) ≤ 19)%nat by (rewrite length_take; lia).
  destruct (20 - length (list.take 19 s))%nat as [|k] eqn:E; [lia|].
  cbn. f_equal. f_equal. lia.
Qed.

Lemma nth_zeros_app t k i : nth i (t ++ zeros k) 0 = nth i t 0.
Proof.
  rewrite !nth_lookup, lookup_app. destruct (t !! i) as [x|] eqn:E; [done|]. unfold zeros.
  destruct (replicate k 0 !! (i - length t)%nat) as [x|] eqn:E'; [|done]. cbn.
  by apply lookup_replicate in E' as [-> _].
Qed.

(** A tested character. *)
Lemma at_true b i ch : at_ b i ch = true ↔ nth i b 0 = Z.of_nat (nat_of_ascii ch).
Proof. unfold at_. apply Z.eqb_eq. Qed.

Lemma at_zeros t k i ch : at_ (t ++ zeros k) i ch = at_ t i ch.
Proof. unfold at_. by rewrite nth_zeros_app. Qed.

(** [b] has the characters of [lit] from index [i]. *)
Fixpoint at_all (b : list Z) (i : nat) (lit : list Z) : Prop :=
  match lit with
  | [] => True
  | ch :: lit => nth i b 0 = ch ∧ at_all b (S i) lit
  end.

Lemma at_all_slice b i lit :
  (i + length lit ≤ length b)%nat → at_all b i lit → slice b i (length lit) = lit.
Proof.
  revert i; induction lit as [|ch lit IH]; intros i Hl H; [done|]. cbn [length] in *.
  destruct H as [Hc H]. unfold slice in *.
  destruct (lookup_lt_is_Some_2 b i ltac:(lia)) as [x Hx].
  rewrite (drop_S b x i Hx). cbn. rewrite IH by (done || lia). f_equal.
  apply nth_lookup_Some with (d := 0) in Hx. congruence.
Qed.

(** The suffix loop finds the one index before the NUL. *)
Lemma mem_suffix_loop_true b n idx :
  mem_suffix_loop b n idx = true ↔
  ∃ i, i ∈ idx ∧ Z.of_nat i = n - 1 ∧ mem_suffix_at b i = true.
Proof.
  induction idx as [|i idx IH]; cbn; [set_solver|].
  destruct (Z.eqb_spec (Z.of_nat i) (n - 1)) as [E|E].
  - split; [intros H; exists i; set_solver|]. intros (j & _ & Hj & H).
    assert (i = j) as -> by lia. done.
  - rewrite IH. split; intros (j & Hj & Hn & H); exists j; set_solver.
Qed.

Lemma sensitive_shadow t :
  (length t ≤ 19)%nat → at_all t 0 (zs "/etc/") →
  (Z.of_nat (length t) + 1 = 12 ∧ at_all t 5 (zs "shadow") ∨
   Z.of_nat (length t) + 1 = 13 ∧ at_all t 5 (zs "gshadow")) →
  t = zs "/etc/shadow" ∨ t = zs "/etc/gshadow".
Proof.
  intros Hl Hp [[Hn Hs]|[Hn Hs]]; [left|right].
  - assert (at_all t 0 (zs "/etc/shadow")) as H by (cbn in *; tauto).
    apply at_all_slice in H; [|cbn; lia]. unfold slice in H.
    by rewrite drop_0, take_ge in H by (cbn; lia).
  - assert (at_all t 0 (zs "/etc/gshadow")) as H by (cbn in *; tauto).
    apply at_all_slice in H; [|cbn; lia]. unfold slice in H.
    by rewrite drop_0, take_ge in H by (cbn; lia).
Qed.

Lemma sensitive_proc t i :
  (11 ≤ i)%nat → length t = i → at_all t 0 (zs "/proc/") → is_digit (nth 6 t 0) →
  at_all t (i - 4) (zs "/mem") →
  ∃ d mid, is_digit d ∧ t = zs "/proc/" ++ d :: mid ++ zs "/mem".
Proof.
  intros Hi Hl Hp Hd Hs. exists (nth 6 t 0), (slice t 7 (i - 11)). split; [done|].
  apply at_all_slice in Hp; [|cbn; lia]. apply at_all_slice in Hs; [|cbn; lia].
  rewrite <- Hs, <- Hp at 1. unfold slice. cbn [length zs map list_ascii_of_string].
  rewrite (take_ge (drop (i - 4) t)) by (rewrite length_drop; lia).
  destruct (lookup_lt_is_Some_2 t 6 ltac:(lia)) as [x Hx].
  rewrite (nth_lookup_Some t 6 0 x Hx).
  rewrite <- (take_drop 6 t) at 1. rewrite drop_0. f_equal.
  rewrite (drop_S t x 6 Hx). f_equal.
  rewrite <- (take_drop (i - 11) (drop 7 t)) at 1. f_equal. rewrite drop_drop. f_equal. lia.
Qed.

Lemma mem_suffix_at_true t k i : (4 ≤ i)%nat →
  mem_suffix_at (t ++ zeros k) i = true ↔ at_all t (i - 4) (zs "/mem").
Proof.
  intros Hi. unfold mem_suffix_at. rewrite !at_zeros, !andb_true_iff, !at_true. cbn.
  replace (i - 3)%nat with (S (i - 4)) by lia. replace (i - 2)%nat with (S (S (i - 4))) by lia.
  replace (i - 1)%nat with (S (S (S (i - 4)))) by lia. tauto.
Qed.

Lemma not_digit d : ((d <? 48) || (57 <? d)) = false ↔ is_digit d.
Proof. unfold is_digit. rewrite orb_false_iff, !Z.ltb_ge. lia. Qed.

(** The characters of [lit] from index [i], as the code's conjunctions. *)
Lemma at_all_cons t i ch lit :
  at_all t i (Z.of_nat (nat_of_ascii ch) :: lit) ↔ at_ t i ch = true ∧ at_all t (S i) lit.
Proof. cbn [at_all]. by rewrite at_true. Qed.

Lemma sensitive_buf_fwd t :
  (length t ≤ 19)%nat →
  sensitive_buf (Z.of_nat (length t) + 1) (t ++ zeros (20 - length t)) = true →
  t = zs "/etc/shadow" ∨ t = zs "/etc/gshadow" ∨
  ∃ d mid, is_digit d ∧ t = zs "/proc/" ++ d :: mid ++ zs "/mem".
Proof.
  intros Hl. unfold sensitive_buf. rewrite (proj2 (Z.leb_gt _ 0)) by lia.
  rewrite !at_zeros, nth_zeros_app.
  destruct (at_ t 0 "/" && at_ t 1 "e" && at_ t 2 "t" && at_ t 3 "c" && at_ t 4 "/") eqn:Ee.
  - intros H. enough (t = zs "/etc/shadow" ∨ t = zs "/etc/gshadow") by tauto.
    apply sensitive_shadow; [done| |].
    + rewrite !andb_true_iff, !at_true in Ee. cbn. tauto.
    + destruct (_ && _) eqn:Es in H.
      * left. rewrite !andb_true_iff, !at_true in Es. cbn. split; [lia|tauto].
      * right. rewrite !andb_true_iff, !at_true in H. cbn. split; [lia|tauto].
  - destruct (negb _) eqn:Ep; [done|]. destruct (_ || _) eqn:Ed; [done|].
    rewrite mem_suffix_loop_true. intros (i & Hi & Hn & Hm). right. right.
    apply elem_of_seq in Hi.
    apply negb_false_iff in Ep. rewrite !andb_true_iff, !at_true in Ep.
    apply (sensitive_proc t i); [lia|lia| | |].
    + cbn. tauto.
    + by apply not_digit.
    + apply (mem_suffix_at_true t (20 - length t)); [lia|done].
Qed.

Lemma sensitive_buf_bwd t :
  (length t ≤ 19)%nat →
  t = zs "/etc/shadow" ∨ t = zs "/etc/gshadow" ∨
    (∃ d mid, is_digit d ∧ t = zs "/proc/" ++ d :: mid ++ zs "/mem") →
  sensitive_buf (Z.of_nat (length t) + 1) (t ++ zeros (20 - length t)) = true.
Proof.
  intros Hl [->|[->|(d & mid & Hd & ->)]]; [reflexivity|reflexivity|].
  rewrite !length_app in *. cbn [length] in *. rewrite length_app in *.
  unfold sensitive_buf. rewrite (proj2 (Z.leb_gt _ 0)) by lia.
  rewrite !at_zeros, nth_zeros_app.
  match goal with |- (if ?e then _ else if negb ?p then _ else if ?q then _ else _) = _ =>
    change e with false; change p with true; change q with ((d <? 48) || (57 <? d)) end.
  rewrite (proj2 (not_digit d) Hd). cbn [negb].
  apply mem_suffix_loop_true. exists (11 + length mid)%nat.
  cbn [length zs map list_ascii_of_string] in *. split; [apply elem_of_seq; lia|].
  split; [lia|]. apply mem_suffix_at_true; [lia|].
  replace (11 + length mid - 4)%nat with (7 + length mid)%nat by lia.
  assert (Hn : ∀ j, (j < 4)%nat →
    nth (7 + length mid + j) (zs "/proc/" ++ d :: mid ++ zs "/mem") 0 = nth j (zs "/mem") 0).
  { intros j Hj. change (zs "/proc/" ++ d :: mid ++ zs "/mem")
      with ((zs "/proc/" ++ [d]) ++ mid ++ zs "/mem").
    rewrite (app_nth2 (zs "/proc/" ++ [d])) by (cbn; lia).
    rewrite app_nth2 by (cbn; lia). f_equal. cbn. lia. }
  pose proof (Hn 0%nat ltac:(lia)) as H0. pose proof (Hn 1%nat ltac:(lia)) as H1.
  pose proof (Hn 2%nat ltac:(lia)) as H2. pose proof (Hn 3%nat ltac:(lia)) as H3.
  rewrite ?Nat.add_0_r, ?(Nat.add_comm (7 + length mid)) in H0, H1, H2, H3. done.
Qed.

Lemma take_eq_short {A} n (s l : list A) : (length l < n)%nat → list.take n s = l ↔ s = l.
Proof.
  intros Hl. split.
  - intros H. rewrite <- H in Hl |- *. rewrite length_take in Hl. by rewrite take_ge by lia.
  - intros ->. apply take_ge. lia.
Qed.

(** The read-only opens that are reported are exactly these: the
    password hashes, and a name that starts with "/proc/" and a digit and
    whose first 19 characters end in "/mem" (so "/proc/self/mem" is not
    reported).  A name that cannot be read is not reported. *)
Theorem sensitive_read_exact (c : ctx) (a : Z) :
  (∀ s, ustr_at c a s → (sensitive_read c a = true ↔ sensitive_path s)) ∧
  (ustr_fault c a → sensitive_read c a = false).
Proof.
  unfold sensitive_read. split.
  - intros s [Hs Hr]. rewrite Hr by (rewrite length_zeros; lia). rewrite read_buf by done.
    cbn [fst snd]. assert (length (list.take 19 s) ≤ 19)%nat by (rewrite length_take; lia).
    unfold sensitive_path. rewrite <- !(take_eq_short 19 s) by (cbn; lia).
    split; [by apply sensitive_buf_fwd|by apply sensitive_buf_bwd].
  - intros Hf. pose proof (Hf (zeros 20)) as H. unfold sensitive_buf.
    by rewrite (proj2 (Z.leb_le _ 0)) by lia.
Qed.

Lemma sensitive_read_exact_witness :
  let c := demo_ctx 0 500 500 1000 0 0 0 0 in
  sensitive_read c 0x10000 = true ∧ (sensitive_read c 0x10000 = true ↔ sensitive_path (zs "/etc/shadow")).
Proof.
  split; [vm_compute; reflexivity|].
  apply (proj1 (sensitive_read_exact (demo_ctx 0 500 500 1000 0 0 0 0) 0x10000)).
  apply image_ustr_at; [vm_compute; reflexivity|]. by apply zs_no_nul.
Defined.

(** Only the first 19 characters are read: a longer name that merely goes
    on after "/mem" is reported as well. *)
Lemma sensitive_read_cut :
  sensitive_path (zs "/proc/123456789/memory_of_it").
Proof.
  right. right. exists 49, (zs "23456789"). split; [unfold is_digit; lia|reflexivity].
Qed.

(** ** Which syscalls are looked at *)

(** The syscall whose exit tracepoint a sys_exit program is attached to. *)
Definition exit_probe_nr (b : build) (x : exit_probe) : Z :=
  match x with
  | X_openat => NR_openat b | X_open => NR_open b | X_creat => NR_creat b
  | X_renameat => NR_renameat b | X_renameat2 => NR_renameat2 b | X_rename => NR_rename b
  | X_unlinkat => NR_unlinkat b | X_unlink => NR_unlink b | X_rmdir => NR_rmdir b
  | X_init_module => NR_init_module b | X_finit_module => NR_finit_module b
  | X_delete_module => NR_delete_module b | X_ptrace => NR_ptrace b
  | X_process_vm_readv => NR_process_vm_readv b | X_process_vm_writev => NR_process_vm_writev b
  | X_setuid => NR_setuid b | X_setreuid => NR_setreuid b | X_setresuid => NR_setresuid b
  | X_setgid => NR_setgid b | X_setregid => NR_setregid b | X_setresgid => NR_setresgid b
  | X_capset => NR_capset b | X_memfd_create => NR_memfd_create b
  end.

Definition all_exit_probes : list exit_probe :=
  [X_openat; X_open; X_creat; X_renameat; X_renameat2; X_rename; X_unlinkat; X_unlink; X_rmdir;
   X_init_module; X_finit_module; X_delete_module; X_ptrace; X_process_vm_readv;
   X_process_vm_writev; X_setuid; X_setreuid; X_setresuid; X_setgid; X_setregid; X_setresgid;
   X_capset; X_memfd_create].

Section syscalls.
Context {KL : KernelLayout}.

Lemma enter_pending_kind c b id a p :
  enter_pending c b id a = Some p →
  ∃ x, x ∈ all_exit_probes ∧ exit_probe_nr b x = id ∧ exit_kind x = p_kind p.
Proof.
  intros H. unfold enter_pending, open_pending, unlink_pending, rename_pending, ptrace_pending,
    vm_pending, setid_pending, capset_pending in H. cbv zeta in H.
  assert (G : ∀ x, exit_probe_nr b x = id → exit_kind x = p_kind p →
    ∃ x, x ∈ all_exit_probes ∧ exit_probe_nr b x = id ∧ exit_kind x = p_kind p).
  { intros x Hx Hk. exists x. split; [destruct x; vm_compute; set_solver|done]. }
  repeat match goal with
  | H : (if ?id =? ?n then _ else _) = Some p |- _ =>
      destruct (Z.eqb_spec id n) as [E|_]; [rewrite E in *; clear E|]
  | H : (if (?id =? ?n) || (?id =? ?m) then _ else _) = Some p |- _ =>
      destruct (Z.eqb_spec id n) as [E|_];
        [rewrite E in *; clear E|destruct (Z.eqb_spec id m) as [E|_]; [rewrite E in *; clear E|]];
        cbn [orb] in H
  end; [..|done].
  all: repeat match type of H with (if ?t then _ else _) = _ => destruct t end; try done.
  all: injection H as <-.
  all: first [by apply (G X_openat)|by apply (G X_open)|by apply (G X_creat)|by apply (G X_renameat)
    |by apply (G X_renameat2)|by apply (G X_rename)|by apply (G X_unlinkat)|by apply (G X_unlink)
    |by apply (G X_rmdir)|by apply (G X_init_module)|by apply (G X_finit_module)
    |by apply (G X_delete_module)|by apply (G X_ptrace)|by apply (G X_process_vm_readv)
    |by apply (G X_process_vm_writev)|by apply (G X_setuid)|by apply (G X_setreuid)
    |by apply (G X_setresuid)|by apply (G X_setgid)|by apply (G X_setregid)
    |by apply (G X_setresgid)|by apply (G X_capset)|by apply (G X_memfd_create)].
Qed.

Lemma existsb_eqb id l : existsb (Z.eqb id) l = true ↔ id ∈ l.
Proof.
  rewrite existsb_exists. split.
  - intros (x & Hx & ->%Z.eqb_eq). by apply list_elem_of_In.
  - intros H. exists id. split; [by apply list_elem_of_In|apply Z.eqb_refl].
Qed.
End syscalls.

(** The system calls arm64 does not have. *)
Definition arm64_absent : list exit_probe := [X_open; X_creat; X_rename; X_unlink; X_rmdir].

(** The two switches and the attached programs agree, on both
    architectures: the numbers are distinct; every syscall with a sys_exit
    program is looked at; whatever a syscall's entry stashes has the kind that
    the sys_exit program of the same syscall takes; any other syscall changes
    nothing; and the calls arm64 lacks have numbers no syscall has. *)
Theorem syscall_table {KL : KernelLayout} {M : Type} `{HM : !LruHash M Z pending} (b : build) :
  NoDup (sys_enter_ids b) ∧
  (∀ x, exit_probe_nr b x ∈ sys_enter_ids b) ∧
  (∀ c id a p, enter_pending c b id a = Some p →
     ∃ x, x ∈ all_exit_probes ∧ exit_probe_nr b x = id ∧ exit_kind x = p_kind p) ∧
  (∀ c regs id (s : st M), s64 id ∉ sys_enter_ids b → raw_sys_enter c b regs id s = (0, s)) ∧
  (∀ x, x ∈ arm64_absent → exit_probe_nr ARM64 x < 0).
Proof.
  split; [destruct b; apply (bool_decide_unpack _); vm_compute; exact I|].
  split; [intros x; destruct b, x; apply existsb_eqb; reflexivity|].
  split; [intros c id a p; apply enter_pending_kind|].
  split; [|intros x Hx; repeat (apply elem_of_cons in Hx as [->|Hx]; [done|]);
           by apply elem_of_nil in Hx].
  intros c regs id s Hid. unfold raw_sys_enter.
  destruct (existsb _ _) eqn:E; [|done]. apply existsb_eqb in E. done.
Qed.

(** ** Directories *)

Section directories.
Context {KL : KernelLayout} {M : Type} (c : ctx) {Hc : ctx_ok c}.

(** The scratch of the run's CPU is intact. *)
Definition scratch_ok (s : st M) : Prop :=
  ∃ pp, percpu_lookup (st_scratch s) (cx_cpu c) 0 = Some pp ∧ pp_ok pp.

Lemma build_path_ret d vm out (s : st M) pp :
  percpu_lookup (st_scratch s) (cx_cpu c) 0 = Some pp → d ≠ 0 → vm ≠ 0 →
  eval (build_path c d vm out) s
  = let r := walk_and_write c d vm pp in
    if fst r =? DIR_BUF then <[1%nat := 0]> (<[0%nat := SLASH]> out)
    else snd (str_copy out (buf_str (fst r) (snd r))).
Proof.
  intros Hpp Hd Hv. unfold build_path, eval, mbind, prog_bind, get, put, mret, prog_ret.
  rewrite Hpp. rewrite (proj2 (Z.eqb_neq d 0) Hd), (proj2 (Z.eqb_neq vm 0) Hv). cbn [orb].
  destruct (walk_and_write c d vm pp) as [pos pp']. cbn [fst snd]. by destruct (pos =? DIR_BUF).
Qed.

(** [build_path] leaves the path of the (dentry, mount) pair. *)
Lemma build_path_path ns d m l out (s : st M) :
  holds_ns c ns → path_slots ns true d m l → scratch_ok s → d ≠ 0 → field m off_mount_mnt ≠ 0 →
  length out = PATH_LEN →
  cstr (eval (build_path c d (field m off_mount_mnt) out) s)
  = list.take 255 (slots_path (list.take MAX_DEPTH l)).
Proof.
  intros Hns Hp (pp & Hpp & Hok) Hd Hv Hout. rewrite (build_path_ret _ _ _ _ pp) by done.
  destruct (walk_and_write_path c ns Hns d m l pp Hp Hok) as [Hw Hz]. cbv zeta in *.
  destruct (_ =? DIR_BUF).
  - rewrite <- Hw. unfold PATH_LEN in Hout. do 2 (destruct out; [done|]). reflexivity.
  - rewrite Hw, cstr_str_copy, Hout by done. done.
Qed.

(** The (dentry, mount) pair a descriptor of an *at syscall names. *)
Definition dir_target (dfd d m : Z) : Prop :=
  if dfd =? AT_FDCWD then
    let fs := BPF_CORE_READ (cx_read_kernel c) 8 (cx_task c) off_task_fs [] in
    BPF_CORE_READ (cx_read_kernel c) 8 fs (off_fs_pwd + off_path_dentry) [] = d ∧
    BPF_CORE_READ (cx_read_kernel c) 8 fs (off_fs_pwd + off_path_mnt) [] = field m off_mount_mnt
  else
    let f := fd_file c dfd in
    f ≠ 0 ∧ file_dentry c f = d ∧ file_mnt c f = field m off_mount_mnt.

Lemma dir_of_path ns dfd d m l out (s : st M) :
  holds_ns c ns → dir_target dfd d m → path_slots ns true d m l → scratch_ok s → d ≠ 0 →
  field m off_mount_mnt ≠ 0 → length out = PATH_LEN →
  cstr (eval (dir_of c dfd out) s) = list.take 255 (slots_path (list.take MAX_DEPTH l)).
Proof.
  unfold dir_target, dir_of. intros Hns Ht. destruct (dfd =? AT_FDCWD); cbv zeta in *.
  - destruct Ht as [-> ->]. by apply build_path_path.
  - destruct Ht as (Hf & -> & ->). rewrite (proj2 (Z.eqb_neq _ 0) Hf). by apply build_path_path.
Qed.

(** The descriptor table of the current task. *)
Definition holds_fds (fds : list Z) : Prop :=
  let fdt := BPF_CORE_READ (cx_read_kernel c) 8 (cx_task c) off_task_files [off_files_fdt] in
  let arr := BPF_CORE_READ (cx_read_kernel c) 8 fdt off_fdtable_fd [] in
  BPF_CORE_READ (cx_read_kernel c) 4 fdt off_fdtable_max_fds [] = Z.of_nat (length fds) ∧
  ∀ i f, fds !! i = Some f → le_val (snd (cx_read_kernel c (field arr (8 * Z.of_nat i)) 8)) = f.

Lemma fd_file_lookup fds fd :
  holds_fds fds → - 2 ^ 31 ≤ fd < 2 ^ 31 →
  fd_file c fd = if fd <? 0 then 0 else default 0 (fds !! Z.to_nat fd).
Proof.
  unfold holds_fds, fd_file. cbv zeta. intros [Hmax Hfd] Hr. rewrite Hmax.
  destruct (Z.ltb_spec fd 0); [done|]. cbn [orb]. rewrite u32_small by lia.
  destruct (Z.leb_spec (Z.of_nat (length fds)) fd).
  - by rewrite lookup_ge_None_2 by lia.
  - destruct (lookup_lt_is_Some_2 fds (Z.to_nat fd) ltac:(lia)) as [f Hf]. rewrite Hf. cbn.
    rewrite <- (Hfd _ _ Hf). rewrite Z2Nat.id by lia. done.
Qed.
End directories.

(** C15. A name relative to the working directory or to a descriptor is
    reported with that directory's absolute path: its names joined from the
    root of the mount namespace across mount points, at most 16 steps of at
    most 127 bytes each, cut to the 255 bytes that fit.  For an absolute name
    the directory is left as it was. *)
Theorem relative_name_gets_its_directory {KL : KernelLayout} {M : Type} (c : ctx) ns
    (path : list Z) dfd d m l out (s : st M) :
  ctx_ok c → holds_ns c ns → dir_target c dfd d m → path_slots ns true d m l → scratch_ok c s →
  d ≠ 0 → field m off_mount_mnt ≠ 0 → length out = PATH_LEN →
  (nth 0 path 0 = SLASH → rel_dir c path dfd out s = (out, s)) ∧
  (nth 0 path 0 ≠ SLASH →
   cstr (eval (rel_dir c path dfd out) s) = list.take 255 (slots_path (list.take MAX_DEPTH l))).
Proof.
  intros Hc Hns Ht Hp Hs Hd Hv Hout. unfold rel_dir. split.
  - intros ->. by rewrite Z.eqb_refl.
  - intros Hne%Z.eqb_neq. rewrite Hne. by eapply dir_of_path.
Qed.

Lemma relative_name_gets_its_directory_witness :
  let c := demo_ctx 0 500 500 1000 0 0 0 0 in
  let s : st (gmap Z pending) := st_init ∅ 1 in
  (nth 0 (zs "notes.txt") 0 = SLASH → rel_dir c (zs "notes.txt") AT_FDCWD (zeros 256) s = (zeros 256, s)) ∧
  (nth 0 (zs "notes.txt") 0 ≠ SLASH →
   cstr (eval (rel_dir c (zs "notes.txt") AT_FDCWD (zeros 256)) s)
   = list.take 255 (slots_path (list.take MAX_DEPTH [zs "etc"]))).
Proof.
  apply (relative_name_gets_its_directory (demo_ctx 0 500 500 1000 0 0 0 0) demo_ns _ AT_FDCWD
           0x1100 0x2000).
  - apply demo_ctx_ok.
  - apply demo_holds.
  - split; vm_compute; reflexivity.
  - apply (slots_up _ _ _ _ (Mount 0x1000 0x2000 0x1000) (Dentry 0x1000 (zs "etc") 11 0x800001));
      [reflexivity|reflexivity|done|done|].
    by apply (slots_root _ _ _ _ (Mount 0x1000 0x2000 0x1000)).
  - exists pp_zero. split; [reflexivity|split; reflexivity].
  - done.
  - vm_compute. done.
  - reflexivity.
Defined.

(** A descriptor names the file of its slot of the task's table: no file
    for a negative descriptor, for one past the table whatever memory holds
    there, or for an empty slot. *)
Theorem fd_file_is_the_table_entry {KL : KernelLayout} (c : ctx) fds fd :
  holds_fds c fds → - 2 ^ 31 ≤ fd < 2 ^ 31 →
  fd_file c fd = if fd <? 0 then 0 else default 0 (fds !! Z.to_nat fd).
Proof. apply fd_file_lookup. Qed.

Lemma fd_file_is_the_table_entry_witness :
  let c := demo_ctx 0 500 500 1000 0 0 0 0 in
  fd_file c 3 = 0x4100 ∧
  fd_file c (-1) = if -1 <? 0 then 0 else default 0 ([0; 0x4000; 0x4000; 0x4100] !! Z.to_nat (-1)).
Proof.
  split; [vm_compute; reflexivity|].
  apply (fd_file_is_the_table_entry (demo_ctx 0 500 500 1000 0 0 0 0) [0; 0x4000; 0x4000; 0x4100]); [|lia].
  split; [vm_compute; reflexivity|].
  intros i f Hi. do 4 (destruct i as [|i]; [cbn in Hi; simplify_eq; vm_compute; reflexivity|]). done.
Defined.

(** ** Id changes, from the syscall to the agent's log line *)

(** [signedID] of event.go; the number it prints. *)
Definition signedID (v : Z) : Z := if u32 v =? 0xffffffff then -1 else u32 v.

(** The ids [privilegeLine] of event.go prints for a set*id record. *)
Definition privilege_ids (arg0 arg1 arg2 : Z) : list Z :=
  signedID (Z.land arg1 0xffffffff) ::
    (if (arg0 =? 2) || (arg0 =? 5) then [signedID (Z.shiftr arg1 32)]
     else if (arg0 =? 3) || (arg0 =? 6) then [signedID (Z.shiftr arg1 32); signedID arg2]
     else []).

(** The set*id programs, and how many ids each call has. *)
Definition setid_argc (x : exit_probe) : option nat :=
  match x with
  | X_setuid | X_setgid => Some 1%nat
  | X_setreuid | X_setregid => Some 2%nat
  | X_setresuid | X_setresgid => Some 3%nat
  | _ => None
  end.

Lemma pack_low a h : 0 ≤ a < 2 ^ 32 → 0 ≤ h < 2 ^ 32 →
  Z.lor a (u64 (Z.shiftl h 32)) = a + h * 2 ^ 32.
Proof.
  intros Ha Hh. unfold u64, wrap. rewrite Z.shiftl_mul_pow2, Z.mod_small by lia.
  enough (Z.land a (h * 2 ^ 32) = 0) by (pose proof (Z.add_lor_land a (h * 2 ^ 32)); lia).
  apply Z.bits_inj'. intros i Hi. rewrite Z.land_spec, Z.bits_0.
  destruct (Z.ltb_spec i 32).
  - rewrite Z.mul_pow2_bits_low by lia. apply andb_false_r.
  - rewrite <- (wrap_small 32 a Ha), testbit_wrap by lia.
    by rewrite (proj2 (Z.ltb_ge i 32)) by lia.
Qed.

Lemma unpack_low a h : 0 ≤ a < 2 ^ 32 → 0 ≤ h < 2 ^ 32 →
  Z.land (a + h * 2 ^ 32) 0xffffffff = a ∧ Z.shiftr (a + h * 2 ^ 32) 32 = h.
Proof.
  intros Ha Hh. change 0xffffffff with (Z.ones 32). rewrite Z.land_ones by lia.
  rewrite Z_mod_plus_full, Z.mod_small by lia. split; [done|].
  rewrite Z.shiftr_div_pow2, Z.div_add, Z.div_small by lia. lia.
Qed.

Lemma existsb_zero_map {A} (g : A → Z) l :
  existsb (Z.eqb 0) (map g l) = existsb (λ i, g i =? 0) l.
Proof.
  induction l as [|i l IH]; [done|]. cbn [map existsb]. by rewrite IH, (Z.eqb_sym (g i)).
Qed.

(** An id change is reported with the ids of the call and the ids the
    caller had before it: for each of the six set*id calls, if the entry
    stashed something, the agent unpacks from the record exactly the call's
    arguments as 32-bit ids (-1 for "unchanged"), and the record's uid and
    euid are those of the entry. *)
Theorem setid_record_roundtrip {KL : KernelLayout} {M : Type} (b : build) (c c' : ctx) x n a p ret e0
    (s : st M) :
  setid_argc x = Some n → enter_pending c b (exit_probe_nr b x) a = Some p →
  let e := eval (exit_fill (M := M) c' x ret p (fresh_event c' (exit_kind x) e0)) s in
  privilege_ids (ev_arg0 e) (ev_arg1 e) (ev_arg2 e)
  = map (λ i, signedID (sysarg a i)) (seq 0 n) ∧
  ev_uid e = cx_uid c ∧ ev_euid e = task_euid c ∧
  existsb (λ i, u32 (sysarg a i) =? 0) (seq 0 n) = true.
Proof.
  intros Hn Hp e.
  assert (Hr : ∀ i, 0 ≤ u32 (sysarg a i) < 2 ^ 32) by (intros; apply u32_range).
  assert (H32 : ∀ v, u32 (u32 v) = u32 v) by (intros; apply wrap_wrap).
  assert (Hs : ∃ which ids, setid_pending c which ids = Some p ∧ length ids = n ∧
    ids = map (λ i, u32 (sysarg a i)) (seq 0 n) ∧ e = eval (exit_fill (M := M) c' x ret p
      (fresh_event c' (exit_kind x) e0)) s ∧
    ((n = 1)%nat ∧ (which = 1 ∨ which = 4) ∨ (n = 2)%nat ∧ (which = 2 ∨ which = 5) ∨
     (n = 3)%nat ∧ (which = 3 ∨ which = 6))).
  { destruct x; try done; cbn in Hn; injection Hn as <-; destruct b; cbn in Hp;
      eexists _, _; (split; [exact Hp|]); cbn; unfold ID_SETUID, ID_SETREUID, ID_SETRESUID,
        ID_SETGID, ID_SETREGID, ID_SETRESGID; auto 10. }
  destruct Hs as (which & ids & Hids & Hlen & Heq & _ & Hw).
  unfold setid_pending in Hids. destruct (cx_uid c =? 0); [done|]. cbn [orb] in Hids.
  destruct (existsb (Z.eqb 0) ids) eqn:Ez; [|done]. injection Hids as <-.
  assert (Hfill : ev_arg0 e = which ∧ ev_arg1 e
            = Z.lor (nth 0 ids 0) (u64 (Z.shiftl (nth 1 ids 0) 32)) ∧ ev_arg2 e = nth 2 ids 0 ∧
          ev_uid e = cx_uid c ∧ ev_euid e = task_euid c).
  { subst e. destruct x; done. }
  destruct Hfill as (-> & -> & -> & -> & ->).
  assert (Hz : existsb (λ i, u32 (sysarg a i) =? 0) (seq 0 n) = true).
  { rewrite Heq in Ez. by rewrite existsb_zero_map in Ez. }
  split; [|done]. rewrite Heq. unfold privilege_ids.
  destruct Hw as [[-> [->| ->]]|[[-> [->| ->]]|[-> [->| ->]]]]; cbn [seq map nth];
    rewrite pack_low by first [apply Hr|lia]; unfold signedID;
    rewrite ?(proj1 (unpack_low _ _ (Hr _) (Hr _))), ?(proj2 (unpack_low _ _ (Hr _) (Hr _)));
    rewrite ?H32; try reflexivity.
  all: rewrite (proj1 (unpack_low _ 0 (Hr _) ltac:(lia))), H32; reflexivity.
Qed.

Lemma setid_record_roundtrip_witness :
  let c := demo_ctx 0 500 500 1000 0 0 0 0 in
  let a := [u64 (-1); 0; u64 (-1); 0] in
  let p := Pending K_SETID 0 [3; 0xffffffff; 0; 0xffffffff] 1000 1000 in
  let e := eval (exit_fill (M := gmap Z pending) c X_setresuid 0 p
                   (fresh_event c (exit_kind X_setresuid)
                     (SensorEvent 0 0 0 0 0 0 0 0 0 0 0 0 0 [] [] [] [] []))) (st_init ∅ 1) in
  map (λ i, signedID (sysarg a i)) (seq 0 3) = [-1; 0; -1] ∧
  privilege_ids (ev_arg0 e) (ev_arg1 e) (ev_arg2 e) = map (λ i, signedID (sysarg a i)) (seq 0 3) ∧
  ev_uid e = cx_uid c ∧ ev_euid e = task_euid c ∧
  existsb (λ i, u32 (sysarg a i) =? 0) (seq 0 3) = true.
Proof.
  split; [vm_compute; reflexivity|].
  apply (setid_record_roundtrip X86); vm_compute; reflexivity.
Defined.

(** ** File records *)

(** The directory descriptor, name and flags of an open or unlink call, by
    the program that reports it. *)
Definition file_call (x : exit_probe) (a : list Z) : option (Z * Z * Z) :=
  match x with
  | X_openat | X_unlinkat => Some (s64 (sysarg a 0), sysarg a 1, s64 (sysarg a 2))
  | X_open => Some (AT_FDCWD, sysarg a 0, s64 (sysarg a 1))
  | X_creat => Some (AT_FDCWD, sysarg a 0, Z.lor (Z.lor O_CREAT O_WRONLY) O_TRUNC)
  | X_unlink => Some (AT_FDCWD, sysarg a 0, 0)
  | X_rmdir => Some (AT_FDCWD, sysarg a 0, AT_REMOVEDIR)
  | _ => None
  end.

Section file_records.
Context {KL : KernelLayout} {M : Type}.

Lemma file_call_pending c b x a p dfd name flags :
  file_call x a = Some (dfd, name, flags) → enter_pending c b (exit_probe_nr b x) a = Some p →
  p = Pending (exit_kind x) 0 [u64 dfd; name; u64 flags; 0] 0 0.
Proof.
  intros Hx Hp. destruct x; try done; cbn in Hx; injection Hx as <- <- <-; destruct b; cbn in Hp;
    unfold open_pending, unlink_pending in Hp; repeat case_match; by simplify_eq.
Qed.

Lemma nth_str_copy dst str :
  (1 < length dst)%nat → nth 0 (snd (str_copy dst str)) 0 = nth 0 str 0.
Proof.
  intros Hd. unfold str_copy; cbn [snd]. destruct str as [|ch str].
  - by rewrite take_nil.
  - by destruct (length dst - 1)%nat eqn:E; [lia|].
Qed.

(** The name is read into the record, the directory only when the name
    does not start at the root. *)
Lemma fill_open_result c ret dfd name flags e0 str (s : st M) kind p :
  p = Pending kind 0 [u64 dfd; name; u64 flags; 0] 0 0 → event_ok e0 → ustr_at c name str →
  let e1 := fresh_event c kind e0 in
  let e := eval (fill_open (M := M) c ret p e1) s in
  ev_ret e = ret ∧ ev_dfd e = s32 dfd ∧ ev_arg0 e = u64 flags ∧
  cstr (ev_path e) = list.take 255 str ∧ cstr (ev_path2 e) = [] ∧
  ev_dir e = (if nth 0 str 0 =? SLASH then ev_dir e1
              else eval (dir_of (M := M) c (s32 dfd) (ev_dir e1)) s).
Proof.
  intros -> [H1 H2 H3 H4] [Hz Hu] e1 e.
  assert (L1 : length (ev_path e1) = PATH_LEN) by (cbn; by rewrite length_insert).
  assert (Hp : read_path c name (ev_path e1) = snd (str_copy (ev_path e1) str)).
  { unfold read_path. rewrite Hu; [done|]. rewrite L1. unfold PATH_LEN. lia. }
  assert (Hd : s32 (u64 dfd) = s32 dfd) by (apply swrap_wrap; lia).
  assert (He : ev_ret e = ret ∧ ev_dfd e = s32 (u64 dfd) ∧ ev_arg0 e = u64 flags ∧
    ev_path e = read_path c name (ev_path e1) ∧ ev_path2 e = ev_path2 e1 ∧
    ev_dir e = eval (rel_dir (M := M) c (read_path c name (ev_path e1)) (s32 (u64 dfd)) (ev_dir e1)) s).
  { subst e e1. destruct e0. unfold fill_open. cbv zeta. run_prog. split_and!; reflexivity. }
  destruct He as (-> & -> & -> & -> & -> & ->). rewrite Hd, Hp. split_and!; try done.
  - rewrite cstr_str_copy, L1 by done. done.
  - cbn. destruct (ev_path2 e0); done.
  - unfold rel_dir. rewrite nth_str_copy by (rewrite L1; unfold PATH_LEN; lia).
    by destruct (_ =? SLASH).
Qed.
End file_records.

(** What a file record says is what the call did: for every open and
    unlink call, the completed record holds the call's result, its directory
    descriptor with its sign (AT_FDCWD stays -100 through the 64-bit stash),
    its flags, the name as user memory holds it, cut to 255 bytes, and a
    directory exactly when the name is relative. *)
Theorem file_record_says_the_call {KL : KernelLayout} {M : Type} (b : build) (c c' : ctx) x a p
    dfd name flags str ret e0 (s : st M) :
  file_call x a = Some (dfd, name, flags) → enter_pending c b (exit_probe_nr b x) a = Some p →
  - 2 ^ 31 ≤ dfd < 2 ^ 31 → event_ok e0 → ustr_at c' name str →
  let e1 := fresh_event c' (exit_kind x) e0 in
  let e := eval (exit_fill (M := M) c' x ret p e1) s in
  ev_kind e = exit_kind x ∧ ev_ret e = ret ∧ ev_dfd e = dfd ∧ ev_arg0 e = u64 flags ∧
  cstr (ev_path e) = list.take 255 str ∧
  (nth 0 str 0 = SLASH → cstr (ev_dir e) = []) ∧
  (nth 0 str 0 ≠ SLASH → ev_dir e = eval (dir_of (M := M) c' dfd (ev_dir e1)) s).
Proof.
  intros Hx Hp Hdfd He0 Hu e1 e.
  assert (Hk : ev_kind e = exit_kind x).
  { pose proof (exit_fill_who c' x ret p e1 s) as H. unfold ev_who in H. fold e in H. cbn in H.
    congruence. }
  assert (Hf : e = eval (fill_open (M := M) c' ret p e1) s) by (subst e; by destruct x).
  assert (Hs : s32 dfd = dfd) by (apply swrap_small; lia).
  apply (file_call_pending c b x a p dfd name flags Hx) in Hp.
  destruct (fill_open_result c' ret dfd name flags e0 str s (exit_kind x) p Hp He0 Hu)
    as (R1 & R2 & R3 & R4 & _ & R6).
  fold e1 in R1, R2, R3, R4, R6. rewrite <- Hf in R1, R2, R3, R4, R6. rewrite Hs in R2, R6.
  split_and!; try done; intros Hn.
  - rewrite R6, Hn. cbn. by destruct (ev_dir e0).
  - rewrite R6. apply Z.eqb_neq in Hn. by rewrite Hn.
Qed.

Lemma file_record_says_the_call_witness :
  let c := demo_ctx 0 500 500 1000 0 0 0 0 in
  let p := Pending K_OPEN 0 [u64 (-100); 0x10100; 1; 0] 0 0 in
  let e0 := SensorEvent 0 0 0 0 0 0 0 0 0 0 0 0 0 [] (zeros 256) (zeros 256) (zeros 256) (zeros 256) in
  let s : st (gmap Z pending) := st_init ∅ 1 in
  let e1 := fresh_event c (exit_kind X_openat) e0 in
  let e := eval (exit_fill (M := gmap Z pending) c X_openat 5 p e1) s in
  cstr (ev_dir e) = zs "/etc" ∧
  ev_kind e = exit_kind X_openat ∧ ev_ret e = 5 ∧ ev_dfd e = -100 ∧ ev_arg0 e = u64 1 ∧
  cstr (ev_path e) = list.take 255 (zs "notes.txt") ∧
  (nth 0 (zs "notes.txt") 0 = SLASH → cstr (ev_dir e) = []) ∧
  (nth 0 (zs "notes.txt") 0 ≠ SLASH →
   ev_dir e = eval (dir_of (M := gmap Z pending) c (-100) (ev_dir e1)) s).
Proof.
  split; [vm_compute; reflexivity|].
  apply (file_record_says_the_call X86 (demo_ctx 0 500 500 1000 0 0 0 0) _ X_openat
           [u64 (-100); 0x10100; 1; 0] _ (-100) 0x10100 1).
  - vm_compute. reflexivity.
  - vm_compute. reflexivity.
  - lia.
  - split; reflexivity.
  - apply image_ustr_at; [vm_compute; reflexivity|]. by apply zs_no_nul.
Defined.

(** ** Process exec and exit records *)

Section exec_records.
Context {KL : KernelLayout} {M : Type} `{HM : !LruHash M Z pending}.

(** The address of the executable's name, as [handle_exec] reads it. *)
Definition exe_name_ptr (c : ctx) : Z :=
  BPF_CORE_READ (cx_read_kernel c) 8 (task_exe c) (off_file_f_path + off_path_dentry)
    [off_dentry_d_name + Z.of_nat off_qstr_name].

Lemma is_memfd_true head :
  (6 ≤ length head)%nat → is_memfd head = true ↔ list.take 6 head = zs "memfd:".
Proof.
  intros Hl. do 6 (destruct head as [|? head]; [cbn in Hl; lia|]).
  unfold is_memfd. rewrite !andb_true_iff, !at_true. cbn. split.
  - intros (((((-> & ->) & ->) & ->) & ->) & ->). done.
  - intros [= -> -> -> -> -> ->]. done.
Qed.

Lemma exec_kind_fileless c nm pad :
  (0 ∉ nm) → kmem_at c (exe_name_ptr c) (nm ++ 0 :: pad) → 6 ≤ Z.of_nat (length (nm ++ 0 :: pad)) →
  exec_kind c = K_FILELESS_EXEC ↔ list.take 6 nm = zs "memfd:" ∨ exe_nlink c = 0.
Proof.
  intros Hz Hm Hl. unfold exec_kind.
  assert (Hh : exe_name_head c = list.take 6 (nm ++ 0 :: pad)).
  { unfold exe_name_head. change (BPF_CORE_READ _ _ _ _ _) with (exe_name_ptr c).
    by rewrite (Hm 6%nat) by lia. }
  assert (Hnm : list.take 6 (nm ++ 0 :: pad) = zs "memfd:" ↔ list.take 6 nm = zs "memfd:").
  { destruct (decide (6 ≤ length nm)%nat); [by rewrite take_app_le|]. split; intros H.
    - exfalso. assert (Hin : 0 ∈ list.take 6 (nm ++ 0 :: pad)).
      { rewrite take_app_ge by lia. apply elem_of_app. right.
        destruct (6 - length nm)%nat eqn:E; [lia|]. cbn. apply elem_of_cons. by left. }
      rewrite H in Hin. vm_compute in Hin. set_solver.
    - apply (f_equal length) in H. rewrite length_take in H. change (length (zs "memfd:")) with 6%nat in H. lia. }
  rewrite <- Hnm, <- Hh. destruct (is_memfd (exe_name_head c)) eqn:E; cbn [orb].
  - apply is_memfd_true in E; [|rewrite Hh, length_take; lia].
    rewrite Hh, take_take in E. split; [left; by rewrite Hh|done].
  - split.
    + destruct (Z.eqb_spec (exe_nlink c) 0); [by right|done].
    + intros [H| ->]; [|done]. exfalso. apply not_true_iff_false in E. apply E.
      apply is_memfd_true; [rewrite Hh, length_take; lia|]. by rewrite Hh, take_take in *.
Qed.
End exec_records.

(** C32. An exec of any process but the agent is reported with the path of
    its executable, what was passed to exec, and its link count, and is
    classified exactly: fileless when the executable's name starts with
    "memfd:" or the file has no link left, an ordinary exec otherwise. *)
Theorem exec_record {KL : KernelLayout} {M : Type} `{HM : !LruHash M Z pending} (c : ctx) ns
    d m l nm pad arg_path ctxp loc e0 (s : st M) :
  ctx_ok c → is_self c s = false → event_ok e0 → scratch_ok c s →
  holds_ns c ns → path_slots ns true d m l → d ≠ 0 → field m off_mount_mnt ≠ 0 →
  file_dentry c (task_exe c) = d → file_mnt c (task_exe c) = field m off_mount_mnt →
  (0 ∉ nm) → kmem_at c (exe_name_ptr c) (nm ++ 0 :: pad) → 6 ≤ Z.of_nat (length (nm ++ 0 :: pad)) →
  kstr_at c (field ctxp (Z.land loc 0xFFFF)) arg_path →
  ∃ e, st_events (exec (handle_exec c (Some e0) ctxp loc) s) = st_events s ++ [e] ∧
    (ev_kind e = K_FILELESS_EXEC ↔ list.take 6 nm = zs "memfd:" ∨ exe_nlink c = 0) ∧
    (ev_kind e ≠ K_FILELESS_EXEC → ev_kind e = K_EXEC) ∧
    cstr (ev_path e) = list.take 255 (slots_path (list.take MAX_DEPTH l)) ∧
    cstr (ev_path2 e) = list.take 255 arg_path ∧
    ev_arg0 e = exe_nlink c ∧ ev_tgid e = u32 (cx_tgid c).
Proof.
  intros Hc Hself [L1 L2 L3 L4] Hs Hns Hp Hd Hv Hfd Hfm Hz Hnm Hl [Ha Har].
  destruct (handle_exec_exec c (Some e0) ctxp loc s) as [v ->]. rewrite Hself.
  cbn [up_scratch up_events st_events]. eexists. split; [reflexivity|].
  assert (Hpath : cstr (exec_path c e0 s) = list.take 255 (slots_path (list.take MAX_DEPTH l))).
  { unfold exec_path. rewrite Hfm, Hfd. eapply build_path_path; try done.
    destruct e0; cbn. by rewrite length_insert. }
  set (e := exec_event _ _ _ _ _).
  assert (He : ev_kind e = exec_kind c ∧ ev_path e = exec_path c e0 s ∧ ev_arg0 e = exe_nlink c ∧
    ev_tgid e = u32 (cx_tgid c) ∧
    ev_path2 e = snd (cx_read_kernel_str c (field ctxp (Z.land loc 0xFFFF)) (<[0%nat:=0]> (ev_path2 e0)))).
  { subst e. by destruct e0. }
  destruct He as (-> & -> & -> & -> & ->). rewrite Har by (rewrite length_insert, L2; unfold PATH_LEN; lia).
  rewrite cstr_str_copy, length_insert, L2 by done.
  split; [by eapply exec_kind_fileless|]. split_and!; try done.
  unfold exec_kind. by destruct (_ || _).
Qed.

(** ** Exit status *)

(** [exitLine] of event.go: the exit code and signal it prints. *)
Definition exit_line (arg0 : Z) : Z * Z :=
  let sig := Z.land arg0 0x7f in
  if negb (sig =? 0) then (-1, sig) else (Z.land (Z.shiftr arg0 8) 0xff, 0).

(** The wait status of a process: an exit code, or a signal and whether it
    dumped core. *)
Inductive exit_status := Exited (code : Z) | Killed (sig : Z) (core : bool).

Definition wait_status (w : exit_status) : Z :=
  match w with
  | Exited code => Z.shiftl code 8
  | Killed sig core => Z.lor sig (if core then 0x80 else 0)
  end.

Definition status_ok (w : exit_status) : Prop :=
  match w with Exited code => 0 ≤ code < 256 | Killed sig _ => 0 < sig < 128 end.

(** A process's end is reported once, by its main thread, and the
    agent reads the exit code or the signal from it that the kernel's wait
    status holds; other threads and the agent report nothing. *)
Theorem exit_record {KL : KernelLayout} {M : Type} `{HM : !LruHash M Z pending} (c : ctx) slot w (s : st M) :
  status_ok w →
  BPF_CORE_READ (cx_read_kernel c) 4 (cx_task c) off_task_exit_code [] = wait_status w →
  (cx_pid c ≠ cx_tgid c ∨ is_self c s = true → exec (handle_exit c slot) s = s) ∧
  (cx_pid c = cx_tgid c → is_self c s = false → ∀ e0, slot = Some e0 →
   ∃ e, st_events (exec (handle_exit c slot) s) = st_events s ++ [e] ∧ ev_kind e = K_EXIT ∧
     ev_tgid e = u32 (cx_tgid c) ∧
     exit_line (ev_arg0 e) = match w with Exited code => (code, 0) | Killed sig _ => (-1, sig) end).
Proof.
  intros Hw Hr. rewrite handle_exit_exec. split.
  - intros [Hne%Z.eqb_neq| ->]; [by rewrite Hne|]. by rewrite orb_true_r.
  - intros -> -> e0 ->. rewrite Z.eqb_refl. cbn [negb orb up_events st_events].
    eexists. split; [reflexivity|].
    assert (Ha : 0 ≤ wait_status w < 2 ^ 16).
    { destruct w as [code|sig core]; cbn in *.
      - rewrite Z.shiftl_mul_pow2; lia.
      - destruct core; [|rewrite Z.lor_0_r; lia].
        pose proof (Z.add_lor_land sig 128). pose proof (proj2 (Z.lor_nonneg sig 128)).
        pose proof (proj2 (Z.land_nonneg sig 128)). lia. }
    assert (He : ev_arg0 (exit_event c e0) = wait_status w).
    { replace (ev_arg0 (exit_event c e0)) with
        (u64 (s32 (BPF_CORE_READ (cx_read_kernel c) 4 (cx_task c) off_task_exit_code [])))
        by (by destruct e0).
      rewrite Hr. unfold s32. rewrite swrap_small by lia. apply u64_small. lia. }
    rewrite He. split; [by destruct e0|]. split; [by destruct e0|].
    clear - Hw. unfold exit_line. destruct w as [code|sig core]; cbn [wait_status status_ok] in *.
    + replace (Z.land (Z.shiftl code 8) 127) with 0.
      2: { change 127 with (Z.ones 7). rewrite Z.land_ones, Z.shiftl_mul_pow2 by lia.
           change (2 ^ 8) with (2 * 2 ^ 7). by rewrite Z.mul_assoc, Z.mod_mul by lia. }
      cbn [negb Z.eqb]. rewrite Z.shiftr_shiftl_l by lia. cbn [Z.sub Z.opp Z.add Z.pos_sub Pos.pred_double].
      change (Z.shiftl code (8 - 8)) with code.
      change 255 with (Z.ones 8). rewrite Z.land_ones, Z.mod_small by lia. done.
    + assert (Hs : Z.land (Z.lor sig (if core then 128 else 0)) 127 = sig).
      { rewrite Z.land_lor_distr_l. replace (Z.land (if core then 128 else 0) 127) with 0 by (by destruct core).
        rewrite Z.lor_0_r. change 127 with (Z.ones 7). rewrite Z.land_ones, Z.mod_small by lia. done. }
      rewrite Hs. by rewrite (proj2 (Z.eqb_neq sig 0)) by lia.
Qed.

Definition demo_record : sensor_event :=
  SensorEvent 9 9 9 9 9 9 9 9 9 9 9 9 9 (zeros 16) (replicate PATH_LEN 9) (replicate PATH_LEN 9)
    (replicate PATH_LEN 9) (replicate PATH_LEN 9).

(** The demo task runs "/etc/shadow"; "memfd:x" is what was passed to exec. *)
Lemma exec_record_witness :
  let c := demo_ctx 0 500 500 1000 0 0 0 0 in
  let s : st (gmap Z pending) := st_init ∅ 1 in
  ∃ e, st_events (exec (handle_exec c (Some demo_record) 0xA000 0x1000) s) = st_events s ++ [e] ∧
    (ev_kind e = K_FILELESS_EXEC ↔ list.take 6 (zs "shadow") = zs "memfd:" ∨ exe_nlink c = 0) ∧
    (ev_kind e ≠ K_FILELESS_EXEC → ev_kind e = K_EXEC) ∧
    cstr (ev_path e) = list.take 255 (slots_path (list.take MAX_DEPTH [zs "shadow"; zs "etc"])) ∧
    cstr (ev_path2 e) = list.take 255 (zs "memfd:x") ∧
    ev_arg0 e = exe_nlink c ∧ ev_tgid e = u32 (cx_tgid c).
Proof.
  apply (exec_record (demo_ctx 0 500 500 1000 0 0 0 0) demo_ns 0x1200 0x2000 _ _ []).
  - apply demo_ctx_ok.
  - vm_compute. reflexivity.
  - split; reflexivity.
  - exists pp_zero. split; [reflexivity|split; reflexivity].
  - apply demo_holds.
  - apply (slots_up _ _ _ _ (Mount 0x1000 0x2000 0x1000) (Dentry 0x1100 (zs "shadow") 12 0x800001));
      [reflexivity|reflexivity|done|done|].
    apply (slots_up _ _ _ _ (Mount 0x1000 0x2000 0x1000) (Dentry 0x1000 (zs "etc") 11 0x800001));
      [reflexivity|reflexivity|done|done|].
    by apply (slots_root _ _ _ _ (Mount 0x1000 0x2000 0x1000)).
  - done.
  - vm_compute. done.
  - vm_compute. reflexivity.
  - vm_compute. reflexivity.
  - by apply zs_no_nul.
  - apply image_kmem_at. vm_compute. reflexivity.
  - vm_compute. done.
  - apply image_kstr_at; [vm_compute; reflexivity|]. by apply zs_no_nul.
Defined.

(** The demo task died of signal 11 and dumped core. *)
Lemma exit_record_witness :
  let c := demo_ctx 0 500 500 1000 0 0 0 0 in
  let s : st (gmap Z pending) := st_init ∅ 1 in
  (cx_pid c ≠ cx_tgid c ∨ is_self c s = true → exec (handle_exit c (Some demo_record)) s = s) ∧
  (cx_pid c = cx_tgid c → is_self c s = false → ∀ e0, Some demo_record = Some e0 →
   ∃ e, st_events (exec (handle_exit c (Some demo_record)) s) = st_events s ++ [e] ∧ ev_kind e = K_EXIT ∧
     ev_tgid e = u32 (cx_tgid c) ∧ exit_line (ev_arg0 e) = (-1, 11)).
Proof.
  apply (exit_record (demo_ctx 0 500 500 1000 0 0 0 0) (Some demo_record) (Killed 11 true));
    [split; lia|vm_compute; reflexivity].
Defined.

(** ** Opens that are not reported *)

(** An open that is neither for writing nor sensitive leaves no record,
    and is not told apart from a lost one: its entry changes nothing and its
    exit counts one missing entry. *)
Theorem unreported_open_counts_as_missing {KL : KernelLayout} {M : Type}
    `{HM : !LruHash M Z pending} (c c' : ctx) slot dfd name flags x ret (s : st M) :
  Z.land flags O_WRITE = 0 → sensitive_read c name = false → cx_pid_tgid c' = cx_pid_tgid c →
  hash_lookup (st_pending s) (cx_pid_tgid c) = None →
  let s1 := exec (open_enter c dfd name flags) s in
  s1 = s ∧
  exec (run_exit c' slot x ret) s1
  = up_stats (incr (st_stats s) (cx_cpu c') ST_MISSING) s.
Proof.
  intros Hf Hs Hk Hl s1.
  assert (s1 = s) as ->.
  { subst s1. rewrite (exec_pair _ _ _ _ (open_enter_run c dfd name flags s)).
    unfold open_pending. by rewrite Hf, Hs. }
  split; [done|]. destruct (run_exit_result c' slot x ret s) as [|? E|? E|? ? ? E];
    [done|rewrite Hk in E; congruence..].
Qed.

Lemma unreported_open_counts_as_missing_witness :
  let c := demo_ctx 0 500 500 1000 0 0 0 0 in
  let s : st (gmap Z pending) := st_init ∅ 1 in
  let s1 := exec (open_enter c AT_FDCWD 0x10100 0) s in
  s1 = s ∧ exec (run_exit c None X_openat 3) s1 = up_stats (incr (st_stats s) 0 ST_MISSING) s.
Proof.
  apply (unreported_open_counts_as_missing (demo_ctx 0 500 500 1000 0 0 0 0)
           (demo_ctx 0 500 500 1000 0 0 0 0) None AT_FDCWD 0x10100 0 X_openat 3
           (st_init (∅ : gmap Z pending) 1)); vm_compute; reflexivity.
Defined.
