(* ===== verification/Prevent.v ===== *)
(** * prevent.bpf.c: execution prevention (BPF LSM)

    [check_exec] runs before a program is executed and may refuse it;
    [enter_prctl] learns the agent's process id.  [pst] is what the maps
    hold; the agent loads the rule maps (see [PreventPolicy]), the programs
    write the decisions, the scratch and the agent's id.  [slot] is whether
    bpf_ringbuf_reserve returns a record in this run; every member of the
    record is written before it is submitted, so its old contents do not
    matter. *)
From Stdlib Require Import ZArith Lia Ascii String.
From stdpp Require Import base tactics list gmap.
From S2P Require Import Prelude.
From S2P Require Import Kernel.
From S2P Require Import CoreRead.
From S2P Require Import Tracing.
From S2P Require Import PathWalk.
Local Open Scope Z_scope.

Module Prevent.

(** ** Constants *)

Definition EPERM_ : Z := 1.
Definition NAME_LEN : nat := 32.
Definition MAX_RULES : nat := 1024.
Definition MAX_PARENT : nat := 64.
Definition ACT_DETECT : Z := 1.
Definition ACT_BLOCK : Z := 2.
Definition HAS_PATH : Z := 1.
Definition HAS_DIR : Z := 2.
Definition HAS_PARENT : Z := 4.
Definition SELF_MAGIC : Z := 0x50524556.

(** ** Data *)

Record dir_key := DirKey { dk_ino : Z; dk_dev : Z; dk_pad : Z }.

#[export] Instance dir_key_eq_dec : EqDecision dir_key.
Proof. solve_decision. Defined.

#[export] Instance dir_key_countable : Countable dir_key.
Proof.
  apply (inj_countable' (λ k, (dk_ino k, dk_dev k, dk_pad k)) (λ '(i, d, p), DirKey i d p)).
  by intros [].
Defined.

Record decision := Decision {
  dec_ts : Z;
  dec_pid : Z;
  dec_tgid : Z;
  dec_ppid : Z;
  dec_uid : Z;
  dec_rule : Z;
  dec_action : Z;
  dec_comm : list Z;    (* char[16] *)
  dec_path : list Z;    (* char[PATH_LEN] *)
  dec_parent : list Z;  (* char[NAME_LEN] *)
}.

(** [struct scratch]: the walk's part and the three buffers. *)
Record scratch := Scratch {
  sc_parts : path_parts;
  sc_key : list Z;     (* char[PATH_LEN] *)
  sc_base : list Z;    (* char[NAME_LEN] *)
  sc_pbase : list Z;   (* char[NAME_LEN] *)
}.

(** The maps of the object. *)
Record pst := Pst {
  rule_action : list Z;               (* ARRAY[MAX_RULES] *)
  deny_path : gmap (list Z) Z;        (* HASH *)
  deny_dir : gmap dir_key Z;          (* HASH *)
  parent_mask : gmap (list Z) Z;      (* HASH *)
  child_mask : gmap (list Z) Z;       (* HASH *)
  parent_rule : list Z;               (* ARRAY[MAX_PARENT] *)
  prevent_config : list Z;            (* ARRAY[2]: loaded rule kinds, agent's tgid *)
  decisions : list decision;          (* ring buffer, oldest first *)
  scratch_map : list (list scratch);  (* PERCPU_ARRAY[1] *)
}.

Definition up_config (v : list Z) (s : pst) : pst :=
  Pst (rule_action s) (deny_path s) (deny_dir s) (parent_mask s) (child_mask s) (parent_rule s)
    v (decisions s) (scratch_map s).
Definition up_decisions (v : list decision) (s : pst) : pst :=
  Pst (rule_action s) (deny_path s) (deny_dir s) (parent_mask s) (child_mask s) (parent_rule s)
    (prevent_config s) v (scratch_map s).
Definition up_scratch_map (v : list (list scratch)) (s : pst) : pst :=
  Pst (rule_action s) (deny_path s) (deny_dir s) (parent_mask s) (child_mask s) (parent_rule s)
    (prevent_config s) (decisions s) v.

(** ** Operations *)

Section prevent.
Context {KL : KernelLayout} (c : ctx).

Let rd := cx_read_kernel c.

(** The path of (d, vm) over a cleared buffer, and the scratch after it. *)
Definition build_path (pp : path_parts) (d vm : Z) : list Z * path_parts :=
  let '(pos, pp) := walk_and_write c d vm pp in
  let out := zeros PATH_LEN in
  if pos =? DIR_BUF then (<[0%nat := SLASH]> out, pp)
  else (snd (str_copy out (buf_str pos pp)), pp).

(** [d_name.name] is one access of two nested members. *)
Definition basename_of (d : Z) : list Z :=
  let name := BPF_CORE_READ rd 8 d (off_dentry_d_name + Z.of_nat off_qstr_name) [] in
  snd (cx_read_kernel_str c name (zeros NAME_LEN)).

Definition key_of (d : Z) : dir_key :=
  DirKey (BPF_CORE_READ rd 8 d off_dentry_d_inode [off_inode_i_ino])
         (BPF_CORE_READ rd 4 d off_dentry_d_sb [off_super_block_s_dev]) 0.

(** The loop of [in_denied_dir], [n] iterations left. *)
Fixpoint denied_loop (deny : gmap dir_key Z) (n : nat) (d vm mnt : Z) : Z :=
  match n with
  | O => -1
  | S n =>
      match deny !! key_of d with
      | Some rule => rule
      | None =>
          let mnt_root := rd_mnt_root c vm in
          let parent := rd_d_parent c d in
          if d =? mnt_root then
            let mp := rd_mnt_parent c mnt in
            if mp =? mnt then -1
            else denied_loop deny n (rd_mnt_mountpoint c mnt) (field mp off_mount_mnt) mp
          else if d =? parent then -1
          else denied_loop deny n parent vm mnt
      end
  end.

Definition in_denied_dir (deny : gmap dir_key Z) (d vm : Z) : Z :=
  let mnt := container_of vm off_mount_mnt in
  let d := rd_d_parent c d in
  denied_loop deny MAX_DEPTH d vm mnt.

(** [for (k = 0; k < MAX_PARENT; k++)]: [n] iterations left, from [k]. *)
Fixpoint mask_loop (rules : list Z) (m : Z) (n : nat) (k : Z) : Z :=
  match n with
  | O => -1
  | S n =>
      if negb (Z.land (Z.shiftr m k) 1 =? 0)
      then match array_lookup rules k with Some rule => rule | None => -1 end
      else mask_loop rules m n (k + 1)
  end.

Definition parent_child_rule (s : pst) (sc : scratch) : Z :=
  match child_mask s !! sc_base sc with
  | None => -1
  | Some cm =>
      match parent_mask s !! sc_pbase sc with
      | None => -1
      | Some pm => mask_loop (parent_rule s) (Z.land cm pm) MAX_PARENT 0
      end
  end.

Definition binprm_file (bprm : Z) : Z := BPF_CORE_READ rd 8 bprm off_linux_binprm_file [].
Definition file_dentry (f : Z) : Z := BPF_CORE_READ rd 8 f (off_file_f_path + off_path_dentry) [].
Definition file_mnt (f : Z) : Z := BPF_CORE_READ rd 8 f (off_file_f_path + off_path_mnt) [].
Definition task_exe_dentry : Z :=
  BPF_CORE_READ rd 8 (cx_task c) off_task_mm
    [off_mm_exe_file; off_file_f_path + off_path_dentry].

(** The three buffers of the run. *)
Definition fill_scratch (bprm : Z) (sc : scratch) : scratch :=
  let f := binprm_file bprm in
  let '(key, pp) := build_path (sc_parts sc) (file_dentry f) (file_mnt f) in
  Scratch pp key (basename_of (file_dentry f)) (basename_of task_exe_dentry).

(** The three lookups, each only when no rule was found before. *)
Definition find_rule (s : pst) (has bprm : Z) (sc : scratch) : Z :=
  let f := binprm_file bprm in
  let rule := -1 in
  let rule := if negb (Z.land has HAS_PATH =? 0)
              then match deny_path s !! sc_key sc with Some r => r | None => rule end
              else rule in
  let rule := if (rule <? 0) && negb (Z.land has HAS_DIR =? 0)
              then in_denied_dir (deny_dir s) (file_dentry f) (file_mnt f) else rule in
  if (rule <? 0) && negb (Z.land has HAS_PARENT =? 0) then parent_child_rule s sc else rule.

Definition make_decision (idx action : Z) (sc : scratch) : decision :=
  Decision (cx_ktime c) (cx_pid c) (u32 (cx_tgid c))
    (BPF_CORE_READ rd 4 (cx_task c) off_task_real_parent [off_task_tgid]) (cx_uid c)
    idx action (cx_comm c) (sc_key sc) (sc_pbase sc).

Definition check_exec (slot : bool) (ctxargs : list Z) : prog pst Z :=
  let bprm := nth 0 (bpf_ctx_cast 1 ctxargs) 0 in
  s ← get;
  match array_lookup (prevent_config s) 0 with
  | None => mret 0
  | Some has =>
      if has =? 0 then mret 0 else
      if match array_lookup (prevent_config s) 1 with
         | Some self => self =? cx_tgid c
         | None => false
         end then mret 0 else
      match percpu_lookup (scratch_map s) (cx_cpu c) 0 with
      | None => mret 0
      | Some sc =>
          let sc := fill_scratch bprm sc in
          put (up_scratch_map (percpu_store (scratch_map s) (cx_cpu c) 0 sc) s);;
          let rule := find_rule s has bprm sc in
          if rule <? 0 then mret 0 else
          let idx := u32 rule in
          let action := match array_lookup (rule_action s) idx with
                        | Some act => act
                        | None => ACT_DETECT
                        end in
          (if slot : bool
           then modify (λ s, up_decisions (decisions s ++ [make_decision idx action sc]) s)
           else mret tt);;
          mret (if action =? ACT_BLOCK then - EPERM_ else 0)
      end
  end.

(** [ctx->args] of the tracepoint. *)
Definition enter_prctl (args : list Z) : prog pst Z :=
  if negb (nth 0 args 0 =? SELF_MAGIC) then mret 0
  else
    s ← get;
    match array_lookup (prevent_config s) 1 with
    | Some self =>
        if self =? 0
        then put (up_config (array_store (prevent_config s) 1 (u32 (cx_tgid c))) s);; mret 0
        else mret 0
    | None => mret 0
    end.
End prevent.

End Prevent.
