(* ===== verification/PreventProps.v ===== *)
(** * What execution prevention decides

    The verdict of [check_exec] against an abstract rule lookup on the
    path, the ancestor directories and the two base names that an abstract
    mount namespace gives for the executed file. *)
From Stdlib Require Import ZArith Lia Ascii String.
From stdpp Require Import base tactics list gmap strings.
From S2P Require Import Prelude.
From S2P Require Import Kernel.
From S2P Require Import CoreRead.
From S2P Require Import Tracing.
From S2P Require Import PathWalk.
From S2P Require Import Scenario.
From S2P Require Import Prevent.
Local Open Scope Z_scope.
Import Prevent.Prevent.

(** ** The rule lookup, abstractly *)

(** A C string in a cleared buffer of [n] bytes: what both the program's
    keys and the agent's ([fixed] of lsm_linux.go) are. *)
Definition fixed (s : list Z) (n : nat) : list Z :=
  let t := take (n - 1) s in t ++ zeros (n - length t).

(** The first bit below [n] that both masks have, from [k]. *)
Fixpoint first_common (cm pm : Z) (n : nat) (k : Z) : option Z :=
  match n with
  | O => None
  | S n => if Z.testbit cm k && Z.testbit pm k then Some k else first_common cm pm n (k + 1)
  end.

Definition spec_parent (s : pst) (base pbase : list Z) : option Z :=
  cm ← child_mask s !! base; pm ← parent_mask s !! pbase;
  k ← first_common cm pm MAX_PARENT 0; array_lookup (parent_rule s) k.

(** Path rules first, then the nearest denied directory, then the
    parent/child rules; [has] says which kinds are loaded. *)
Definition spec_rule (s : pst) (has : Z) (key : list Z) (dirs : list dir_key)
    (base pbase : list Z) : option Z :=
  match (if negb (Z.land has HAS_PATH =? 0) then deny_path s !! key else None) with
  | Some r => Some r
  | None =>
      match (if negb (Z.land has HAS_DIR =? 0)
             then head (omap (λ k, deny_dir s !! k) dirs) else None) with
      | Some r => Some r
      | None => if negb (Z.land has HAS_PARENT =? 0) then spec_parent s base pbase else None
      end
  end.

Definition spec_action (s : pst) (r : Z) : Z :=
  default ACT_DETECT (array_lookup (rule_action s) r).

(** The rule numbers in the maps are 32-bit. *)
Record pst_ok (s : pst) : Prop := {
  po_path k r : deny_path s !! k = Some r → 0 ≤ r < 2 ^ 32;
  po_dir k r : deny_dir s !! k = Some r → 0 ≤ r < 2 ^ 32;
  po_parent k r : parent_rule s !! k = Some r → 0 ≤ r < 2 ^ 32;
}.

(** ** The directories above a file *)

(** The keys of the directories from [d] in mount [m] up to the root of the
    namespace: a directory, and for the root of a mount then the directory
    it is mounted on. *)
Inductive dir_slots (ns : mnt_ns) : Z → Z → list dir_key → Prop :=
  | dirs_root d m mt de :
      ns_mounts ns !! m = Some mt → ns_dentries ns !! d = Some de →
      d = mt_root mt → mt_parent mt = m →
      dir_slots ns d m [DirKey (de_ino de) (de_dev de) 0]
  | dirs_cross d m mt de l :
      ns_mounts ns !! m = Some mt → ns_dentries ns !! d = Some de →
      d = mt_root mt → mt_parent mt ≠ m →
      dir_slots ns (mt_mountpoint mt) (mt_parent mt) l →
      dir_slots ns d m (DirKey (de_ino de) (de_dev de) 0 :: l)
  | dirs_up d m mt de l :
      ns_mounts ns !! m = Some mt → ns_dentries ns !! d = Some de →
      d ≠ mt_root mt → de_parent de ≠ d →
      dir_slots ns (de_parent de) m l →
      dir_slots ns d m (DirKey (de_ino de) (de_dev de) 0 :: l)
  | dirs_detached d m mt de :
      ns_mounts ns !! m = Some mt → ns_dentries ns !! d = Some de →
      d ≠ mt_root mt → de_parent de = d →
      dir_slots ns d m [DirKey (de_ino de) (de_dev de) 0].

Section verdict.
Context {KL : KernelLayout} (c : ctx) {Hc : ctx_ok c} (ns : mnt_ns) (Hns : holds_ns c ns).

(** Kernel memory holds the inode numbers and devices. *)
Definition holds_keys : Prop :=
  ∀ d de, ns_dentries ns !! d = Some de → key_of c d = DirKey (de_ino de) (de_dev de) 0.

Lemma take_first {A B} (f : A → option B) n x l :
  head (omap f (take (S n) (x :: l)))
  = match f x with Some y => Some y | None => head (omap f (take n l)) end.
Proof. cbn. by destruct (f x). Qed.

Lemma denied_loop_slots deny n d m l :
  holds_keys → dir_slots ns d m l →
  denied_loop c deny n d (field m off_mount_mnt) m
  = default (-1) (head (omap (λ k, deny !! k) (take n l))).
Proof.
  intros Hk Hd. revert n.
  induction Hd as [d m mt de Hm Hde Hr Hp|d m mt de l Hm Hde Hr Hp _ IH
    |d m mt de l Hm Hde Hr Hp _ IH|d m mt de Hm Hde Hr Hp]; intros [|n]; try done;
    cbn [denied_loop]; rewrite (Hk _ _ Hde), take_first;
    destruct (deny !! _); try done;
    destruct (hn_mount _ _ Hns _ _ Hm) as (_ & -> & -> & ->);
    destruct (hn_dentry _ _ Hns _ _ Hde) as (-> & _).
  - rewrite Hr, Z.eqb_refl, Hp, Z.eqb_refl. by rewrite take_nil.
  - rewrite Hr, Z.eqb_refl, (proj2 (Z.eqb_neq _ _) Hp). apply IH.
  - rewrite (proj2 (Z.eqb_neq d _) Hr), (proj2 (Z.eqb_neq d _)) by congruence. apply IH.
  - rewrite (proj2 (Z.eqb_neq d _) Hr), Hp, Z.eqb_refl. by rewrite take_nil.
Qed.

(** The loop over the mask is the search for the first common bit. *)
Lemma mask_loop_first rules cm pm n k :
  0 ≤ k →
  mask_loop rules (Z.land cm pm) n k
  = default (-1) (k ← first_common cm pm n k; array_lookup rules k).
Proof.
  revert k; induction n as [|n IH]; intros k Hk; [done|]. cbn [mask_loop first_common].
  rewrite <- Z.land_spec. change 1 with (Z.ones 1) at 1.
  rewrite Z.land_ones, <- Z.bit0_mod, Z.shiftr_spec, Z.add_0_l by lia.
  destruct (Z.testbit (Z.land cm pm) k); cbn [Z.b2z Z.eqb negb]; [|by rewrite IH by lia].
  cbn. by destruct (array_lookup rules k).
Qed.

Lemma parent_child_rule_spec s sc :
  parent_child_rule s sc = default (-1) (spec_parent s (sc_base sc) (sc_pbase sc)).
Proof.
  unfold parent_child_rule, spec_parent. destruct (child_mask s !! _) as [cm|]; [|done].
  destruct (parent_mask s !! _) as [pm|]; [|done]. cbn [mbind option_bind].
  by apply mask_loop_first.
Qed.
End verdict.

(** ** Keys *)

Lemma str_copy_fixed s n : (0 < n)%nat → snd (str_copy (zeros n) s) = fixed s n.
Proof.
  intros Hn. unfold str_copy, fixed. cbn [snd]. rewrite length_zeros. f_equal.
  unfold zeros. rewrite drop_replicate.
  assert (length (take (n - 1) s) ≤ n - 1)%nat by (rewrite length_take; lia).
  destruct (n - length (take (n - 1) s))%nat as [|k] eqn:E; [lia|]. cbn. f_equal. f_equal. lia.
Qed.

Lemma length_fixed s n : (0 < n)%nat → length (fixed s n) = n.
Proof. intros. unfold fixed. rewrite length_app, length_zeros, length_take. lia. Qed.

(** Two keys are equal exactly when the strings agree up to the buffer. *)
Lemma fixed_inj s s' n : (0 < n)%nat → (0 ∉ s) → (0 ∉ s') →
  fixed s n = fixed s' n ↔ take (n - 1) s = take (n - 1) s'.
Proof.
  intros Hn Hs Hs'. unfold fixed. split; [|by intros ->]. intros H.
  assert (Hc : ∀ t, (0 ∉ t) → (length (take (n - 1) t) < n)%nat →
    cstr (take (n - 1) t ++ zeros (n - length (take (n - 1) t))) = take (n - 1) t).
  { intros t Ht Hl. destruct (n - length (take (n - 1) t))%nat eqn:E; [lia|].
    apply cstr_app_nul. by apply not_elem_of_take. }
  rewrite <- (Hc s), <- (Hc s'); [by rewrite H|done| |done|]; rewrite length_take; lia.
Qed.

(** ** What the program sees of an execution *)

Record exec_view := ExecView {
  xv_slots : list (list Z);   (* the steps of the path, leaf first *)
  xv_dirs : list dir_key;     (* the directories above, nearest first *)
  xv_base : list Z;           (* the executed file's name *)
  xv_pbase : list Z;          (* the name of the running task's executable *)
}.

Definition name_ptr {KL : KernelLayout} (c : ctx) (d : Z) : Z :=
  BPF_CORE_READ (cx_read_kernel c) 8 d (off_dentry_d_name + Z.of_nat off_qstr_name) [].

Inductive sees_exec {KL : KernelLayout} (c : ctx) (ns : mnt_ns) (bprm : Z) (v : exec_view) : Prop :=
  | sees d m de :
      file_dentry c (binprm_file c bprm) = d →
      file_mnt c (binprm_file c bprm) = field m off_mount_mnt →
      path_slots ns true d m (xv_slots v) → ns_dentries ns !! d = Some de →
      dir_slots ns (de_parent de) m (xv_dirs v) →
      kstr_at c (name_ptr c d) (xv_base v) →
      kstr_at c (name_ptr c (task_exe_dentry c)) (xv_pbase v) →
      sees_exec c ns bprm v.

(** The three keys of an execution. *)
Definition view_key (v : exec_view) : list Z :=
  fixed (slots_path (take MAX_DEPTH (xv_slots v))) PATH_LEN.
Definition view_base (v : exec_view) : list Z := fixed (xv_base v) NAME_LEN.
Definition view_pbase (v : exec_view) : list Z := fixed (xv_pbase v) NAME_LEN.

Definition view_rule (s : pst) (has : Z) (v : exec_view) : option Z :=
  spec_rule s has (view_key v) (take MAX_DEPTH (xv_dirs v)) (view_base v) (view_pbase v).

Section check_exec.
Context {KL : KernelLayout} (c : ctx) {Hc : ctx_ok c} (ns : mnt_ns) (Hns : holds_ns c ns).

Lemma build_path_key d m l pp :
  path_slots ns true d m l → pp_ok pp →
  fst (build_path c pp d (field m off_mount_mnt)) = fixed (slots_path (take MAX_DEPTH l)) PATH_LEN.
Proof.
  intros Hp Hpp. destruct (walk_and_write_path c ns Hns d m l pp Hp Hpp) as [Hw _].
  cbv zeta in Hw. unfold build_path.
  destruct (walk_and_write c d (field m off_mount_mnt) pp) as [pos pp']. cbn [fst snd] in Hw.
  rewrite <- Hw. destruct (pos =? DIR_BUF); cbn [fst].
  - vm_compute. reflexivity.
  - apply str_copy_fixed. unfold PATH_LEN. lia.
Qed.

Lemma basename_of_key d nm :
  kstr_at c (name_ptr c d) nm → basename_of c d = fixed nm NAME_LEN.
Proof.
  intros [_ Hr]. unfold basename_of. change (BPF_CORE_READ _ _ _ _ _) with (name_ptr c d).
  rewrite Hr by (rewrite length_zeros; unfold NAME_LEN; lia).
  apply str_copy_fixed. unfold NAME_LEN. lia.
Qed.

Lemma fill_scratch_view bprm v sc :
  sees_exec c ns bprm v → pp_ok (sc_parts sc) →
  sc_key (fill_scratch c bprm sc) = view_key v ∧ sc_base (fill_scratch c bprm sc) = view_base v ∧
  sc_pbase (fill_scratch c bprm sc) = view_pbase v.
Proof.
  intros [d m de Hd Hm Hp _ _ Hb Hpb] Hpp. unfold fill_scratch.
  pose proof (build_path_key d m _ _ Hp Hpp) as Hk. rewrite Hm, Hd.
  destruct (build_path _ _ _ _) as [key pp]. cbn [fst sc_key sc_base sc_pbase] in *.
  split; [done|]. split; by apply basename_of_key.
Qed.

Lemma in_denied_dir_spec deny d m de l :
  holds_keys c ns → ns_dentries ns !! d = Some de → is_Some (ns_mounts ns !! m) →
  dir_slots ns (de_parent de) m l →
  in_denied_dir c deny d (field m off_mount_mnt)
  = default (-1) (head (omap (λ k, deny !! k) (take MAX_DEPTH l))).
Proof.
  intros Hk Hde [mt Hm] Hl. unfold in_denied_dir.
  destruct (hn_dentry _ _ Hns _ _ Hde) as (-> & _).
  destruct (hn_mount _ _ Hns _ _ Hm) as (Hr & _). rewrite container_of_field by done.
  by eapply denied_loop_slots.
Qed.

Lemma omap_first_range s l r :
  pst_ok s → head (omap (λ k, deny_dir s !! k) l) = Some r → 0 ≤ r < 2 ^ 32.
Proof.
  intros Hs. induction l as [|k l IH]; [done|]. cbn. destruct (deny_dir s !! k) eqn:E; [|done].
  cbn. intros [= <-]. by eapply po_dir.
Qed.

Lemma spec_parent_range s base pbase r :
  pst_ok s → spec_parent s base pbase = Some r → 0 ≤ r < 2 ^ 32.
Proof.
  intros Hs. unfold spec_parent. intros H. repeat (apply bind_Some in H as (? & _ & H)).
  unfold array_lookup in H. destruct (0 <=? _); [|done]. by eapply po_parent.
Qed.

Lemma default_neg (o : option Z) :
  (∀ r, o = Some r → 0 ≤ r) → (default (-1) o <? 0) = negb (bool_decide (is_Some o)).
Proof.
  intros H. destruct o as [r|]; cbn; [|done]. specialize (H r eq_refl). lia.
Qed.

(** The lookup of the code is the abstract one, with -1 for no rule. *)
Lemma find_rule_spec s has bprm v sc :
  holds_keys c ns → pst_ok s → sees_exec c ns bprm v → sc_key sc = view_key v →
  sc_base sc = view_base v → sc_pbase sc = view_pbase v →
  find_rule c s has bprm sc = default (-1) (view_rule s has v).
Proof.
  intros Hk Hs [d m de Hd Hm Hp Hde Hdirs _ _] E1 E2 E3.
  unfold find_rule, view_rule, spec_rule. cbv zeta. rewrite Hd, Hm, E1.
  rewrite (in_denied_dir_spec _ d m de (xv_dirs v) Hk Hde (path_slots_mount _ _ _ _ _ Hp) Hdirs).
  rewrite parent_child_rule_spec, E2, E3.
  set (o1 := if negb (Z.land has HAS_PATH =? 0) then _ else None).
  replace (if negb (Z.land has HAS_PATH =? 0) then _ else -1) with (default (-1) o1).
  2: { subst o1. destruct (negb _); [|done]. by destruct (deny_path s !! view_key v). }
  assert (H1 : ∀ r, o1 = Some r → 0 ≤ r).
  { subst o1. destruct (negb _); [|done]. intros r Hr. apply (po_path s Hs) in Hr. lia. }
  destruct o1 as [r|]; cbn [default from_option id].
  { specialize (H1 r eq_refl). rewrite (proj2 (Z.ltb_ge r 0)) by done. cbn [andb].
    by rewrite (proj2 (Z.ltb_ge r 0)). }
  change (-1 <? 0) with true. cbn [andb].
  destruct (negb (Z.land has HAS_DIR =? 0)).
  - destruct (head _) as [r|] eqn:E; cbn [default from_option id].
    + apply (omap_first_range s _ _ Hs) in E. by rewrite (proj2 (Z.ltb_ge r 0)) by lia.
    + change (-1 <? 0) with true. cbn [andb]. by destruct (negb _).
  - change (-1 <? 0) with true. cbn [andb]. by destruct (negb _).
Qed.

Lemma view_rule_range s has v r : pst_ok s → view_rule s has v = Some r → 0 ≤ r < 2 ^ 32.
Proof.
  intros Hs. unfold view_rule, spec_rule.
  destruct (if negb (Z.land has HAS_PATH =? 0) then _ else _) as [r1|] eqn:E1.
  { intros [= <-]. destruct (negb _) in E1; [|done]. by eapply po_path. }
  destruct (if negb (Z.land has HAS_DIR =? 0) then _ else _) as [r2|] eqn:E2.
  { intros [= <-]. destruct (negb _) in E2; [|done]. by eapply omap_first_range. }
  destruct (negb (Z.land has HAS_PARENT =? 0)); [|done]. by apply spec_parent_range.
Qed.
End check_exec.

(** The record of a decision. *)
Definition decision_of {KL : KernelLayout} (c : ctx) (v : exec_view) (r action : Z) : decision :=
  Decision (cx_ktime c) (cx_pid c) (u32 (cx_tgid c))
    (BPF_CORE_READ (cx_read_kernel c) 4 (cx_task c) off_task_real_parent [off_task_tgid])
    (cx_uid c) r action (cx_comm c) (view_key v) (view_pbase v).

(** The run of [check_exec] on its four early returns and the verdict. *)
Lemma check_exec_run {KL : KernelLayout} (c : ctx) ns bprm rest v slot s has sc :
  ctx_ok c → holds_ns c ns → holds_keys c ns → sees_exec c ns bprm v → pst_ok s →
  array_lookup (prevent_config s) 0 = Some has → has ≠ 0 →
  array_lookup (prevent_config s) 1 ≠ Some (cx_tgid c) →
  percpu_lookup (scratch_map s) (cx_cpu c) 0 = Some sc → pp_ok (sc_parts sc) →
  let s1 := up_scratch_map (percpu_store (scratch_map s) (cx_cpu c) 0 (fill_scratch c bprm sc)) s in
  check_exec c slot (bprm :: rest) s =
    match view_rule s has v with
    | None => (0, s1)
    | Some r =>
        (if spec_action s r =? ACT_BLOCK then - EPERM_ else 0,
         if slot then up_decisions (decisions s ++ [decision_of c v r (spec_action s r)]) s1 else s1)
    end.
Proof.
  intros Hc Hns Hk Hv Hs Hhas Hnz Hself Hsc Hpp s1.
  destruct (fill_scratch_view c ns Hns bprm v sc Hv Hpp) as (E1 & E2 & E3).
  pose proof (find_rule_spec c ns Hns s has bprm v _ Hk Hs Hv E1 E2 E3) as Hf.
  unfold check_exec. cbn [bpf_ctx_cast nth app]. unfold mbind, prog_bind, get, put, mret, prog_ret,
    modify. rewrite Hhas, (proj2 (Z.eqb_neq has 0) Hnz).
  replace (match array_lookup (prevent_config s) 1 with Some self => self =? cx_tgid c | None => false end)
    with false.
  2: { destruct (array_lookup (prevent_config s) 1) as [self|]; [|done].
       destruct (Z.eqb_spec self (cx_tgid c)); congruence. }
  rewrite Hsc, Hf. destruct (view_rule s has v) as [r|] eqn:Er; cbn [default from_option id]; [|done].
  pose proof (view_rule_range s has v r Hs Er) as Hr.
  rewrite (proj2 (Z.ltb_ge r 0)) by lia. rewrite u32_small by lia.
  unfold make_decision. rewrite E1, E3. unfold decision_of, spec_action.
  destruct slot, (array_lookup (rule_action s) r); reflexivity.
Qed.

(** C2. An execution is refused exactly when the rules say so.  With rules
    loaded and the program run by any process but the agent, [check_exec]
    finds the rule the abstract lookup finds on the executed file's path, the
    directories above it (at most 16, nearest first) and the two base names;
    it returns -EPERM exactly when that rule's action is block; and it
    reports the rule, the action, the path and the parent's name in one
    record, if the ring buffer has room. *)
Theorem check_exec_verdict {KL : KernelLayout} (c : ctx) ns bprm rest v slot s has sc :
  ctx_ok c → holds_ns c ns → holds_keys c ns → sees_exec c ns bprm v → pst_ok s →
  array_lookup (prevent_config s) 0 = Some has → has ≠ 0 →
  array_lookup (prevent_config s) 1 ≠ Some (cx_tgid c) →
  percpu_lookup (scratch_map s) (cx_cpu c) 0 = Some sc → pp_ok (sc_parts sc) →
  let m := check_exec c slot (bprm :: rest) in
  match view_rule s has v with
  | None => eval m s = 0 ∧ decisions (exec m s) = decisions s
  | Some r =>
      (eval m s = - EPERM_ ↔ spec_action s r = ACT_BLOCK) ∧
      (eval m s = 0 ↔ spec_action s r ≠ ACT_BLOCK) ∧
      decisions (exec m s) =
        decisions s ++ (if slot then [decision_of c v r (spec_action s r)] else [])
  end.
Proof.
  intros Hc Hns Hk Hv Hs Hhas Hnz Hself Hsc Hpp m.
  pose proof (check_exec_run c ns bprm rest v slot s has sc Hc Hns Hk Hv Hs Hhas Hnz Hself Hsc Hpp)
    as Hrun. cbv zeta in Hrun. unfold eval, exec, m. rewrite Hrun.
  destruct (view_rule s has v) as [r|]; cbn [fst snd]; [|done].
  destruct (Z.eqb_spec (spec_action s r) ACT_BLOCK) as [E|E];
    (split; [split; (done || congruence)|]; split; [split; (done || congruence)|]);
    destruct slot; cbn; by rewrite ?app_nil_r.
Qed.

(** *** The demo machine *)

(** Rule 0 blocks what is below "/etc" (inode 11), rule 1 only reports
    "/etc/shadow". *)
Definition demo_policy : pst :=
  Pst [ACT_BLOCK; ACT_DETECT] {[ fixed (zs "/etc/other") 256 := 1 ]}
    {[ DirKey 11 0x800001 0 := 0 ]} ∅ ∅ (replicate 64 0) [HAS_PATH + HAS_DIR; 900] []
    [[Scratch pp_zero (zeros 256) (zeros 32) (zeros 32)]].

Definition demo_view : exec_view :=
  ExecView [zs "shadow"; zs "etc"] [DirKey 11 0x800001 0; DirKey 2 0x800001 0]
    (zs "shadow") (zs "shadow").

Lemma demo_holds_keys cpu tgid pid uid a0 a1 a2 a3 :
  holds_keys (demo_ctx cpu tgid pid uid a0 a1 a2 a3) demo_ns.
Proof.
  intros d de H. apply elem_of_list_to_map_2 in H.
  repeat (apply elem_of_cons in H as [H|H]; [simplify_eq/=|]); [..|by apply elem_of_nil in H].
  all: vm_compute; reflexivity.
Qed.

Lemma demo_sees cpu tgid pid uid a0 a1 a2 a3 :
  sees_exec (demo_ctx cpu tgid pid uid a0 a1 a2 a3) demo_ns 0xA000 demo_view.
Proof.
  pose (mt := Mount 0x1000 0x2000 0x1000).
  apply (sees _ _ _ _ 0x1200 0x2000 (Dentry 0x1100 (zs "shadow") 12 0x800001)).
  - vm_compute. reflexivity.
  - vm_compute. reflexivity.
  - apply (slots_up _ _ _ _ mt (Dentry 0x1100 (zs "shadow") 12 0x800001));
      [reflexivity|reflexivity|done|done|].
    apply (slots_up _ _ _ _ mt (Dentry 0x1000 (zs "etc") 11 0x800001));
      [reflexivity|reflexivity|done|done|].
    by apply (slots_root _ _ _ _ mt).
  - reflexivity.
  - apply (dirs_up _ _ _ mt (Dentry 0x1000 (zs "etc") 11 0x800001));
      [reflexivity|reflexivity|done|done|].
    by apply (dirs_root _ _ _ mt (Dentry 0x1000 (zs "/") 2 0x800001)).
  - apply image_kstr_at; [|by apply zs_no_nul]. apply mem_bytes_app. vm_compute. reflexivity.
  - apply image_kstr_at; [|by apply zs_no_nul]. apply mem_bytes_app. vm_compute. reflexivity.
Qed.

Lemma demo_policy_ok : pst_ok demo_policy.
Proof.
  split; intros k r H; cbn in H.
  - apply lookup_singleton_Some in H as [_ <-]. lia.
  - apply lookup_singleton_Some in H as [_ <-]. lia.
  - apply elem_of_replicate in H || apply list_elem_of_lookup_2 in H.
    repeat (apply elem_of_cons in H as [->|H]; [lia|]). by apply elem_of_nil in H.
Qed.

Lemma check_exec_verdict_witness :
  let m := check_exec (demo_ctx 0 500 500 1000 0 0 0 0) true [0xA000] in
  eval m demo_policy = - EPERM_ ∧
  match view_rule demo_policy (HAS_PATH + HAS_DIR) demo_view with
  | None => eval m demo_policy = 0 ∧ decisions (exec m demo_policy) = decisions demo_policy
  | Some r =>
      (eval m demo_policy = - EPERM_ ↔ spec_action demo_policy r = ACT_BLOCK) ∧
      (eval m demo_policy = 0 ↔ spec_action demo_policy r ≠ ACT_BLOCK) ∧
      decisions (exec m demo_policy) = decisions demo_policy ++
        (if true then [decision_of (demo_ctx 0 500 500 1000 0 0 0 0) demo_view r
                         (spec_action demo_policy r)] else [])
  end.
Proof.
  split; [vm_compute; reflexivity|].
  apply (check_exec_verdict (demo_ctx 0 500 500 1000 0 0 0 0) demo_ns 0xA000 [] demo_view true
           demo_policy (HAS_PATH + HAS_DIR) (Scratch pp_zero (zeros 256) (zeros 32) (zeros 32))).
  - apply demo_ctx_ok.
  - apply demo_holds.
  - apply demo_holds_keys.
  - apply demo_sees.
  - apply demo_policy_ok.
  - reflexivity.
  - done.
  - vm_compute. done.
  - reflexivity.
  - split; reflexivity.
Defined.

(** ** Executions that are never refused *)

(** The agent is never in its own way, and no policy means no
    interference: when no rules are loaded (or are being replaced), or the
    agent itself executes something, [check_exec] allows it and changes
    nothing. *)
Theorem agent_and_empty_policy_are_allowed {KL : KernelLayout} (c : ctx) slot args s :
  array_lookup (prevent_config s) 0 = Some 0 ∨ array_lookup (prevent_config s) 1 = Some (cx_tgid c) →
  check_exec c slot args s = (0, s).
Proof.
  unfold check_exec, mbind, prog_bind, get, mret, prog_ret.
  destruct (array_lookup (prevent_config s) 0) as [has|]; [|done].
  intros [[= ->]| ->]; [done|]. destruct (has =? 0); [done|]. by rewrite Z.eqb_refl.
Qed.

Lemma agent_and_empty_policy_are_allowed_witness :
  check_exec (demo_ctx 0 900 900 0 0 0 0 0) true [0xA000] demo_policy = (0, demo_policy).
Proof. apply agent_and_empty_policy_are_allowed. right. reflexivity. Defined.

(** Whatever kernel memory holds, a run of [check_exec] only allows or
    refuses with -EPERM, never touches the rules or the configuration, and
    decides the same whether or not the ring buffer has room for the report:
    a full ring buffer is no way around a block rule. *)
Theorem verdict_without_report {KL : KernelLayout} (c : ctx) args s :
  eval (check_exec c true args) s = eval (check_exec c false args) s ∧
  (∀ slot, (eval (check_exec c slot args) s = 0 ∨ eval (check_exec c slot args) s = - EPERM_) ∧
     let s' := exec (check_exec c slot args) s in
     (rule_action s', deny_path s', deny_dir s', parent_mask s', child_mask s', parent_rule s',
      prevent_config s')
     = (rule_action s, deny_path s, deny_dir s, parent_mask s, child_mask s, parent_rule s,
        prevent_config s)).
Proof.
  unfold check_exec, exec, eval, mbind, prog_bind, get, put, mret, prog_ret, modify.
  destruct (array_lookup (prevent_config s) 0) as [has|]; [|by split; [|intros; split; [left|]]].
  destruct (has =? 0); [by split; [|intros; split; [left|]]|].
  destruct (match array_lookup _ 1 with Some _ => _ | None => _ end);
    [by split; [|intros; split; [left|]]|].
  destruct (percpu_lookup _ _ _) as [sc|]; [|by split; [|intros; split; [left|]]].
  cbv zeta. destruct (find_rule _ _ _ _ _ <? 0); [by split; [|intros; split; [left|]]|].
  set (act := match array_lookup _ _ with Some _ => _ | None => _ end).
  split; [done|]. intros [|]; cbn [fst snd]; (split; [|done]); destruct (act =? ACT_BLOCK); auto.
Qed.

(** ** Path keys *)

(** A path rule matches exactly its path: the key the agent stores for
    a rule value that fits the buffer equals the program's key exactly when
    the executed path, cut to 255 bytes as the kernel's string copy cuts it,
    is the value. *)
Theorem path_key_is_exact (value path : list Z) :
  (0 ∉ value) → (0 ∉ path) → (length value < PATH_LEN)%nat →
  fixed value PATH_LEN = fixed path PATH_LEN ↔ take (PATH_LEN - 1) path = value.
Proof.
  intros Hv Hp Hl. rewrite fixed_inj by (done || (unfold PATH_LEN; lia)).
  rewrite (take_ge value) by lia. split; by intros.
Qed.

Lemma path_key_is_exact_witness :
  fixed (zs "/etc/shadow") PATH_LEN = fixed (zs "/etc/shadow") PATH_LEN ↔
  take (PATH_LEN - 1) (zs "/etc/shadow") = zs "/etc/shadow".
Proof. apply path_key_is_exact; [by apply zs_no_nul|by apply zs_no_nul|vm_compute; lia]. Defined.
