(* ===== verification/PreventPolicy.v ===== *)
(** * Loading a policy into the kernel (lsm_linux.go, rules.go)

    The agent's [apply] writes a compiled policy into the maps of
    [prevent.bpf.c]; the agent's own [match] decides the same policy where
    the kernel cannot.  This file models both.  [stat] and the major and
    minor numbers of a device are the operating system's. *)
From Stdlib Require Import ZArith Lia Ascii String.
From stdpp Require Import base tactics list gmap strings.
From S2P Require Import Prelude.
From S2P Require Import Kernel.
From S2P Require Import PathWalk.
From S2P Require Import Scenario.
From S2P Require Import Prevent.
From S2P Require Import PreventProps.
Local Open Scope Z_scope.
Import Prevent.Prevent.

(** ** Policies *)

(** [TypeKnownMalware] is not a server rule but what a match of the
    known-malware set reports. *)
Inductive rule_type := TypeHash | TypePath | TypeDir | TypeParent | TypeKnownMalware.

#[export] Instance rule_type_eq_dec : EqDecision rule_type.
Proof. solve_decision. Defined.

(** [Rule]: what the server sends. *)
Record rule := Rule {
  ru_id : list Z;
  ru_name : list Z;
  ru_type : list Z;
  ru_value : list Z;
  ru_parent : list Z;
  ru_action : list Z;
}.

(** [compiled]; its [index] is the position in [Policy.Rules].  [r_rule] is
    the embedded [Rule]: the code overwrites its [Value], here [r_value]. *)
Record compiled := Compiled {
  r_type : rule_type;
  r_value : list Z;
  r_block : bool;
  r_parents : list (list Z);
  r_children : list (list Z);
  r_rule : rule;
}.

(** [p.paths], filled by [compileWith]: the last rule of a path. *)
Fixpoint paths_from (i : nat) (rules : list compiled) (m : gmap (list Z) nat) : gmap (list Z) nat :=
  match rules with
  | [] => m
  | r :: rules =>
      paths_from (S i) rules (if decide (r_type r = TypePath) then <[r_value r := i]> m else m)
  end.

(** [strings.TrimSuffix(dir, "/")] *)
Definition trim_slash (dir : list Z) : list Z :=
  match reverse dir with
  | 47 :: d => reverse d
  | _ => dir
  end.

(** [under(path, dir)] *)
Definition under (path dir : list Z) : bool :=
  let dir := trim_slash dir in
  bool_decide (path = dir) || bool_decide ((dir ++ [47]) `prefix_of` path) || bool_decide (dir = []).

(** The first rule of a list that satisfies [f], by index. *)
Fixpoint first_rule (f : compiled → bool) (i : nat) (rules : list compiled) : option nat :=
  match rules with
  | [] => None
  | r :: rules => if f r then Some i else first_rule f (S i) rules
  end.

(** The last one. *)
Fixpoint last_rule (f : compiled → bool) (i : nat) (rules : list compiled) : option nat :=
  match rules with
  | [] => None
  | r :: rules =>
      match last_rule f (S i) rules with
      | Some j => Some j
      | None => if f r then Some i else None
      end
  end.

(** Whether a decider's rule blocks. *)
Definition blocked (rules : list compiled) (o : option nat) : bool :=
  match i ← o; rules !! i with Some r => r_block r | None => false end.

Definition is_dir (r : compiled) : bool := bool_decide (r_type r = TypeDir).
Definition is_parent (r : compiled) : bool := bool_decide (r_type r = TypeParent).

(** The cases of the two loops of [match]. *)
Definition dir_matches (path : list Z) (r : compiled) : bool :=
  is_dir r && (under path (r_value r) && negb (bool_decide (path = r_value r))).
Definition parent_matches (child parent : list Z) (r : compiled) : bool :=
  is_parent r && (bool_decide (child ∈ r_children r) && bool_decide (parent ∈ r_parents r)).

(** [match] for an execution of [path], whose base name is [child], by a
    process whose image's base name is [parent], up to the hash rules. *)
Definition match_ (rules : list compiled) (path child parent : list Z) : option nat :=
  match paths_from 0 rules ∅ !! path with
  | Some i => Some i
  | None =>
      match first_rule (dir_matches path) 0 rules with
      | Some i => Some i
      | None => first_rule (parent_matches child parent) 0 rules
      end
  end.

(** ** Writing the maps *)

(** [Map.Put] on an array and on a hash of [cap] entries; [None] is an
    error. *)
Definition put_array (m : list Z) (k : nat) (v : Z) : option (list Z) :=
  if decide (k < length m)%nat then Some (<[k := v]> m) else None.
Definition put_hash {K} `{Countable K} (cap : nat) (m : gmap K Z) (k : K) (v : Z)
    : option (gmap K Z) :=
  if decide (is_Some (m !! k) ∨ (size m < cap)%nat) then Some (<[k := v]> m) else None.

(** The maps and local variables of [apply]'s loop over the rules. *)
Record load := Load {
  l_action : list Z;               (* rule_action *)
  l_path : gmap (list Z) Z;        (* deny_path *)
  l_dir : gmap dir_key Z;          (* deny_dir *)
  l_prule : list Z;                (* parent_rule *)
  l_has : Z;                       (* has *)
  l_k : nat;                       (* k *)
  l_pm : gmap (list Z) Z;          (* parentMask *)
  l_cm : gmap (list Z) Z;          (* childMask *)
}.

Section apply.
(** [unix.Stat]: inode and device number, or an error; [unix.Major] and
    [unix.Minor]; the order in which a Go map is walked. *)
Context (stat : list Z → option (Z * Z)) (major minor : Z → Z).
Context (iter : gmap (list Z) Z → list (list Z * Z)).

Definition kernelDev (dev : Z) : Z := u32 (Z.lor (Z.shiftl (major dev) 20) (minor dev)).

Definition rule_key (r : compiled) : option dir_key :=
  '(ino, dev) ← stat (r_value r); Some (DirKey ino (kernelDev dev) 0).

(** What the kernel is to find, as the program's comments and the loading
    order say: the last rule of the file's path; else the nearest directory
    above the file that a rule names (by inode), with the last such rule;
    else the first parent rule of its base names. *)
Definition names_dir (key : dir_key) (r : compiled) : bool :=
  is_dir r && bool_decide (rule_key r = Some key).

Definition nearest_dir (rules : list compiled) (dirs : list dir_key) : option nat :=
  head (omap (λ key, last_rule (names_dir key) 0 rules) dirs).

Definition kernel_match (rules : list compiled) (v : exec_view) : option nat :=
  match paths_from 0 rules ∅ !! slots_path (take MAX_DEPTH (xv_slots v)) with
  | Some i => Some i
  | None =>
      match nearest_dir rules (take MAX_DEPTH (xv_dirs v)) with
      | Some i => Some i
      | None => first_rule (parent_matches (xv_base v) (xv_pbase v)) 0 rules
      end
  end.

(** [parentMask[n] |= 1 << k] for each name. *)
Definition add_mask (k : nat) (names : list (list Z)) (m : gmap (list Z) Z) : gmap (list Z) Z :=
  foldl (λ m n, <[n := Z.lor (default 0 (m !! n)) (u64 (Z.shiftl 1 (Z.of_nat k)))]> m) m names.

Definition rule_act (r : compiled) : Z := if r_block r then ACT_BLOCK else ACT_DETECT.

(** One turn of the loop; [false] is the return of an error. *)
Definition load_rule (i : nat) (r : compiled) (l : load) : bool * load :=
  match put_array (l_action l) i (rule_act r) with
  | None => (false, l)
  | Some action =>
      let l := Load action (l_path l) (l_dir l) (l_prule l) (l_has l) (l_k l) (l_pm l) (l_cm l) in
      match r_type r with
      | TypePath =>
          if decide (PATH_LEN <= length (r_value r))%nat then (true, l) else
          match put_hash MAX_RULES (l_path l) (fixed (r_value r) PATH_LEN) (Z.of_nat i) with
          | None => (false, l)
          | Some path => (true, Load action path (l_dir l) (l_prule l) (Z.lor (l_has l) HAS_PATH)
                                  (l_k l) (l_pm l) (l_cm l))
          end
      | TypeDir =>
          match rule_key r with
          | None => (true, l)
          | Some key =>
              match put_hash MAX_RULES (l_dir l) key (Z.of_nat i) with
              | None => (false, l)
              | Some dir => (true, Load action (l_path l) dir (l_prule l) (Z.lor (l_has l) HAS_DIR)
                                     (l_k l) (l_pm l) (l_cm l))
              end
          end
      | TypeParent =>
          match put_array (l_prule l) (l_k l) (Z.of_nat i) with
          | None => (false, l)
          | Some prule =>
              (true, Load action (l_path l) (l_dir l) prule (Z.lor (l_has l) HAS_PARENT) (S (l_k l))
                       (add_mask (l_k l) (r_parents r) (l_pm l))
                       (add_mask (l_k l) (r_children r) (l_cm l)))
          end
      | TypeHash | TypeKnownMalware => (true, l)
      end
  end.

Fixpoint load_rules (i : nat) (rules : list compiled) (l : load) : bool * load :=
  match rules with
  | [] => (true, l)
  | r :: rules =>
      let '(ok, l) := load_rule i r l in
      if ok : bool then load_rules (S i) rules l else (false, l)
  end.

(** [for n, m := range parentMask { ... Put(fixed(n, nameLen), m) ... }] *)
Fixpoint put_masks (l : list (list Z * Z)) (m : gmap (list Z) Z) : bool * gmap (list Z) Z :=
  match l with
  | [] => (true, m)
  | (n, v) :: l =>
      match put_hash MAX_RULES m (fixed n NAME_LEN) v with
      | None => (false, m)
      | Some m => put_masks l m
      end
  end.

(** [apply]: the kernel's maps afterwards, and whether it returned no error. *)
Definition apply (rules : list compiled) (s : pst) : bool * pst :=
  match put_array (prevent_config s) 0 0 with
  | None => (false, s)
  | Some cfg =>
      let '(ok, l) := load_rules 0 rules (Load (rule_action s) ∅ ∅ (parent_rule s) 0 0 ∅ ∅) in
      let maps pm cm cfg :=
        Pst (l_action l) (l_path l) (l_dir l) pm cm (l_prule l) cfg (decisions s) (scratch_map s) in
      if negb ok then (false, maps ∅ ∅ cfg) else
      let '(ok, pm) := put_masks (iter (l_pm l)) ∅ in
      if negb ok then (false, maps pm ∅ cfg) else
      let '(ok, cm) := put_masks (iter (l_cm l)) ∅ in
      if negb ok then (false, maps pm cm cfg) else
      match put_array cfg 0 (l_has l) with
      | None => (false, maps pm cm cfg)
      | Some cfg => (true, maps pm cm cfg)
      end
  end.
End apply.

(** ** Successful writes *)

Lemma put_array_ok m k v : (k < length m)%nat → put_array m k v = Some (<[k := v]> m).
Proof. intros. unfold put_array. by rewrite decide_True. Qed.

Lemma put_hash_ok {K} `{Countable K} cap (m : gmap K Z) k v :
  (size m < cap)%nat → put_hash cap m k v = Some (<[k := v]> m).
Proof. intros. unfold put_hash. rewrite decide_True; [done|by right]. Qed.

Lemma size_insert_le {K V} `{Countable K} (m : gmap K V) k v : (size (<[k := v]> m) ≤ S (size m))%nat.
Proof.
  destruct (m !! k) eqn:E; [rewrite map_size_insert_Some by eauto|rewrite map_size_insert_None by done]; lia.
Qed.

(** ** What one loop turn leaves *)

(** Names and values are strings of the policy's JSON that become C
    strings: without a NUL. *)
Definition c_str (n : nat) (s : list Z) : Prop := (length s < n)%nat ∧ (0 ∉ s).

Lemma fixed_eq (n : nat) (s s' : list Z) : c_str n s → c_str n s' → fixed s n = fixed s' n ↔ s = s'.
Proof.
  intros [H1 H2] [H3 H4]. rewrite fixed_inj by (done || lia). by rewrite !take_ge by lia.
Qed.

Lemma lookup_fixed {V} (n : nat) (m : gmap (list Z) V) (s s' : list Z) (v : V) :
  c_str n s → c_str n s' →
  <[fixed s n := v]> m !! fixed s' n = if decide (s = s') then Some v else m !! fixed s' n.
Proof.
  intros Hs Hs'. destruct (decide (s = s')) as [->|Hne]; [apply lookup_insert_eq|].
  apply lookup_insert_ne. by rewrite (fixed_eq n).
Qed.

Section masks.
Variable k : nat.
Hypothesis Hk : (k < 64)%nat.

Lemma add_mask_bit names m n t : 0 ≤ t →
  Z.testbit (default 0 (add_mask k names m !! n)) t
  = Z.testbit (default 0 (m !! n)) t || (bool_decide (n ∈ names) && (t =? Z.of_nat k)).
Proof.
  intros Ht. unfold add_mask. revert m.
  induction names as [|x names IH]; intros m; cbn [foldl].
  { rewrite bool_decide_false by apply not_elem_of_nil. by rewrite orb_false_r. }
  rewrite IH. destruct (decide (x = n)) as [->|Hx].
  - rewrite lookup_insert_eq. cbn [default from_option id]. rewrite Z.lor_spec.
    assert (Hb : Z.testbit (u64 (Z.shiftl 1 (Z.of_nat k))) t = (t =? Z.of_nat k)).
    { rewrite Z.shiftl_1_l, u64_small.
      - destruct (Z.eqb_spec t (Z.of_nat k)) as [->|]; [apply Z.pow2_bits_true|apply Z.pow2_bits_false]; lia.
      - split; [apply Z.pow_nonneg; lia|]. apply Z.pow_lt_mono_r; lia. }
    rewrite Hb, (bool_decide_true (n ∈ n :: names)) by apply list_elem_of_here.
    destruct (Z.testbit (default 0 (m !! n)) t), (t =? Z.of_nat k), (bool_decide _); done.
  - rewrite lookup_insert_ne by done. f_equal. f_equal. apply bool_decide_ext.
    rewrite elem_of_cons. naive_solver.
Qed.

Lemma add_mask_size names m : (size (add_mask k names m) ≤ size m + length names)%nat.
Proof.
  unfold add_mask. revert m. induction names as [|x names IH]; intros m; cbn [foldl length]; [lia|].
  etrans; [apply IH|]. pose proof (size_insert_le m x (Z.lor (default 0 (m !! x)) (u64 (Z.shiftl 1 (Z.of_nat k))))).
  lia.
Qed.

Lemma add_mask_dom names m n : is_Some (add_mask k names m !! n) → is_Some (m !! n) ∨ n ∈ names.
Proof.
  unfold add_mask. revert m. induction names as [|x names IH]; intros m; cbn [foldl]; [by left|].
  intros [H|H]%IH; [|right; by apply list_elem_of_further].
  destruct (decide (x = n)) as [->|Hx]; [right; apply list_elem_of_here|].
  left. by rewrite lookup_insert_ne in H.
Qed.

Lemma add_mask_in names m n : is_Some (m !! n) ∨ n ∈ names → is_Some (add_mask k names m !! n).
Proof.
  unfold add_mask. revert m. induction names as [|x names IH]; intros m; cbn [foldl].
  { by intros [H|H%not_elem_of_nil]. }
  intros H. apply IH. destruct (decide (x = n)) as [->|Hx]; [left; by rewrite lookup_insert_eq|].
  rewrite lookup_insert_ne by done. rewrite elem_of_cons in H. naive_solver.
Qed.
End masks.

(** ** The maps after the loop *)

Lemma has_mono h b f : Z.land (Z.lor h b) f = 0 → Z.land h f = 0.
Proof. rewrite Z.land_lor_distr_l. intros [H _]%Z.lor_eq_0_iff. done. Qed.

(** The bits of [h] are set in [h'] too. *)
Definition more_bits (h h' : Z) : Prop := ∀ f, Z.land h' f = 0 → Z.land h f = 0.

Lemma has_set h f : Z.land f f ≠ 0 → Z.land (Z.lor h f) f = 0 → False.
Proof. rewrite Z.land_lor_distr_l. intros Hf [_ H]%Z.lor_eq_0_iff. done. Qed.

Lemma paths_from_snoc i rules r m :
  paths_from i (rules ++ [r]) m
  = if decide (r_type r = TypePath) then <[r_value r := (i + length rules)%nat]> (paths_from i rules m)
    else paths_from i rules m.
Proof.
  revert i m. induction rules as [|x rules IH]; intros i m; cbn [app paths_from length].
  - by rewrite Nat.add_0_r.
  - rewrite IH. by replace (S i + length rules)%nat with (i + S (length rules))%nat by lia.
Qed.

(** The parent rules with their indices: the [k]-th is bit [k]. *)
Fixpoint parent_list (i : nat) (rules : list compiled) : list (nat * compiled) :=
  match rules with
  | [] => []
  | r :: rules => (if is_parent r then [(i, r)] else []) ++ parent_list (S i) rules
  end.

Lemma parent_list_app i rules rules' :
  parent_list i (rules ++ rules') = parent_list i rules ++ parent_list (i + length rules) rules'.
Proof.
  revert i. induction rules as [|x rules IH]; intros i; cbn [app parent_list length].
  - by rewrite Nat.add_0_r.
  - rewrite IH, <- (assoc_L (++)). do 3 f_equal. lia.
Qed.

Lemma parent_list_snoc rules r :
  parent_list 0 (rules ++ [r])
  = parent_list 0 rules ++ if is_parent r then [(length rules, r)] else [].
Proof. rewrite parent_list_app. cbn. by rewrite app_nil_r. Qed.

Section loaded.
Context (stat : list Z → option (Z * Z)) (major minor : Z → Z).
Implicit Types (rs : list compiled) (r : compiled).

Definition act_inv rs (a : list Z) : Prop :=
  length a = MAX_RULES ∧ ∀ j r, rs !! j = Some r → a !! j = Some (rule_act r).

Definition path_inv rs (m : gmap (list Z) Z) (has : Z) : Prop :=
  (∀ p, c_str PATH_LEN p → m !! fixed p PATH_LEN = Z.of_nat <$> paths_from 0 rs ∅ !! p) ∧
  (size m ≤ length rs)%nat ∧ (Z.land has HAS_PATH = 0 → m = ∅) ∧
  (∀ k v, m !! k = Some v → 0 ≤ v < Z.of_nat (length rs)).

Definition dir_inv rs (m : gmap dir_key Z) (has : Z) : Prop :=
  (∀ key v, m !! key = Some v → ∃ j r, rs !! j = Some r ∧ r_type r = TypeDir ∧
     rule_key stat major minor r = Some key ∧ v = Z.of_nat j) ∧
  (∀ j r key, rs !! j = Some r → r_type r = TypeDir → rule_key stat major minor r = Some key →
     is_Some (m !! key)) ∧
  (size m ≤ length rs)%nat ∧ (Z.land has HAS_DIR = 0 → m = ∅) ∧
  (∀ key, m !! key = Z.of_nat <$> last_rule (names_dir stat major minor key) 0 rs).

Lemma last_rule_snoc f i rs r :
  last_rule f i (rs ++ [r]) = if f r then Some (i + length rs)%nat else last_rule f i rs.
Proof.
  revert i. induction rs as [|x rs IH]; intros i; cbn [app last_rule length].
  - rewrite Nat.add_0_r. by destruct (f r).
  - rewrite IH. replace (S i + length rs)%nat with (i + S (length rs))%nat by lia. by destruct (f r).
Qed.

(** A mask has bit [t] for a name of the [t]-th parent rule. *)
Definition mask_inv rs (names : compiled → list (list Z)) (m : gmap (list Z) Z) : Prop :=
  (∀ n t, 0 ≤ t → Z.testbit (default 0 (m !! n)) t
     = match parent_list 0 rs !! Z.to_nat t with
       | Some jr => bool_decide (n ∈ names (snd jr))
       | None => false
       end) ∧
  (∀ n, is_Some (m !! n) → ∃ r, r ∈ rs ∧ n ∈ names r) ∧
  (∀ n r, r ∈ rs → r_type r = TypeParent → n ∈ names r → is_Some (m !! n)) ∧
  (size m ≤ length (concat (map names rs)))%nat.

Definition prule_inv rs (p : list Z) (has : Z) (k : nat) : Prop :=
  length p = MAX_PARENT ∧ k = length (parent_list 0 rs) ∧
  (∀ t jr, parent_list 0 rs !! t = Some jr → p !! t = Some (Z.of_nat (fst jr))) ∧
  (Z.land has HAS_PARENT = 0 → k = 0%nat) ∧
  (∀ t v, p !! t = Some v → 0 ≤ v < 2 ^ 32).

Lemma snoc_lookup {A} (l : list A) x j y :
  (l ++ [x]) !! j = Some y → (j = length l ∧ x = y) ∨ ((j < length l)%nat ∧ l !! j = Some y).
Proof.
  intros [H|[H1 H2]]%lookup_app_Some.
  - right. split; [by eapply lookup_lt_Some|done].
  - left. destruct (j - length l)%nat as [|k] eqn:E; [|done]. injection H2 as ->. split; [lia|done].
Qed.

Lemma act_inv_snoc rs r a :
  act_inv rs a → (length rs < MAX_RULES)%nat → act_inv (rs ++ [r]) (<[length rs := rule_act r]> a).
Proof.
  intros [Hl Ha] Hlt. split; [by rewrite length_insert|].
  intros j x [[-> ->]|[Hj Hx]]%snoc_lookup.
  - apply list_lookup_insert_eq. lia.
  - rewrite list_lookup_insert_ne by lia. by apply Ha.
Qed.

Lemma path_inv_put rs r m has :
  path_inv rs m has → r_type r = TypePath → c_str PATH_LEN (r_value r) →
  path_inv (rs ++ [r]) (<[fixed (r_value r) PATH_LEN := Z.of_nat (length rs)]> m) (Z.lor has HAS_PATH).
Proof.
  intros (Hm & Hs & _ & Hr) Ht Hv. split_and!.
  - intros p Hp. rewrite lookup_fixed, paths_from_snoc by done. rewrite (decide_True (P:=r_type r = TypePath)) by done.
    cbn [Nat.add].
    destruct (decide (r_value r = p)) as [->|Hne]; [by rewrite lookup_insert_eq|].
    rewrite lookup_insert_ne by done. by apply Hm.
  - etrans; [apply size_insert_le|]. rewrite length_app. cbn [length]. lia.
  - intros H. by apply has_set in H.
  - rewrite length_app. cbn [length]. intros k v [[<- <-]|[_ Hk]]%lookup_insert_Some; [lia|].
    apply Hr in Hk. lia.
Qed.

Lemma path_inv_skip rs r m has has' :
  path_inv rs m has → more_bits has has' → (r_type r = TypePath → (PATH_LEN ≤ length (r_value r))%nat) →
  path_inv (rs ++ [r]) m has'.
Proof.
  intros (Hm & Hs & Hh & Hr) Hb Ht. split_and!.
  - intros p Hp. rewrite paths_from_snoc. case_decide as E; [|by apply Hm].
    rewrite lookup_insert_ne; [by apply Hm|]. intros <-. destruct Hp. specialize (Ht E). lia.
  - rewrite length_app. lia.
  - intros H. by apply Hh, Hb.
  - rewrite length_app. intros k v Hk%Hr. lia.
Qed.

Lemma dir_inv_put rs r m has key :
  dir_inv rs m has → r_type r = TypeDir → rule_key stat major minor r = Some key →
  dir_inv (rs ++ [r]) (<[key := Z.of_nat (length rs)]> m) (Z.lor has HAS_DIR).
Proof.
  intros (H1 & H2 & Hs & _ & Hl) Ht Hk. split_and!.
  - intros k v. destruct (decide (key = k)) as [->|Hne].
    + rewrite lookup_insert_eq. intros [= <-]. exists (length rs), r. 
      split_and!; try done. by rewrite lookup_app_r, Nat.sub_diag by lia.
    + rewrite lookup_insert_ne by done. intros (j & x & Hj & Hx)%H1. exists j, x.
      split; [|done]. by apply lookup_app_l_Some.
  - intros j x k [[-> <-]|[_ Hj]]%snoc_lookup Hx Hkx.
    + rewrite Hkx in Hk. injection Hk as ->. by rewrite lookup_insert_eq.
    + destruct (decide (key = k)) as [->|Hne]; [by rewrite lookup_insert_eq|].
      rewrite lookup_insert_ne by done. by eapply H2.
  - etrans; [apply size_insert_le|]. rewrite length_app. cbn [length]. lia.
  - intros H. by apply has_set in H.
  - intros k. rewrite last_rule_snoc. unfold names_dir, is_dir. rewrite (bool_decide_true _ Ht), Hk. cbn [andb].
    destruct (decide (key = k)) as [->|Hne]; [by rewrite lookup_insert_eq, bool_decide_true|].
    rewrite lookup_insert_ne, bool_decide_false by congruence. apply Hl.
Qed.

Lemma dir_inv_skip rs r m has has' :
  dir_inv rs m has → more_bits has has' → (r_type r = TypeDir → rule_key stat major minor r = None) →
  dir_inv (rs ++ [r]) m has'.
Proof.
  intros (H1 & H2 & Hs & Hh & Hl) Hb Ht. split_and!.
  - intros k v (j & x & Hj & Hx)%H1. exists j, x. split; [|done]. by apply lookup_app_l_Some.
  - intros j x k [[-> <-]|[_ Hj]]%snoc_lookup Hx Hkx; [|by eapply H2]. by rewrite Ht in Hkx.
  - rewrite length_app. lia.
  - intros H. by apply Hh, Hb.
  - intros k. rewrite last_rule_snoc, Hl. unfold names_dir at 2, is_dir.
    destruct (bool_decide_reflect (r_type r = TypeDir)) as [E|]; [|done].
    rewrite (Ht E), bool_decide_false by done. done.
Qed.

Lemma prule_inv_put rs r p has k :
  prule_inv rs p has k → r_type r = TypeParent → (k < MAX_PARENT)%nat →
  (length rs < MAX_RULES)%nat →
  prule_inv (rs ++ [r]) (<[k := Z.of_nat (length rs)]> p) (Z.lor has HAS_PARENT) (S k).
Proof.
  intros (Hl & -> & Hp & _ & Hr) Ht Hk Hlt. unfold prule_inv. rewrite parent_list_snoc. unfold is_parent.
  rewrite bool_decide_true by done. split_and!.
  - by rewrite length_insert.
  - rewrite length_app. cbn. lia.
  - intros t jr [[-> <-]|[Ht' Hj]]%snoc_lookup.
    + apply list_lookup_insert_eq. lia.
    + rewrite list_lookup_insert_ne by lia. by apply Hp.
  - intros H. by apply has_set in H.
  - intros t v [(<- & <- & _)|[_ Hv]]%list_lookup_insert_Some; [|by eapply Hr].
    unfold MAX_RULES in Hlt. lia.
Qed.

Lemma prule_inv_skip rs r p has has' k :
  prule_inv rs p has k → more_bits has has' → r_type r ≠ TypeParent → prule_inv (rs ++ [r]) p has' k.
Proof.
  intros (Hl & Hk & Hp & Hh & Hr) Hb Ht. unfold prule_inv. rewrite parent_list_snoc. unfold is_parent.
  rewrite bool_decide_false, app_nil_r by done. split_and!; try done.
  intros H. by apply Hh, Hb.
Qed.

Lemma mask_inv_put rs r names m :
  mask_inv rs names m → r_type r = TypeParent → (length (parent_list 0 rs) < 64)%nat →
  mask_inv (rs ++ [r]) names (add_mask (length (parent_list 0 rs)) (names r) m).
Proof.
  intros (Hm & Hd & Hi & Hs) Ht Hk. unfold mask_inv. rewrite parent_list_snoc. unfold is_parent.
  rewrite bool_decide_true by done. split_and!.
  - intros n t H0. rewrite add_mask_bit, Hm by done.
    destruct (decide (Z.to_nat t < length (parent_list 0 rs))%nat) as [H|H].
    + rewrite lookup_app_l by done. rewrite (proj2 (Z.eqb_neq t _)) by lia.
      by rewrite andb_false_r, orb_false_r.
    + rewrite lookup_app_r by lia. rewrite (lookup_ge_None_2 (parent_list 0 rs)) by lia. cbn [orb].
      destruct (decide (t = Z.of_nat (length (parent_list 0 rs)))) as [->|Hne].
      * rewrite Nat2Z.id, Nat.sub_diag, Z.eqb_refl. cbn. by rewrite andb_true_r.
      * rewrite (proj2 (Z.eqb_neq t _)), andb_false_r by done.
        destruct (Z.to_nat t - length (parent_list 0 rs))%nat eqn:E; [lia|done].
  - intros n [H|H]%add_mask_dom.
    + apply Hd in H as (x & Hx & Hn). exists x. split; [|done]. apply elem_of_app. by left.
    + exists r. split; [|done]. apply elem_of_app. right. apply list_elem_of_singleton. done.
  - intros n x [Hx| ->%list_elem_of_singleton]%elem_of_app Htx Hn; apply add_mask_in; [|by right].
    left. by eapply Hi.
  - pose proof (add_mask_size (length (parent_list 0 rs)) Hk (names r) m) as H.
    rewrite map_app, concat_app, length_app. cbn. rewrite app_nil_r. lia.
Qed.

Lemma mask_inv_skip rs r names m :
  mask_inv rs names m → r_type r ≠ TypeParent → mask_inv (rs ++ [r]) names m.
Proof.
  intros (Hm & Hd & Hi & Hs) Ht. unfold mask_inv. rewrite parent_list_snoc. unfold is_parent.
  rewrite bool_decide_false, app_nil_r by done. split_and!; try done.
  - intros n (x & Hx & Hn)%Hd. exists x. split; [|done]. apply elem_of_app. by left.
  - intros n x [Hx| ->%list_elem_of_singleton]%elem_of_app Htx Hn; [by eapply Hi|done].
  - rewrite map_app, concat_app, length_app. lia.
Qed.
End loaded.

(** What the agent's [compileWith] ensures, for names and values without
    NUL and names that the kernel's keys hold in full. *)
Record policy_ok (rules : list compiled) : Prop := {
  pk_rules : (length rules ≤ MAX_RULES)%nat;
  pk_parents : (length (parent_list 0 rules) ≤ MAX_PARENT)%nat;
  pk_value r : r ∈ rules → (0 ∉ r_value r);
  pk_names r n : r ∈ rules → n ∈ r_parents r ++ r_children r → c_str NAME_LEN n;
}.

(** The names fit the kernel's two hash maps of names; nothing ensures it. *)
Record names_fit (rules : list compiled) : Prop := {
  nf_parents : (length (concat (map r_parents rules)) ≤ MAX_RULES)%nat;
  nf_children : (length (concat (map r_children rules)) ≤ MAX_RULES)%nat;
}.

(** A component a rule of another type leaves alone. *)
Ltac skip_inv :=
  solve [ done
        | (eapply mask_inv_skip || eapply path_inv_skip || eapply dir_inv_skip || eapply prule_inv_skip);
          try eassumption; try congruence; eauto ].

Ltac load_cbn := cbn [l_action l_path l_dir l_prule l_has l_k l_pm l_cm].

Section loop.
Context (stat : list Z → option (Z * Z)) (major minor : Z → Z).

Definition load_inv (rs : list compiled) (l : load) : Prop :=
  act_inv rs (l_action l) ∧ path_inv rs (l_path l) (l_has l) ∧
  dir_inv stat major minor rs (l_dir l) (l_has l) ∧ prule_inv rs (l_prule l) (l_has l) (l_k l) ∧
  mask_inv rs r_parents (l_pm l) ∧ mask_inv rs r_children (l_cm l).

Lemma load_rule_ok rs r rest l :
  policy_ok (rs ++ r :: rest) → load_inv rs l →
  ∃ l', load_rule stat major minor (length rs) r l = (true, l') ∧ load_inv (rs ++ [r]) l'.
Proof.
  intros Hok (Ha & Hp & Hd & Hr & Hpm & Hcm).
  assert (Hlt : (length rs < MAX_RULES)%nat).
  { pose proof (pk_rules _ Hok) as H. rewrite length_app in H. cbn in H. lia. }
  assert (Hin : r ∈ rs ++ r :: rest) by (apply elem_of_app; right; apply list_elem_of_here).
  assert (Hsame : more_bits (l_has l) (l_has l)) by by intros f.
  assert (Hlor : ∀ b, more_bits (l_has l) (Z.lor (l_has l) b)) by (intros b f; apply has_mono).
  pose proof (act_inv_snoc rs r _ Ha Hlt) as Ha'.
  unfold load_rule. rewrite put_array_ok by (destruct Ha as [-> _]; done). cbv zeta.
  destruct (r_type r) eqn:Ht; cbn [l_path l_dir l_prule l_has l_k l_pm l_cm].
  - eexists. split; [done|]. split_and!; load_cbn; skip_inv.
  - case_decide as Hlen.
    { eexists. split; [done|]. split_and!; load_cbn; skip_inv. }
    assert (Hps : (size (l_path l) ≤ length rs)%nat) by apply Hp. rewrite put_hash_ok by lia.
    eexists. split; [done|]. split_and!; load_cbn; try skip_inv.
    apply path_inv_put; [done|done|]. split; [unfold PATH_LEN in *; lia|]. by eapply pk_value.
  - destruct (rule_key stat major minor r) as [key|] eqn:Hk.
    2: { eexists. split; [done|]. split_and!; load_cbn; skip_inv. }
    assert (Hds : (size (l_dir l) ≤ length rs)%nat) by apply Hd. rewrite put_hash_ok by lia.
    eexists. split; [done|]. split_and!; load_cbn; try skip_inv. by apply dir_inv_put.
  - assert (Hk : l_k l = length (parent_list 0 rs)) by apply Hr.
    assert (Hkl : (l_k l < MAX_PARENT)%nat).
    { pose proof (pk_parents _ Hok) as H. rewrite parent_list_app in H. cbn [parent_list] in H.
      unfold is_parent in H. rewrite bool_decide_true, !length_app in H by done. cbn in H. lia. }
    rewrite put_array_ok by (destruct Hr as [-> _]; done).
    eexists. split; [done|]. split_and!; load_cbn; try skip_inv.
    + by apply prule_inv_put.
    + rewrite Hk. apply mask_inv_put; [done|done|]. rewrite <- Hk. exact Hkl.
    + rewrite Hk. apply mask_inv_put; [done|done|]. rewrite <- Hk. exact Hkl.
  - eexists. split; [done|]. split_and!; load_cbn; skip_inv.
Qed.

Lemma load_rules_ok rs rest l :
  policy_ok (rs ++ rest) → load_inv rs l →
  ∃ l', load_rules stat major minor (length rs) rest l = (true, l') ∧ load_inv (rs ++ rest) l'.
Proof.
  revert rs l. induction rest as [|r rest IH]; intros rs l Hok Hl.
  - exists l. by rewrite app_nil_r.
  - destruct (load_rule_ok rs r rest l Hok Hl) as (l1 & H1 & Hl1).
    cbn [load_rules]. rewrite H1. cbn beta iota.
    replace (S (length rs)) with (length (rs ++ [r])) by (rewrite length_app; cbn; lia).
    replace (rs ++ r :: rest) with ((rs ++ [r]) ++ rest) in * by by rewrite <- (assoc_L (++)).
    by apply IH.
Qed.
End loop.

(** ** The masks in the kernel *)

Lemma put_masks_ok (l : list (list Z * Z)) m :
  (∀ n v, (n, v) ∈ l → c_str NAME_LEN n) → (size m + length l ≤ MAX_RULES)%nat →
  ∃ m', put_masks l m = (true, m') ∧
    ∀ n, c_str NAME_LEN n → m' !! fixed n NAME_LEN
      = match list_to_map (M:=gmap (list Z) Z) (reverse l) !! n with
        | Some v => Some v
        | None => m !! fixed n NAME_LEN
        end.
Proof.
  revert m. induction l as [|[n v] l IH]; intros m Hl Hs; cbn [put_masks].
  { exists m. split; [done|]. intros n _. cbn. by rewrite lookup_empty. }
  cbn [length] in Hs. rewrite put_hash_ok by lia.
  destruct (IH (<[fixed n NAME_LEN := v]> m)) as (m' & H1 & H2).
  { intros n' v' Hin. apply (Hl n' v'). by apply list_elem_of_further. }
  { pose proof (size_insert_le m (fixed n NAME_LEN) v). lia. }
  exists m'. split; [done|]. intros x Hx. rewrite H2 by done.
  rewrite reverse_cons, list_to_map_app, lookup_union.
  assert (Hn : c_str NAME_LEN n) by (eapply Hl, list_elem_of_here).
  rewrite lookup_fixed by done. change (list_to_map [(n, v)]) with (<[n := v]> (∅ : gmap (list Z) Z)).
  destruct (list_to_map (reverse l) !! x) as [y|].
  - by destruct (<[n := v]> (∅ : gmap (list Z) Z) !! x).
  - destruct (decide (n = x)) as [->|Hne]; [by rewrite lookup_insert_eq|].
    by rewrite lookup_insert_ne, lookup_empty by done.
Qed.

Lemma put_masks_full (l : list (list Z * Z)) m :
  (∀ n v, (n, v) ∈ l → c_str NAME_LEN n ∧ m !! fixed n NAME_LEN = None) → NoDup l.*1 →
  (size m ≤ MAX_RULES)%nat → (MAX_RULES < size m + length l)%nat →
  fst (put_masks l m) = false.
Proof.
  revert m. induction l as [|[n v] l IH]; intros m Hl Hnd Hs Hbig; cbn [put_masks length] in *; [lia|].
  destruct (Hl n v) as [Hn Hmn]; [apply list_elem_of_here|].
  destruct (decide (size m < MAX_RULES)%nat) as [Hlt|Hge].
  - rewrite put_hash_ok by done. apply NoDup_cons in Hnd as [Hnin Hnd]. apply IH; [|done|..].
    + intros x w Hx. destruct (Hl x w) as [Hxc Hxm]; [by apply list_elem_of_further|].
      split; [done|]. rewrite lookup_fixed by done. rewrite decide_False; [done|].
      intros ->. apply Hnin. apply list_elem_of_fmap. by exists (x, w).
    + rewrite map_size_insert_None by done. lia.
    + rewrite map_size_insert_None by done. lia.
  - unfold put_hash. rewrite decide_False; [done|]. rewrite Hmn. intros [[? [=]]|H]. lia.
Qed.

(** Whatever order the agent walks its map in, the kernel gets it. *)
Lemma put_masks_perm (l : list (list Z * Z)) (gm : gmap (list Z) Z) :
  l ≡ₚ map_to_list gm → (∀ n, is_Some (gm !! n) → c_str NAME_LEN n) → (size gm ≤ MAX_RULES)%nat →
  ∃ m', put_masks l ∅ = (true, m') ∧
    ∀ n, c_str NAME_LEN n → m' !! fixed n NAME_LEN = gm !! n.
Proof.
  intros Hp Hn Hs.
  assert (Hin : ∀ n v, (n, v) ∈ l → gm !! n = Some v).
  { intros n v H. apply elem_of_map_to_list. by rewrite <- Hp. }
  destruct (put_masks_ok l ∅) as (m' & H1 & H2).
  - intros n v H%Hin. apply Hn. by exists v.
  - rewrite map_size_empty, Hp, length_map_to_list. done.
  - exists m'. split; [done|]. intros n Hx. rewrite H2, lookup_empty by done.
    assert (Hl : list_to_map (M:=gmap (list Z) Z) (reverse l) = gm).
    { rewrite <- (list_to_map_to_list gm). apply list_to_map_proper.
      - rewrite reverse_Permutation, Hp. apply NoDup_fst_map_to_list.
      - by rewrite reverse_Permutation. }
    rewrite Hl. by destruct (gm !! n).
Qed.

(** ** A loaded policy *)

(** The maps as the kernel creates them. *)
Definition pst_shape (s : pst) : Prop :=
  length (rule_action s) = MAX_RULES ∧ length (parent_rule s) = MAX_PARENT ∧
  length (prevent_config s) = 2%nat.

Section policy.
Context (stat : list Z → option (Z * Z)) (major minor : Z → Z).
Context (iter : gmap (list Z) Z → list (list Z * Z)).

(** What a state holds after [rules] were applied. *)
Record holds_policy (rules : list compiled) (s : pst) (has : Z) : Prop := {
  hp_has : array_lookup (prevent_config s) 0 = Some has;
  hp_act : act_inv rules (rule_action s);
  hp_path : path_inv rules (deny_path s) has;
  hp_dir : dir_inv stat major minor rules (deny_dir s) has;
  hp_prule : prule_inv rules (parent_rule s) has (length (parent_list 0 rules));
  hp_pm : ∃ m, mask_inv rules r_parents m ∧
    ∀ n, c_str NAME_LEN n → parent_mask s !! fixed n NAME_LEN = m !! n;
  hp_cm : ∃ m, mask_inv rules r_children m ∧
    ∀ n, c_str NAME_LEN n → child_mask s !! fixed n NAME_LEN = m !! n;
}.

Lemma load_inv_init s : pst_shape s → pst_ok s →
  load_inv stat major minor [] (Load (rule_action s) ∅ ∅ (parent_rule s) 0 0 ∅ ∅).
Proof.
  intros (Ha & Hp & _) Hok.
  assert (Hm : ∀ names, mask_inv [] names ∅).
  { intros names. split_and!; [|intros n [? H]; by rewrite lookup_empty in H|by intros n r ?%not_elem_of_nil
      |by rewrite map_size_empty].
    intros n t _. rewrite lookup_empty. cbn. by rewrite Z.bits_0. }
  split_and!; try done. split_and!; try done. apply (po_parent _ Hok).
Qed.

Lemma masks_loaded rules names m :
  mask_inv rules names m → policy_ok rules → (∀ r n, r ∈ rules → n ∈ names r → c_str NAME_LEN n) →
  (length (concat (map names rules)) ≤ MAX_RULES)%nat → (∀ m, iter m ≡ₚ map_to_list m) →
  ∃ m', put_masks (iter m) ∅ = (true, m') ∧
    ∀ n, c_str NAME_LEN n → m' !! fixed n NAME_LEN = m !! n.
Proof.
  intros (_ & Hd & _ & Hs) Hok Hn Hl Hi. apply put_masks_perm; [apply Hi| |lia].
  intros n (r & Hr & Hin)%Hd. by apply (Hn r).
Qed.

Lemma apply_loads rules s :
  policy_ok rules → names_fit rules → (∀ m, iter m ≡ₚ map_to_list m) → pst_shape s → pst_ok s →
  ∃ s' has, apply stat major minor iter rules s = (true, s') ∧ holds_policy rules s' has ∧
    array_lookup (prevent_config s') 1 = array_lookup (prevent_config s) 1 ∧
    scratch_map s' = scratch_map s ∧ decisions s' = decisions s.
Proof.
  intros Hok Hfit Hi Hs Hsok. pose proof Hs as (_ & _ & Hc).
  destruct (load_rules_ok stat major minor [] rules _ Hok (load_inv_init s Hs Hsok)) as (l & Hl & Hinv).
  destruct Hinv as (Ha & Hp & Hd & Hr & Hpm & Hcm). cbn [app length] in *.
  destruct (masks_loaded rules r_parents (l_pm l)) as (pm & Hpm1 & Hpm2); try done.
  { intros r n Hr' Hn. eapply pk_names; [done..|]. apply elem_of_app. by left. }
  { apply (nf_parents _ Hfit). }
  destruct (masks_loaded rules r_children (l_cm l)) as (cm & Hcm1 & Hcm2); try done.
  { intros r n Hr' Hn. eapply pk_names; [done..|]. apply elem_of_app. by right. }
  { apply (nf_children _ Hfit). }
  unfold apply. rewrite put_array_ok by lia. rewrite Hl. cbn [negb]. cbn beta iota zeta.
  rewrite Hpm1. cbn [negb]. cbn beta iota zeta. rewrite Hcm1. cbn [negb]. cbn beta iota zeta.
  rewrite put_array_ok by (rewrite length_insert; lia).
  eexists _, (l_has l). split; [done|]. cbn. split_and!; try done.
  - split; cbn; try done.
    + unfold array_lookup. cbn. apply list_lookup_insert_eq. rewrite length_insert. lia.
    + destruct Hr as (? & Hk & ? & ? & ?). rewrite <- Hk. by split_and!.
    + by exists (l_pm l).
    + by exists (l_cm l).
  - unfold array_lookup. cbn. by rewrite !list_lookup_insert_ne by lia.
Qed.

Lemma holds_policy_ok rules s has : policy_ok rules → holds_policy rules s has → pst_ok s.
Proof.
  intros Hok H. pose proof (pk_rules _ Hok) as Hl. unfold MAX_RULES in Hl.
  destruct H as [_ _ (_ & _ & _ & Hp) (Hd & _) (_ & _ & _ & _ & Hr) _ _].
  split; [| |done].
  - intros k r Hk%Hp. lia.
  - intros k r (j & x & Hj%lookup_lt_Some & _ & _ & ->)%Hd. lia.
Qed.
End policy.

(** ** The two deciders agree *)

Lemma first_rule_Some f i rules j :
  first_rule f i rules = Some j → ∃ r, rules !! (j - i)%nat = Some r ∧ f r = true ∧ (i ≤ j)%nat.
Proof.
  revert i. induction rules as [|r rules IH]; intros i; cbn [first_rule]; [done|].
  destruct (f r) eqn:E.
  - intros [= <-]. exists r. by rewrite Nat.sub_diag.
  - intros (x & Hx & Hf & Hle)%IH. exists x. split_and!; [|done|lia].
    by replace (j - i)%nat with (S (j - S i))%nat by lia.
Qed.

Lemma first_rule_None f i rules : first_rule f i rules = None → ∀ r, r ∈ rules → f r = false.
Proof.
  revert i. induction rules as [|r rules IH]; intros i; cbn [first_rule]; [by intros _ r ?%not_elem_of_nil|].
  destruct (f r) eqn:E; [done|]. intros H x [->|Hx]%elem_of_cons; [done|]. by eapply IH.
Qed.

Lemma last_rule_Some f i rules j :
  last_rule f i rules = Some j → ∃ r, rules !! (j - i)%nat = Some r ∧ f r = true ∧ (i ≤ j)%nat.
Proof.
  revert i. induction rules as [|r rules IH]; intros i; cbn [last_rule]; [done|].
  destruct (last_rule f (S i) rules) as [k|] eqn:E.
  - intros [= ->]. apply IH in E as (x & Hx & Hf & Hle). exists x. split_and!; [|done|lia].
    by replace (j - i)%nat with (S (j - S i))%nat by lia.
  - destruct (f r) eqn:Ef; [|done]. intros [= <-]. exists r. by rewrite Nat.sub_diag.
Qed.

Lemma last_rule_None f i rules : last_rule f i rules = None → ∀ r, r ∈ rules → f r = false.
Proof.
  revert i. induction rules as [|r rules IH]; intros i; cbn [last_rule]; [by intros _ r ?%not_elem_of_nil|].
  destruct (last_rule f (S i) rules) eqn:E; [done|]. destruct (f r) eqn:Ef; [done|].
  intros _ x [->|Hx]%elem_of_cons; [done|by eapply IH].
Qed.

Lemma paths_from_rule rules p : ∀ k m j, paths_from k rules m !! p = Some j →
  m !! p = Some j ∨ ∃ r, rules !! (j - k)%nat = Some r ∧ (k ≤ j)%nat ∧ r_type r = TypePath ∧ r_value r = p.
Proof.
  induction rules as [|r rules IH]; intros k m j; cbn [paths_from]; [by left|].
  intros [H|(x & Hx & Hle & Ht & Hv)]%IH.
  - case_decide as Ht; [|by left]. apply lookup_insert_Some in H as [[Hv <-]|[_ H]]; [|by left].
    right. exists r. by rewrite Nat.sub_diag.
  - right. exists x. replace (j - k)%nat with (S (j - S k)) by lia. split_and!; try done. lia.
Qed.

Lemma head_omap_Some {A B} (g : A → option B) l v :
  head (omap g l) = Some v → ∃ k, k ∈ l ∧ g k = Some v.
Proof.
  induction l as [|x l IH]; [done|]. cbn. destruct (g x) eqn:E; cbn.
  - intros [= <-]. exists x. split; [apply list_elem_of_here|done].
  - intros (k & Hk & Hg)%IH. exists k. split; [by apply list_elem_of_further|done].
Qed.

Lemma head_omap_None {A B} (g : A → option B) l k :
  head (omap g l) = None → k ∈ l → g k = None.
Proof.
  induction l as [|x l IH]; [by intros _ ?%not_elem_of_nil|]. cbn. destruct (g x) eqn:E; [done|].
  intros H [->|Hk]%elem_of_cons; [done|by apply IH].
Qed.

(** The first parent rule, in the list of the parent rules. *)
Definition first_of (f : compiled → bool) (pl : list (nat * compiled)) : option nat :=
  head (omap (λ jr, if f (snd jr) then Some (fst jr) else None) pl).

Lemma first_rule_parents f i rules :
  (∀ r, f r = true → is_parent r = true) → first_rule f i rules = first_of f (parent_list i rules).
Proof.
  intros Hf. revert i. induction rules as [|r rules IH]; intros i; [done|].
  cbn [first_rule parent_list]. rewrite IH. destruct (f r) eqn:E.
  - rewrite (Hf r E). unfold first_of. cbn. by rewrite E.
  - destruct (is_parent r); [|done]. unfold first_of. cbn. by rewrite E.
Qed.

Lemma first_common_list f cm pm prule pl n t :
  0 ≤ t → (length pl ≤ n)%nat →
  (∀ u, 0 ≤ u → Z.testbit cm (t + u) && Z.testbit pm (t + u)
     = match pl !! Z.to_nat u with Some jr => f (snd jr) | None => false end) →
  (∀ u jr, pl !! u = Some jr → prule !! (Z.to_nat t + u)%nat = Some (Z.of_nat (fst jr))) →
  (k ← first_common cm pm n t; array_lookup prule k) = Z.of_nat <$> first_of f pl.
Proof.
  revert pl t. induction n as [|n IH]; intros pl t Ht Hl Hb Hp.
  { destruct pl; [done|cbn in Hl; lia]. }
  cbn [first_common]. pose proof (Hb 0 ltac:(lia)) as H0. rewrite Z.add_0_r in H0. rewrite H0.
  change (Z.to_nat 0) with 0%nat.
  assert (Hnext : ∀ u, 0 ≤ u → Z.testbit cm (t + 1 + u) && Z.testbit pm (t + 1 + u)
     = match tail pl !! Z.to_nat u with Some jr => f (snd jr) | None => false end).
  { intros u Hu. rewrite <- Z.add_assoc, Hb by lia. rewrite lookup_tail.
    by replace (Z.to_nat (1 + u)) with (S (Z.to_nat u)) by lia. }
  destruct pl as [|jr pl].
  - apply (IH [] (t + 1)); [lia|cbn; lia|done|]. intros u jr Hu. by rewrite lookup_nil in Hu.
  - cbn. unfold first_of. cbn. destruct (f (snd jr)) eqn:E.
    + cbn. unfold array_lookup. rewrite (proj2 (Z.leb_le 0 t)) by done.
      rewrite <- (Nat.add_0_r (Z.to_nat t)). by apply Hp.
    + apply (IH pl (t + 1)); [lia|cbn in Hl; lia|done|].
      intros u x Hu. rewrite <- (Hp (S u) x Hu). f_equal. lia.
Qed.

Lemma parent_list_is_parent i rules t jr :
  parent_list i rules !! t = Some jr → is_parent (snd jr) = true.
Proof.
  revert i t. induction rules as [|r rules IH]; intros i t; cbn [parent_list]; [done|].
  destruct (is_parent r) eqn:E; cbn [app]; [|apply IH].
  destruct t as [|t]; [by intros [= <-]|apply IH].
Qed.

Lemma first_common_0_l pm n k : first_common 0 pm n k = None.
Proof. revert k. induction n as [|n IH]; intros k; [done|]. cbn. by rewrite Z.bits_0, IH. Qed.

Lemma first_common_0_r cm n k : first_common cm 0 n k = None.
Proof. revert k. induction n as [|n IH]; intros k; [done|]. cbn. by rewrite Z.bits_0, andb_false_r, IH. Qed.

Section agree.
Context (stat : list Z → option (Z * Z)) (major minor : Z → Z).

(** The program's view of an execution and the agent's: the path (without
    what the program cuts), the base names, and the directories above as
    path prefixes.  A directory rule lies above the file exactly when the
    directory that [stat] finds at its path is among the ancestors the walk
    sees, and no two such rules lie above the same file. *)
Record same_exec (rules : list compiled) (v : exec_view) (path child parent : list Z) : Prop := {
  se_path : slots_path (take MAX_DEPTH (xv_slots v)) = path;
  se_path_ok : c_str PATH_LEN path;
  se_child : xv_base v = child;
  se_child_ok : c_str NAME_LEN child;
  se_parent : xv_pbase v = parent;
  se_parent_ok : c_str NAME_LEN parent;
  se_dirs r : r ∈ rules → r_type r = TypeDir →
    dir_matches path r = true ↔
    ∃ key, rule_key stat major minor r = Some key ∧ key ∈ take MAX_DEPTH (xv_dirs v);
  se_one i j r r' : rules !! i = Some r → rules !! j = Some r' →
    dir_matches path r = true → dir_matches path r' = true → i = j;
}.

(** The same without the last: any directory rules above the file. *)
Record same_view (rules : list compiled) (v : exec_view) (path child parent : list Z) : Prop := {
  sv_path : slots_path (take MAX_DEPTH (xv_slots v)) = path;
  sv_child : xv_base v = child;
  sv_parent : xv_pbase v = parent;
  sv_dirs r : r ∈ rules → r_type r = TypeDir →
    dir_matches path r = true ↔
    ∃ key, rule_key stat major minor r = Some key ∧ key ∈ take MAX_DEPTH (xv_dirs v);
}.

(** The directory rules above the file all block, or all detect. *)
Definition same_actions (rules : list compiled) (path : list Z) : Prop :=
  ∀ r r', r ∈ rules → r' ∈ rules → dir_matches path r = true → dir_matches path r' = true →
    r_block r = r_block r'.

(** The strings the program reads fit its keys. *)
Record view_fits (v : exec_view) : Prop := {
  vf_path : c_str PATH_LEN (slots_path (take MAX_DEPTH (xv_slots v)));
  vf_base : c_str NAME_LEN (xv_base v);
  vf_pbase : c_str NAME_LEN (xv_pbase v);
}.

(** What makes the program find a rule of a loaded policy. *)
Definition found_by (v : exec_view) (r : compiled) : Prop :=
  (r_type r = TypePath ∧ r_value r = slots_path (take MAX_DEPTH (xv_slots v))) ∨
  (r_type r = TypeDir ∧ ∃ key, rule_key stat major minor r = Some key ∧ key ∈ take MAX_DEPTH (xv_dirs v)) ∨
  parent_matches (xv_base v) (xv_pbase v) r = true.

Lemma same_exec_view rules v path child parent :
  same_exec rules v path child parent → same_view rules v path child parent.
Proof. by intros []. Qed.

Lemma same_exec_fits rules v path child parent : same_exec rules v path child parent → view_fits v.
Proof. intros []. subst. by split. Qed.

Lemma dir_matches_dir path r : dir_matches path r = true → r_type r = TypeDir.
Proof. unfold dir_matches, is_dir. intros [H _]%andb_true_iff. by apply bool_decide_eq_true in H. Qed.

Lemma parent_matches_parent child parent r : parent_matches child parent r = true → is_parent r = true.
Proof. unfold parent_matches. by intros [H _]%andb_true_iff. Qed.

Lemma has_flag {A} (has f : Z) (o : option A) :
  (Z.land has f = 0 → o = None) → (if negb (Z.land has f =? 0) then o else None) = o.
Proof. intros H. destruct (Z.eqb_spec (Z.land has f) 0) as [E|]; [by rewrite H|done]. Qed.

Lemma parent_rule_agrees rules s has child parent :
  policy_ok rules → holds_policy stat major minor rules s has →
  c_str NAME_LEN child → c_str NAME_LEN parent →
  spec_parent s (fixed child NAME_LEN) (fixed parent NAME_LEN)
  = Z.of_nat <$> first_rule (parent_matches child parent) 0 rules.
Proof.
  intros Hok Hp Hc Hpar. destruct (hp_pm _ _ _ _ _ _ Hp) as (pm & (Hpm & _) & Epm).
  destruct (hp_cm _ _ _ _ _ _ Hp) as (cm & (Hcm & _) & Ecm).
  destruct (hp_prule _ _ _ _ _ _ Hp) as (Hl & _ & Hpr & _).
  rewrite first_rule_parents by apply parent_matches_parent.
  unfold spec_parent. rewrite Ecm, Epm by done.
  assert (Hb : ∀ u, 0 ≤ u → Z.testbit (default 0 (cm !! child)) (0 + u)
      && Z.testbit (default 0 (pm !! parent)) (0 + u)
    = match parent_list 0 rules !! Z.to_nat u with
      | Some jr => parent_matches child parent (snd jr)
      | None => false
      end).
  { intros u Hu. rewrite Z.add_0_l, Hcm, Hpm by done.
    destruct (parent_list 0 rules !! Z.to_nat u) as [jr|] eqn:E; [|done].
    unfold parent_matches. by rewrite (parent_list_is_parent 0 rules _ jr E). }
  rewrite <- (first_common_list _ (default 0 (cm !! child)) (default 0 (pm !! parent)) (parent_rule s)
                _ MAX_PARENT 0) by (done || apply (pk_parents _ Hok) || apply Hpr).
  destruct (cm !! child) as [x|]; cbn [mbind option_bind default from_option id].
  - destruct (pm !! parent) as [y|]; cbn [mbind option_bind default from_option id]; [done|].
    by rewrite first_common_0_r.
  - by rewrite first_common_0_l.
Qed.

(** The rule the program finds in a loaded policy. *)
Lemma view_rule_match rules s has v :
  policy_ok rules → holds_policy stat major minor rules s has → view_fits v →
  view_rule s has v = Z.of_nat <$> kernel_match stat major minor rules v.
Proof.
  intros Hok Hp [Vp Vb Vq]. unfold view_rule, spec_rule, view_key, view_base, view_pbase, kernel_match.
  destruct (hp_path _ _ _ _ _ _ Hp) as (Hpath & _ & Hpf & _).
  destruct (hp_dir _ _ _ _ _ _ Hp) as (_ & _ & _ & Hdf & Hd).
  destruct (hp_prule _ _ _ _ _ _ Hp) as (_ & _ & _ & Hrf & _).
  rewrite has_flag by (intros H; by rewrite Hpf).
  rewrite has_flag.
  2: { intros H. rewrite (Hdf H). induction (take MAX_DEPTH (xv_dirs v)) as [|k l IH]; [done|].
       cbn. by rewrite lookup_empty. }
  rewrite (parent_rule_agrees rules s has _ _ Hok Hp) by done.
  rewrite has_flag.
  2: { intros H. rewrite first_rule_parents by apply parent_matches_parent.
       specialize (Hrf H). by destruct (parent_list 0 rules). }
  rewrite Hpath by done. destruct (paths_from 0 rules ∅ !! _); [done|]. cbn [fmap option_fmap option_map].
  assert (Hn : head (omap (λ k, deny_dir s !! k) (take MAX_DEPTH (xv_dirs v)))
    = Z.of_nat <$> nearest_dir stat major minor rules (take MAX_DEPTH (xv_dirs v))).
  { unfold nearest_dir. induction (take MAX_DEPTH (xv_dirs v)) as [|k l IH]; [done|]. cbn. rewrite Hd.
    by destruct (last_rule _ 0 rules). }
  rewrite Hn. by destruct (nearest_dir _ _ _ rules _).
Qed.

Lemma kernel_match_rule rules v i : kernel_match stat major minor rules v = Some i →
  ∃ r, rules !! i = Some r ∧ found_by v r.
Proof.
  unfold kernel_match. destruct (paths_from 0 rules ∅ !! _) as [j|] eqn:E.
  { intros [= ->]. apply paths_from_rule in E as [E|(r & Hr & _ & Ht & Hv)]; [by rewrite lookup_empty in E|].
    rewrite Nat.sub_0_r in Hr. exists r. split; [done|]. by left. }
  destruct (nearest_dir _ _ _ rules _) as [j|] eqn:E1.
  - intros [= ->]. apply head_omap_Some in E1 as (key & Hin & (r & Hr & Hf & _)%last_rule_Some).
    rewrite Nat.sub_0_r in Hr. exists r. split; [done|]. right; left.
    apply andb_true_iff in Hf as [Ht%bool_decide_eq_true Hk%bool_decide_eq_true]. split; [done|]. by exists key.
  - intros (r & Hr & Hf & _)%first_rule_Some. rewrite Nat.sub_0_r in Hr. exists r. split; [done|]. by right; right.
Qed.

(** *** Against the agent's [match] *)

Lemma nearest_dir_matches rules v path child parent j :
  same_view rules v path child parent → nearest_dir stat major minor rules (take MAX_DEPTH (xv_dirs v)) = Some j →
  ∃ r, rules !! j = Some r ∧ dir_matches path r = true.
Proof.
  intros Hsv (key & Hin & (r & Hr & Hf & _)%last_rule_Some)%head_omap_Some. rewrite Nat.sub_0_r in Hr. exists r. split; [done|].
  apply andb_true_iff in Hf as [Ht%bool_decide_eq_true Hk%bool_decide_eq_true].
  apply (sv_dirs _ _ _ _ _ Hsv r); [by eapply list_elem_of_lookup_2|done|by exists key].
Qed.

Lemma nearest_dir_none rules v path child parent :
  same_view rules v path child parent → nearest_dir stat major minor rules (take MAX_DEPTH (xv_dirs v)) = None →
  ∀ r, r ∈ rules → dir_matches path r = false.
Proof.
  intros Hsv Hn r Hin. apply not_true_is_false. intros Hm. pose proof (dir_matches_dir _ _ Hm) as Hd.
  destruct (proj1 (sv_dirs _ _ _ _ _ Hsv r Hin Hd) Hm) as (key & Hk & Hkin).
  pose proof (head_omap_None _ _ key Hn Hkin) as Hl. apply (last_rule_None _ _ _ Hl r) in Hin.
  unfold names_dir, is_dir in Hin. rewrite bool_decide_true, bool_decide_true in Hin by done. done.
Qed.

(** Where the rule found by [match] is a directory rule, the kernel's is
    one that covers the file too; otherwise they are the same. *)
Lemma kernel_match_cases rules v path child parent : same_view rules v path child parent →
  kernel_match stat major minor rules v = match_ rules path child parent ∨
  ∃ i j r r', kernel_match stat major minor rules v = Some i ∧ match_ rules path child parent = Some j ∧
    rules !! i = Some r ∧ rules !! j = Some r' ∧ dir_matches path r = true ∧ dir_matches path r' = true.
Proof.
  intros Hsv. unfold kernel_match, match_. rewrite (sv_path _ _ _ _ _ Hsv).
  destruct (paths_from 0 rules ∅ !! path); [by left|].
  destruct (nearest_dir _ _ _ rules _) as [i|] eqn:En.
  - destruct (nearest_dir_matches _ _ _ _ _ _ Hsv En) as (r & Hr & Hm).
    destruct (first_rule (dir_matches path) 0 rules) as [j|] eqn:Ef.
    + apply first_rule_Some in Ef as (r' & Hr' & Hm' & _). rewrite Nat.sub_0_r in Hr'. right. by exists i, j, r, r'.
    + rewrite (first_rule_None _ _ _ Ef r) in Hm; [done|]. by eapply list_elem_of_lookup_2.
  - left. destruct (first_rule (dir_matches path) 0 rules) as [j|] eqn:Ef.
    + apply first_rule_Some in Ef as (r' & Hr' & Hm' & _). rewrite Nat.sub_0_r in Hr'.
      rewrite (nearest_dir_none _ _ _ _ _ Hsv En r') in Hm'; [done|]. by eapply list_elem_of_lookup_2.
    + by rewrite (sv_child _ _ _ _ _ Hsv), (sv_parent _ _ _ _ _ Hsv).
Qed.

Lemma kernel_match_same rules v path child parent : same_exec rules v path child parent →
  kernel_match stat major minor rules v = match_ rules path child parent.
Proof.
  intros Hse. destruct (kernel_match_cases rules v path child parent (same_exec_view _ _ _ _ _ Hse))
    as [H|(i & j & r & r' & -> & -> & Hr & Hr' & Hm & Hm')]; [done|].
  f_equal. by apply (se_one _ _ _ _ _ Hse i j r r').
Qed.

Lemma kernel_match_blocks rules v path child parent : same_view rules v path child parent → same_actions rules path →
  blocked rules (kernel_match stat major minor rules v) = blocked rules (match_ rules path child parent).
Proof.
  intros Hsv Ha. destruct (kernel_match_cases rules v path child parent Hsv)
    as [->|(i & j & r & r' & -> & -> & Hr & Hr' & Hm & Hm')]; [done|].
  unfold blocked. cbn [mbind option_bind]. rewrite Hr, Hr'.
  apply Ha; [by eapply list_elem_of_lookup_2..|done|done].
Qed.

Lemma match_rule rules path child parent i :
  match_ rules path child parent = Some i → is_Some (rules !! i).
Proof.
  assert (Hpaths : ∀ k m j, paths_from k rules m !! path = Some j →
    m !! path = Some j ∨ (k ≤ j < k + length rules)%nat).
  { clear. induction rules as [|r rules IH]; intros k m j; cbn [paths_from length]; [by left|].
    intros [H|H]%IH; [|right; lia]. case_decide; [|by left].
    apply lookup_insert_Some in H as [[_ <-]|[_ H]]; [right; lia|by left]. }
  unfold match_. destruct (paths_from 0 rules ∅ !! path) as [j|] eqn:E.
  - intros [= <-]. apply Hpaths in E as [E|E]; [by rewrite lookup_empty in E|].
    apply lookup_lt_is_Some_2. lia.
  - destruct (first_rule (dir_matches path) 0 rules) as [j|] eqn:E1.
    + intros [= <-]. apply first_rule_Some in E1 as (r & Hr & _). rewrite Nat.sub_0_r in Hr. by exists r.
    + intros (r & Hr & _)%first_rule_Some. rewrite Nat.sub_0_r in Hr. by exists r.
Qed.

Lemma loaded_action rules s has i r :
  holds_policy stat major minor rules s has → rules !! i = Some r →
  spec_action s (Z.of_nat i) = rule_act r.
Proof.
  intros Hp Hr. unfold spec_action, array_lookup. rewrite (proj2 (Z.leb_le 0 _)) by lia.
  rewrite Nat2Z.id. destruct (hp_act _ _ _ _ _ _ Hp) as [_ Ha]. by rewrite (Ha i r Hr).
Qed.
End agree.

(** ** Properties *)

Lemma check_exec_off {KL : KernelLayout} (c : ctx) slot args s :
  array_lookup (prevent_config s) 0 = Some 0 → check_exec c slot args s = (0, s).
Proof. intros H. unfold check_exec, mbind, prog_bind, get. cbn beta iota zeta. by rewrite H. Qed.

(** A run of the program under a policy that was just loaded: the verdict
    and the records, by the rule the kernel is to find. *)
Lemma kernel_run {KL : KernelLayout} stat major minor iter rules s (c : ctx) ns bprm rest v slot sc :
  policy_ok rules → names_fit rules → (∀ m, iter m ≡ₚ map_to_list m) → pst_shape s → pst_ok s →
  ctx_ok c → holds_ns c ns → holds_keys c ns → sees_exec c ns bprm v → view_fits v →
  array_lookup (prevent_config s) 1 ≠ Some (cx_tgid c) →
  percpu_lookup (scratch_map s) (cx_cpu c) 0 = Some sc → pp_ok (sc_parts sc) →
  ∃ s', apply stat major minor iter rules s = (true, s') ∧
    let '(ret, s1) := check_exec c slot (bprm :: rest) s' in
    match kernel_match stat major minor rules v with
    | Some i => ∃ r, rules !! i = Some r ∧ ret = (if r_block r then - EPERM_ else 0) ∧
        decisions s1 = decisions s ++ (if slot then [decision_of c v (Z.of_nat i) (rule_act r)] else [])
    | None => ret = 0 ∧ decisions s1 = decisions s
    end.
Proof.
  intros Hok Hfit Hi Hsh Hsok Hc Hns Hk Hse Hv Hself Hsc Hpp.
  destruct (apply_loads stat major minor iter rules s Hok Hfit Hi Hsh Hsok)
    as (s' & has & Ha & Hp & H1 & Hscr & Hdec).
  exists s'. split; [done|]. pose proof (view_rule_match _ _ _ _ _ _ _ Hok Hp Hv) as Hr.
  pose proof (hp_has _ _ _ _ _ _ Hp) as Hhas.
  destruct (decide (has = 0)) as [->|Hnz].
  - rewrite check_exec_off by done.
    assert (view_rule s' 0 v = None) as Hnone by done. rewrite Hr in Hnone.
    by destruct (kernel_match _ _ _ rules v).
  - rewrite (check_exec_run c ns bprm rest v slot s' has sc); try done; try by rewrite ?H1, ?Hscr.
    2: { by eapply holds_policy_ok. }
    rewrite Hr. destruct (kernel_match _ _ _ rules v) as [i|] eqn:E; [|done].
    cbn [fmap option_fmap option_map fst]. destruct (kernel_match_rule _ _ _ _ _ _ E) as (r & Hri & _).
    rewrite (loaded_action _ _ _ _ _ _ _ _ Hp Hri). exists r. split; [done|]. split.
    + unfold rule_act. by destruct (r_block r).
    + destruct slot; cbn; by rewrite Hdec, ?app_nil_r.
Qed.

Lemma kernel_verdict {KL : KernelLayout} stat major minor iter rules s (c : ctx) ns bprm rest v slot sc :
  policy_ok rules → names_fit rules → (∀ m, iter m ≡ₚ map_to_list m) → pst_shape s → pst_ok s →
  ctx_ok c → holds_ns c ns → holds_keys c ns → sees_exec c ns bprm v → view_fits v →
  array_lookup (prevent_config s) 1 ≠ Some (cx_tgid c) →
  percpu_lookup (scratch_map s) (cx_cpu c) 0 = Some sc → pp_ok (sc_parts sc) →
  ∃ s', apply stat major minor iter rules s = (true, s') ∧
    eval (check_exec c slot (bprm :: rest)) s'
    = if blocked rules (kernel_match stat major minor rules v) then - EPERM_ else 0.
Proof.
  intros Hok Hfit Hi Hsh Hsok Hc Hns Hk Hse Hv Hself Hsc Hpp.
  destruct (kernel_run stat major minor iter rules s c ns bprm rest v slot sc Hok Hfit
              Hi Hsh Hsok Hc Hns Hk Hse Hv Hself Hsc Hpp) as (s' & Ha & Hrun).
  exists s'. split; [done|]. unfold eval, blocked. destruct (check_exec c slot (bprm :: rest) s') as [ret s1].
  destruct (kernel_match _ _ _ rules v) as [i|]; [|by destruct Hrun as [-> _]].
  destruct Hrun as (r & Hri & -> & _). cbn [mbind option_bind fst]. by rewrite Hri.
Qed.

(** By the rule [match] finds, when at most one directory rule is above the
    file. *)
Lemma loaded_run {KL : KernelLayout} stat major minor iter rules s (c : ctx) ns bprm rest v
    path child parent slot sc :
  policy_ok rules → names_fit rules → (∀ m, iter m ≡ₚ map_to_list m) → pst_shape s → pst_ok s →
  ctx_ok c → holds_ns c ns → holds_keys c ns → sees_exec c ns bprm v →
  same_exec stat major minor rules v path child parent →
  array_lookup (prevent_config s) 1 ≠ Some (cx_tgid c) →
  percpu_lookup (scratch_map s) (cx_cpu c) 0 = Some sc → pp_ok (sc_parts sc) →
  ∃ s', apply stat major minor iter rules s = (true, s') ∧
    let '(ret, s1) := check_exec c slot (bprm :: rest) s' in
    match match_ rules path child parent with
    | Some i => ∃ r, rules !! i = Some r ∧ ret = (if r_block r then - EPERM_ else 0) ∧
        decisions s1 = decisions s ++ (if slot then [decision_of c v (Z.of_nat i) (rule_act r)] else [])
    | None => ret = 0 ∧ decisions s1 = decisions s
    end.
Proof.
  intros Hok Hfit Hi Hsh Hsok Hc Hns Hk Hse Hv Hself Hsc Hpp.
  rewrite <- (kernel_match_same stat major minor rules v path child parent Hv).
  apply (kernel_run stat major minor iter rules s c ns bprm rest v slot sc); try done.
  by eapply same_exec_fits.
Qed.

(** What the policy blocks is what the kernel refuses: for every
    policy the agent accepts, loading it succeeds, and an execution by any
    other process is then refused exactly when the rule that the agent's own
    [match] finds for it (the last path rule of the path, the directory rule
    above it, the first parent rule of its base names, in this order) has
    the action block.  At most one directory rule may cover the file; with
    more, see the next property. *)
Theorem policy_is_enforced {KL : KernelLayout} stat major minor iter rules s (c : ctx) ns bprm rest v
    path child parent slot sc :
  policy_ok rules → names_fit rules → (∀ m, iter m ≡ₚ map_to_list m) → pst_shape s → pst_ok s →
  ctx_ok c → holds_ns c ns → holds_keys c ns → sees_exec c ns bprm v →
  same_exec stat major minor rules v path child parent →
  array_lookup (prevent_config s) 1 ≠ Some (cx_tgid c) →
  percpu_lookup (scratch_map s) (cx_cpu c) 0 = Some sc → pp_ok (sc_parts sc) →
  ∃ s', apply stat major minor iter rules s = (true, s') ∧
    eval (check_exec c slot (bprm :: rest)) s' =
      match (i ← match_ rules path child parent; rules !! i) with
      | Some r => if r_block r then - EPERM_ else 0
      | None => 0
      end.
Proof.
  intros Hok Hfit Hi Hsh Hsok Hc Hns Hk Hse Hv Hself Hsc Hpp.
  destruct (loaded_run stat major minor iter rules s c ns bprm rest v path child parent slot sc Hok Hfit
              Hi Hsh Hsok Hc Hns Hk Hse Hv Hself Hsc Hpp) as (s' & Ha & Hrun).
  exists s'. split; [done|]. unfold eval. destruct (check_exec c slot (bprm :: rest) s') as [ret s1].
  destruct (match_ rules path child parent) as [i|]; [|by destruct Hrun].
  destruct Hrun as (r & Hri & -> & _). cbn [mbind option_bind fst]. by rewrite Hri.
Qed.

(** A detect-only directory rule between a file and a blocking one. *)
Section nested.
Context (stat : list Z → option (Z * Z)) (major minor : Z → Z).
Context (outer inner : compiled) (ko ki : dir_key) (pre post : list dir_key) (v : exec_view) (path : list Z).
Hypothesis To : r_type outer = TypeDir.
Hypothesis Ti : r_type inner = TypeDir.
Hypothesis Ko : rule_key stat major minor outer = Some ko.
Hypothesis Ki : rule_key stat major minor inner = Some ki.
Hypothesis Hne : ki ≠ ko.
Hypothesis Hdirs : take MAX_DEPTH (xv_dirs v) = pre ++ ki :: post.
Hypothesis Hki : ki ∉ pre.
Hypothesis Hko : ko ∉ pre.
Hypothesis Hpath : slots_path (take MAX_DEPTH (xv_slots v)) = path.
Hypothesis Hpok : c_str PATH_LEN path.

Lemma nested_paths : paths_from 0 [outer; inner] ∅ = ∅.
Proof. cbn [paths_from]. by rewrite !decide_False by congruence. Qed.

Lemma nested_first_dir s has :
  dir_inv stat major minor [outer; inner] (deny_dir s) has →
  head (omap (λ k, deny_dir s !! k) (take MAX_DEPTH (xv_dirs v))) = Some 1.
Proof.
  intros (D1 & D2 & _).
  assert (Hpre : ∀ k, k ∈ pre → deny_dir s !! k = None).
  { intros k Hin. destruct (deny_dir s !! k) eqn:E; [|done]. exfalso.
    apply D1 in E as ([|[|j]] & r & Hr & _ & Hkr & _); [| |done]; injection Hr as <-; congruence. }
  rewrite Hdirs. clear Hdirs Hki Hko. induction pre as [|x pre' IH]; cbn.
  - destruct (D2 1%nat inner ki eq_refl Ti Ki) as [x Hx]. rewrite Hx. cbn.
    apply D1 in Hx as ([|[|j]] & r & Hr & _ & Hkr & ->); [|done|done].
    injection Hr as <-. congruence.
  - rewrite (Hpre x) by apply list_elem_of_here. apply IH.
    intros k Hin. by apply Hpre, list_elem_of_further.
Qed.

Lemma nested_view_rule s has :
  holds_policy stat major minor [outer; inner] s has → view_rule s has v = Some 1.
Proof.
  intros Hp. unfold view_rule, spec_rule, view_key. rewrite Hpath.
  destruct (hp_path _ _ _ _ _ _ Hp) as (Hpa & _ & Hpf & _).
  pose proof (hp_dir _ _ _ _ _ _ Hp) as Hd. pose proof Hd as (_ & _ & _ & Hdf & _).
  rewrite has_flag by (intros H; by rewrite Hpf).
  rewrite Hpa, nested_paths, lookup_empty by done. cbn [fmap option_fmap option_map].
  pose proof (nested_first_dir s has Hd) as Hf. rewrite Hf.
  destruct (Z.eqb_spec (Z.land has HAS_DIR) 0) as [E|]; [|done].
  rewrite (Hdf E) in Hf. apply head_omap_Some in Hf as (k & _ & Hk). by rewrite lookup_empty in Hk.
Qed.
End nested.

(** C36. The two engines disagree on nested directory rules: when a
    blocking rule covers a file and a detect-only rule covers a directory
    between, the agent's [match] (which decides where the kernel cannot)
    finds the blocking rule if it comes first, while the kernel takes the
    nearest directory and lets the execution pass. *)
Theorem nested_block_is_not_enforced {KL : KernelLayout} stat major minor iter outer inner s (c : ctx)
    ns bprm rest v path child parent slot sc ko ki pre post :
  policy_ok [outer; inner] → names_fit [outer; inner] → (∀ m, iter m ≡ₚ map_to_list m) → pst_shape s → pst_ok s →
  ctx_ok c → holds_ns c ns → holds_keys c ns → sees_exec c ns bprm v →
  r_type outer = TypeDir → r_type inner = TypeDir → r_block outer = true → r_block inner = false →
  rule_key stat major minor outer = Some ko → rule_key stat major minor inner = Some ki → ki ≠ ko →
  take MAX_DEPTH (xv_dirs v) = pre ++ ki :: post → (ki ∉ pre) → (ko ∉ pre) →
  slots_path (take MAX_DEPTH (xv_slots v)) = path → c_str PATH_LEN path → dir_matches path outer = true →
  array_lookup (prevent_config s) 1 ≠ Some (cx_tgid c) →
  percpu_lookup (scratch_map s) (cx_cpu c) 0 = Some sc → pp_ok (sc_parts sc) →
  (i ← match_ [outer; inner] path child parent; [outer; inner] !! i) = Some outer ∧
  ∃ s', apply stat major minor iter [outer; inner] s = (true, s') ∧
    eval (check_exec c slot (bprm :: rest)) s' = 0.
Proof.
  intros Hok Hfit Hi Hsh Hsok Hc Hns Hk Hse To Ti Bo Bi Ko Ki Hne Hdirs Hki Hko Hpath Hpok Hm Hself Hsc Hpp.
  split.
  { unfold match_. rewrite nested_paths, lookup_empty by done. cbn [first_rule]. by rewrite Hm. }
  destruct (apply_loads stat major minor iter _ s Hok Hfit Hi Hsh Hsok)
    as (s' & has & Ha & Hp & H1 & Hscr & _).
  exists s'. split; [done|]. unfold eval. pose proof (hp_has _ _ _ _ _ _ Hp) as Hhas.
  destruct (decide (has = 0)) as [->|Hnz]; [by rewrite check_exec_off|].
  rewrite (check_exec_run c ns bprm rest v slot s' has sc); try done; try by rewrite ?H1, ?Hscr.
  2: { by eapply holds_policy_ok. }
  rewrite (nested_view_rule stat major minor outer inner ko ki pre post v path) by done.
  cbn [fst]. change 1 with (Z.of_nat 1).
  rewrite (loaded_action _ _ _ _ _ _ 1 inner Hp eq_refl). unfold rule_act. by rewrite Bi.
Qed.

(** A policy that does not load is no policy: when writing any rule into the
    kernel's maps fails, the agent's [apply] leaves the rule kinds at 0 and
    every execution is allowed. *)
Lemma failed_load_turns_prevention_off stat major minor iter rules s s' :
  prevent_config s ≠ [] → apply stat major minor iter rules s = (false, s') →
  ∀ (KL : KernelLayout) (c : ctx) slot args, check_exec c slot args s' = (0, s').
Proof.
  intros Hne Ha KL c slot args. apply check_exec_off. revert Ha. unfold apply.
  assert (Hlen : (0 < length (prevent_config s))%nat) by (destruct (prevent_config s); [done|cbn; lia]).
  rewrite put_array_ok by done.
  assert (Hcfg : array_lookup (<[0%nat := 0]> (prevent_config s)) 0 = Some 0)
    by by apply list_lookup_insert_eq.
  destruct (load_rules _ _ _ 0 rules _) as [[] l]; cbn [negb]; [|by intros [= <-]].
  destruct (put_masks (iter (l_pm l)) ∅) as [[] pm]; cbn [negb]; [|by intros [= <-]].
  destruct (put_masks (iter (l_cm l)) ∅) as [[] cm]; cbn [negb]; [|by intros [= <-]].
  by rewrite put_array_ok by by rewrite length_insert.
Qed.

(** Too many names turn prevention off: the agent limits the number of
    rules but not the names in parent rules, and the kernel's map of child
    names holds 1024.  With more distinct child names, loading the policy
    fails, and every execution is allowed, also those that its path and
    directory rules block. *)
Theorem too_many_names_turn_prevention_off stat major minor iter rules s names :
  policy_ok rules → (∀ m, iter m ≡ₚ map_to_list m) → pst_shape s → pst_ok s →
  (∀ n, n ∈ names → ∃ r, r ∈ rules ∧ r_type r = TypeParent ∧ n ∈ r_children r) →
  NoDup names → (MAX_RULES < length names)%nat →
  ∃ s', apply stat major minor iter rules s = (false, s') ∧
    ∀ (KL : KernelLayout) (c : ctx) slot args, check_exec c slot args s' = (0, s').
Proof.
  intros Hok Hi Hsh Hsok Hn Hnd Hbig. pose proof Hsh as (_ & _ & Hc).
  destruct (apply stat major minor iter rules s) as [ok s'] eqn:Ha. exists s'.
  enough (ok = false) as ->.
  { split; [done|]. eapply failed_load_turns_prevention_off; [|exact Ha]. by destruct (prevent_config s). }
  revert Ha. unfold apply. rewrite put_array_ok by lia.
  destruct (load_rules_ok stat major minor [] rules _ Hok (load_inv_init stat major minor s Hsh Hsok))
    as (l & Hl & Hinv).
  destruct Hinv as (_ & _ & _ & _ & _ & (_ & Hd & Hin & _)). cbn [app length] in *. rewrite Hl.
  cbn [negb]. cbn beta iota zeta. destruct (put_masks (iter (l_pm l)) ∅) as [[] pm]; cbn [negb]; [|by intros [= <-]].
  assert (Hfull : fst (put_masks (iter (l_cm l)) ∅) = false).
  { apply put_masks_full.
    - intros n v Hnv. rewrite Hi in Hnv. apply elem_of_map_to_list in Hnv. split; [|apply lookup_empty].
      destruct (Hd n) as (r & Hr & Hnr); [by exists v|]. eapply pk_names; [done..|].
      apply elem_of_app. by right.
    - rewrite Hi. apply NoDup_fst_map_to_list.
    - rewrite map_size_empty. lia.
    - rewrite map_size_empty, Hi, length_map_to_list. cbn [Nat.add]. eapply Nat.lt_le_trans; [exact Hbig|].
      rewrite <- size_dom, <- (size_list_to_set (C:=gset (list Z))) by done.
      apply subseteq_size. intros n. rewrite elem_of_list_to_set, elem_of_dom.
      intros (r & Hr & Ht & Hnr)%Hn. by eapply Hin. }
  destruct (put_masks (iter (l_cm l)) ∅) as [[] cm]; [done|]. by intros [= <-].
Qed.

(** *** A host with /etc/shadow executed, and the policies *)

Definition demo_stat (p : list Z) : option (Z * Z) :=
  if decide (p = zs "/etc") then Some (11, 0x801)
  else if decide (p = zs "/") then Some (2, 0x801) else None.

Definition demo_maps : pst :=
  Pst (replicate MAX_RULES 0) ∅ ∅ ∅ ∅ (replicate MAX_PARENT 0) [0; 900] []
    [[Scratch pp_zero (zeros 256) (zeros 32) (zeros 32)]].

Definition dir_rule (dir : list Z) (block : bool) : compiled :=
  Compiled TypeDir dir block [] []
    (Rule [] [] (zs "dir") dir [] (if block then zs "block" else zs "detect")).

Lemma demo_maps_shape : pst_shape demo_maps.
Proof. split_and!; reflexivity. Qed.

Lemma demo_maps_ok : pst_ok demo_maps.
Proof.
  split; cbn [demo_maps deny_path deny_dir parent_rule].
  - intros k r. by rewrite lookup_empty.
  - intros k r. by rewrite lookup_empty.
  - intros k r [-> _]%lookup_replicate. lia.
Qed.

(** Rules that name no processes. *)
Definition nameless (r : compiled) : Prop :=
  (0 ∉ r_value r) ∧ is_parent r = false ∧ r_parents r = [] ∧ r_children r = [].

Lemma nameless_policy_ok rules :
  (length rules ≤ MAX_RULES)%nat → Forall nameless rules → policy_ok rules ∧ names_fit rules.
Proof.
  intros Hl Hr. rewrite Forall_forall in Hr.
  assert (Hn : ∀ names : compiled → list (list Z), (∀ r, r ∈ rules → names r = []) → concat (map names rules) = []).
  { intros names Hnm. clear Hr Hl. induction rules as [|r l IH]; [done|]. cbn.
    rewrite (Hnm r) by apply list_elem_of_here. apply IH. intros x Hx. by apply Hnm, list_elem_of_further. }
  assert (Hpl : ∀ i, parent_list i rules = []).
  { clear Hl Hn. induction rules as [|r l IH]; intros i; [done|]. cbn.
    destruct (Hr r) as (_ & -> & _); [apply list_elem_of_here|]. apply IH.
    intros x Hx. by apply Hr, list_elem_of_further. }
  split; split; try done.
  - rewrite Hpl. cbn. lia.
  - intros r Hin. by apply Hr.
  - intros r n Hin. destruct (Hr r Hin) as (_ & _ & -> & ->). intros H. by apply not_elem_of_nil in H.
  - rewrite Hn; [cbn; lia|]. intros r Hin. by apply Hr.
  - rewrite Hn; [cbn; lia|]. intros r Hin. by apply Hr.
Qed.

Lemma dir_policy_ok dirs :
  (length dirs ≤ 64)%nat → Forall (λ d, 0 ∉ fst d) dirs →
  policy_ok (map (λ d, dir_rule (fst d) (snd d)) dirs) ∧
  names_fit (map (λ d, dir_rule (fst d) (snd d)) dirs).
Proof.
  intros Hl Hf. apply nameless_policy_ok; [rewrite length_map; unfold MAX_RULES; lia|].
  apply Forall_map. eapply Forall_impl; [exact Hf|]. by intros d.
Qed.

Lemma zs_ok n s : forallb (λ b, negb (b =? 0)) (zs s) = true → (length (zs s) < n)%nat → c_str n (zs s).
Proof.
  intros H Hl. split; [done|]. intros Hin%list_elem_of_In.
  rewrite forallb_forall in H. by apply H in Hin.
Qed.

Definition demo_dev_major (d : Z) : Z := d / 256.
Definition demo_dev_minor (d : Z) : Z := d mod 256.

Lemma demo_same_one r :
  (dir_matches (zs "/etc/shadow") r = true ↔
   ∃ key, rule_key demo_stat demo_dev_major demo_dev_minor r = Some key ∧
     key ∈ take MAX_DEPTH (xv_dirs demo_view)) →
  same_exec demo_stat demo_dev_major demo_dev_minor [r] demo_view
    (zs "/etc/shadow") (zs "shadow") (zs "shadow").
Proof.
  intros H. split; try done.
  - apply zs_ok; vm_compute; [done|lia].
  - apply zs_ok; vm_compute; [done|lia].
  - apply zs_ok; vm_compute; [done|lia].
  - by intros r' ->%list_elem_of_singleton _.
  - intros [|i] [|j] r1 r' Hi Hj _ _; done.
Qed.

Lemma demo_same_exec b ru :
  same_exec demo_stat demo_dev_major demo_dev_minor [Compiled TypeDir (zs "/etc") b [] [] ru] demo_view
    (zs "/etc/shadow") (zs "shadow") (zs "shadow").
Proof.
  apply demo_same_one. split; [|done]. intros _.
  exists (DirKey 11 0x800001 0). split; [reflexivity|]. apply list_elem_of_here.
Qed.

Lemma policy_is_enforced_witness :
  ∃ s', apply demo_stat demo_dev_major demo_dev_minor map_to_list [dir_rule (zs "/etc") true]
          demo_maps = (true, s') ∧
    eval (check_exec (demo_ctx 0 500 500 1000 0 0 0 0) true [0xA000]) s' = - EPERM_.
Proof.
  apply (policy_is_enforced demo_stat demo_dev_major demo_dev_minor map_to_list
           [dir_rule (zs "/etc") true] demo_maps (demo_ctx 0 500 500 1000 0 0 0 0) demo_ns 0xA000 []
           demo_view (zs "/etc/shadow") (zs "shadow") (zs "shadow") true
           (Scratch pp_zero (zeros 256) (zeros 32) (zeros 32))).
  - apply (dir_policy_ok [(zs "/etc", true)]); [cbn; lia|]. constructor; [by apply zs_no_nul|done].
  - apply (dir_policy_ok [(zs "/etc", true)]); [cbn; lia|]. constructor; [by apply zs_no_nul|done].
  - done.
  - apply demo_maps_shape.
  - apply demo_maps_ok.
  - apply demo_ctx_ok.
  - apply demo_holds.
  - apply demo_holds_keys.
  - apply demo_sees.
  - apply demo_same_exec.
  - vm_compute. done.
  - reflexivity.
  - split; reflexivity.
Defined.

Lemma nested_block_is_not_enforced_witness :
  let rules := [dir_rule (zs "/") true; dir_rule (zs "/etc") false] in
  (i ← match_ rules (zs "/etc/shadow") (zs "shadow") (zs "shadow"); rules !! i)
  = Some (dir_rule (zs "/") true) ∧
  ∃ s', apply demo_stat demo_dev_major demo_dev_minor map_to_list rules demo_maps = (true, s') ∧
    eval (check_exec (demo_ctx 0 500 500 1000 0 0 0 0) true [0xA000]) s' = 0.
Proof.
  apply (nested_block_is_not_enforced demo_stat demo_dev_major demo_dev_minor map_to_list
           (dir_rule (zs "/") true) (dir_rule (zs "/etc") false) demo_maps
           (demo_ctx 0 500 500 1000 0 0 0 0) demo_ns 0xA000 [] demo_view (zs "/etc/shadow")
           (zs "shadow") (zs "shadow") true (Scratch pp_zero (zeros 256) (zeros 32) (zeros 32))
           (DirKey 2 0x800001 0) (DirKey 11 0x800001 0) [] [DirKey 2 0x800001 0]); try done.
  - apply (dir_policy_ok [(zs "/", true); (zs "/etc", false)]); [cbn; lia|].
    repeat (constructor; [by apply zs_no_nul|]). done.
  - apply (dir_policy_ok [(zs "/", true); (zs "/etc", false)]); [cbn; lia|].
    repeat (constructor; [by apply zs_no_nul|]). done.
  - apply demo_maps_ok.
  - apply demo_ctx_ok.
  - apply demo_holds.
  - apply demo_holds_keys.
  - apply demo_sees.
  - apply not_elem_of_nil.
  - apply not_elem_of_nil.
  - apply zs_ok; vm_compute; [done|lia].
Defined.

(** A rule that blocks a path, and a parent rule with 1025 child names. *)
Definition demo_name (i : nat) : list Z := [33 + Z.of_nat i mod 64; 33 + Z.of_nat i / 64].
Definition demo_names : list (list Z) := demo_name <$> seq 0 1025.
Definition demo_rule : rule := Rule [] [] [] [] [] (zs "block").
Definition demo_too_many : list compiled :=
  [Compiled TypePath (zs "/etc/shadow") true [] [] demo_rule; Compiled TypeParent [] true [zs "sh"] demo_names demo_rule].

Lemma demo_too_many_ok : policy_ok demo_too_many.
Proof.
  split.
  - cbn. unfold MAX_RULES. lia.
  - apply Nat.leb_le. reflexivity.
  - intros r [->|[->|[]%not_elem_of_nil]%elem_of_cons]%elem_of_cons; by apply zs_no_nul || apply not_elem_of_nil.
  - intros r n [->|[->|[]%not_elem_of_nil]%elem_of_cons]%elem_of_cons; cbn [r_parents r_children app].
    + by intros []%not_elem_of_nil.
    + intros [->|(i & -> & Hi)%list_elem_of_fmap]%elem_of_cons; [apply zs_ok; vm_compute; [done|lia]|].
      apply elem_of_seq in Hi. unfold demo_name. split; [cbn; unfold NAME_LEN; lia|].
      rewrite !elem_of_cons, elem_of_nil. Z.to_euclidean_division_equations. lia.
Qed.

Lemma too_many_names_turn_prevention_off_witness :
  ∃ s', apply demo_stat demo_dev_major demo_dev_minor map_to_list demo_too_many demo_maps = (false, s') ∧
    ∀ (KL : KernelLayout) (c : ctx) slot args, check_exec c slot args s' = (0, s').
Proof.
  apply (too_many_names_turn_prevention_off demo_stat demo_dev_major demo_dev_minor map_to_list
           demo_too_many demo_maps demo_names).
  - apply demo_too_many_ok.
  - done.
  - apply demo_maps_shape.
  - apply demo_maps_ok.
  - intros n Hn. exists (Compiled TypeParent [] true [zs "sh"] demo_names demo_rule). split_and!; [|done|done].
    apply list_elem_of_further, list_elem_of_here.
  - apply NoDup_fmap_2; [|apply NoDup_seq]. intros i j [= H1 H2].
    Z.to_euclidean_division_equations. lia.
  - unfold demo_names. rewrite length_fmap, length_seq. unfold MAX_RULES. lia.
Defined.
