(* ===== verification/PreventCompile.v ===== *)
(** * Compiling the server's rules (rules.go)

    [compileWith] turns the rules of the server into the policy the engines
    enforce: it validates each rule, normalises its value, and keeps in
    detect mode a block rule that would cover a protected executable
    ([guard]).  Resolving symbolic links and hashing files are the operating
    system's. *)
From Stdlib Require Import ZArith Lia Ascii String.
From stdpp Require Import base tactics list gmap strings.
From S2P Require Import Prelude.
From S2P Require Import GoStrings.
From S2P Require Import Kernel.
From S2P Require Import PathWalk.
From S2P Require Import Scenario.
From S2P Require Import Prevent.
From S2P Require Import PreventProps.
From S2P Require Import PreventPolicy.
Local Open Scope Z_scope.
Import Prevent.Prevent.

(** ** Rules *)

(** [splitNames] *)
Definition split_names (s : list Z) : list (list Z) :=
  base_name <$> filter (λ n, n ≠ []) (trim_space <$> split_on 44 s).

Inductive compile_err :=
  | err_action | err_hash | err_abs | err_names | err_parents | err_type   (* the rule is left out *)
  | err_rules                                                            (* the rest is left out *)
  | err_guard.                                                           (* the rule only detects *)

Definition maxRules : nat := 1024.
Definition maxParentRules : nat := 64.

(** [guard]; the values of [g_hashes] are the protected files. *)
Record guard := Guard { g_paths : list (list Z); g_hashes : gmap (list Z) (list Z) }.

Definition protectedPaths : list (list Z) := zs <$>
  ["/sbin/init"; "/usr/sbin/init"; "/lib/systemd/systemd"; "/usr/lib/systemd/systemd";
   "/bin/sh"; "/usr/bin/sh"; "/bin/bash"; "/usr/bin/bash"; "/bin/dash"; "/usr/bin/dash";
   "/usr/sbin/sshd"; "/usr/bin/sudo"; "/usr/bin/login"; "/usr/sbin/nft"; "/usr/sbin/iptables"]%string.

Section compile.
(** [filepath.EvalSymlinks], [hashFile] (both [None] on an error) and
    [os.Executable]. *)
Context (resolve : list Z → option (list Z)) (hash_file : list Z → option (list Z)) (exe : option (list Z)).

(** [newGuard] *)
Definition newGuard : guard :=
  foldl (λ g p, match resolve p with
                | None => g
                | Some real => Guard (g_paths g ++ [real])
                    (match hash_file real with
                     | Some h => <[h := real]> (g_hashes g)
                     | None => g_hashes g
                     end)
                end) (Guard [] ∅) (protectedPaths ++ option_list exe).

(** [refuse]: whether there is a reason. *)
Definition refuse (g : guard) (c : compiled) : bool :=
  match r_type c with
  | TypeHash => bool_decide (is_Some (g_hashes g !! r_value c))
  | TypePath => let target := default (r_value c) (resolve (r_value c)) in
                existsb (λ p, bool_decide (p = target)) (g_paths g)
  | TypeDir => let target := default (r_value c) (resolve (r_value c)) in
               existsb (λ p, under p target) (g_paths g)
  | TypeParent | TypeKnownMalware => false
  end.

(** One turn of the loop up to the limit on rules; [nparents] is
    [len(p.parents)]. *)
Definition compile_rule (nparents : nat) (r : rule) : compile_err + compiled :=
  let block := bool_decide (ru_action r = zs "block") in
  if negb block && negb (bool_decide (ru_action r = zs "detect")) then inl err_action
  else if bool_decide (ru_type r = zs "hash") then
    let v := to_lower (trim_space (ru_value r)) in
    if is_sha256 v then inr (Compiled TypeHash v block [] [] r) else inl err_hash
  else if bool_decide (ru_type r = zs "path") || bool_decide (ru_type r = zs "dir") then
    if negb (is_abs (ru_value r)) then inl err_abs
    else inr (Compiled (if bool_decide (ru_type r = zs "path") then TypePath else TypeDir)
                (clean (ru_value r)) block [] [] r)
  else if bool_decide (ru_type r = zs "parent") then
    let parents := split_names (ru_parent r) in
    let children := split_names (ru_value r) in
    if bool_decide (parents = []) || bool_decide (children = []) then inl err_names
    else if (nparents =? maxParentRules)%nat then inl err_parents
    else inr (Compiled TypeParent (ru_value r) block parents children r)
  else inl err_type.

Definition no_block (c : compiled) : compiled :=
  Compiled (r_type c) (r_value c) false (r_parents c) (r_children c) (r_rule c).

(** [compileWith]: the policy's rules, each at its index, and the errors. *)
Fixpoint compile_loop (g : guard) (rules : list rule) (p : list compiled) (errs : list compile_err)
    : list compiled * list compile_err :=
  match rules with
  | [] => (p, errs)
  | r :: rules =>
      match compile_rule (length (filter is_parent p)) r with
      | inl e => compile_loop g rules p (errs ++ [e])
      | inr c =>
          if (length p =? maxRules)%nat then (p, errs ++ [err_rules])
          else if r_block c && refuse g c then compile_loop g rules (p ++ [no_block c]) (errs ++ [err_guard])
          else compile_loop g rules (p ++ [c]) errs
      end
  end.

Definition compileWith (g : guard) (rules : list rule) : list compiled * list compile_err :=
  compile_loop g rules [] [].
End compile.

Example split_names_ex : split_names (zs " nginx , /usr/bin/php-fpm ,, sh/")
  = zs <$> ["nginx"; "php-fpm"; "sh"]%string.
Proof. vm_compute. reflexivity. Qed.

Local Abbreviation no_nul s := (0 ∉ (s : list Z)).

Lemma split_names_no_nul s n : no_nul s → n ∈ split_names s → no_nul n.
Proof.
  intros Hs (x & -> & Hx)%list_elem_of_fmap. apply base_name_no_nul.
  apply list_elem_of_filter in Hx as [_ (y & -> & Hy)%list_elem_of_fmap]. apply trim_space_no_nul.
  pose proof (split_on_no_nul 44 s Hs) as H. rewrite Forall_forall in H. by apply H.
Qed.

(** ** What a compiled policy satisfies *)

Section facts.
Context (resolve : list Z → option (list Z)).
Implicit Types (g : guard) (r : rule) (c : compiled).

(** How a rule of the policy comes from one of the server's. *)
Definition compiled_from g r c : Prop :=
  ∃ n c', compile_rule n r = inr c' ∧ c = if r_block c' && refuse resolve g c' then no_block c' else c'.

(** A rule of each type, validated and normalised. *)
Definition rule_wf c : Prop :=
  match r_type c with
  | TypeHash => is_sha256 (r_value c) = true
  | TypePath | TypeDir => normal_path (r_value c)
  | TypeParent => r_parents c ≠ [] ∧ r_children c ≠ []
  | TypeKnownMalware => False
  end.

Lemma compile_rule_wf n r c : compile_rule n r = inr c →
  rule_wf c ∧ (is_parent c = true → n ≠ maxParentRules) ∧
  (r_block c = true ↔ ru_action r = zs "block").
Proof.
  unfold compile_rule. destruct (negb _ && negb _); [done|].
  repeat case_bool_decide; cbn [orb]; try done.
  all: try (destruct (is_sha256 _) eqn:E; [|done]).
  all: try (destruct (is_abs (ru_value r)) eqn:E; cbn [negb]; [|done]).
  all: try (destruct (Nat.eqb_spec n maxParentRules); [done|]).
  all: intros [= <-]; unfold rule_wf, is_parent; cbn; split_and!; try done; by apply clean_normal.
Qed.

Lemma refuse_no_block g c : refuse resolve g (no_block c) = refuse resolve g c.
Proof. done. Qed.

Lemma compiled_from_wf g r c : compiled_from g r c →
  rule_wf c ∧ (r_block c = true → refuse resolve g c = false ∧ ru_action r = zs "block").
Proof.
  intros (n & c' & Hc & ->). destruct (compile_rule_wf n r c' Hc) as (Hw & _ & Hb).
  destruct (r_block c') eqn:Eb; cbn [andb].
  - destruct (refuse resolve g c') eqn:Er; [done|]. split; [done|]. intros _. split; [done|]. by apply Hb.
  - split; [done|]. congruence.
Qed.

(** The loop: the rules kept so far, within the limits. *)
Record compile_inv g (rs : list rule) (p : list compiled) : Prop := {
  ci_rules : (length p ≤ maxRules)%nat;
  ci_parents : (length (filter is_parent p) ≤ maxParentRules)%nat;
  ci_from : Forall2 (compiled_from g) rs p;
}.

Lemma is_parent_no_block c : is_parent (no_block c) = is_parent c.
Proof. done. Qed.

Lemma compile_inv_snoc g rs p r c c' : compile_inv g rs p →
  compile_rule (length (filter is_parent p)) r = inr c' → length p ≠ maxRules →
  c = (if r_block c' && refuse resolve g c' then no_block c' else c') → compile_inv g (rs ++ [r]) (p ++ [c]).
Proof.
  intros [H1 H2 H3] Hc Hn ->. destruct (compile_rule_wf _ _ _ Hc) as (_ & Hp & _). split.
  - rewrite length_app. cbn. lia.
  - rewrite filter_app, length_app.
    assert (Hi : is_parent (if r_block c' && refuse resolve g c' then no_block c' else c') = is_parent c')
      by (by destruct (_ && _)).
    destruct (is_parent c') eqn:E.
    + rewrite filter_cons_True by (by rewrite Hi). cbn. specialize (Hp eq_refl). lia.
    + rewrite filter_cons_False by (rewrite Hi; by intros []). cbn. lia.
  - apply Forall2_app; [done|]. constructor; [|constructor]. by eexists _, c'.
Qed.

Lemma compile_loop_ok g rules : ∀ rs p errs, compile_inv g rs p →
  let '(p', errs') := compile_loop resolve g rules p errs in
  ∃ rs', rs' `sublist_of` rules ∧ compile_inv g (rs ++ rs') p' ∧
    (errs' = errs → rs' = rules) ∧ errs `prefix_of` errs'.
Proof.
  induction rules as [|r rules IH]; intros rs p errs Hinv; cbn [compile_loop].
  { exists []. rewrite app_nil_r. by split_and!. }
  assert (Hne : ∀ e errs', errs ++ [e] `prefix_of` errs' → errs' ≠ errs).
  { intros e errs' Hpre ->. apply prefix_length in Hpre. rewrite length_app in Hpre. cbn in Hpre. lia. }
  destruct (compile_rule _ r) as [e|c] eqn:Hc.
  { specialize (IH rs p (errs ++ [e]) Hinv). destruct (compile_loop _ _ _ _ _) as [p' errs'].
    destruct IH as (rs' & Hs & Hi & Hall & Hpre). exists rs'. split_and!; [by apply sublist_cons|done| |].
    - intros He. by destruct (Hne _ _ Hpre).
    - by eapply prefix_app_l. }
  destruct (Nat.eqb_spec (length p) maxRules).
  { exists []. rewrite app_nil_r. split_and!; [apply sublist_nil_l|done| |by apply prefix_app_r].
    intros He%(f_equal length). rewrite length_app in He. cbn in He. lia. }
  destruct (r_block c && refuse resolve g c) eqn:Eg.
  - specialize (IH (rs ++ [r]) (p ++ [no_block c]) (errs ++ [err_guard])).
    destruct (compile_loop _ _ _ _ _) as [p' errs'].
    destruct IH as (rs' & Hs & Hi & Hall & Hpre); [eapply compile_inv_snoc; try done; by rewrite Eg|].
    exists (r :: rs'). rewrite <- (assoc_L (++)) in Hi.
    split_and!; [by apply sublist_skip|done| |by eapply prefix_app_l].
    intros He. by destruct (Hne _ _ Hpre).
  - specialize (IH (rs ++ [r]) (p ++ [c]) errs). destruct (compile_loop _ _ _ _ _) as [p' errs'].
    destruct IH as (rs' & Hs & Hi & Hall & Hpre); [eapply compile_inv_snoc; try done; by rewrite Eg|].
    exists (r :: rs'). rewrite <- (assoc_L (++)) in Hi.
    split_and!; [by apply sublist_skip|done| |done]. intros ->. by rewrite Hall.
Qed.

Lemma compile_ok g rules :
  ∃ rs, rs `sublist_of` rules ∧ compile_inv g rs (fst (compileWith resolve g rules)) ∧
    (snd (compileWith resolve g rules) = [] → rs = rules).
Proof.
  assert (H0 : compile_inv g [] []) by (split; [cbn; lia..|constructor]).
  pose proof (compile_loop_ok g rules [] [] [] H0) as H. unfold compileWith.
  destruct (compile_loop _ _ _ _ _) as [p errs]. destruct H as (rs & H1 & H2 & H3 & _). by exists rs.
Qed.

(** *** What is reported *)

(** Why a rule is left out; [n] parent rules were kept before it. *)
Definition left_out (n : nat) r (e : compile_err) : Prop :=
  match e with
  | err_action => ru_action r ≠ zs "block" ∧ ru_action r ≠ zs "detect"
  | err_hash => ru_type r = zs "hash" ∧ is_sha256 (to_lower (trim_space (ru_value r))) = false
  | err_abs => (ru_type r = zs "path" ∨ ru_type r = zs "dir") ∧ is_abs (ru_value r) = false
  | err_names => ru_type r = zs "parent" ∧ (split_names (ru_parent r) = [] ∨ split_names (ru_value r) = [])
  | err_parents => ru_type r = zs "parent" ∧ n = maxParentRules
  | err_type => ru_type r ∉ zs <$> ["hash"; "path"; "dir"; "parent"]%string
  | err_rules | err_guard => False
  end.

(** [reported g p rules cs es]: with the policy [p] so far, the rest
    [rules] of the server's rules give the rest [cs] of the policy and the
    errors [es].  A rule is kept as it is, without an error; or it only
    detects although it asks to block, and the guard's error says so; or it
    is left out for the reason its error gives; or the policy is full, which
    the last error says. *)
Inductive reported g : list compiled → list rule → list compiled → list compile_err → Prop :=
  | rep_done p : reported g p [] [] []
  | rep_kept p r rs c cs es :
      rule_wf c → r_rule c = r → (r_block c = true ↔ ru_action r = zs "block") →
      (r_block c = true → refuse resolve g c = false) →
      reported g (p ++ [c]) rs cs es → reported g p (r :: rs) (c :: cs) es
  | rep_weakened p r rs c cs es :
      rule_wf c → r_rule c = r → ru_action r = zs "block" → r_block c = false → refuse resolve g c = true →
      reported g (p ++ [c]) rs cs es → reported g p (r :: rs) (c :: cs) (err_guard :: es)
  | rep_left_out p r rs cs e es :
      left_out (length (filter is_parent p)) r e → reported g p rs cs es → reported g p (r :: rs) cs (e :: es)
  | rep_full p r rs : length p = maxRules → reported g p (r :: rs) [] [err_rules].

Lemma compile_rule_error n r e : compile_rule n r = inl e → left_out n r e.
Proof.
  unfold compile_rule.
  destruct (bool_decide_reflect (ru_action r = zs "block")), (bool_decide_reflect (ru_action r = zs "detect"));
    cbn [negb andb]; try (by intros [= <-]).
  all: destruct (bool_decide_reflect (ru_type r = zs "hash"));
    [destruct (is_sha256 _) eqn:E; [done|by intros [= <-]]|].
  all: destruct (bool_decide_reflect (ru_type r = zs "path")); cbn [orb];
    [destruct (is_abs _) eqn:E; cbn [negb]; [done|intros [= <-]; by split; [left|]]|].
  all: destruct (bool_decide_reflect (ru_type r = zs "dir"));
    [destruct (is_abs _) eqn:E; cbn [negb]; [done|intros [= <-]; by split; [right|]]|].
  all: destruct (bool_decide_reflect (ru_type r = zs "parent"));
    [|intros [= <-]; unfold left_out; cbn [fmap list_fmap]; by rewrite !not_elem_of_cons, elem_of_nil; tauto].
  all: destruct (bool_decide_reflect (split_names (ru_parent r) = [])); cbn [orb];
    [intros [= <-]; by split; [|left]|].
  all: destruct (bool_decide_reflect (split_names (ru_value r) = []));
    [intros [= <-]; by split; [|right]|].
  all: destruct (Nat.eqb_spec n maxParentRules); [by intros [= <-]|done].
Qed.

Lemma compile_rule_of n r c : compile_rule n r = inr c → r_rule c = r.
Proof.
  unfold compile_rule. destruct (negb _ && negb _); [done|].
  destruct (bool_decide _); [destruct (is_sha256 _); [by intros [= <-]|done]|].
  destruct (_ || _); [destruct (negb _); [done|by intros [= <-]]|].
  destruct (bool_decide _); [|done]. destruct (_ || _); [done|]. destruct (_ =? _)%nat; [done|by intros [= <-]].
Qed.

Lemma compile_loop_reported g rules : ∀ p errs, ∃ cs es,
  compile_loop resolve g rules p errs = (p ++ cs, errs ++ es) ∧ reported g p rules cs es.
Proof.
  induction rules as [|r rules IH]; intros p errs; cbn [compile_loop].
  { exists [], []. rewrite !app_nil_r. split; [done|constructor]. }
  destruct (compile_rule _ r) as [e|c] eqn:Hc.
  { destruct (IH p (errs ++ [e])) as (cs & es & -> & H). exists cs, (e :: es).
    rewrite <- (assoc_L (++)). split; [done|]. constructor; [by apply compile_rule_error|done]. }
  destruct (Nat.eqb_spec (length p) maxRules).
  { exists [], [err_rules]. rewrite app_nil_r. split; [done|by constructor]. }
  destruct (compile_rule_wf _ _ _ Hc) as (Hw & _ & Hb). pose proof (compile_rule_of _ _ _ Hc) as Hr.
  destruct (r_block c && refuse resolve g c) eqn:Eg.
  - apply andb_true_iff in Eg as [Eb Er].
    destruct (IH (p ++ [no_block c]) (errs ++ [err_guard])) as (cs & es & -> & H).
    exists (no_block c :: cs), (err_guard :: es). rewrite <- !(assoc_L (++)). split; [done|].
    apply rep_weakened; try done. by apply Hb.
  - destruct (IH (p ++ [c]) errs) as (cs & es & -> & H). exists (c :: cs), es.
    rewrite <- (assoc_L (++)). split; [done|]. apply rep_kept; try done. intros E. by rewrite E in Eg.
Qed.

(** Without errors, the policy is the list of the rules, each validated. *)
Lemma reported_clean g p rules cs : reported g p rules cs [] →
  Forall2 (λ r c, rule_wf c ∧ r_rule c = r ∧ (r_block c = true ↔ ru_action r = zs "block")) rules cs.
Proof. remember [] as es eqn:He. induction 1; try done; constructor; [done|]. by apply IHreported. Qed.
End facts.

(** ** From the server's rules to the kernel *)

Section policy.
Context (resolve : list Z → option (list Z)) (g : guard).

(** What the server's strings must be like for the kernel's keys to hold
    them: without NUL, and parent and child names shorter than a key.
    Nothing in [compileWith] ensures it. *)
Record rule_fits (r : rule) : Prop := {
  rf_value : no_nul (ru_value r);
  rf_parent : no_nul (ru_parent r);
  rf_names n : ru_type r = zs "parent" → n ∈ split_names (ru_parent r) ++ split_names (ru_value r) →
    (length n < NAME_LEN)%nat;
}.

Lemma compile_rule_fits n r c : rule_fits r → compile_rule n r = inr c →
  no_nul (r_value c) ∧ ∀ x, x ∈ r_parents c ++ r_children c → c_str NAME_LEN x.
Proof.
  intros [Hv Hp Hn] H. unfold compile_rule in H. destruct (negb _ && negb _); [done|].
  destruct (bool_decide_reflect (ru_type r = zs "hash")).
  { destruct (is_sha256 _) eqn:E; [|done]. injection H as <-. split; [by apply sha256_no_nul|].
    by intros x ?%not_elem_of_nil. }
  destruct (bool_decide _ || bool_decide _).
  { destruct (is_abs (ru_value r)); cbn [negb] in H; [|done]. injection H as <-.
    split; [by apply clean_no_nul|]. by intros x ?%not_elem_of_nil. }
  destruct (bool_decide_reflect (ru_type r = zs "parent")) as [Et|]; [|done].
  destruct (_ || _); [done|]. destruct (_ =? _)%nat; [done|]. injection H as <-. split; [done|].
  cbn [r_parents r_children]. intros x Hx. split; [by apply Hn|].
  apply elem_of_app in Hx as [Hx|Hx]; [exact (split_names_no_nul _ _ Hp Hx)|exact (split_names_no_nul _ _ Hv Hx)].
Qed.

Lemma length_parent_list i p : length (parent_list i p) = length (filter is_parent p).
Proof.
  revert i. induction p as [|c p IH]; intros i; [done|]. cbn [parent_list]. rewrite length_app, IH.
  destruct (is_parent c) eqn:E.
  - rewrite filter_cons_True by (by rewrite E). done.
  - rewrite filter_cons_False by (rewrite E; by intros []). done.
Qed.

Lemma compiled_policy_ok rules : Forall rule_fits rules → policy_ok (fst (compileWith resolve g rules)).
Proof.
  intros Hr. destruct (compile_ok resolve g rules) as (rs & Hs & [H1 H2 H3] & _).
  assert (Hc : ∀ c, c ∈ fst (compileWith resolve g rules) →
    no_nul (r_value c) ∧ ∀ x, x ∈ r_parents c ++ r_children c → c_str NAME_LEN x).
  { intros c [i Hi]%list_elem_of_lookup_1. destruct (Forall2_lookup_r _ _ _ _ _ H3 Hi) as (r & Hri & n & c' & Hc & ->).
    assert (Hf : rule_fits r).
    { rewrite Forall_forall in Hr. apply Hr. eapply sublist_subseteq; [exact Hs|].
      by eapply list_elem_of_lookup_2. }
    destruct (compile_rule_fits n r c' Hf Hc). by destruct (_ && _). }
  split.
  - exact H1.
  - rewrite length_parent_list. exact H2.
  - intros c Hin. by apply Hc.
  - intros c n Hin. by apply Hc.
Qed.
End policy.

(** A run under a loaded policy refuses only by a block rule that the view
    finds. *)
Lemma refused_by_rule {KL : KernelLayout} stat major minor iter rules s (c : ctx) ns bprm rest v slot sc :
  policy_ok rules → names_fit rules → (∀ m, iter m ≡ₚ map_to_list m) → pst_shape s → pst_ok s →
  ctx_ok c → holds_ns c ns → holds_keys c ns → sees_exec c ns bprm v → view_fits v →
  array_lookup (prevent_config s) 1 ≠ Some (cx_tgid c) →
  percpu_lookup (scratch_map s) (cx_cpu c) 0 = Some sc → pp_ok (sc_parts sc) →
  ∃ s', apply stat major minor iter rules s = (true, s') ∧
    (eval (check_exec c slot (bprm :: rest)) s' ≠ 0 →
     ∃ r, r ∈ rules ∧ r_block r = true ∧ found_by stat major minor v r).
Proof.
  intros Hok Hfit Hi Hsh Hsok Hc Hns Hk Hse Hv Hself Hsc Hpp.
  destruct (kernel_verdict stat major minor iter rules s c ns bprm rest v slot sc Hok Hfit
              Hi Hsh Hsok Hc Hns Hk Hse Hv Hself Hsc Hpp) as (s' & Ha & Hret).
  exists s'. split; [done|]. rewrite Hret. unfold blocked. destruct (kernel_match _ _ _ rules v) as [i|] eqn:E; [|done].
  destruct (kernel_match_rule _ _ _ _ _ _ E) as (r & Hr & Hf). cbn [mbind option_bind]. rewrite Hr.
  destruct (r_block r) eqn:Eb; [|done]. intros _. exists r. split; [by eapply list_elem_of_lookup_2|done].
Qed.


(** ** The guard *)

Lemma newGuard_paths resolve hash_file exe p :
  p ∈ g_paths (newGuard resolve hash_file exe) → ∃ q, resolve q = Some p.
Proof.
  unfold newGuard. set (l := protectedPaths ++ option_list exe).
  assert (H : ∀ g, p ∈ g_paths (foldl (λ g p, match resolve p with
      | None => g
      | Some real => Guard (g_paths g ++ [real])
          (match hash_file real with Some h => <[h := real]> (g_hashes g) | None => g_hashes g end)
      end) g l) → p ∈ g_paths g ∨ ∃ q, resolve q = Some p).
  { induction l as [|x l IH]; intros g; cbn [foldl]; [by left|]. intros [H|H]%IH; [|by right].
    destruct (resolve x) as [real|] eqn:E; [|by left]. cbn [g_paths] in H.
    apply elem_of_app in H as [H| ->%list_elem_of_singleton]; [by left|right; by exists x]. }
  intros [[]%not_elem_of_nil|Hq]%H. exact Hq.
Qed.

(** The guard refuses a path rule on a protected file, and a directory rule
    above one. *)
Lemma refuse_path resolve g c p : r_type c = TypePath → r_value c = p → p ∈ g_paths g → resolve p = Some p →
  refuse resolve g c = true.
Proof.
  intros Ht Hv Hp Hr. unfold refuse. rewrite Ht, Hv, Hr. cbn. apply existsb_exists. exists p.
  split; [by apply list_elem_of_In|]. by apply bool_decide_eq_true.
Qed.

Lemma refuse_dir resolve g c p : r_type c = TypeDir → p ∈ g_paths g →
  under p (default (r_value c) (resolve (r_value c))) = true → refuse resolve g c = true.
Proof.
  intros Ht Hp Hu. unfold refuse. rewrite Ht. apply existsb_exists. exists p.
  split; [by apply list_elem_of_In|done].
Qed.

(** ** Properties *)

(** One directory rule, let through by the guard. *)
Lemma compile_one_dir resolve g id name dir :
  let r0 := Rule id name (zs "dir") dir [] (zs "block") in
  is_abs dir = true → Forall (λ p, under p (default (clean dir) (resolve (clean dir))) = false) (g_paths g) →
  compileWith resolve g [r0] = ([Compiled TypeDir (clean dir) true [] [] r0], []).
Proof.
  intros r0 Habs Hg. unfold compileWith. cbn [compile_loop]. unfold compile_rule. cbn [r0 ru_type ru_value ru_action].
  rewrite !bool_decide_eq_true_2 by done. rewrite Habs. vm_compute (bool_decide _).
  cbn [orb negb andb compile_loop length Nat.eqb maxRules r_block filter]. unfold refuse. cbn [r_type r_value].
  cbv zeta. replace (existsb _ (g_paths g)) with false; [done|]. symmetry. apply not_true_is_false.
  intros (p & Hp & Hu)%existsb_exists. rewrite Forall_forall in Hg.
  rewrite Hg in Hu; [done|]. by apply list_elem_of_In.
Qed.

(** One directory rule, above the file. *)
Lemma kernel_match_one stat major minor r v key : r_type r = TypeDir → rule_key stat major minor r = Some key →
  key ∈ take MAX_DEPTH (xv_dirs v) → kernel_match stat major minor [r] v = Some 0%nat.
Proof.
  intros Ht Hk Hin. unfold kernel_match. cbn [paths_from]. rewrite decide_False by congruence.
  rewrite lookup_empty. unfold nearest_dir.
  assert (Hl : last_rule (names_dir stat major minor key) 0 [r] = Some 0%nat).
  { cbn [last_rule]. unfold names_dir, is_dir. by rewrite (bool_decide_true _ Ht), bool_decide_true. }
  destruct (head _) as [j|] eqn:E; [|by rewrite (head_omap_None _ _ key E Hin) in Hl].
  apply head_omap_Some in E as (k & _ & (x & Hx & _)%last_rule_Some). rewrite Nat.sub_0_r in Hx. by destruct j.
Qed.




(** C37. The guard looks at names, the program at inodes.  A block rule on a
    directory whose name, with its links resolved, is above no protected
    executable passes the guard without an error.  If, when the policy is
    loaded, the name is that of a directory above a protected executable (a
    bind mount of /usr is, then and at compile time; so is a link to /usr
    made after the rules were compiled, since the policy is loaded again
    every minute and the guard not asked again), the program refuses the
    protected executable. *)
Theorem guard_misses_other_mounts {KL : KernelLayout} stat major minor iter resolve g id name dir s
    (c : ctx) ns bprm rest v slot sc ino dev :
  let rules := [Rule id name (zs "dir") dir [] (zs "block")] in
  is_abs dir = true → no_nul dir →
  Forall (λ p, under p (default (clean dir) (resolve (clean dir))) = false) (g_paths g) →
  slots_path (take MAX_DEPTH (xv_slots v)) ∈ g_paths g →
  stat (clean dir) = Some (ino, dev) →
  DirKey ino (kernelDev major minor dev) 0 ∈ take MAX_DEPTH (xv_dirs v) →
  (∀ m, iter m ≡ₚ map_to_list m) → pst_shape s → pst_ok s →
  ctx_ok c → holds_ns c ns → holds_keys c ns → sees_exec c ns bprm v → view_fits v →
  array_lookup (prevent_config s) 1 ≠ Some (cx_tgid c) →
  percpu_lookup (scratch_map s) (cx_cpu c) 0 = Some sc → pp_ok (sc_parts sc) →
  snd (compileWith resolve g rules) = [] ∧
  ∃ s', apply stat major minor iter (fst (compileWith resolve g rules)) s = (true, s') ∧
    eval (check_exec c slot (bprm :: rest)) s' = - EPERM_.
Proof.
  intros rules Habs Hnul Hg Hprot Hstat Hdir Hi Hsh Hsok Hc Hns Hk Hse Hv Hself Hsc Hpp.
  set (r := Compiled TypeDir (clean dir) true [] [] (Rule id name (zs "dir") dir [] (zs "block"))).
  assert (Hcomp : compileWith resolve g rules = ([r], [])) by by apply compile_one_dir.
  rewrite Hcomp. split; [done|]. cbn [fst].
  destruct (nameless_policy_ok [r]) as [Hok Hfit];
    [cbn; unfold MAX_RULES; lia|repeat constructor; by apply clean_no_nul|].
  destruct (kernel_verdict stat major minor iter [r] s c ns bprm rest v slot sc Hok Hfit
              Hi Hsh Hsok Hc Hns Hk Hse Hv Hself Hsc Hpp) as (s' & Ha & Hret).
  exists s'. split; [done|]. rewrite Hret, (kernel_match_one stat major minor r v _ eq_refl) with (2 := Hdir); [done|].
  unfold rule_key. change (r_value r) with (clean dir). by rewrite Hstat.
Qed.

(** *** The agent's host, and the server's rules *)

(** The host of [demo_view] again: the agent's own executable is
    /etc/shadow. *)
Definition demo_resolve (p : list Z) : option (list Z) :=
  if decide (p ∈ zs <$> ["/etc/shadow"; "/etc"; "/"]%string) then Some p else None.
Definition demo_guard : guard := newGuard demo_resolve (λ _, None) (Some (zs "/etc/shadow")).

(** And /etc is mounted at /mnt too. *)
Definition demo_resolve' (p : list Z) : option (list Z) :=
  if decide (p = zs "/mnt") then Some p else demo_resolve p.
Definition demo_stat' (p : list Z) : option (Z * Z) :=
  if decide (p = zs "/mnt") then Some (11, 0x801) else demo_stat p.

Definition demo_rules : list rule :=
  [Rule [] [] (zs "dir") (zs "/usr/../etc/") [] (zs "block");
   Rule [] [] (zs "path") (zs "etc/shadow") [] (zs "block");
   Rule [] [] (zs "path") (zs "/etc/shadow") [] (zs "detect")].

Example demo_compiled : compileWith demo_resolve demo_guard demo_rules
  = ([Compiled TypeDir (zs "/etc") false [] [] (Rule [] [] (zs "dir") (zs "/usr/../etc/") [] (zs "block"));
      Compiled TypePath (zs "/etc/shadow") false [] []
        (Rule [] [] (zs "path") (zs "/etc/shadow") [] (zs "detect"))],
     [err_guard; err_abs]).
Proof. vm_compute. reflexivity. Qed.

Lemma demo_rule_fits ty v act : existsb (Z.eqb 0) (zs v) = false →
  (zs ty ≠ zs "parent") → rule_fits (Rule [] [] (zs ty) (zs v) [] (zs act)).
Proof.
  intros Hv Ht. split; [by apply zs_no_nul|apply not_elem_of_nil|by intros n ?].
Qed.

Lemma demo_view_fits : view_fits demo_view.
Proof.
  split.
  - change (slots_path _) with (zs "/etc/shadow"). apply zs_ok; vm_compute; [done|lia].
  - apply (zs_ok _ "shadow"); vm_compute; [done|lia].
  - apply (zs_ok _ "shadow"); vm_compute; [done|lia].
Qed.

Lemma no_names_fit p : concat (map r_parents p) = [] → concat (map r_children p) = [] → names_fit p.
Proof. intros H1 H2. split; rewrite ?H1, ?H2; cbn; lia. Qed.

Local Abbreviation demo_scratch := (Scratch pp_zero (zeros 256) (zeros 32) (zeros 32)).
Local Abbreviation demo_run :=
  (λ s, eval (check_exec (demo_ctx 0 500 500 1000 0 0 0 0) true [0xA000]) s).

(** Blocking rules on / and, below it, on /etc. *)
Definition demo_nested : list rule :=
  [Rule [] [] (zs "dir") (zs "/") [] (zs "block"); Rule [] [] (zs "dir") (zs "/usr/../etc/") [] (zs "block")].

Lemma demo_nested_view : let p := fst (compileWith demo_resolve (newGuard demo_resolve (λ _, None) None) demo_nested) in
  same_view demo_stat demo_dev_major demo_dev_minor p demo_view (zs "/etc/shadow") (zs "shadow") (zs "shadow") ∧
  same_actions p (zs "/etc/shadow").
Proof.
  intros p. assert (Hp : p = [Compiled TypeDir (zs "/") true [] [] (Rule [] [] (zs "dir") (zs "/") [] (zs "block"));
    Compiled TypeDir (zs "/etc") true [] [] (Rule [] [] (zs "dir") (zs "/usr/../etc/") [] (zs "block"))])
    by (vm_compute; reflexivity).
  rewrite Hp. split.
  - split; [done..|]. intros r [->|[->|[]%not_elem_of_nil]%elem_of_cons]%elem_of_cons _; (split; [|done]); intros _.
    + exists (DirKey 2 0x800001 0). split; [reflexivity|]. apply list_elem_of_further, list_elem_of_here.
    + exists (DirKey 11 0x800001 0). split; [reflexivity|]. apply list_elem_of_here.
  - intros r r' [->|[->|[]%not_elem_of_nil]%elem_of_cons]%elem_of_cons
      [->|[->|[]%not_elem_of_nil]%elem_of_cons]%elem_of_cons; done.
Qed.



(** /mnt is a mount of /etc: its name resolves to itself, its inode is
    that of /etc. *)
Lemma guard_misses_other_mounts_witness :
  let rules := [Rule [] [] (zs "dir") (zs "/mnt") [] (zs "block")] in
  demo_resolve' (zs "/mnt") = Some (zs "/mnt") ∧ zs "/etc/shadow" ∈ g_paths demo_guard ∧
  snd (compileWith demo_resolve' demo_guard rules) = [] ∧
  ∃ s', apply demo_stat' demo_dev_major demo_dev_minor map_to_list
          (fst (compileWith demo_resolve' demo_guard rules)) demo_maps = (true, s') ∧
    demo_run s' = - EPERM_.
Proof.
  split; [reflexivity|]. split; [vm_compute; apply list_elem_of_here|].
  apply (guard_misses_other_mounts demo_stat' demo_dev_major demo_dev_minor map_to_list demo_resolve'
           demo_guard [] [] (zs "/mnt") demo_maps (demo_ctx 0 500 500 1000 0 0 0 0)
           demo_ns 0xA000 [] demo_view true demo_scratch 11 0x801).
  - done.
  - by apply zs_no_nul.
  - repeat constructor.
  - vm_compute. apply list_elem_of_here.
  - reflexivity.
  - vm_compute. apply list_elem_of_here.
  - done.
  - apply demo_maps_shape.
  - apply demo_maps_ok.
  - apply demo_ctx_ok.
  - apply demo_holds.
  - apply demo_holds_keys.
  - apply demo_sees.
  - apply demo_view_fits.
  - vm_compute. done.
  - reflexivity.
  - split; reflexivity.
Defined.
