(* ===== verification/PreventRace.v ===== *)
(** * Executions while a policy is loaded (prevent.bpf.c, lsm_linux.go)

    [Prevent.check_exec] is one step on the maps.  On a real host another CPU
    may run it while the agent's [apply] rewrites the maps.  Here each access
    to a shared map is a step of its own: a run sees a history [h], the maps
    at each of its accesses. *)
From Stdlib Require Import ZArith Lia Ascii String.
From stdpp Require Import base tactics list gmap.
From S2P Require Import Prelude.
From S2P Require Import Kernel.
From S2P Require Import PathWalk.
From S2P Require Import Scenario.
From S2P Require Import Tracing.
From S2P Require Import Prevent.
From S2P Require Import PreventProps.
From S2P Require Import PreventPolicy.
Local Open Scope Z_scope.
Import Prevent.Prevent.

(** ** Runs on a history *)

(** The maps at each access, and the number of accesses made so far. *)
Definition history : Type := nat → pst.
Definition timed (A : Type) : Type := history → nat → A * nat.

#[export] Instance timed_ret : MRet timed := λ A x h t, (x, t).
#[export] Instance timed_bind : MBind timed :=
  λ A B f m h t, let '(x, t') := m h t in f x h t'.

(** One access. *)
Definition rd_map {A} (f : pst → A) : timed A := λ h t, (f (h t), S t).

Section timed.
Context {KL : KernelLayout} (c : ctx).

(** The loop of [in_denied_dir]. *)
Fixpoint denied_loop_at (n : nat) (d vm mnt : Z) : timed Z :=
  match n with
  | O => mret (-1)
  | S n =>
      found ← rd_map (λ s, deny_dir s !! key_of c d);
      match found with
      | Some rule => mret rule
      | None =>
          let mnt_root := rd_mnt_root c vm in
          let parent := rd_d_parent c d in
          if d =? mnt_root then
            let mp := rd_mnt_parent c mnt in
            if mp =? mnt then mret (-1)
            else denied_loop_at n (rd_mnt_mountpoint c mnt) (field mp off_mount_mnt) mp
          else if d =? parent then mret (-1)
          else denied_loop_at n parent vm mnt
      end
  end.

Definition in_denied_dir_at (d vm : Z) : timed Z :=
  let mnt := container_of vm off_mount_mnt in
  let d := rd_d_parent c d in
  denied_loop_at MAX_DEPTH d vm mnt.

Fixpoint mask_loop_at (m : Z) (n : nat) (k : Z) : timed Z :=
  match n with
  | O => mret (-1)
  | S n =>
      if negb (Z.land (Z.shiftr m k) 1 =? 0)
      then rule ← rd_map (λ s, array_lookup (parent_rule s) k);
           match rule with Some rule => mret rule | None => mret (-1) end
      else mask_loop_at m n (k + 1)
  end.

Definition parent_child_rule_at (sc : scratch) : timed Z :=
  cm ← rd_map (λ s, child_mask s !! sc_base sc);
  match cm with
  | None => mret (-1)
  | Some cm =>
      pm ← rd_map (λ s, parent_mask s !! sc_pbase sc);
      match pm with
      | None => mret (-1)
      | Some pm => mask_loop_at (Z.land cm pm) MAX_PARENT 0
      end
  end.

(** [*has & f]: the element is read anew at each test. *)
Definition has_flag_at (f : Z) : timed bool :=
  has ← rd_map (λ s, default 0 (array_lookup (prevent_config s) 0));
  mret (negb (Z.land has f =? 0)).

Definition find_rule_at (bprm : Z) (sc : scratch) : timed Z :=
  let f := binprm_file c bprm in
  on ← has_flag_at HAS_PATH;
  rule ← (if on : bool
          then r ← rd_map (λ s, deny_path s !! sc_key sc);
               match r with Some r => mret r | None => mret (-1) end
          else mret (-1));
  on ← (if rule <? 0 then has_flag_at HAS_DIR else mret false);
  rule ← (if on : bool then in_denied_dir_at (file_dentry c f) (file_mnt c f) else mret rule);
  on ← (if rule <? 0 then has_flag_at HAS_PARENT else mret false);
  if on : bool then parent_child_rule_at sc else mret rule.

(** [check_exec]: what it returns, and what it reports if the ring buffer has
    room.  The scratch [sc] is the CPU's own. *)
Definition check_exec_at (sc : option scratch) (ctxargs : list Z) : timed (Z * option decision) :=
  let bprm := nth 0 (bpf_ctx_cast 1 ctxargs) 0 in
  has ← rd_map (λ s, array_lookup (prevent_config s) 0);
  match has with
  | None => mret (0, None)
  | Some has =>
      if has =? 0 then mret (0, None) else
      self ← rd_map (λ s, array_lookup (prevent_config s) 1);
      if match self with Some self => self =? cx_tgid c | None => false end then mret (0, None) else
      match sc with
      | None => mret (0, None)
      | Some sc =>
          let sc := fill_scratch c bprm sc in
          rule ← find_rule_at bprm sc;
          if rule <? 0 then mret (0, None) else
          let idx := u32 rule in
          act ← rd_map (λ s, array_lookup (rule_action s) idx);
          let action := match act with Some act => act | None => ACT_DETECT end in
          mret (if action =? ACT_BLOCK then - EPERM_ else 0, Some (make_decision c idx action sc))
      end
  end.
End timed.

(** ** On maps that do not change, it is [check_exec] *)

(** What a part of a run gives on constant maps. *)
Definition gives {A} (m : timed A) (s : pst) (x : A) : Prop := ∀ t, fst (m (λ _, s) t) = x.

Lemma gives_bind {A B} (m : timed A) (f : A → timed B) s x y :
  gives m s x → gives (f x) s y → gives (m ≫= f) s y.
Proof.
  intros Hm Hf t. unfold mbind, timed_bind. specialize (Hm t).
  destruct (m _ t) as [x' t']. cbn in Hm. subst x'. apply Hf.
Qed.

Lemma gives_ret {A} (x : A) s : gives (mret x) s x.
Proof. by intros t. Qed.

Lemma gives_rd {A} (f : pst → A) s : gives (rd_map f) s (f s).
Proof. by intros t. Qed.

Section const.
Context {KL : KernelLayout} (c : ctx) (s : pst).

Lemma gives_denied_loop n : ∀ d vm mnt,
  gives (denied_loop_at c n d vm mnt) s (denied_loop c (deny_dir s) n d vm mnt).
Proof.
  induction n as [|n IH]; intros d vm mnt; cbn [denied_loop_at denied_loop]; [apply gives_ret|].
  eapply gives_bind; [apply gives_rd|]. destruct (deny_dir s !! key_of c d); [apply gives_ret|].
  cbv zeta. destruct (d =? _); [destruct (_ =? _)|destruct (d =? _)]; apply gives_ret || apply IH.
Qed.

Lemma gives_mask_loop m n : ∀ k, gives (mask_loop_at m n k) s (mask_loop (parent_rule s) m n k).
Proof.
  induction n as [|n IH]; intros k; cbn [mask_loop_at mask_loop]; [apply gives_ret|].
  destruct (negb _); [|apply IH]. eapply gives_bind; [apply gives_rd|].
  destruct (array_lookup _ _); apply gives_ret.
Qed.

Lemma gives_parent_child_rule sc : gives (parent_child_rule_at sc) s (parent_child_rule s sc).
Proof.
  unfold parent_child_rule_at, parent_child_rule. eapply gives_bind; [apply gives_rd|].
  destruct (child_mask s !! _); [|apply gives_ret]. eapply gives_bind; [apply gives_rd|].
  destruct (parent_mask s !! _); [apply gives_mask_loop|apply gives_ret].
Qed.

Lemma gives_has_flag has f : array_lookup (prevent_config s) 0 = Some has →
  gives (has_flag_at f) s (negb (Z.land has f =? 0)).
Proof.
  intros H. eapply gives_bind; [apply gives_rd|]. rewrite H. apply gives_ret.
Qed.

Lemma gives_find_rule has bprm sc : array_lookup (prevent_config s) 0 = Some has →
  gives (find_rule_at c bprm sc) s (find_rule c s has bprm sc).
Proof.
  intros Hhas. unfold find_rule_at, find_rule. eapply gives_bind; [by apply gives_has_flag|].
  eapply (gives_bind _ _ _ (if negb (Z.land has HAS_PATH =? 0)
              then match deny_path s !! sc_key sc with Some r => r | None => -1 end else -1)).
  { destruct (negb _); [|apply gives_ret]. eapply gives_bind; [apply gives_rd|].
    destruct (deny_path s !! _); apply gives_ret. }
  set (r1 := if negb _ then _ else _). cbv zeta.
  eapply (gives_bind _ _ _ ((r1 <? 0) && negb (Z.land has HAS_DIR =? 0))).
  { destruct (r1 <? 0); [by apply gives_has_flag|apply gives_ret]. }
  set (f := binprm_file c bprm).
  set (r2 := if (r1 <? 0) && negb (Z.land has HAS_DIR =? 0)
             then in_denied_dir c (deny_dir s) (file_dentry c f) (file_mnt c f) else r1).
  eapply (gives_bind _ _ _ r2).
  { subst r2. destruct (_ && _); [apply gives_denied_loop|apply gives_ret]. }
  eapply (gives_bind _ _ _ ((r2 <? 0) && negb (Z.land has HAS_PARENT =? 0))).
  { destruct (r2 <? 0); [by apply gives_has_flag|apply gives_ret]. }
  destruct ((r2 <? 0) && _); [apply gives_parent_child_rule|apply gives_ret].
Qed.
End const.

(** *** The part of the history a run looks at *)

Class Local {A} (m : timed A) : Prop := {
  local_mono h t : (t ≤ snd (m h t))%nat;
  local_eq h h' t : (∀ k, (t ≤ k < snd (m h t))%nat → h k = h' k) → m h' t = m h t;
}.

#[export] Instance local_ret {A} (x : A) : Local (mret x).
Proof. split; intros; cbn; [lia|done]. Qed.

#[export] Instance local_rd {A} (f : pst → A) : Local (rd_map f).
Proof.
  split; intros; unfold rd_map in *; cbn in *; [lia|]. rewrite H; [done|lia].
Qed.

#[export] Instance local_bind {A B} (m : timed A) (f : A → timed B) :
  Local m → (∀ x, Local (f x)) → Local (m ≫= f).
Proof.
  intros [Hm1 Hm2] Hf. unfold mbind, timed_bind. split.
  - intros h t. specialize (Hm1 h t). destruct (m h t) as [x t']. pose proof (local_mono (m:=f x) h t').
    cbn in *. lia.
  - intros h h' t Hh. specialize (Hm1 h t). specialize (Hm2 h h' t).
    destruct (m h t) as [x t'] eqn:E. cbn in *. pose proof (local_mono (m:=f x) h t') as Hle.
    rewrite Hm2 by (intros k Hk; apply Hh; lia). apply local_eq. intros k Hk. apply Hh. lia.
Qed.

#[export] Instance local_if {A} (b : bool) (m m' : timed A) : Local m → Local m' → Local (if b then m else m').
Proof. by destruct b. Qed.

#[export] Instance local_option {A B} (o : option A) (f : A → timed B) (m : timed B) :
  (∀ x, Local (f x)) → Local m → Local (match o with Some x => f x | None => m end).
Proof. by destruct o. Qed.

Section local.
Context {KL : KernelLayout} (c : ctx).

#[local] Instance local_denied_loop n d vm mnt : Local (denied_loop_at c n d vm mnt).
Proof. revert d vm mnt. induction n as [|n IH]; intros d vm mnt; cbn [denied_loop_at]; cbv zeta; apply _. Qed.

#[local] Instance local_mask_loop m n k : Local (mask_loop_at m n k).
Proof. revert k. induction n as [|n IH]; intros k; cbn [mask_loop_at]; apply _. Qed.

#[local] Instance local_has_flag f : Local (has_flag_at f).
Proof. unfold has_flag_at. apply _. Qed.

#[export] Instance local_find_rule bprm sc : Local (find_rule_at c bprm sc).
Proof.
  assert (Hp : Local (parent_child_rule_at sc)) by (unfold parent_child_rule_at; apply _).
  assert (Hd : ∀ d vm, Local (in_denied_dir_at c d vm)) by (unfold in_denied_dir_at; apply _).
  unfold find_rule_at. cbv zeta. apply _.
Qed.
End local.

(** ** Runs *)

Definition swap_at (n : nat) (s0 s1 : pst) : history := λ k, if (k <? n)%nat then s0 else s1.

Section runs.
Context {KL : KernelLayout} (c : ctx) (bprm : Z) (rest : list Z).

(** The number of accesses before the action is read, on maps [s]. *)
Definition lookups (s : pst) (sc : scratch) : nat :=
  snd (find_rule_at c bprm (fill_scratch c bprm sc) (λ _, s) 2%nat).

(** A run whose lookups see [s]: only the action may be another policy's. *)
Lemma check_exec_at_run h s has sc :
  array_lookup (prevent_config s) 0 = Some has → has ≠ 0 →
  array_lookup (prevent_config s) 1 ≠ Some (cx_tgid c) →
  (∀ k, (k < lookups s sc)%nat → h k = s) →
  fst (check_exec_at c (Some sc) (bprm :: rest) h 0%nat) =
    let sc' := fill_scratch c bprm sc in
    let rule := find_rule c s has bprm sc' in
    if rule <? 0 then (0, None) else
    let action := spec_action (h (lookups s sc)) (u32 rule) in
    (if action =? ACT_BLOCK then - EPERM_ else 0, Some (make_decision c (u32 rule) action sc')).
Proof.
  intros Hhas Hnz Hself Hh. unfold lookups in *.
  pose proof (local_mono (m:=find_rule_at c bprm (fill_scratch c bprm sc)) (λ _, s) 2%nat) as Hmono.
  assert (Hloc : find_rule_at c bprm (fill_scratch c bprm sc) h 2%nat
                 = find_rule_at c bprm (fill_scratch c bprm sc) (λ _, s) 2%nat).
  { apply local_eq. intros k Hk. symmetry. apply Hh. lia. }
  pose proof (gives_find_rule c s has bprm (fill_scratch c bprm sc) Hhas 2%nat) as Hg.
  unfold check_exec_at. cbn [bpf_ctx_cast nth app]. unfold mbind, timed_bind, rd_map, mret, timed_ret.
  assert (H0 : h 0%nat = s) by (apply Hh; lia). assert (H1 : h 1%nat = s) by (apply Hh; lia).
  rewrite H0, Hhas, (proj2 (Z.eqb_neq has 0)), H1 by done.
  replace (match array_lookup (prevent_config s) 1 with Some self => self =? cx_tgid c | None => false end)
    with false.
  2: { destruct (array_lookup (prevent_config s) 1) as [self|]; [|done].
       destruct (Z.eqb_spec self (cx_tgid c)); congruence. }
  cbn beta iota. rewrite Hloc. destruct (find_rule_at _ _ _ _ _) as [rule n]. cbn [fst snd] in *. subst rule.
  destruct (_ <? 0); [done|]. unfold spec_action. by destruct (array_lookup (rule_action (h n)) _).
Qed.
End runs.

(** On maps that nobody writes, a run with each access on its own returns and
    reports what [check_exec] does. *)
Lemma undisturbed_run_is_check_exec {KL : KernelLayout} (c : ctx) slot args s :
  let o := fst (check_exec_at c (percpu_lookup (scratch_map s) (cx_cpu c) 0) args (λ _, s) 0%nat) in
  eval (check_exec c slot args) s = fst o ∧
  decisions (exec (check_exec c slot args) s) = decisions s ++ (if slot : bool then option_list (snd o) else []).
Proof.
  set (bprm := nth 0 (bpf_ctx_cast 1 args) 0).
  unfold check_exec_at, check_exec, eval, exec. fold bprm. cbv zeta.
  unfold mbind, timed_bind, prog_bind, get, put, modify, rd_map, mret, timed_ret, prog_ret.
  assert (Hnil : decisions s = decisions s ++ (if slot then [] else [])) by (destruct slot; by rewrite app_nil_r).
  destruct (array_lookup (prevent_config s) 0) as [has|] eqn:Hhas; [|by split].
  destruct (has =? 0); [by split|].
  destruct (match array_lookup (prevent_config s) 1 with Some self => self =? cx_tgid c | None => false end);
    [by split|].
  destruct (percpu_lookup _ _ _) as [sc|]; [|by split].
  pose proof (gives_find_rule c s has bprm (fill_scratch c bprm sc) Hhas 2%nat) as Hg.
  destruct (find_rule_at _ _ _ _ _) as [rule n]. cbn [fst] in Hg. subst rule.
  destruct (find_rule c s has bprm _ <? 0); [by split|].
  destruct slot; cbn; by rewrite ?app_nil_r.
Qed.

Lemma apply_config_length stat major minor iter rules s s' :
  apply stat major minor iter rules s = (true, s') → length (prevent_config s') = length (prevent_config s).
Proof.
  unfold apply, put_array at 1. case_decide; [|done].
  destruct (load_rules _ _ _ _ _ _) as [[] l]; cbn [negb]; [|done].
  destruct (put_masks _ _) as [[] pm]; cbn [negb]; [|done].
  destruct (put_masks _ _) as [[] cm]; cbn [negb]; [|done].
  unfold put_array. case_decide; [|done]. intros [= <-]. cbn. by rewrite !length_insert.
Qed.

Lemma apply_shape stat major minor iter rules s s' has :
  pst_shape s → apply stat major minor iter rules s = (true, s') → holds_policy stat major minor rules s' has →
  pst_shape s'.
Proof.
  intros (_ & _ & Hc) Ha Hp. split_and!.
  - apply (hp_act _ _ _ _ _ _ Hp).
  - apply (hp_prule _ _ _ _ _ _ Hp).
  - by rewrite (apply_config_length _ _ _ _ _ _ _ Ha).
Qed.

(** C38. A policy change can refuse what neither policy refuses: the agent
    turns enforcement off while it loads a policy ([apply] sets the rule kinds
    to 0 first), but a run that has found its rule reads the action later.
    When the old policy only detects a file and the new one, which says
    nothing of this file, blocks another by the rule with the same number,
    then a run on another CPU between whose last two accesses the new policy is
    loaded refuses the file, which is allowed before and after. *)
Theorem policy_change_refuses_what_no_policy_blocks {KL : KernelLayout} stat major minor iter old new s
    (c : ctx) ns bprm rest v path child parent slot sc i r r' :
  policy_ok old → names_fit old → policy_ok new → names_fit new →
  (∀ m, iter m ≡ₚ map_to_list m) → pst_shape s → pst_ok s →
  ctx_ok c → holds_ns c ns → holds_keys c ns → sees_exec c ns bprm v →
  same_exec stat major minor old v path child parent → same_exec stat major minor new v path child parent →
  array_lookup (prevent_config s) 1 ≠ Some (cx_tgid c) →
  percpu_lookup (scratch_map s) (cx_cpu c) 0 = Some sc → pp_ok (sc_parts sc) →
  match_ old path child parent = Some i → old !! i = Some r → r_block r = false →
  match_ new path child parent = None → new !! i = Some r' → r_block r' = true →
  ∃ s0 s1 n, apply stat major minor iter old s = (true, s0) ∧ apply stat major minor iter new s0 = (true, s1) ∧
    eval (check_exec c slot (bprm :: rest)) s0 = 0 ∧ eval (check_exec c slot (bprm :: rest)) s1 = 0 ∧
    fst (fst (check_exec_at c (Some sc) (bprm :: rest) (swap_at n s0 s1) 0%nat)) = - EPERM_.
Proof.
  intros Ho Hof Hn Hnf Hi Hsh Hsok Hc Hns Hk Hse Hvo Hvn Hself Hsc Hpp Mo Ro Bo Mn Rn Bn.
  destruct (apply_loads stat major minor iter old s Ho Hof Hi Hsh Hsok)
    as (s0 & has0 & A0 & P0 & C0 & S0 & _).
  pose proof (holds_policy_ok _ _ _ _ _ _ Ho P0) as Hsok0. pose proof (apply_shape _ _ _ _ _ _ _ _ Hsh A0 P0) as Hsh0.
  destruct (apply_loads stat major minor iter new s0 Hn Hnf Hi Hsh0 Hsok0)
    as (s1 & has1 & A1 & P1 & _).
  exists s0, s1, (lookups c bprm s0 sc). split; [done|]. split; [done|].
  pose proof (loaded_run stat major minor iter old s c ns bprm rest v path child parent slot sc Ho Hof
              Hi Hsh Hsok Hc Hns Hk Hse Hvo Hself Hsc Hpp) as (x & Ax & Hrun0).
  rewrite A0 in Ax. injection Ax as <-. rewrite Mo in Hrun0.
  pose proof (loaded_run stat major minor iter new s0 c ns bprm rest v path child parent slot sc Hn Hnf
              Hi Hsh0 Hsok0 Hc Hns Hk Hse Hvn) as H1.
  rewrite C0, S0 in H1. destruct (H1 Hself Hsc Hpp) as (x & Ax & Hrun1). clear H1.
  rewrite A1 in Ax. injection Ax as <-. rewrite Mn in Hrun1. unfold eval.
  split; [|split].
  { destruct (check_exec c slot (bprm :: rest) s0). destruct Hrun0 as (y & Hy & -> & _).
    rewrite Ro in Hy. injection Hy as <-. by rewrite Bo. }
  { destruct (check_exec c slot (bprm :: rest) s1). by destruct Hrun1 as [-> _]. }
  pose proof (view_rule_match _ _ _ _ _ _ _ Ho P0 (same_exec_fits _ _ _ _ _ _ _ _ Hvo)) as Hview.
  rewrite (kernel_match_same _ _ _ _ _ _ _ _ Hvo), Mo in Hview.
  assert (Hnz : has0 ≠ 0) by (intros ->; done).
  destruct (fill_scratch_view c ns Hns bprm v sc Hse Hpp) as (E1 & E2 & E3).
  rewrite (check_exec_at_run c bprm rest _ s0 has0 sc (hp_has _ _ _ _ _ _ P0) Hnz); [|by rewrite C0|].
  2: { intros k Hlt. unfold swap_at. by rewrite (proj2 (Nat.ltb_lt k _)) by done. }
  cbv zeta. rewrite (find_rule_spec c ns Hns s0 has0 bprm v) by done. rewrite Hview. cbn [default from_option id fmap option_fmap option_map].
  rewrite (proj2 (Z.ltb_ge _ 0)) by lia. unfold swap_at at 1. rewrite Nat.ltb_irrefl. cbn [fst].
  rewrite u32_small by (apply (view_rule_range s0 has0 v); [done|by rewrite Hview]).
  rewrite (loaded_action _ _ _ _ _ _ _ _ P1 Rn). unfold rule_act. by rewrite Bn.
Qed.

(** The old policy watches /etc; the new one blocks /bin, which is not above
    the file. *)
Lemma policy_change_refuses_what_no_policy_blocks_witness :
  let run := check_exec (demo_ctx 0 500 500 1000 0 0 0 0) true [0xA000] in
  let load := apply demo_stat demo_dev_major demo_dev_minor map_to_list in
  ∃ s0 s1 n, load [dir_rule (zs "/etc") false] demo_maps = (true, s0) ∧
    load [dir_rule (zs "/bin") true] s0 = (true, s1) ∧ eval run s0 = 0 ∧ eval run s1 = 0 ∧
    fst (fst (check_exec_at (demo_ctx 0 500 500 1000 0 0 0 0)
                (Some (Scratch pp_zero (zeros 256) (zeros 32) (zeros 32))) [0xA000] (swap_at n s0 s1) 0%nat))
    = - EPERM_.
Proof.
  apply (policy_change_refuses_what_no_policy_blocks demo_stat demo_dev_major demo_dev_minor map_to_list
           [dir_rule (zs "/etc") false] [dir_rule (zs "/bin") true] demo_maps
           (demo_ctx 0 500 500 1000 0 0 0 0) demo_ns 0xA000 [] demo_view (zs "/etc/shadow") (zs "shadow")
           (zs "shadow") true (Scratch pp_zero (zeros 256) (zeros 32) (zeros 32)) 0%nat
           (dir_rule (zs "/etc") false) (dir_rule (zs "/bin") true)); try done.
  - apply (dir_policy_ok [(zs "/etc", false)]); [cbn; lia|]. constructor; [by apply zs_no_nul|done].
  - apply (dir_policy_ok [(zs "/etc", false)]); [cbn; lia|]. constructor; [by apply zs_no_nul|done].
  - apply (dir_policy_ok [(zs "/bin", true)]); [cbn; lia|]. constructor; [by apply zs_no_nul|done].
  - apply (dir_policy_ok [(zs "/bin", true)]); [cbn; lia|]. constructor; [by apply zs_no_nul|done].
  - apply demo_maps_ok.
  - apply demo_ctx_ok.
  - apply demo_holds.
  - apply demo_holds_keys.
  - apply demo_sees.
  - apply demo_same_exec.
  - apply demo_same_one. split; [done|]. by intros (key & Hkey & _).
Defined.
