(* ===== verification/PreventNames.v ===== *)
(** * Names longer than the kernel's keys (lsm_linux.go, prevent.bpf.c)

    A parent rule compares base names; the kernel's maps hold the first 31
    bytes of each.  The rule compiler accepts longer names, so the program
    compares less than the agent's own [match] does. *)
From Stdlib Require Import ZArith Lia Ascii String.
From stdpp Require Import base tactics list gmap.
From S2P Require Import Prelude.
From S2P Require Import Kernel.
From S2P Require Import PathWalk.
From S2P Require Import Scenario.
From S2P Require Import Prevent.
From S2P Require Import PreventProps.
From S2P Require Import PreventPolicy.
Local Open Scope Z_scope.
Import Prevent.Prevent.

Definition parent_rule_of (p n : list Z) : compiled := 
  Compiled TypeParent n true [p] [n] (Rule [] [] (zs "parent") n p (zs "block")).

(** The maps when one parent rule is all there is. *)
Lemma parent_rule_loaded stat major minor iter p n s :
  (∀ m, iter m ≡ₚ map_to_list m) → pst_shape s →
  apply stat major minor iter [parent_rule_of p n] s =
    (true, Pst (<[0%nat := ACT_BLOCK]> (rule_action s)) ∅ ∅ {[fixed p NAME_LEN := 1]} {[fixed n NAME_LEN := 1]}
             (<[0%nat := 0]> (parent_rule s)) (<[0%nat := HAS_PARENT]> (<[0%nat := 0]> (prevent_config s)))
             (decisions s) (scratch_map s)).
Proof.
  intros Hi (Ha & Hp & Hc).
  assert (Hmask : ∀ x : list Z, put_masks (iter (add_mask 0 [x] ∅)) ∅ = (true, {[fixed x NAME_LEN := 1]})).
  { intros x. unfold add_mask. cbn [foldl]. rewrite lookup_empty. cbn [default from_option].
    replace (Z.lor 0 (u64 (Z.shiftl 1 (Z.of_nat 0)))) with 1 by reflexivity.
    assert (H : iter (<[x := 1]> ∅) = [(x, 1)]).
    { apply Permutation_singleton_r. rewrite Hi. by rewrite insert_empty, map_to_list_singleton. }
    rewrite H. cbn [put_masks]. rewrite put_hash_ok; [by rewrite insert_empty|].
    rewrite map_size_empty. unfold MAX_RULES. lia. }
  unfold apply, parent_rule_of. rewrite put_array_ok by lia. cbn [load_rules]. unfold load_rule.
  cbn [r_type l_action l_prule l_k]. rewrite put_array_ok by (rewrite Ha; unfold MAX_RULES; lia).
  cbn [l_action l_path l_dir l_prule l_has l_k l_pm l_cm].
  rewrite put_array_ok by (rewrite Hp; unfold MAX_PARENT; lia).
  cbn [l_action l_path l_dir l_prule l_has l_k l_pm l_cm negb r_parents r_children].
  rewrite !Hmask. cbn [negb]. by rewrite put_array_ok by (rewrite length_insert; lia).
Qed.

(** A long name in a parent rule blocks other programs: the kernel's
    keys hold 31 bytes of a name, and neither the compiler nor the loader
    rejects a longer one.  A program whose name only begins like the rule's
    is then refused, although the rule does not name it and the agent's own
    [match] finds no rule. *)
Theorem long_name_blocks_another_program {KL : KernelLayout} stat major minor iter p n s (c : ctx)
    ns bprm rest v path slot sc :
  (∀ m, iter m ≡ₚ map_to_list m) → pst_shape s → pst_ok s →
  ctx_ok c → holds_ns c ns → holds_keys c ns → sees_exec c ns bprm v →
  (0 ∉ n) → (0 ∉ xv_base v) → xv_pbase v = p → xv_base v ≠ n →
  take (NAME_LEN - 1) (xv_base v) = take (NAME_LEN - 1) n →
  array_lookup (prevent_config s) 1 ≠ Some (cx_tgid c) →
  percpu_lookup (scratch_map s) (cx_cpu c) 0 = Some sc → pp_ok (sc_parts sc) →
  match_ [parent_rule_of p n] path (xv_base v) (xv_pbase v) = None ∧
  ∃ s', apply stat major minor iter [parent_rule_of p n] s = (true, s') ∧
    eval (check_exec c slot (bprm :: rest)) s' = - EPERM_.
Proof.
  intros Hi Hsh Hsok Hc Hns Hk Hse Hn Hb Hp Hne Hcut Hself Hsc Hpp. split.
  { unfold match_, parent_rule_of. cbn [paths_from]. rewrite decide_False, lookup_empty by done.
    cbn [first_rule]. unfold dir_matches, is_dir, parent_matches. cbn [r_type r_children r_parents].
    rewrite (bool_decide_false (xv_base v ∈ [n])) by by rewrite list_elem_of_singleton. done. }
  eexists. split; [by apply parent_rule_loaded|]. destruct Hsh as (Ha & Hpl & Hcl).
  set (s' := Pst _ _ _ _ _ _ _ _ _).
  assert (Hfix : fixed (xv_base v) NAME_LEN = fixed n NAME_LEN)
    by (apply fixed_inj; [unfold NAME_LEN; lia|done..]).
  assert (Hlook : array_lookup (prevent_config s') 0 = Some HAS_PARENT).
  { apply list_lookup_insert_eq. rewrite length_insert. lia. }
  assert (Hview : view_rule s' HAS_PARENT v = Some 0).
  { unfold view_rule, spec_rule, spec_parent, view_base, view_pbase. cbn [HAS_PARENT s' child_mask parent_mask].
    change (Z.land HAS_PARENT HAS_PATH) with 0. change (Z.land HAS_PARENT HAS_DIR) with 0.
    change (Z.land HAS_PARENT HAS_PARENT) with 4. cbn [Z.eqb negb].
    rewrite Hp, Hfix. subst s'. cbn [child_mask parent_mask parent_rule]. rewrite !lookup_singleton_eq. cbn.
    unfold array_lookup. cbn. apply list_lookup_insert_eq. rewrite Hpl. unfold MAX_PARENT. lia. }
  unfold eval. rewrite (check_exec_run c ns bprm rest v slot s' HAS_PARENT sc); try done.
  - rewrite Hview. cbn [fst]. unfold spec_action, array_lookup. cbn [s' rule_action Z.leb Z.compare Z.to_nat].
    subst s'. cbn [rule_action]. by rewrite list_lookup_insert_eq by (rewrite Ha; unfold MAX_RULES; lia).
  - split; cbn [s' deny_path deny_dir parent_rule]; intros k r.
    + by rewrite lookup_empty.
    + by rewrite lookup_empty.
    + intros [(_ & <- & _)|[_ H]]%list_lookup_insert_Some; [lia|]. by eapply po_parent.
  - subst s'. unfold array_lookup in *. cbn in *. by rewrite !list_lookup_insert_ne by lia.
Qed.

(** *** The demo machine runs its program with a long name *)

Local Abbreviation long := "a-program-with-a-very-long-name-1"%string.

Definition long_view : exec_view :=
  ExecView [zs long] [DirKey 2 0x800001 0] (zs long) (zs "shadow").

Lemma demo_sees_long cpu tgid pid uid a0 a1 a2 a3 :
  sees_exec (demo_ctx cpu tgid pid uid a0 a1 a2 a3) demo_ns 0xA100 long_view.
Proof.
  pose (mt := Mount 0x1000 0x2000 0x1000).
  apply (sees _ _ _ _ 0x1400 0x2000 (Dentry 0x1000 (zs long) 14 0x800001)).
  - vm_compute. reflexivity.
  - vm_compute. reflexivity.
  - apply (slots_up _ _ _ _ mt (Dentry 0x1000 (zs long) 14 0x800001));
      [reflexivity|reflexivity|done|done|].
    by apply (slots_root _ _ _ _ mt).
  - reflexivity.
  - by apply (dirs_root _ _ _ mt (Dentry 0x1000 (zs "/") 2 0x800001)).
  - apply image_kstr_at; [|by apply zs_no_nul]. apply mem_bytes_app. vm_compute. reflexivity.
  - apply image_kstr_at; [|by apply zs_no_nul]. apply mem_bytes_app. vm_compute. reflexivity.
Qed.

Lemma long_name_blocks_another_program_witness :
  let rules := [parent_rule_of (zs "shadow") (zs "a-program-with-a-very-long-name-2")] in
  match_ rules (zs "/a-program-with-a-very-long-name-1") (zs long) (zs "shadow") = None ∧
  ∃ s', apply demo_stat demo_dev_major demo_dev_minor map_to_list rules demo_maps = (true, s') ∧
    eval (check_exec (demo_ctx 0 500 500 1000 0 0 0 0) true [0xA100]) s' = - EPERM_.
Proof.
  apply (long_name_blocks_another_program demo_stat demo_dev_major demo_dev_minor map_to_list
           (zs "shadow") (zs "a-program-with-a-very-long-name-2") demo_maps
           (demo_ctx 0 500 500 1000 0 0 0 0) demo_ns 0xA100 [] long_view
           (zs "/a-program-with-a-very-long-name-1") true
           (Scratch pp_zero (zeros 256) (zeros 32) (zeros 32))); try done.
  - apply demo_maps_ok.
  - apply demo_ctx_ok.
  - apply demo_holds.
  - apply demo_holds_keys.
  - apply demo_sees_long.
  - by apply zs_no_nul.
  - by apply (zs_no_nul long).
Defined.
