(* ===== verification/PreventSelf.v ===== *)
(** * Who the prevention program takes for the agent (prevent.bpf.c, lsm_linux.go)

    The agent has itself registered by a prctl call, which the program lets
    every process make.  Here runs of both programs and loads of policies
    come in any order. *)
From Stdlib Require Import ZArith Lia Ascii String.
From stdpp Require Import base tactics list gmap.
From S2P Require Import Prelude.
From S2P Require Import Kernel.
From S2P Require Import Scenario.
From S2P Require Import Prevent.
From S2P Require Import PreventProps.
From S2P Require Import PreventPolicy.
Local Open Scope Z_scope.
Import Prevent.Prevent.

(** ** What happens on a host *)

Inductive host_op :=
  | Prctl (c : ctx) (args : list Z)
  | Exec (c : ctx) (slot : bool) (ctxargs : list Z)
  | Load (stat : list Z → option (Z * Z)) (major minor : Z → Z)
         (iter : gmap (list Z) Z → list (list Z * Z)) (rules : list compiled).

Section host.
Context {KL : KernelLayout}.

Definition run_op (op : host_op) (s : pst) : pst :=
  match op with
  | Prctl c args => exec (enter_prctl c args) s
  | Exec c slot ctxargs => exec (check_exec c slot ctxargs) s
  | Load stat major minor iter rules => snd (apply stat major minor iter rules s)
  end.

Definition run_ops (ops : list host_op) (s : pst) : pst := foldl (λ s op, run_op op s) s ops.

(** The process a call of prctl(SELF_MAGIC) names. *)
Definition magic_caller (op : host_op) : option Z :=
  match op with
  | Prctl c args =>
      if (nth 0 args 0 =? SELF_MAGIC) && negb (u32 (cx_tgid c) =? 0) then Some (u32 (cx_tgid c)) else None
  | _ => None
  end.

(** [startLSM] takes the agent for registered when the entry is not 0. *)
Definition announced (s : pst) : bool :=
  match array_lookup (prevent_config s) 1 with Some self => negb (self =? 0) | None => false end.

(** ** Lemmas *)

Lemma apply_keeps_self stat major minor iter rules s :
  array_lookup (prevent_config (snd (apply stat major minor iter rules s))) 1 = array_lookup (prevent_config s) 1.
Proof.
  assert (H : ∀ m v m', put_array m 0 v = Some m' → array_lookup m' 1 = array_lookup m 1).
  { intros m v m'. unfold put_array. case_decide; [|done]. intros [= <-]. unfold array_lookup. cbn [Z.leb Z.compare].
    by apply list_lookup_insert_ne. }
  unfold apply. destruct (put_array (prevent_config s) 0 0) as [cfg|] eqn:E; [|done]. apply H in E.
  destruct (load_rules _ _ _ _ _ _) as [ok l]. destruct ok; cbn [negb snd prevent_config]; [|done].
  destruct (put_masks (iter (l_pm l)) ∅) as [ok pm]. destruct ok; cbn [negb snd prevent_config]; [|done].
  destruct (put_masks (iter (l_cm l)) ∅) as [ok cm]. destruct ok; cbn [negb snd prevent_config]; [|done].
  destruct (put_array cfg 0 (l_has l)) as [cfg'|] eqn:E'; [|done]. apply H in E'.
  cbn [snd prevent_config]. by rewrite E', E.
Qed.

Lemma check_exec_keeps_config c slot ctxargs s : prevent_config (exec (check_exec c slot ctxargs) s) = prevent_config s.
Proof. destruct (verdict_without_report c ctxargs s) as [_ H]. destruct (H slot) as [_ H']. by injection H'. Qed.

Lemma run_op_self op s t : array_lookup (prevent_config s) 1 = Some t →
  array_lookup (prevent_config (run_op op s)) 1 = Some (if t =? 0 then default 0 (magic_caller op) else t).
Proof.
  intros Ht. assert (Hsame : Some (if t =? 0 then 0 else t) = Some t) by by destruct (Z.eqb_spec t 0) as [->|].
  destruct op as [c args|c slot ctxargs|stat major minor iter rules]; cbn [run_op magic_caller default from_option].
  - unfold exec, enter_prctl, mbind, prog_bind, get, put, mret, prog_ret.
    destruct (nth 0 args 0 =? SELF_MAGIC); cbn [negb andb snd]; [|by etrans; [exact Ht|symmetry; exact Hsame]].
    rewrite Ht. destruct (Z.eqb_spec t 0) as [->|Hn]; cbn [snd]; [|done].
    destruct s. cbn [up_config prevent_config] in *. rewrite array_lookup_store by (done || by eexists).
    rewrite decide_True by done. by destruct (Z.eqb_spec (u32 (cx_tgid c)) 0) as [->|].
  - rewrite check_exec_keeps_config. by etrans; [exact Ht|symmetry; exact Hsame].
  - rewrite apply_keeps_self. by etrans; [exact Ht|symmetry; exact Hsame].
Qed.

Lemma magic_caller_nonzero op t : magic_caller op = Some t → t ≠ 0.
Proof.
  destruct op; cbn; try done. destruct (_ =? SELF_MAGIC); cbn [andb]; [|done].
  destruct (Z.eqb_spec (u32 (cx_tgid c)) 0); cbn [negb]; [done|]. by intros [= <-].
Qed.

(** The entry holds the first caller, over any sequence. *)
Lemma run_ops_self ops : ∀ s t, array_lookup (prevent_config s) 1 = Some t →
  array_lookup (prevent_config (run_ops ops s)) 1
  = Some (if t =? 0 then default 0 (head (omap magic_caller ops)) else t).
Proof.
  induction ops as [|op ops IH]; intros s t Ht; [change (run_ops [] s) with s; rewrite Ht; by destruct (Z.eqb_spec t 0) as [->|]|].
  unfold run_ops in *. cbn [foldl]. rewrite (IH _ _ (run_op_self op s t Ht)). cbn [omap list_omap].
  destruct (Z.eqb_spec t 0) as [->|Hn]; [|by rewrite (proj2 (Z.eqb_neq t 0))].
  destruct (magic_caller op) as [t'|] eqn:E; [|done]. apply magic_caller_nonzero in E.
  cbn [default from_option head hd_error id]. by rewrite (proj2 (Z.eqb_neq t' 0)).
Qed.
End host.

(** ** Properties *)

(** C27. The first process that calls prctl(SELF_MAGIC) after the load is the
    agent to the program, for good: over every sequence of calls, executions
    and policy loads, whoever makes them, each execution by it is allowed and
    leaves no record, whatever the policy, no later caller takes its place,
    and the agent, when it was not the first, cannot tell. *)
Theorem first_caller_is_exempt {KL : KernelLayout} ops s t :
  array_lookup (prevent_config s) 1 = Some 0 → head (omap magic_caller ops) = Some t →
  let s' := run_ops ops s in
  array_lookup (prevent_config s') 1 = Some t ∧ announced s' = true ∧
  ∀ c slot ctxargs, cx_tgid c = t → check_exec c slot ctxargs s' = (0, s').
Proof.
  intros Hs Ht s'. assert (H : array_lookup (prevent_config (run_ops ops s)) 1 = Some t).
  { by rewrite (run_ops_self ops s 0 Hs), Ht. }
  split_and!; [done| |].
  - unfold announced, s'. rewrite H. apply negb_true_iff, Z.eqb_neq.
    destruct (omap magic_caller ops) as [|x l] eqn:E; [done|]. cbn in Ht. simplify_eq.
    assert (Hin : t ∈ omap magic_caller ops) by (rewrite E; left).
    apply list_elem_of_omap in Hin as (op & _ & Hop). by eapply magic_caller_nonzero.
  - intros c slot ctxargs Hc. apply agent_and_empty_policy_are_allowed. right. unfold s'. by rewrite H, Hc.
Qed.

(** A process other than the agent (501) calls before it (500); then the rule
    on /etc/shadow is loaded, which refuses the agent and allows the other. *)
Definition demo_prctl (tgid : Z) : host_op := Prctl (demo_ctx 0 tgid tgid 1000 0 0 0 0) [SELF_MAGIC].
Definition fresh_maps : pst := up_config [0; 0] demo_maps.
Definition demo_ops : list host_op :=
  [demo_prctl 501; demo_prctl 500;
   Load demo_stat demo_dev_major demo_dev_minor map_to_list [dir_rule (zs "/etc") true]].

Lemma first_caller_is_exempt_witness :
  let s' := run_ops demo_ops fresh_maps in
  eval (check_exec (demo_ctx 0 500 500 1000 0 0 0 0) true [0xA000]) s' = - EPERM_ ∧
  array_lookup (prevent_config s') 1 = Some 501 ∧ announced s' = true ∧
  ∀ c slot ctxargs, cx_tgid c = 501 → check_exec c slot ctxargs s' = (0, s').
Proof.
  split; [vm_compute; reflexivity|].
  apply (first_caller_is_exempt demo_ops fresh_maps 501); vm_compute; reflexivity.
Defined.
