(* ===== verification/MalHash.v ===== *)
(** * The known-malware set (malhash/set.go)

    The agent keeps the server's SHA-256 hashes as sorted keys with an index
    into a table of labels; [Lookup] is a binary search.  A set is built from
    the server's changes through a map.  The similarity digests (TLSH) and
    the file format are not modelled. *)
From Stdlib Require Import ZArith Lia Ascii String.
From stdpp Require Import base tactics list gmap strings sorting.
From S2P Require Import Prelude.
From S2P Require Import GoStrings.
Local Open Scope Z_scope.

(** ** Keys *)

(** [hex.Decode] of a digit; either case. *)
Definition hex_val (b : Z) : option Z :=
  if (48 <=? b) && (b <=? 57) then Some (b - 48)
  else if (97 <=? b) && (b <=? 102) then Some (b - 87)
  else if (65 <=? b) && (b <=? 70) then Some (b - 55)
  else None.

Fixpoint hex_decode (s : list Z) : option (list Z) :=
  match s with
  | [] => Some []
  | a :: b :: s => x ← hex_val a; y ← hex_val b; l ← hex_decode s; Some (x * 16 + y :: l)
  | [_] => None
  end.

(** [parse]: the 32 bytes of a SHA-256 in hexadecimal. *)
Definition parse (sha : list Z) : option (list Z) :=
  if (length sha =? 64)%nat then hex_decode sha else None.

(** [cmp]: byte by byte; keys have the same length. *)
Fixpoint cmp (a b : list Z) : Z :=
  match a, b with
  | x :: a, y :: b => if x =? y then cmp a b else if x <? y then -1 else 1
  | _, _ => 0
  end.

(** ** Sets *)

Definition ActionOff : list Z := zs "off".
Definition ActionDetect : list Z := zs "detect".
Definition ActionBlock : list Z := zs "block".

(** [Set]; the action is the server's string; [Seq] and [Version] say which
    of the server's sets it is. *)
Record set := MkSet {
  s_seq : Z;
  s_action : list Z;
  s_version : list Z;
  s_keys : list (list Z);
  s_labels : list nat;       (* uint16 *)
  s_table : list (list Z);
}.

(** A [nil] set is [None]. *)
Definition Active (s : option set) : bool :=
  match s with
  | Some s => negb (bool_decide (s_keys s = []))
              && (bool_decide (s_action s = ActionDetect) || bool_decide (s_action s = ActionBlock))
  | None => false
  end.
Definition Block (s : option set) : bool :=
  match s with Some s => bool_decide (s_action s = ActionBlock) | None => false end.
Definition Len (s : option set) : nat := match s with Some s => length (s_keys s) | None => 0 end.

(** [sort.Search]: the loop halves [j - i], so [j - i] turns are enough. *)
Fixpoint search_loop (f : nat → bool) (fuel i j : nat) : nat :=
  match fuel with
  | O => i
  | S fuel => if (i <? j)%nat then
                let h := ((i + j) / 2)%nat in
                if f h then search_loop f fuel i h else search_loop f fuel (S h) j
              else i
  end.
Definition search (n : nat) (f : nat → bool) : nat := search_loop f n 0 n.

(** [Lookup] *)
Definition Lookup (s : option set) (sha : list Z) : option (list Z) :=
  match s with
  | None => None
  | Some s =>
      if bool_decide (s_keys s = []) then None else
      match parse sha with
      | None => None
      | Some k =>
          let i := search (length (s_keys s)) (λ i, 0 <=? cmp (s_keys s !!! i) k) in
          if (i =? length (s_keys s))%nat || negb (bool_decide (s_keys s !!! i = k)) then None
          else Some (s_table s !!! (s_labels s !!! i))
      end
  end.

(** ** Building a set *)

(** One label of [build]'s loop: its index, the labels' indices and the
    table after it.  [uint16(len(out.table))] wraps. *)
Definition intern (l : list Z) (idx : gmap (list Z) nat) (table : list (list Z))
    : nat * gmap (list Z) nat * list (list Z) :=
  match idx !! l with
  | Some n => (n, idx, table)
  | None =>
      let full := (length table =? Z.to_nat 0xFFFF)%nat in
      let l := if full then [] else l in
      match (if full then idx !! l else None) with
      | Some n => (n, idx, table)
      | None => let n := Z.to_nat (u16 (Z.of_nat (length table))) in (n, <[l := n]> idx, table ++ [l])
      end
  end.

Fixpoint label_loop (ls : list (list Z)) (idx : gmap (list Z) nat) (table : list (list Z))
    : list nat * list (list Z) :=
  match ls with
  | [] => ([], table)
  | l :: ls => let '(n, idx, table) := intern l idx table in
               let '(labels, table) := label_loop ls idx table in (n :: labels, table)
  end.

Definition key_le (a b : list Z) : Prop := cmp a b ≤ 0.
#[export] Instance key_le_dec a b : Decision (key_le a b).
Proof. unfold key_le. apply _. Defined.

(** [build]: Go walks the map in any order and then sorts the keys. *)
Definition build (m : gmap (list Z) (list Z)) : set :=
  let keys := merge_sort key_le (fst <$> map_to_list m) in
  let '(labels, table) := label_loop ((λ k, m !!! k) <$> keys) ∅ [] in
  MkSet 0 ActionOff [] keys labels (match table with [] => [[]] | _ => table end).

(** One of the server's changes: [sha256, label, ...] adds, [sha256]
    removes. *)
Definition change (m : gmap (list Z) (list Z)) (c : list (list Z)) : gmap (list Z) (list Z) :=
  match c with
  | [] => m
  | sha :: c => match parse sha with
                | None => m
                | Some k => match c with l :: _ => <[k := l]> m | [] => delete k m end
                end
  end.

(** The map a set is taken back to. *)
Definition entries (s : option set) : gmap (list Z) (list Z) :=
  match s with
  | Some s => foldl (λ m kn, <[fst kn := s_table s !!! snd kn]> m) ∅ (zip (s_keys s) (s_labels s))
  | None => ∅
  end.

(** [apply] *)
Definition apply (s : option set) (reset : bool) (changes : list (list (list Z))) : set :=
  build (foldl change (if reset then ∅ else entries s) changes).

(** ** The order of the keys *)

Definition key_ok (k : list Z) : Prop := length k = 32%nat.

Lemma cmp_0 a : ∀ b, length a = length b → cmp a b = 0 → a = b.
Proof.
  induction a as [|x a IH]; intros [|y b]; cbn; try done. intros Hl%eq_add_S.
  destruct (Z.eqb_spec x y) as [->|]; [|by destruct (x <? y)]. by intros ->%IH.
Qed.

Lemma cmp_refl a : cmp a a = 0.
Proof. induction a as [|x a IH]; [done|]. cbn. by rewrite Z.eqb_refl. Qed.

Lemma cmp_opp a : ∀ b, cmp b a = - cmp a b.
Proof.
  induction a as [|x a IH]; intros [|y b]; cbn; try done. rewrite (Z.eqb_sym y x).
  destruct (Z.eqb_spec x y); [apply IH|]. destruct (Z.ltb_spec x y), (Z.ltb_spec y x); lia.
Qed.

Lemma cmp_trans a : ∀ b c, length a = length b → length b = length c →
  cmp a b ≤ 0 → cmp b c ≤ 0 → cmp a c ≤ 0.
Proof.
  induction a as [|x a IH]; intros [|y b] [|z c]; cbn; try done. intros Hab%eq_add_S Hbc%eq_add_S.
  destruct (Z.eqb_spec x y) as [->|], (Z.eqb_spec y z) as [->|].
  - by eapply IH.
  - by intros _.
  - destruct (Z.eqb_spec x z); [done|]. by intros ? _.
  - destruct (Z.ltb_spec x y); [|done]. destruct (Z.ltb_spec y z); [|done]. intros _ _.
    rewrite (proj2 (Z.eqb_neq x z)), (proj2 (Z.ltb_lt x z)) by lia. done.
Qed.

#[export] Instance key_le_total : Total key_le.
Proof. intros a b. unfold key_le. rewrite (cmp_opp a b). lia. Qed.

(** A sorted list of keys, each before all that follow. *)
Lemma keys_strong l : Forall key_ok l → Sorted key_le l → StronglySorted key_le l.
Proof.
  unfold key_ok. intros Hl. induction 1 as [|k l Hs IH Hd]; [constructor|].
  apply Forall_cons in Hl as [Hk Hl]. specialize (IH Hl). constructor; [done|].
  destruct Hd as [|y l Hy]; [constructor|]. apply Forall_cons in Hl as [Hy32 Hl].
  constructor; [done|]. apply StronglySorted_inv in IH as [_ Hf]. rewrite Forall_forall in Hf, Hl.
  apply Forall_forall. intros z Hz. eapply (cmp_trans k y z); [congruence| |done|by apply Hf].
  rewrite Hy32. symmetry. by apply Hl.
Qed.

Lemma sorted_lookup l : StronglySorted key_le l → ∀ x y a b, (x < y)%nat →
  l !! x = Some a → l !! y = Some b → key_le a b.
Proof.
  induction 1 as [|k l Hl IH Hf]; [done|]. intros [|x] [|y] a b Hxy Ha Hb; cbn in *; try lia.
  - injection Ha as ->. rewrite Forall_forall in Hf. apply Hf. by eapply list_elem_of_lookup_2.
  - eapply (IH x y); eauto with lia.
Qed.

(** ** Binary search *)

Lemma search_loop_spec f n fuel : ∀ i j, (i ≤ j ≤ n)%nat → (j - i ≤ fuel)%nat →
  (∀ x, (x < i)%nat → f x = false) → (∀ x, (j ≤ x < n)%nat → f x = true) →
  (∀ x y, (x ≤ y < n)%nat → f x = true → f y = true) →
  let r := search_loop f fuel i j in
  (r ≤ n)%nat ∧ (∀ x, (x < r)%nat → f x = false) ∧ (∀ x, (r ≤ x < n)%nat → f x = true).
Proof.
  induction fuel as [|fuel IH]; intros i j Hij Hf Hlo Hhi Hmono; cbn [search_loop].
  { replace j with i in Hhi by lia. split_and!; [lia|done|done]. }
  destruct (Nat.ltb_spec i j) as [Hlt|]; [|replace j with i in Hhi by lia; split_and!; [lia|done|done]].
  assert (Hh : (i ≤ (i + j) / 2 < j)%nat).
  { split; [apply Nat.div_le_lower_bound; lia|apply Nat.Div0.div_lt_upper_bound; lia]. }
  destruct (f ((i + j) / 2)%nat) eqn:E; apply IH; try done; try lia.
  - intros x Hx. eapply Hmono; [|exact E]. lia.
  - intros x Hx. destruct (f x) eqn:Ex; [|done].
    rewrite (Hmono x ((i + j) / 2)%nat) in E; [done|lia|done].
Qed.

(** [sort.Search] finds the first index from which [f] holds. *)
Lemma search_spec f n : (∀ x y, (x ≤ y < n)%nat → f x = true → f y = true) →
  (search n f ≤ n)%nat ∧ (∀ x, (x < search n f)%nat → f x = false) ∧
  (∀ x, (search n f ≤ x < n)%nat → f x = true).
Proof. intros H. apply search_loop_spec; try done; lia. Qed.

(** ** What a set holds *)

Record set_ok (s : set) : Prop := {
  so_keys : Forall key_ok (s_keys s);
  so_sorted : StronglySorted key_le (s_keys s);
  so_nodup : NoDup (s_keys s);
  so_labels : length (s_labels s) = length (s_keys s);
}.

Lemma hex_decode_length n : ∀ s l, (length s ≤ n)%nat → hex_decode s = Some l → length s = (2 * length l)%nat.
Proof.
  induction n as [|n IH]; intros [|a [|b s]] l Hn; cbn in Hn |- *; try lia; try done; try by intros [= <-].
  destruct (hex_val a); [cbn|done]. destruct (hex_val b); [cbn|done].
  destruct (hex_decode s) as [t|] eqn:E; [cbn|done]. intros [= <-]. apply IH in E; [|lia]. cbn. lia.
Qed.

Lemma parse_ok sha k : parse sha = Some k → key_ok k.
Proof.
  unfold parse, key_ok. destruct (Nat.eqb_spec (length sha) 64); [|done].
  intros H%(hex_decode_length 64); lia.
Qed.

(** The key at an index is not before [k] from [k]'s own index on. *)
Lemma search_key s k : set_ok s → key_ok k →
  let i := search (length (s_keys s)) (λ i, 0 <=? cmp (s_keys s !!! i) k) in
  (k ∈ s_keys s → s_keys s !! i = Some k) ∧ (i ≤ length (s_keys s))%nat.
Proof.
  intros [Hk Hs Hn _] Hk32. set (f i := 0 <=? cmp (s_keys s !!! i) k). cbv zeta.
  assert (Hat : ∀ x, (x < length (s_keys s))%nat → ∃ y, s_keys s !! x = Some y ∧ key_ok y ∧ s_keys s !!! x = y).
  { intros x [y Hy]%lookup_lt_is_Some. exists y. rewrite Forall_lookup in Hk. split_and!; [done|by eapply Hk|].
    by apply list_lookup_total_correct. }
  assert (Hle : ∀ x y a b, (x ≤ y)%nat → s_keys s !! x = Some a → s_keys s !! y = Some b → cmp a b ≤ 0).
  { intros x y a b Hxy Ha Hb. destruct (decide (x = y)) as [->|].
    - rewrite Ha in Hb. injection Hb as ->. by rewrite cmp_refl.
    - assert (Hxy' : (x < y)%nat) by lia. by eapply (sorted_lookup _ Hs x y). }
  destruct (search_spec f (length (s_keys s))) as (Hr & Hlo & Hhi).
  { intros x y [Hxy Hy] Hx. destruct (Hat x) as (a & Ha & Ha32 & Ea); [lia|].
    destruct (Hat y) as (b & Hb & Hb32 & Eb); [done|]. unfold f in *. rewrite Ea in Hx. rewrite Eb.
    apply Z.leb_le in Hx. apply Z.leb_le. pose proof (Hle x y a b Hxy Ha Hb) as Hab.
    pose proof (cmp_opp k a) as H1. pose proof (cmp_opp k b) as H2.
    pose proof (cmp_trans k a b ltac:(congruence) ltac:(congruence)). lia. }
  split; [|done]. intros [j Hj]%list_elem_of_lookup.
  pose proof (lookup_lt_Some _ _ _ Hj) as Hjl.
  assert (Hfj : f j = true).
  { unfold f. rewrite (list_lookup_total_correct _ _ _ Hj), cmp_refl. done. }
  assert (Hij : (search (length (s_keys s)) f ≤ j)%nat).
  { destruct (Nat.le_gt_cases (search (length (s_keys s)) f) j) as [|Hgt]; [done|].
    rewrite Hlo in Hfj by done. done. }
  destruct (Hat (search (length (s_keys s)) f)) as (a & Ha & Ha32 & Ea); [lia|].
  rewrite Ha. f_equal. apply cmp_0; [congruence|].
  pose proof (Hle _ _ _ _ Hij Ha Hj) as H1.
  assert (H2 : f (search (length (s_keys s)) f) = true) by (apply Hhi; lia).
  unfold f in H2 at 1. rewrite Ea in H2. apply Z.leb_le in H2. lia.
Qed.

Lemma Lookup_spec s sha : set_ok s →
  Lookup (Some s) sha =
    k ← parse sha; i ← fst <$> list_find (λ x, x = k) (s_keys s); Some (s_table s !!! (s_labels s !!! i)).
Proof.
  intros Hs. unfold Lookup. case_bool_decide as He.
  { rewrite He. by destruct (parse sha). }
  destruct (parse sha) as [k|] eqn:Hp; [|done]. cbn [mbind option_bind].
  destruct (search_key s k Hs (parse_ok _ _ Hp)) as [Hin Hle]. set (i := search _ _) in *. clearbody i.
  destruct (list_find (λ x, x = k) (s_keys s)) as [[j x]|] eqn:Hf; cbn [fmap option_fmap option_map mbind option_bind fst].
  - apply list_find_Some in Hf as (Hj & -> & _).
    assert (Hi : s_keys s !! i = Some k) by (apply Hin; by eapply list_elem_of_lookup_2).
    assert (i = j) as -> by (eapply NoDup_lookup; [apply Hs|done|done]).
    rewrite (list_lookup_total_correct _ _ _ Hj), bool_decide_true by done.
    pose proof (lookup_lt_Some _ _ _ Hj) as Hl. rewrite (proj2 (Nat.eqb_neq j _)) by lia. done.
  - apply list_find_None in Hf. rewrite Forall_forall in Hf.
    destruct (Nat.eqb_spec i (length (s_keys s))) as [|Hne]; [done|]. cbn [orb].
    rewrite bool_decide_false; [done|]. intros Hi.
    destruct (lookup_lt_is_Some_2 (s_keys s) i) as [y Hy]; [lia|].
    apply (Hf y); [by eapply list_elem_of_lookup_2|]. by rewrite <- Hi, (list_lookup_total_correct _ _ _ Hy).
Qed.

(** ** Building: the labels *)

(** The table and its index agree, and the table holds labels of [L]. *)
Record table_ok (L : gset (list Z)) (idx : gmap (list Z) nat) (table : list (list Z)) : Prop := {
  tb_idx l n : idx !! l = Some n ↔ table !! n = Some l;
  tb_in l : l ∈ table → l ∈ L;
}.

Lemma table_nodup L idx table : table_ok L idx table → NoDup table.
Proof.
  intros [H _]. apply NoDup_alt. intros i j l Hi%H Hj%H. congruence.
Qed.

Lemma table_length L idx table : table_ok L idx table → (length table ≤ size L)%nat.
Proof.
  intros Ht. rewrite <- (size_list_to_set (C:=gset (list Z)) table (table_nodup _ _ _ Ht)).
  apply subseteq_size. intros l Hl%elem_of_list_to_set. by apply Ht.
Qed.

(** While there are fewer labels than an index counts, each gets its own. *)
Lemma intern_ok L idx table l : table_ok L idx table → l ∈ L → (size L ≤ Z.to_nat 0xFFFF)%nat →
  let '(n, idx', table') := intern l idx table in
  table_ok L idx' table' ∧ table `prefix_of` table' ∧ table' !! n = Some l.
Proof.
  intros Ht Hl Hs. unfold intern. destruct (idx !! l) as [n|] eqn:E.
  { split_and!; [done|done|]. by apply (tb_idx _ _ _ Ht). }
  assert (Hnew : l ∉ table).
  { intros [n Hn]%list_elem_of_lookup. apply (tb_idx _ _ _ Ht) in Hn. congruence. }
  assert (Ht' : table_ok L (<[l := length table]> idx) (table ++ [l])).
  { split.
    - intros l' n. rewrite lookup_insert_Some, lookup_snoc_Some, (tb_idx _ _ _ Ht). split.
      + intros [[<- <-]|[Hne Hn]]; [by right|]. left. split; [by eapply lookup_lt_Some|done].
      + intros [[Hlt Hn]|[-> <-]]; [|by left]. right. split; [|done]. intros ->.
        by apply Hnew, list_elem_of_lookup_2 with n.
    - intros l' [Hin| ->%list_elem_of_singleton]%elem_of_app; [by apply Ht|done]. }
  pose proof (table_length _ _ _ Ht') as Hlen. rewrite length_app in Hlen. cbn in Hlen.
  destruct (Nat.eqb_spec (length table) (Z.to_nat 0xFFFF)) as [Hf|_]; [exfalso; lia|]. cbv zeta.
  assert (Z.to_nat (u16 (Z.of_nat (length table))) = length table) as ->.
  { unfold u16. rewrite wrap_small; [lia|]. change (2 ^ 16) with 65536. lia. }
  split_and!; [done|by apply prefix_app_r|]. by rewrite lookup_app_r, Nat.sub_diag by lia.
Qed.

Lemma label_loop_ok L ls : ∀ idx table, table_ok L idx table → (∀ l, l ∈ ls → l ∈ L) → (size L ≤ Z.to_nat 0xFFFF)%nat →
  let '(labels, table') := label_loop ls idx table in
  table `prefix_of` table' ∧ Forall2 (λ l n, table' !! n = Some l) ls labels.
Proof.
  induction ls as [|l ls IH]; intros idx table Ht Hin Hs; cbn [label_loop]; [by split|].
  pose proof (intern_ok L idx table l Ht (Hin l (list_elem_of_here _ _)) Hs) as H.
  destruct (intern l idx table) as [[n idx'] table1]. destruct H as (Ht1 & Hp1 & Hn).
  specialize (IH idx' table1 Ht1). destruct (label_loop ls idx' table1) as [labels table'].
  destruct IH as [Hp Hf]; [intros x Hx; by apply Hin, list_elem_of_further|done|].
  split; [by etrans|]. constructor; [|done]. by eapply prefix_lookup_Some.
Qed.

Lemma label_loop_length ls : ∀ idx table, length (fst (label_loop ls idx table)) = length ls.
Proof.
  induction ls as [|l ls IH]; intros idx table; cbn [label_loop]; [done|].
  destruct (intern l idx table) as [[n idx'] table1]. specialize (IH idx' table1).
  destruct (label_loop ls idx' table1). cbn in *. by rewrite IH.
Qed.

(** ** Building: the set *)

Definition map_keys_ok (m : gmap (list Z) (list Z)) : Prop := ∀ k l, m !! k = Some l → key_ok k.
Definition few_labels (m : gmap (list Z) (list Z)) : Prop :=
  (size (map_img m : gset (list Z)) ≤ Z.to_nat 0xFFFF)%nat.

Local Abbreviation sorted_keys m := (merge_sort key_le (fst <$> map_to_list (m : gmap (list Z) (list Z)))).

Lemma sorted_keys_in (m : gmap (list Z) (list Z)) k : k ∈ sorted_keys m ↔ is_Some (m !! k).
Proof.
  rewrite (merge_sort_Permutation key_le), list_elem_of_fmap. split.
  - intros ([k' l] & -> & H%elem_of_map_to_list). by exists l.
  - intros [l Hl]. exists (k, l). split; [done|]. by apply elem_of_map_to_list.
Qed.

Lemma sorted_keys_nodup (m : gmap (list Z) (list Z)) : NoDup (sorted_keys m).
Proof. rewrite (merge_sort_Permutation key_le). apply NoDup_fst_map_to_list. Qed.

Lemma build_keys m : s_keys (build m) = sorted_keys m.
Proof. unfold build. by destruct (label_loop _ _ _). Qed.

Lemma build_ok m : map_keys_ok m → set_ok (build m).
Proof.
  intros Hm.
  assert (Hk : Forall key_ok (sorted_keys m)).
  { apply Forall_forall. intros k [l Hl]%sorted_keys_in. by eapply Hm. }
  split; rewrite ?build_keys; [done| |apply sorted_keys_nodup|].
  - apply keys_strong; [done|]. apply (Sorted_merge_sort key_le).
  - unfold build. pose proof (label_loop_length ((λ k, m !!! k) <$> sorted_keys m) ∅ []) as H.
    destruct (label_loop _ _ _) as [labels table]. cbn in *. by rewrite H, length_fmap.
Qed.

Lemma build_label m i k : few_labels m → s_keys (build m) !! i = Some k →
  m !! k = Some (s_table (build m) !!! (s_labels (build m) !!! i)).
Proof.
  intros Hf. rewrite build_keys. intros Hi. unfold build.
  pose proof (label_loop_ok (map_img m) ((λ k, m !!! k) <$> sorted_keys m) ∅ []) as H.
  destruct (label_loop _ _ _) as [labels table]. cbn [s_table s_labels].
  assert (Hk : is_Some (m !! k)) by (apply sorted_keys_in; by eapply list_elem_of_lookup_2).
  destruct H as [_ H]; [split| | |].
  - intros l n. rewrite lookup_empty, lookup_nil. done.
  - by intros l ?%not_elem_of_nil.
  - intros l (k' & -> & [l' Hl]%sorted_keys_in)%list_elem_of_fmap.
    rewrite (lookup_total_correct _ _ _ Hl). by eapply elem_of_map_img_2.
  - exact Hf.
  - assert (Hl : ((λ k, m !!! k) <$> sorted_keys m) !! i = Some (m !!! k)) by by rewrite list_lookup_fmap, Hi.
    destruct (Forall2_lookup_l _ _ _ _ _ H Hl) as (n & Hn & Hn').
    rewrite (list_lookup_total_correct _ _ _ Hn). destruct table as [|t ts]; [done|].
    rewrite (list_lookup_total_correct _ _ _ Hn'). destruct Hk as [l Hk]. by rewrite (lookup_total_correct _ _ _ Hk).
Qed.

Lemma find_key (l : list (list Z)) k : NoDup l →
  match list_find (λ x, x = k) l with Some (i, _) => l !! i = Some k | None => k ∉ l end.
Proof.
  intros Hn. destruct (list_find (λ x, x = k) l) as [[i x]|] eqn:E.
  - by apply list_find_Some in E as (Hi & -> & _).
  - apply list_find_None in E. intros Hk. rewrite Forall_forall in E. by apply (E k).
Qed.

Lemma build_lookup m sha : map_keys_ok m → few_labels m → Lookup (Some (build m)) sha = k ← parse sha; m !! k.
Proof.
  intros Hm Hf. rewrite Lookup_spec by by apply build_ok. destruct (parse sha) as [k|]; [|done].
  cbn [mbind option_bind]. pose proof (find_key (s_keys (build m)) k (so_nodup _ (build_ok m Hm))) as H.
  destruct (list_find _ _) as [[i x]|]; cbn.
  - by rewrite (build_label m i k Hf H).
  - rewrite build_keys in H. destruct (m !! k) eqn:E; [|done]. exfalso. by apply H, sorted_keys_in.
Qed.

Lemma foldl_insert_notin {A} (f : A → list Z) l : ∀ (m : gmap (list Z) (list Z)) k, (k ∉ l.*1) →
  foldl (λ m kn, <[fst kn := f (snd kn)]> m) m l !! k = m !! k.
Proof.
  induction l as [|[k' n] l IH]; intros m k; cbn; [done|]. intros [Hne Hk]%not_elem_of_cons.
  rewrite IH by done. by apply lookup_insert_ne.
Qed.

Lemma foldl_insert {A} (f : A → list Z) l : ∀ (m : gmap (list Z) (list Z)) i k n, NoDup l.*1 → l !! i = Some (k, n) →
  foldl (λ m kn, <[fst kn := f (snd kn)]> m) m l !! k = Some (f n).
Proof.
  induction l as [|[k' n'] l IH]; intros m [|i] k n; cbn; try done; intros [Hk' Hn]%NoDup_cons.
  - intros [= -> ->]. rewrite foldl_insert_notin by done. apply lookup_insert_eq.
  - intros Hi. by eapply IH.
Qed.

Lemma build_entries m : map_keys_ok m → few_labels m → entries (Some (build m)) = m.
Proof.
  intros Hm Hf. pose proof (build_ok m Hm) as [_ _ Hn Hl]. apply map_eq. intros k. unfold entries.
  assert (Hfst : (zip (s_keys (build m)) (s_labels (build m))).*1 = s_keys (build m)) by (apply fst_zip; lia).
  destruct (decide (k ∈ s_keys (build m))) as [[i Hi]%list_elem_of_lookup|Hk].
  - destruct (lookup_lt_is_Some_2 (s_labels (build m)) i) as [n Hn']; [rewrite Hl; by eapply lookup_lt_Some|].
    rewrite (foldl_insert (λ n, s_table (build m) !!! n) _ _ i k n).
    + by rewrite (build_label m i k Hf Hi), (list_lookup_total_correct _ _ _ Hn').
    + by rewrite Hfst.
    + rewrite lookup_zip_with, Hi, Hn'. done.
  - rewrite (foldl_insert_notin (λ n, s_table (build m) !!! n)), lookup_empty by by rewrite Hfst.
    rewrite build_keys, sorted_keys_in in Hk. by apply eq_None_not_Some in Hk.
Qed.

Lemma changes_keys_ok changes : ∀ m, map_keys_ok m → map_keys_ok (foldl change m changes).
Proof.
  induction changes as [|c changes IH]; intros m Hm; [done|]. apply IH. intros k l. unfold change.
  destruct c as [|sha c]; [by apply Hm|]. destruct (parse sha) as [k0|] eqn:E; [|by apply Hm].
  destruct c as [|l0 c].
  - intros [_ H]%lookup_delete_Some. by eapply Hm.
  - intros [[<- _]|[_ H]]%lookup_insert_Some; [by eapply parse_ok|by eapply Hm].
Qed.

Lemma entries_keys_ok s : set_ok s → map_keys_ok (entries (Some s)).
Proof.
  intros [Hk _ _ _] k l Hl. unfold entries in Hl.
  destruct (decide (k ∈ (zip (s_keys s) (s_labels s)).*1)) as [Hin|Hin].
  - apply list_elem_of_fmap in Hin as ([k' n] & -> & Hin). apply elem_of_zip_l in Hin.
    rewrite Forall_forall in Hk. by apply Hk.
  - by rewrite (foldl_insert_notin (λ n, s_table s !!! n)), lookup_empty in Hl.
Qed.

(** ** The set is the server's *)

(** C21. The set is what the server's changes make it: after the changes of a
    sync, on the agent's set or from nothing, the set stands for the map in
    which each change was made in turn, and the binary search finds in it
    exactly the hashes (in either case of the digits) of that map, each with
    its own label, while there are at most 65535 different labels. *)
Theorem malware_set_is_the_servers s reset changes :
  set_ok s →
  let m := foldl change (if reset : bool then ∅ else entries (Some s)) changes in
  few_labels m →
  let s' := apply (Some s) reset changes in
  set_ok s' ∧ entries (Some s') = m ∧ ∀ sha, Lookup (Some s') sha = k ← parse sha; m !! k.
Proof.
  intros Hs m Hf s'.
  assert (Hm : map_keys_ok m).
  { apply changes_keys_ok. destruct reset; [by intros k l Hl|by apply entries_keys_ok]. }
  split_and!; [by apply build_ok|by apply build_entries|]. intros sha. by apply build_lookup.
Qed.

Definition demo_sha (d : string) : list Z := concat (replicate 64 (zs d)).
Definition demo_changes : list (list (list Z)) :=
  [[demo_sha "e"; zs "Emotet"]; [demo_sha "a"; zs "Mirai"]; [zs "beef"; zs "short"];
   [demo_sha "1"; zs "Emotet"]; [demo_sha "1"]].

Lemma malware_set_is_the_servers_witness :
  let s := build ∅ in
  let m := foldl change ∅ demo_changes in
  let s' := apply (Some s) true demo_changes in
  (set_ok s' ∧ entries (Some s') = m ∧ ∀ sha, Lookup (Some s') sha = k ← parse sha; m !! k) ∧
  Lookup (Some s') (demo_sha "E") = Some (zs "Emotet") ∧ Lookup (Some s') (demo_sha "1") = None.
Proof.
  cbv zeta. split.
  - apply (malware_set_is_the_servers (build ∅) true demo_changes).
    + apply build_ok. by intros k l Hl.
    + unfold few_labels. replace (size _) with 2%nat; [lia|]. vm_compute. reflexivity.
  - split; vm_compute; reflexivity.
Defined.
