(* ===== verification/PreventMatch.v ===== *)
(** * The agent's own decision (rules.go, policy.go)

    [Policy.Match]: what the fanotify engine asks about an execution.  It
    decides hash rules and known malware, and every rule where the kernel has
    no BPF LSM, and honours the group policy's exclusions.  The digest of the
    file is computed on demand: [Match] is a run of the state of whoever
    computes it. *)
From Stdlib Require Import ZArith Lia Ascii String.
From stdpp Require Import base tactics list gmap strings.
From S2P Require Import Prelude.
From S2P Require Import GoStrings.
From S2P Require Import MalHash.
From S2P Require Import Prevent.
From S2P Require Import PreventPolicy.
From S2P Require Import PreventCompile.
Local Open Scope Z_scope.

(** ** Exclusions (policy.go) *)

Record exclusion := Exclusion { x_kind : list Z; x_value : list Z; x_scopes : list (list Z) }.

(** [Match]: what is checked; an empty string never matches. *)
Record subject := Subject { m_image : list Z; m_path : list Z; m_sha256 : list Z; m_cmdline : list Z }.

(** [strings.LastIndexAny(p, `/\`)]: what follows the last separator. *)
Definition is_sep (b : Z) : bool := (b =? 47) || (b =? 92).
Fixpoint base_any (p : list Z) : list Z :=
  match p with
  | [] => []
  | b :: p' => if existsb is_sep p' then base_any p' else if is_sep b then p' else p
  end.

(** [strings.Contains] *)
Fixpoint contains_sub (s sub : list Z) : bool :=
  bool_decide (sub `prefix_of` s) || match s with [] => false | _ :: s => contains_sub s sub end.

Section exclusions.
(** [strings.EqualFold] and [strings.ToLower]: the standard library's
    Unicode tables. *)
Context (equal_fold : list Z → list Z → bool) (lower : list Z → list Z).

Definition has_scope (e : exclusion) (scope : list Z) : bool := bool_decide (scope ∈ x_scopes e).

(** [matches]; [norm] is the identity on Linux. *)
Definition matches (e : exclusion) (m : subject) : bool :=
  let v := x_value e in
  if bool_decide (x_kind e = zs "image") then
    if bool_decide (m_image m = []) then false
    else if existsb is_sep v then bool_decide (m_image m = v)
    else equal_fold (base_any (m_image m)) v
  else if bool_decide (x_kind e = zs "path_prefix") then
    existsb (λ p, negb (bool_decide (p = [])) && bool_decide (v `prefix_of` p)) [m_path m; m_image m]
  else if bool_decide (x_kind e = zs "sha256") then
    negb (bool_decide (m_sha256 m = [])) && equal_fold (m_sha256 m) v
  else if bool_decide (x_kind e = zs "command_line") then
    negb (bool_decide (m_cmdline m = [])) && contains_sub (lower (m_cmdline m)) (lower v)
  else false.

(** [Excluded] *)
Definition Excluded (es : list exclusion) (scope : list Z) (m : subject) : bool :=
  existsb (λ e, has_scope e scope && matches e m) es.
End exclusions.

(** ** Policies (rules.go) *)

(** [Policy]; the maps and lists of its rules by type are read off
    [p_rules]. *)
Record policy := Policy {
  p_rules : list compiled;
  p_malware : option set;
  p_malwareFile : list Z;
  p_off : bool;
  p_exclusions : list exclusion;
  p_guardHashes : gmap (list Z) (list Z);
}.

(** What [Compile] returns. *)
Definition compiled_policy (rules : list compiled) (g : guard) : policy :=
  Policy rules None [] false [] (g_hashes g).

Definition withMalware (p : policy) (s : option set) (file : list Z) : policy :=
  Policy (p_rules p) s file (p_off p) (p_exclusions p) (p_guardHashes p).
Definition withGate (p : policy) (off : bool) (es : list exclusion) : policy :=
  Policy (p_rules p) (p_malware p) (p_malwareFile p) off es (p_guardHashes p).

Definition checksMalware (p : policy) : bool := Active (p_malware p).
Definition active (p : policy) : bool :=
  negb (p_off p) && (negb (bool_decide (p_rules p = [])) || checksMalware p).

(** [p.hashes], filled by [compileWith]: the last rule of a hash. *)
Fixpoint hashes_from (i : nat) (rules : list compiled) (m : gmap (list Z) nat) : gmap (list Z) nat :=
  match rules with
  | [] => m
  | r :: rules =>
      hashes_from (S i) rules (if decide (r_type r = TypeHash) then <[r_value r := i]> m else m)
  end.

Definition is_hash (r : compiled) : bool := bool_decide (r_type r = TypeHash).
Definition HasHashRules (p : policy) : bool := existsb is_hash (p_rules p).

(** A rule with the index the report gives. *)
Record matched := Matched { m_index : Z; m_rule : compiled }.

(** [malwareRule] *)
Definition malwareRule (p : policy) (label sha : list Z) : compiled :=
  let block := Block (p_malware p) && bool_decide (default [] (p_guardHashes p !! sha) = []) in
  Compiled TypeKnownMalware sha block [] []
    (Rule sha (if bool_decide (label = []) then zs "unknown" else label) (zs "known_malware") sha []
       (if block then zs "block" else zs "detect")).

Definition rule_at (p : policy) (i : nat) : option matched := Matched (Z.of_nat i) <$> p_rules p !! i.

(** [match], up to the hash rules and for the hash [h]. *)
Definition match_names (p : policy) (path parent : list Z) : option matched :=
  match_ (p_rules p) path (base_name path) (base_name parent) ≫= rule_at p.

Definition match_hash (p : policy) (h : list Z) : option matched :=
  match hashes_from 0 (p_rules p) ∅ !! h ≫= rule_at p with
  | Some c => Some c
  | None => label ← Lookup (p_malware p) h; Some (Matched (-1) (malwareRule p label h))
  end.

Section match_exec.
Context (equal_fold : list Z → list Z → bool) (lower : list Z → list Z).
(** [Exec.Hash]: the digest, or [None], and the state after computing it. *)
Context {S : Type} (hash : S → option (list Z) * S).

(** [match]: the rule, and what [Hash] returned if it was called. *)
Definition match_exec (p : policy) (path parent : list Z) (kernelDecides : bool) (s : S)
    : option matched * option (option (list Z)) * S :=
  match (if kernelDecides then None else match_names p path parent) with
  | Some c => (Some c, None, s)
  | None =>
      if HasHashRules p || checksMalware p then
        let '(h, s) := hash s in
        (h ≫= match_hash p, Some h, s)
      else (None, None, s)
  end.

(** Whether the exclusions of the rule's scope name the execution. *)
Definition excluded (p : policy) (c : matched) (path sum : list Z) : bool :=
  let scope := if bool_decide (r_type (m_rule c) = TypeKnownMalware) then zs "malware" else zs "prevention" in
  negb (bool_decide (p_exclusions p = [])) &&
  Excluded equal_fold lower (p_exclusions p) scope (Subject path path sum []).

(** [Match] *)
Definition Match (p : policy) (path parent : list Z) (kernelDecides : bool) (s : S)
    : option matched * option (option (list Z)) * S :=
  if p_off p then (None, None, s) else
  let '(c, h, s) := match_exec p path parent kernelDecides s in
  let sum := default [] (mjoin h) in
  match c with
  | Some c0 => if excluded p c0 path sum then (None, h, s) else (c, h, s)
  | None => (None, h, s)
  end.
End match_exec.
