(* ===== verification/Fanotify.v ===== *)
(** * The fanotify engine (fanotify_linux.go)

    The kernel holds every exec on a marked mount until the engine answers:
    one goroutine reads the events, four workers decide them, and everything
    that goes wrong answers "allow".  [event_at] is the parse of the event
    buffer, [decide] the decision, [fan_step] the steps of the goroutines.
    Marking the mounts and their refresh are not modelled. *)
From Stdlib Require Import ZArith Lia Ascii String.
From stdpp Require Import base tactics list gmap strings.
From S2P Require Import Prelude.
From S2P Require Import GoStrings.
From S2P Require Import MalHash.
From S2P Require Import PreventPolicy.
From S2P Require Import PreventCompile.
From S2P Require Import PreventMatch.
Local Open Scope Z_scope.

(** ** Constants *)

Definition FAN_OPEN_EXEC_PERM : Z := 0x40000.
Definition FAN_ALLOW : Z := 1.
Definition FAN_DENY : Z := 2.
Definition fanWorkers : nat := 4.
Definition fanQueue : nat := 256.
Definition maxHashBytes : Z := Z.shiftl 64 20.
Definition hashCacheMax : nat := Z.to_nat 20000.
Definition readChunk : nat := Z.to_nat (256 * 1024).

(** ** The event buffer *)

Record fanEvent := FanEvent { fv_fd : Z; fv_pid : Z }.

#[export] Instance fanEvent_eq_dec : EqDecision fanEvent.
Proof. solve_decision. Defined.

(** An event's length, mask, and descriptor and process. *)
Record raw_event := RawEvent { re_len : Z; re_mask : Z; re_ev : fanEvent }.

Definition uint_at (w : nat) (buf : list Z) (off : nat) : Z := le_val (take w (drop off buf)).

(** The three reads at [off]. *)
Definition event_at (buf : list Z) (off : nat) : raw_event :=
  RawEvent (uint_at 4 buf off) (uint_at 8 buf (off + 8))
    (FanEvent (s32 (uint_at 4 buf (off + 16))) (s32 (uint_at 4 buf (off + 20)))).

(** The events the inner loop of [read] handles in [n] bytes; a turn
    advances by at least 24, so [n] turns are enough ([events_fuel]). *)
Fixpoint events_from (fuel : nat) (buf : list Z) (n off : nat) : list raw_event :=
  match fuel with
  | O => []
  | S fuel =>
      if (off + 24 <=? n)%nat then
        let e := event_at buf off in
        if re_len e <? 24 then []
        else e :: events_from fuel buf n (off + Z.to_nat (re_len e))
      else []
  end.
Definition events_of (buf : list Z) (n : nat) : list raw_event := events_from (S n) buf n 0.

(** The kernel's struct fanotify_event_metadata. *)
Definition event_bytes (e : raw_event) : list Z :=
  le_bytes 4 (re_len e) ++ [3; 0] ++ le_bytes 2 24 ++ le_bytes 8 (re_mask e)
  ++ le_bytes 4 (u32 (fv_fd (re_ev e))) ++ le_bytes 4 (u32 (fv_pid (re_ev e))).

(** [respond]: the kernel's struct fanotify_response. *)
Definition response_bytes (fd : Z) (allow : bool) : list Z :=
  le_bytes 4 (u32 fd) ++ le_bytes 4 (if allow then FAN_ALLOW else FAN_DENY).

(** ** The digest of a file *)

Record hashKey := HashKey { hk_dev : Z; hk_ino : Z; hk_ctime : Z; hk_mtime : Z; hk_size : Z }.

#[export] Instance hashKey_eq_dec : EqDecision hashKey.
Proof. solve_decision. Defined.
#[export] Instance hashKey_countable : Countable hashKey.
Proof.
  apply (inj_countable' (λ k, (hk_dev k, hk_ino k, hk_ctime k, hk_mtime k, hk_size k))
           (λ t, let '(d, i, c, m, z) := t in HashKey d i c m z)). by intros [].
Defined.

(** What the engine asks the operating system during one decision. *)
Record fan_os := FanOs {
  os_fstat : Z → option hashKey;            (* Fstat of a descriptor *)
  os_pread : Z → Z → option (list Z);       (* Pread at an offset, into 256 KiB *)
  os_path : Z → option (list Z);            (* the link /proc/self/fd/N *)
  os_exe : Z → option (list Z);             (* the link /proc/PID/exe *)
  os_status : Z → option (list Z);          (* the text of /proc/PID/status *)
}.

(** The reading loop of [hashFD]: [None] when [fuel] ends first, [Some None]
    on an error. *)
Fixpoint read_all (fuel : nat) (pread : Z → option (list Z)) (off : Z) : option (option (list Z)) :=
  match fuel with
  | O => None
  | S fuel =>
      match pread off with
      | None => Some None
      | Some [] => Some (Some [])
      | Some b => r ← read_all fuel pread (off + Z.of_nat (length b)); Some (l ← r; Some (b ++ l))
      end
  end.

Definition hex_digit (d : Z) : Z := if d <? 10 then 48 + d else 87 + d.
Definition hex_encode (l : list Z) : list Z := l ≫= λ b, [hex_digit (b / 16); hex_digit (b mod 16)].

Abbreviation cache := (gmap hashKey (list Z)).

Section decide.
(** The digest of [crypto/sha256], the Unicode tables of [strings], and the
    turns of the reading loop that are followed. *)
Context (sha256 : list Z → list Z).
Context (equal_fold : list Z → list Z → bool) (lower : list Z → list Z).
Context (fuel : nat).

Definition cache_store (c : cache) (key : hashKey) (h : list Z) : cache :=
  <[key := h]> (if (hashCacheMax <=? size c)%nat then ∅ else c).

(** [hashFD] *)
Definition hashFD (os : fan_os) (fd : Z) (c : cache) : option (list Z) * cache :=
  match os_fstat os fd with
  | None => (None, c)
  | Some key =>
      if maxHashBytes <? hk_size key then (None, c) else
      match c !! key with
      | Some h => (Some h, c)
      | None =>
          match mjoin (read_all fuel (os_pread os fd) 0) with
          | None => (None, c)
          | Some bs => let h := hex_encode (sha256 bs) in (Some h, cache_store c key h)
          end
      end
  end.

(** ** The decision *)

(** [strconv.ParseUint(s, 10, 32)], 0 on a syntax error. *)
Definition parse_uint32 (s : list Z) : Z :=
  if bool_decide (s = []) || negb (forallb (λ b, (48 <=? b) && (b <=? 57)) s) then 0
  else Z.min (foldl (λ a b, a * 10 + (b - 48)) 0 s) (2 ^ 32 - 1).

(** [strings.Fields(s + " 0")[0]] of a trimmed [s]. *)
Fixpoint until_space (s : list Z) : list Z :=
  match s with
  | [] => []
  | b :: s' => if existsb (λ p, bool_decide (p `prefix_of` s)) spaces then [] else b :: until_space s'
  end.
Definition first_field (s : list Z) : list Z := match s with [] => [48] | _ => until_space s end.

(** [strings.Cut(l, sep)]; the whole string and an empty one without [sep]. *)
Fixpoint cut (sep : Z) (l : list Z) : list Z * list Z :=
  match l with
  | [] => ([], [])
  | b :: l => if b =? sep then ([], l) else let '(k, v) := cut sep l in (b :: k, v)
  end.

Record proc_status := ProcStatus { ps_ppid : Z; ps_uid : Z; ps_comm : list Z }.

(** [procStatus] *)
Definition status_line (st : proc_status) (l : list Z) : proc_status :=
  let '(k, v) := cut 58 l in
  let v := trim_space v in
  if bool_decide (k = zs "Name") then ProcStatus (ps_ppid st) (ps_uid st) v
  else if bool_decide (k = zs "PPid") then ProcStatus (parse_uint32 v) (ps_uid st) (ps_comm st)
  else if bool_decide (k = zs "Uid") then ProcStatus (ps_ppid st) (parse_uint32 (first_field v)) (ps_comm st)
  else st.

Definition procStatus (os : fan_os) (pid : Z) : proc_status :=
  match os_status os pid with
  | None => ProcStatus 0 0 []
  | Some b => foldl status_line (ProcStatus 0 0 []) (split_on 10 b)
  end.

(** [Decision] as this engine fills it. *)
Record fan_decision := FanDecision {
  fd_rule : matched;
  fd_blocked : bool;
  fd_path : list Z;
  fd_parent : list Z;
  fd_sha256 : list Z;
  fd_status : proc_status;
  fd_pid : Z;
}.

(** [fanPolicy] *)
Record fanPolicy := FanPolicy { fp_p : policy; fp_kernelDecides : bool }.

(** [decide]: whether the exec may go ahead, and what is reported. *)
Definition decide (pol : option fanPolicy) (os : fan_os) (ev : fanEvent) (c : cache)
    : bool * option fan_decision * cache :=
  match pol with
  | None => (true, None, c)
  | Some pol =>
      if negb (active (fp_p pol)) then (true, None, c) else
      match os_path os (fv_fd ev) with
      | None => (true, None, c)
      | Some path =>
          let parent := default [] (os_exe os (fv_pid ev)) in
          let '(m, h, c) := Match equal_fold lower (hashFD os (fv_fd ev)) (fp_p pol) path parent
                              (fp_kernelDecides pol) c in
          match m with
          | None => (true, None, c)
          | Some m =>
              (negb (r_block (m_rule m)),
               Some (FanDecision m (r_block (m_rule m)) path parent (default [] (mjoin h))
                       (procStatus os (fv_pid ev)) (u32 (fv_pid ev))), c)
          end
      end
  end.

(** ** The goroutines *)

(** What they share: the events read and not yet handled, the channel
    [work], what each worker holds, and what has been written.  [fs_held] is
    the descriptors of all execs the kernel holds for an answer, ever. *)
Record fan_sys := FanSys {
  fs_input : list raw_event;
  fs_queue : list fanEvent;
  fs_workers : list (option fanEvent);
  fs_policy : option fanPolicy;
  fs_cache : cache;
  fs_answers : list (Z * bool);
  fs_closed : list Z;
  fs_reports : list fan_decision;
  fs_failedOpen : Z;
  fs_held : list Z;
}.

Definition is_perm (e : raw_event) : bool := negb (Z.land (re_mask e) FAN_OPEN_EXEC_PERM =? 0).

(** An event that is an exec held for an answer. *)
Definition holds_exec (e : raw_event) : bool := (0 <=? fv_fd (re_ev e)) && is_perm e.

(** One turn of [read]'s inner loop, for the helper's own process [self]. *)
Definition handle_event (self : Z) (e : raw_event) (s : fan_sys) : fan_sys :=
  let ev := re_ev e in
  let '(FanSys inp q ws p c ans cl rep fo held) := s in
  if fv_fd ev <? 0 then s
  else if negb (is_perm e) then FanSys inp q ws p c ans (cl ++ [fv_fd ev]) rep fo held
  else if fv_pid ev =? self then FanSys inp q ws p c (ans ++ [(fv_fd ev, true)]) cl rep fo held
  else if (length q <? fanQueue)%nat then FanSys inp (q ++ [ev]) ws p c ans cl rep fo held
  else FanSys inp q ws p c (ans ++ [(fv_fd ev, true)]) cl rep (fo + 1) held.

(** The steps; a worker sees the operating system as one of the views in
    [view].  A worker's decision is one step: its two accesses of the
    cache are under [cacheMu], and what it decides and stores does not
    depend on what others store between them ([decide_digest]). *)
Inductive fan_step (view : fan_os → Prop) (self : Z) : fan_sys → fan_sys → Prop :=
  | fan_receive evs q ws p c ans cl rep fo held :
      fan_step view self (FanSys [] q ws p c ans cl rep fo held)
        (FanSys evs q ws p c ans cl rep fo
           (held ++ map (λ e, fv_fd (re_ev e)) (filter holds_exec evs)))
  | fan_read e inp q ws p c ans cl rep fo held :
      fan_step view self (FanSys (e :: inp) q ws p c ans cl rep fo held)
        (handle_event self e (FanSys inp q ws p c ans cl rep fo held))
  | fan_take i inp ev q ws p c ans cl rep fo held :
      ws !! i = Some None →
      fan_step view self (FanSys inp (ev :: q) ws p c ans cl rep fo held)
        (FanSys inp q (<[i := Some ev]> ws) p c ans cl rep fo held)
  | fan_answer i os ev inp q ws p c ans cl rep fo held :
      view os → ws !! i = Some (Some ev) →
      fan_step view self (FanSys inp q ws p c ans cl rep fo held)
        (let '(allow, d, c) := decide p os ev c in
         FanSys inp q (<[i := None]> ws) p c (ans ++ [(fv_fd ev, allow)]) cl (rep ++ option_list d) fo held)
  | fan_setPolicy p' inp q ws p c ans cl rep fo held :
      fan_step view self (FanSys inp q ws p c ans cl rep fo held) (FanSys inp q ws (Some p') c ans cl rep fo held)
  | fan_remark inp q ws p c ans cl rep fo held :
      fan_step view self (FanSys inp q ws p c ans cl rep fo held) (FanSys inp q ws p c ans cl rep 0 held).

(** [startFanotifyLocal] *)
Definition fan_start : fan_sys :=
  FanSys [] [] (replicate fanWorkers None) None ∅ [] [] [] 0 [].
End decide.

Example procStatus_ex : procStatus (FanOs (λ _, None) (λ _ _, None) (λ _, None) (λ _, None)
    (λ _, Some (zs "Name:	bash" ++ [10] ++ zs "PPid:	41" ++ [10] ++ zs "Uid:	1000	1000	0	0" ++ [10]))) 7
  = ProcStatus 41 1000 (zs "bash").
Proof. vm_compute. reflexivity. Qed.

(** ** The event buffer is read in full *)

Record raw_event_ok (e : raw_event) : Prop := {
  eo_len : re_len e = 24;
  eo_mask : 0 ≤ re_mask e < 2 ^ 64;
  eo_fd : - 2 ^ 31 ≤ fv_fd (re_ev e) < 2 ^ 31;
  eo_pid : - 2 ^ 31 ≤ fv_pid (re_ev e) < 2 ^ 31;
}.

Lemma length_event_bytes e : length (event_bytes e) = 24%nat.
Proof. unfold event_bytes. by rewrite !length_app, !length_le_bytes. Qed.

Lemma uint_at_app pre l rest n w : length pre = n → length l = w → uint_at w (pre ++ l ++ rest) n = le_val l.
Proof. intros <- <-. unfold uint_at. by rewrite drop_app_length, take_app_length. Qed.

(** The 32-bit word that stands for a signed one. *)
Lemma s32_u32 z : - 2 ^ 31 ≤ z < 2 ^ 31 → s32 (u32 z) = z.
Proof.
  intros H. unfold s32, u32, swrap, wrap. change (32 - 1) with 31.
  rewrite Z.add_mod_idemp_l by lia. rewrite Z.mod_small; lia.
Qed.

Lemma event_at_bytes pre e rest : raw_event_ok e → event_at (pre ++ event_bytes e ++ rest) (length pre) = e.
Proof.
  intros [Hl Hm Hf Hp]. destruct e as [len mask [fd pid]]. cbn in Hl, Hm, Hf, Hp. unfold event_at, event_bytes.
  cbn [re_len re_mask re_ev fv_fd fv_pid].
  set (a := le_bytes 4 len). set (d := le_bytes 8 mask). set (e := le_bytes 4 (u32 fd)).
  set (f := le_bytes 4 (u32 pid)). set (h := [3; 0] ++ le_bytes 2 24).
  assert (E : (a ++ [3; 0] ++ le_bytes 2 24 ++ d ++ e ++ f) ++ rest = a ++ h ++ d ++ e ++ f ++ rest)
    by (unfold h; by rewrite <- !(assoc_L (++))). rewrite E. clear E.
  pose proof (uint_at_app pre a (h ++ d ++ e ++ f ++ rest) (length pre) 4 eq_refl (length_le_bytes _ _)) as Ea.
  assert (Hpre : ∀ l n, length l = n → length (pre ++ l) = (length pre + n)%nat)
    by (intros l n <-; apply length_app).
  pose proof (uint_at_app (pre ++ a ++ h) d (e ++ f ++ rest) (length pre + 8) 8
    (Hpre (a ++ h) 8%nat eq_refl) (length_le_bytes _ _)) as Ed.
  pose proof (uint_at_app (pre ++ a ++ h ++ d) e (f ++ rest) (length pre + 16) 4
    (Hpre (a ++ h ++ d) 16%nat eq_refl) (length_le_bytes _ _)) as Ee.
  pose proof (uint_at_app (pre ++ a ++ h ++ d ++ e) f rest (length pre + 20) 4
    (Hpre (a ++ h ++ d ++ e) 20%nat eq_refl) (length_le_bytes _ _)) as Ef.
  rewrite <- ?app_assoc in Ed; rewrite <- ?app_assoc in Ee; rewrite <- ?app_assoc in Ef. rewrite Ea, Ed, Ee, Ef. unfold a, d, e, f.
  rewrite !le_val_le_bytes_small, !s32_u32; try done; try (change (256 ^ Z.of_nat 4) with (2 ^ 32); apply u32_range).
  rewrite Hl. done.
Qed.

(** The buffer of a read is the events the kernel put into it. *)
Lemma events_from_bytes es : ∀ fuel pre rest, Forall raw_event_ok es → (length es < fuel)%nat →
  events_from fuel (pre ++ concat (map event_bytes es) ++ rest)
    (length (pre ++ concat (map event_bytes es))) (length pre) = es.
Proof.
  induction es as [|e es IH]; intros [|fuel] pre rest Hok Hf; cbn in Hf; try lia; cbn [events_from map concat].
  - rewrite app_nil_r. destruct (Nat.leb_spec (length pre + 24) (length pre)); [lia|done].
  - apply Forall_cons in Hok as [He Hok].
    assert (Hl : (length pre + 24 ≤ length (pre ++ event_bytes e ++ concat (map event_bytes es)))%nat).
    { rewrite !length_app, length_event_bytes. lia. }
    rewrite (proj2 (Nat.leb_le _ _) Hl). rewrite <- (assoc_L (++) (event_bytes e)), event_at_bytes by done.
    rewrite (eo_len _ He). cbn [Z.ltb Z.compare]. f_equal.
    change (24 <? 24) with false. cbv iota. 
    specialize (IH fuel (pre ++ event_bytes e) rest Hok ltac:(lia)).
    rewrite <- !(assoc_L (++)) in IH. rewrite (length_app pre (event_bytes e)), length_event_bytes in IH.
    exact IH.
Qed.

Lemma events_of_bytes es rest : Forall raw_event_ok es →
  events_of (concat (map event_bytes es) ++ rest) (length (concat (map event_bytes es))) = es.
Proof.
  intros Hok. unfold events_of. apply (events_from_bytes es _ [] rest Hok).
  assert (H : length (concat (map event_bytes es)) = (24 * length es)%nat).
  { clear. induction es as [|e es IH]; [done|]. cbn [map concat]. rewrite length_app, length_event_bytes, IH.
    cbn. lia. }
  cbn [app]. lia.
Qed.

(** ** The reading loop ends *)

(** The file's content is [bs]: a read returns a part of what follows the
    offset, nothing only at the end. *)
Definition reads_file (pread : Z → option (list Z)) (bs : list Z) : Prop :=
  ∀ n, (n ≤ length bs)%nat → ∃ b, pread (Z.of_nat n) = Some b ∧ b `prefix_of` drop n bs ∧
    (b = [] → drop n bs = []).

Lemma read_all_file pread bs fuel : reads_file pread bs → ∀ n, (n ≤ length bs)%nat → (length bs - n < fuel)%nat →
  read_all fuel pread (Z.of_nat n) = Some (Some (drop n bs)).
Proof.
  intros Hr. induction fuel as [|fuel IH]; intros n Hn Hf; [lia|]. cbn [read_all].
  destruct (Hr n Hn) as (b & -> & [l Hl] & Hb). destruct b as [|x b]; [by rewrite Hb|].
  assert (Hlen : (length bs - n = S (length b) + length l)%nat).
  { rewrite <- length_drop, Hl, length_app. done. }
  rewrite <- Nat2Z.inj_add. rewrite IH by (cbn [length]; lia). cbn [mbind option_bind].
  by rewrite <- drop_drop, Hl, drop_app_length.
Qed.

(** [hashFD] bounds the size it sees before it reads, not what it reads: a
    file that grows as fast as it is read keeps the worker reading. *)
Lemma read_all_growing pread fuel : (∀ off, 0 ≤ off → ∃ x b, pread off = Some (x :: b)) →
  ∀ off, 0 ≤ off → read_all fuel pread off = None.
Proof.
  intros Hp. induction fuel as [|fuel IH]; intros off Hoff; [done|]. cbn [read_all].
  destruct (Hp off Hoff) as (x & b & ->). by rewrite IH by lia.
Qed.

(** ** The decision *)

Section facts.
Context (sha256 : list Z → list Z).
Context (equal_fold : list Z → list Z → bool) (lower : list Z → list Z).
Context (fuel : nat).
Context (content : hashKey → list Z).

(** Files keep their content while their inode, times and size stay, and
    those that are hashed are read to their end within [fuel] turns. *)
Definition honest (os : fan_os) : Prop :=
  ∀ fd key, os_fstat os fd = Some key → hk_size key ≤ maxHashBytes →
    reads_file (os_pread os fd) (content key) ∧ (length (content key) < fuel)%nat.

(** The digest of a file, where it is computed: of at most 64 MiB. *)
Definition digest_of (os : fan_os) (fd : Z) : option (list Z) :=
  key ← os_fstat os fd;
  if maxHashBytes <? hk_size key then None else Some (hex_encode (sha256 (content key))).

Record cache_ok (c : cache) : Prop := {
  co_size : (size c ≤ hashCacheMax)%nat;
  co_digest key h : c !! key = Some h → h = hex_encode (sha256 (content key));
}.

Lemma cache_store_ok c key : cache_ok c → cache_ok (cache_store c key (hex_encode (sha256 (content key)))).
Proof.
  intros [Hs Hd]. unfold cache_store. split.
  - destruct (Nat.leb_spec hashCacheMax (size c)).
    + etrans; [apply size_insert_le|]. rewrite map_size_empty. unfold hashCacheMax. lia.
    + etrans; [apply size_insert_le|]. lia.
  - intros key' h [[<- <-]|[_ H]]%lookup_insert_Some; [done|].
    destruct (_ <=? _)%nat; [by rewrite lookup_empty in H|by apply Hd].
Qed.

Lemma hashFD_spec os fd c : honest os → cache_ok c →
  fst (hashFD sha256 fuel os fd c) = digest_of os fd ∧ cache_ok (snd (hashFD sha256 fuel os fd c)).
Proof.
  intros Ho Hc. unfold hashFD, digest_of. destruct (os_fstat os fd) as [key|] eqn:E; [cbn [mbind option_bind]|done].
  destruct (Z.ltb_spec maxHashBytes (hk_size key)) as [|Hsz]; [done|].
  destruct (c !! key) as [h|] eqn:Ec; [by rewrite (co_digest c Hc key h Ec)|].
  destruct (Ho fd key E Hsz) as [Hr Hf]. pose proof (read_all_file _ _ fuel Hr 0 (Nat.le_0_l _) ltac:(lia)) as H.
  change (Z.of_nat 0) with 0 in H. rewrite H, drop_0. cbn. split; [done|]. by apply cache_store_ok.
Qed.

(** What the policy says of an execution with digest [h]: the rule found,
    unless its scope is excluded. *)
Definition verdict (p : policy) (kernelDecides : bool) (path parent : list Z) (h : option (list Z))
    : option matched :=
  if p_off p then None else
  let '(c, h, _) := match_exec (λ s : unit, (h, s)) p path parent kernelDecides () in
  c0 ← c; if excluded equal_fold lower p c0 path (default [] (mjoin h)) then None else Some c0.

Definition allows (m : option matched) : bool :=
  match m with Some m => negb (r_block (m_rule m)) | None => true end.

Lemma verdict_inactive p k path parent h : active p = false → verdict p k path parent h = None.
Proof.
  unfold active, verdict, match_exec, match_names, HasHashRules. destruct (p_off p); [done|].
  cbn [negb andb]. case_bool_decide as Hr; [|done]. rewrite Hr. cbn. intros ->. by destruct k.
Qed.

Definition policy_verdict (pol : option fanPolicy) (os : fan_os) (ev : fanEvent) : option matched :=
  pol ← pol; path ← os_path os (fv_fd ev);
  verdict (fp_p pol) (fp_kernelDecides pol) path (default [] (os_exe os (fv_pid ev))) (digest_of os (fv_fd ev)).

(** The answer follows the policy's verdict on the file's digest, whatever
    the cache holds. *)
Lemma decide_digest pol os ev c : honest os → cache_ok c →
  let '(allow, d, c') := decide sha256 equal_fold lower fuel pol os ev c in
  allow = allows (policy_verdict pol os ev) ∧ fd_rule <$> d = policy_verdict pol os ev ∧
  (∀ x, d = Some x → fd_blocked x = negb allow) ∧ cache_ok c'.
Proof.
  intros Ho Hc. unfold decide, policy_verdict. destruct pol as [[p k]|]; [cbn [mbind option_bind fp_p fp_kernelDecides]|done].
  destruct (active p) eqn:Ha; cbn [negb].
  2: { destruct (os_path os (fv_fd ev)); [cbn|done]. by rewrite verdict_inactive. }
  destruct (os_path os (fv_fd ev)) as [path|]; [cbn [mbind option_bind]|done].
  destruct (hashFD_spec os (fv_fd ev) c Ho Hc) as [Hh Hc']. unfold Match, verdict, match_exec.
  destruct (p_off p); [done|].
  destruct (if k then None else match_names p path _) as [m|].
  { cbn. destruct (excluded _ _ _ _ _ _); cbn; [done|]. split_and!; try done.
    intros x [= <-]. cbn. by rewrite negb_involutive. }
  destruct (HasHashRules p || checksMalware p); [|done].
  destruct (hashFD sha256 fuel os (fv_fd ev) c) as [h c']. cbn in Hh, Hc'. rewrite Hh.
  destruct (digest_of os (fv_fd ev) ≫= match_hash p) as [m|]; cbn; [|done].
  destruct (excluded _ _ _ _ _ _); cbn; [done|]. split_and!; try done.
  intros x [= <-]. cbn. by rewrite negb_involutive.
Qed.

(** ** Every held exec is answered once *)

Local Abbreviation step := (fan_step sha256 equal_fold lower fuel honest).

Definition held_of (es : list raw_event) : list Z := map (λ e, fv_fd (re_ev e)) (filter holds_exec es).

Record sys_ok (s : fan_sys) : Prop := {
  sy_held : fs_held s ≡ₚ held_of (fs_input s) ++ map fv_fd (fs_queue s)
              ++ map fv_fd (omap id (fs_workers s)) ++ map fst (fs_answers s);
  sy_queue : (length (fs_queue s) ≤ fanQueue)%nat;
  sy_workers : length (fs_workers s) = fanWorkers;
  sy_denied : length (filter (λ a, snd a = false) (fs_answers s))
              = length (filter (λ d, fd_blocked d = true) (fs_reports s));
  sy_cache : cache_ok (fs_cache s);
}.

Lemma fan_start_ok : sys_ok fan_start.
Proof.
  split; try done; cbn.
  - unfold fanQueue. lia.
  - split; [rewrite map_size_empty; lia|]. intros key h H. by rewrite lookup_empty in H.
Qed.

Lemma omap_insert_take (ws : list (option fanEvent)) i ev : ws !! i = Some None →
  omap id (<[i := Some ev]> ws) ≡ₚ ev :: omap id ws.
Proof.
  revert i. induction ws as [|w ws IH]; intros [|i]; cbn; try done; [by intros [= ->]|].
  intros H%IH. destruct w as [w|]; cbn; rewrite H; [apply Permutation_swap|done].
Qed.

Lemma omap_insert_done (ws : list (option fanEvent)) i ev : ws !! i = Some (Some ev) →
  omap id ws ≡ₚ ev :: omap id (<[i := None]> ws).
Proof.
  revert i. induction ws as [|w ws IH]; intros [|i]; cbn; try done; [by intros [= ->]|].
  intros H%IH. destruct w as [w|]; cbn; rewrite H; [apply Permutation_swap|done].
Qed.

Local Ltac fan_cbn :=
  cbn [fs_held fs_input fs_queue fs_workers fs_answers fs_reports fs_cache fs_policy] in *.

Lemma held_of_cons e es : held_of (e :: es) = (if holds_exec e then [fv_fd (re_ev e)] else []) ++ held_of es.
Proof. unfold held_of. rewrite filter_cons. by destruct (holds_exec e). Qed.

Lemma denied_snoc (l : list (Z * bool)) fd b :
  length (filter (λ a, snd a = false) (l ++ [(fd, b)]))
  = (length (filter (λ a, snd a = false) l) + if b then 0 else 1)%nat.
Proof. rewrite filter_app, length_app. by destruct b. Qed.

Lemma blocked_snoc (l : list fan_decision) d :
  length (filter (λ d, fd_blocked d = true) (l ++ option_list d))
  = (length (filter (λ d, fd_blocked d = true) l)
     + match d with Some d => if fd_blocked d then 1 else 0 | None => 0 end)%nat.
Proof.
  rewrite filter_app, length_app. destruct d as [d|]; [|done]. f_equal.
  change (option_list (Some d)) with [d]. rewrite filter_cons, filter_nil. by destruct (fd_blocked d).
Qed.

Lemma handle_event_ok self e inp q ws p c ans cl rep fo held :
  sys_ok (FanSys (e :: inp) q ws p c ans cl rep fo held) →
  sys_ok (handle_event self e (FanSys inp q ws p c ans cl rep fo held)).
Proof.
  intros [Hh Hq Hw Hd Hc]. fan_cbn. rewrite held_of_cons in Hh. unfold handle_event, holds_exec in *.
  assert (Hok : sys_ok (FanSys inp q ws p c (ans ++ [(fv_fd (re_ev e), true)]) cl rep fo held) ∨
    ((0 <=? fv_fd (re_ev e)) && is_perm e = false)).
  { destruct (_ && is_perm e); [left|by right]. split; fan_cbn; try done.
    - rewrite Hh, map_app. cbn [map fst app]. solve_Permutation.
    - rewrite denied_snoc. lia. }
  destruct (Z.ltb_spec (fv_fd (re_ev e)) 0) as [Hlt|Hge].
  { rewrite (proj2 (Z.leb_gt _ _)) in Hh by done. split; done. }
  rewrite (proj2 (Z.leb_le _ _)) in Hh by done. rewrite (proj2 (Z.leb_le _ _)) in Hok by done.
  cbn [andb] in Hh, Hok. destruct (is_perm e); cbn [negb]; [|split; done].
  destruct Hok as [Hok|]; [|done].
  destruct (fv_pid (re_ev e) =? self); [exact Hok|].
  destruct (Nat.ltb_spec (length q) fanQueue).
  - split; fan_cbn; try done; [|rewrite length_app; cbn; lia]. rewrite Hh, map_app. cbn [map fst app]. solve_Permutation.
  - destruct Hok; by split.
Qed.

Lemma step_ok self s s' : sys_ok s → step self s s' → sys_ok s'.
Proof.
  intros Hs Hstep. destruct Hstep as [evs q ws p c ans cl rep fo held|e inp q ws p c ans cl rep fo held
    |i inp ev q ws p c ans cl rep fo held Hi|i os ev inp q ws p c ans cl rep fo held Ho Hi|?|?].
  - destruct Hs as [Hh Hq Hw Hd Hc]. fan_cbn. split; fan_cbn; try done. rewrite Hh.     solve_Permutation.
  - by apply handle_event_ok.
  - destruct Hs as [Hh Hq Hw Hd Hc]. fan_cbn. cbn [length] in Hq. split; fan_cbn; try done; [|lia|by rewrite length_insert].
    rewrite Hh, omap_insert_take by done. cbn [map app]. solve_Permutation.
  - destruct Hs as [Hh Hq Hw Hd Hc]. fan_cbn.
    pose proof (decide_digest p os ev c Ho Hc) as Hdec.
    destruct (decide _ _ _ _ _ _ _ _) as [[allow d] c']. destruct Hdec as (Hal & Hru & Hbl & Hc').
    split; fan_cbn; try done.
    + rewrite Hh, (omap_insert_done ws i ev) by done. rewrite map_app. cbn [map fst app]. solve_Permutation.
    + by rewrite length_insert.
    + rewrite denied_snoc, blocked_snoc. rewrite Hd. f_equal. destruct d as [d|].
      * rewrite (Hbl d eq_refl). by destruct allow.
      * rewrite <- Hru in Hal. cbn in Hal. by rewrite Hal.
  - destruct Hs as [Hh Hq Hw Hd Hc]. by split.
  - destruct Hs as [Hh Hq Hw Hd Hc]. by split.
Qed.

Lemma reachable_ok self s : rtc (step self) fan_start s → sys_ok s.
Proof.
  apply (rtc_ind_r (λ s, sys_ok s)); [apply fan_start_ok|]. intros s1 s2 _ Hstep Hs. by eapply step_ok.
Qed.

(** ** Held execs are released *)

(** The work left: an event still has to be read, then taken, then
    answered. *)
Definition work_left (s : fan_sys) : nat :=
  (3 * length (fs_input s) + 2 * length (fs_queue s) + length (omap id (fs_workers s)))%nat.

Lemma handle_event_work self e s : (work_left (handle_event self e s) ≤ work_left s + 2)%nat.
Proof.
  destruct s as [inp q ws p c ans cl rep fo held]. unfold handle_event, work_left. cbn.
  repeat case_match; cbn; rewrite ?length_app; cbn; lia.
Qed.

Lemma handle_event_held self e s : fs_held (handle_event self e s) = fs_held s.
Proof. destruct s. unfold handle_event. by repeat case_match. Qed.

(** Some goroutine can always go on, as long as work is left. *)
Lemma progress self s : sys_ok s → (∃ os, honest os) → work_left s ≠ 0%nat →
  ∃ s', step self s s' ∧ (work_left s' < work_left s)%nat ∧ fs_held s' = fs_held s.
Proof.
  intros Hs [os Hos] Hne. destruct s as [inp q ws p c ans cl rep fo held].
  destruct inp as [|e inp].
  2: { eexists. split; [apply fan_read|]. split; [|by rewrite handle_event_held].
       pose proof (handle_event_work self e (FanSys inp q ws p c ans cl rep fo held)) as H.
       unfold work_left in H |- *. cbn [fs_input fs_queue fs_workers length] in H |- *. lia. }
  destruct (omap id ws) as [|ev evs] eqn:Ew.
  - destruct q as [|ev q].
    { unfold work_left in Hne. cbn [fs_input fs_queue fs_workers length] in Hne. by rewrite Ew in Hne. }
    pose proof (sy_workers _ Hs) as Hw. cbn in Hw. destruct ws as [|w ws]; [done|].
    destruct w as [w|]; [done|].
    eexists. split; [by apply (fan_take _ _ _ _ _ _ 0%nat)|]. split; [|done].
    unfold work_left. cbn [fs_input fs_queue fs_workers length]. cbn in Ew |- *. rewrite Ew. cbn. lia.
  - assert (Hin : ev ∈ omap id ws) by (rewrite Ew; apply list_elem_of_here).
    apply list_elem_of_omap in Hin as (w & Hin & Hw). cbn in Hw. subst w.
    apply list_elem_of_lookup in Hin as [i Hi].
    eexists. split; [by apply (fan_answer _ _ _ _ _ _ i os)|].
    pose proof (Permutation_length (omap_insert_done ws i ev Hi)) as Hl. cbn in Hl.
    destruct (decide _ _ _ _ _ _ _ _) as [[allow d] c'].
    unfold work_left. cbn [fs_input fs_queue fs_workers length]. split; [lia|done].
Qed.

Lemma drains self s : sys_ok s → (∃ os, honest os) →
  ∃ s', rtc (step self) s s' ∧ work_left s' = 0%nat ∧ fs_held s' = fs_held s.
Proof.
  revert s. apply (induction_ltof1 _ work_left (λ s, sys_ok s → (∃ os, honest os) → _)). intros s IH Hs Hos.
  destruct (Nat.eq_dec (work_left s) 0%nat) as [E|E]; [by exists s|].
  destruct (progress self s Hs Hos E) as (s1 & H1 & Hlt & Hh).
  destruct (IH s1 Hlt) as (s2 & H2 & H0 & Hh2); [by eapply step_ok|done|].
  exists s2. split_and!; [by eapply rtc_l|done|congruence].
Qed.

Lemma drained_answers s : sys_ok s → work_left s = 0%nat → map fst (fs_answers s) ≡ₚ fs_held s.
Proof.
  intros [Hh _ _ _ _] H0. rewrite Hh. unfold work_left in H0.
  destruct (fs_input s), (fs_queue s), (omap id (fs_workers s)); cbn in H0; try lia. done.
Qed.
End facts.

(** ** Properties *)

(** C18. Every exec the kernel holds is answered once.  In every state the
    engine can reach, the execs held so far are those in the read buffer, in
    the queue of at most 256, with the four workers, and answered, each in
    one of these places; there are as many refusals as reports of a blocked
    program; and from there, with no new exec, the engine goes on until all
    of them are answered. *)
Theorem every_held_exec_is_answered_once sha256 equal_fold lower fuel content self s :
  let step := fan_step sha256 equal_fold lower fuel (honest fuel content) self in
  rtc step fan_start s → (∃ os, honest fuel content os) →
  fs_held s ≡ₚ held_of (fs_input s) ++ map fv_fd (fs_queue s)
                 ++ map fv_fd (omap id (fs_workers s)) ++ map fst (fs_answers s) ∧
  (length (fs_queue s) ≤ fanQueue)%nat ∧ length (fs_workers s) = fanWorkers ∧
  length (filter (λ a, snd a = false) (fs_answers s))
    = length (filter (λ d, fd_blocked d = true) (fs_reports s)) ∧
  ∃ s', rtc step s s' ∧ fs_held s' = fs_held s ∧ map fst (fs_answers s') ≡ₚ fs_held s.
Proof.
  intros step Hr Hos. pose proof (reachable_ok _ _ _ _ _ _ _ Hr) as Hs.
  destruct (drains sha256 equal_fold lower fuel content self s Hs Hos) as (s' & Hr' & H0 & Hh).
  destruct Hs as [H1 H2 H3 H4 _]. split_and!; try done. exists s'. split_and!; try done.
  rewrite <- Hh. apply (drained_answers sha256 content); [|done].
  eapply reachable_ok. by etrans.
Qed.

(** C19. An answer is the policy's verdict on the file itself: in every
    reachable state, whatever decisions came before and whatever the cache
    of at most 20000 digests holds, an exec is refused exactly when the
    policy's rule for its path, its parent and the SHA-256 of the content of
    the executable blocks, and that rule is what is reported.  (A file over
    64 MiB has no digest.) *)
Theorem answers_follow_the_policy sha256 equal_fold lower fuel content self s os ev :
  rtc (fan_step sha256 equal_fold lower fuel (honest fuel content) self) fan_start s → honest fuel content os →
  let '(allow, d, c') := decide sha256 equal_fold lower fuel (fs_policy s) os ev (fs_cache s) in
  let m := policy_verdict sha256 equal_fold lower content (fs_policy s) os ev in
  (allow = false ↔ ∃ x, m = Some x ∧ r_block (m_rule x) = true) ∧
  fd_rule <$> d = m ∧ (size c' ≤ hashCacheMax)%nat.
Proof.
  intros Hr Ho. pose proof (sy_cache _ _ _ (reachable_ok _ _ _ _ _ _ _ Hr)) as Hc.
  pose proof (decide_digest sha256 equal_fold lower fuel content (fs_policy s) os ev (fs_cache s) Ho Hc) as H.
  destruct (decide _ _ _ _ _ _ _ _) as [[allow d] c']. destruct H as (-> & Hd & _ & Hc').
  split_and!; [|done|apply Hc'].
  destruct (policy_verdict _ _ _ _ _ _ _) as [x|]; cbn; [|naive_solver].
  destruct (r_block (m_rule x)) eqn:E; naive_solver.
Qed.

(** ** An exec of a program with a blocked digest *)

Definition demo_digest (l : list Z) : list Z := replicate 32 (foldl Z.add 0 l mod 256).
Definition demo_fold (a b : list Z) : bool := bool_decide (to_lower a = to_lower b).
Definition demo_content (k : hashKey) : list Z := zs "program " ++ [48 + hk_ino k].
Definition demo_key : hashKey := HashKey 1 7 100 100 9.
Definition demo_fan_os : fan_os :=
  FanOs (λ fd, if fd =? 5 then Some demo_key else None)
    (λ _ off, Some (take readChunk (drop (Z.to_nat off) (demo_content demo_key))))
    (λ _, Some (zs "/opt/tool")) (λ _, Some (zs "/usr/bin/bash")) (λ _, None).
Definition demo_hash_rule (block : bool) : compiled :=
  let v := hex_encode (demo_digest (demo_content demo_key)) in
  Compiled TypeHash v block [] [] (Rule (zs "r1") (zs "bad tool") (zs "hash") v []
    (if block then zs "block" else zs "detect")).
Definition demo_fan_policy (es : list exclusion) : fanPolicy :=
  FanPolicy (Policy [demo_hash_rule true] None [] false es ∅) true.

Lemma take_reads_file bs k : (0 < k)%nat → reads_file (λ off, Some (take k (drop (Z.to_nat off) bs))) bs.
Proof.
  intros Hk n Hn. rewrite Nat2Z.id. eexists. split; [done|]. split; [apply prefix_take|].
  destruct (drop n bs); [done|]. by destruct k; [lia|].
Qed.

Lemma demo_honest : honest 20 demo_content demo_fan_os.
Proof.
  intros fd key. cbn. destruct (fd =? 5); [|done]. intros [= <-] _. split.
  - apply (take_reads_file (demo_content demo_key)). unfold readChunk. lia.
  - vm_compute. lia.
Qed.

Local Abbreviation demo_step :=
  (fan_step demo_digest demo_fold to_lower 20 (honest 20 demo_content) 900).

Definition demo_fan_state : fan_sys :=
  FanSys [] [FanEvent 5 41] (replicate 4 None) (Some (demo_fan_policy [])) ∅ [(6, true)] [] [] 0 [5; 6].

Lemma demo_fan_reaches : rtc demo_step fan_start demo_fan_state.
Proof.
  eapply rtc_l; [apply (fan_setPolicy _ _ _ _ _ _ (demo_fan_policy []))|].
  eapply rtc_l; [apply (fan_receive _ _ _ _ _ _
    [RawEvent 24 FAN_OPEN_EXEC_PERM (FanEvent 5 41); RawEvent 24 FAN_OPEN_EXEC_PERM (FanEvent 6 900)])|].
  eapply rtc_l; [apply fan_read|]. eapply rtc_l; [apply fan_read|]. apply rtc_refl.
Qed.

Lemma every_held_exec_is_answered_once_witness :
  fs_held demo_fan_state ≡ₚ [5] ++ [] ++ [6] ∧ (length (fs_queue demo_fan_state) ≤ fanQueue)%nat ∧
  length (fs_workers demo_fan_state) = fanWorkers ∧ 0%nat = 0%nat ∧
  ∃ s', rtc demo_step demo_fan_state s' ∧ fs_held s' = [5; 6] ∧ map fst (fs_answers s') ≡ₚ [5; 6].
Proof.
  apply (every_held_exec_is_answered_once demo_digest demo_fold to_lower 20 demo_content 900 demo_fan_state).
  - apply demo_fan_reaches.
  - exists demo_fan_os. apply demo_honest.
Defined.

Lemma answers_follow_the_policy_witness :
  let '(allow, d, c') := decide demo_digest demo_fold to_lower 20 (fs_policy demo_fan_state) demo_fan_os
                           (FanEvent 5 41) ∅ in
  let m := policy_verdict demo_digest demo_fold to_lower demo_content (fs_policy demo_fan_state) demo_fan_os
             (FanEvent 5 41) in
  ((allow = false ↔ ∃ x, m = Some x ∧ r_block (m_rule x) = true) ∧ fd_rule <$> d = m ∧
   (size c' ≤ hashCacheMax)%nat) ∧ m = Some (Matched 0 (demo_hash_rule true)).
Proof.
  pose proof (answers_follow_the_policy demo_digest demo_fold to_lower 20 demo_content 900 demo_fan_state
                demo_fan_os (FanEvent 5 41) demo_fan_reaches demo_honest) as H.
  change (fs_cache demo_fan_state) with (∅ : gmap hashKey (list Z)) in H.
  destruct (decide _ _ _ _ _ _ _ _) as [[allow d] c']. split; [exact H|]. vm_compute. reflexivity.
Defined.
