(* ===== verification/KernelReads.v ===== *)
(** * What the programs read of the kernel's own structs

    [Relocation] gives the value of each BPF_CORE_READ on a kernel with any
    layout.  Here the models of the programs are put on such a kernel
    ([loaded_on]): what the sensor puts into a record is the member the C
    code names, and a mount namespace whose dentries and mounts are objects
    in the kernel's memory ([stores_ns]) is one the path walks see
    ([holds_ns], [holds_keys], [sees_exec], [dir_target]): these are the
    hypotheses under which [SensorData] and [PreventProps] say what the
    walks return. *)
From Stdlib Require Import ZArith Lia Ascii String.
From stdpp Require Import base tactics list gmap strings.
From S2P Require Import Prelude.
From S2P Require Import CLayout.
From S2P Require Import Vmlinux.
From S2P Require Import Kernel.
From S2P Require Import CoreRead.
From S2P Require Import Tracing.
From S2P Require Import KernelTypes.
From S2P Require Import Relocation.
From S2P Require Import PathWalk.
From S2P Require Import Linsensor.
From S2P Require Import Scenario.
From S2P Require Import SensorFacts.
From S2P Require Import SensorData.
From S2P Require Import Prevent.
From S2P Require Import PreventProps.
Local Open Scope Z_scope.

(** ** A program loaded into a kernel *)

(** The reads of the programs as built for one architecture. *)
Definition build_reads {KL : KernelLayout} (b : build) : list program_read :=
  walk_reads ++ fd_reads ++ task_reads ++ life_reads ++ lsm_reads
  ++ match b with X86 => x86_reg_reads | ARM64 => arm64_reg_reads end.

Lemma build_reads_program {KL : KernelLayout} b r : r ∈ build_reads b → r ∈ program_reads.
Proof.
  unfold build_reads, program_reads, reg_reads. rewrite !elem_of_app.
  destruct b; naive_solver.
Qed.

(** The programs, relocated against the kernel's types, which may place
    members elsewhere but have those the programs follow, with their types;
    memory holds objects of these types. *)
Record loaded_on (b : build) (k : kernel_btf) (B : core_builtins) (c : ctx) (objs : objects) : Prop := {
  ld_relocates : relocates k B;
  ld_structs : keeps_structs (kb_types k);
  ld_mnt : member_type (kb_types k) "struct mount" "mnt" = pointee (kb_types k) "struct vfsmount"%string;
  ld_wf : forallb (λ st, wf_type (snd st)) (kb_types k) = true;
  ld_objects : holds_objects (kb_types k) c objs;
  ld_shapes : Forall (λ r, read_shape (kb_types k) r = read_shape vmlinux_env r)
                (build_reads (KL := relocated B) b);
}.

(** The value of the C expression [p->a->b.c], [p] a pointer to the struct
    spelled [s], on the kernel's objects. *)
Definition val (k : kernel_btf) (objs : objects) (p : Z) (s : string) (a : list string)
    (rest : list (list string)) : option Z :=
  le_val <$> follow (kb_types k) objs p s a rest.

(** ** A mount namespace made of objects *)

Section stored.
Context (k : kernel_btf) (objs : objects).
Local Abbreviation V := (val k objs).
Local Open Scope string_scope.

Record stores_ns (c : ctx) (ns : mnt_ns) : Prop := {
  sn_dentry d de : ns_dentries ns !! d = Some de →
    (0%Z ∉ de_name de) ∧
    V d "struct dentry" ["d_parent"] [] = Some (de_parent de) ∧
    V d "struct dentry" ["d_name"; "len"] [] = Some (Z.of_nat (length (de_name de))) ∧
    (∃ p, V d "struct dentry" ["d_name"; "name"] [] = Some p ∧ kmem_at c p (de_name de)) ∧
    V d "struct dentry" ["d_inode"] [["i_ino"]] = Some (de_ino de) ∧
    V d "struct dentry" ["d_sb"] [["s_dev"]] = Some (de_dev de);
  sn_mount m mt : ns_mounts ns !! m = Some mt →
    V m "struct mount" ["mnt"; "mnt_root"] [] = Some (mt_root mt) ∧
    V m "struct mount" ["mnt_parent"] [] = Some (mt_parent mt) ∧
    V m "struct mount" ["mnt_mountpoint"] [] = Some (mt_mountpoint mt);
}.

(** The [struct path] in member [x] of the object [p]: a dentry and, by its
    [struct vfsmount], a mount. *)
Definition stores_path {KL : KernelLayout} (p : Z) (s x : string) (d m : Z) : Prop :=
  V p s [x; "dentry"] [] = Some d ∧ V p s [x; "mnt"] [] = Some (field m off_mount_mnt).

(** What a descriptor of an *at syscall names. *)
Definition stores_target {KL : KernelLayout} (c : ctx) (dfd d m : Z) : Prop :=
  if (dfd =? AT_FDCWD)%Z then
    ∃ fs, V (cx_task c) "struct task_struct" ["fs"] [] = Some fs ∧ stores_path fs "struct fs_struct" "pwd" d m
  else
    ∃ fdt arr f mx, V (cx_task c) "struct task_struct" ["files"] [["fdt"]] = Some fdt ∧
      V fdt "struct fdtable" ["max_fds"] [] = Some mx ∧ V fdt "struct fdtable" ["fd"] [] = Some arr ∧
      (0 <= dfd)%Z ∧ (u32 dfd < mx)%Z ∧ kmem_at c (field arr (8 * dfd)) (le_bytes 8 f) ∧ (0 < f < 2 ^ 64)%Z ∧
      stores_path f "struct file" "f_path" d m.

(** An execution: the file in the binary's parameters, and the names of
    that file and of the running task's executable. *)
Inductive stores_exec {KL : KernelLayout} (c : ctx) (ns : mnt_ns) (bprm : Z) (v : exec_view) : Prop :=
  | stored f d m de p xd xp :
      V bprm "struct linux_binprm" ["file"] [] = Some f → stores_path f "struct file" "f_path" d m →
      path_slots ns true d m (xv_slots v) → ns_dentries ns !! d = Some de →
      dir_slots ns (de_parent de) m (xv_dirs v) →
      V d "struct dentry" ["d_name"; "name"] [] = Some p → kstr_at c p (xv_base v) →
      V (cx_task c) "struct task_struct" ["mm"] [["exe_file"]; ["f_path"; "dentry"]] = Some xd →
      V xd "struct dentry" ["d_name"; "name"] [] = Some xp → kstr_at c xp (xv_pbase v) →
      stores_exec c ns bprm v.
End stored.

(** ** Single reads *)

Lemma field_field p a b : field (field p a) b = field p (a + b).
Proof. unfold field, u64, wrap. rewrite Zplus_mod_idemp_l. f_equal. lia. Qed.

Section loaded.
Context (b : build) (k : kernel_btf) (B : core_builtins) (c : ctx) (objs : objects).
Context (Hl : loaded_on b k B c objs).
#[local] Instance KL_loaded : KernelLayout := relocated B.
Local Abbreviation V := (val k objs).
Local Abbreviation rd := (cx_read_kernel c).

(** Read number [i] of the table gives the value of its expression. *)
Lemma one_read i r o os p v :
  build_reads b !! i = Some r → pr_offs r = o :: os → V p (pr_type r) (pr_first r) (pr_rest r) = Some v →
  BPF_CORE_READ rd (Z.to_nat (pr_size r)) p o os = v.
Proof.
  intros Hi Ho Hv. unfold val in Hv. destruct (follow _ _ _ _ _ _) as [w|] eqn:Hw; [|done].
  injection Hv as <-. apply list_elem_of_lookup_2 in Hi as Hin.
  pose proof (proj1 (Forall_forall _ _) (ld_shapes _ _ _ _ _ Hl) r Hin) as Hsh.
  destruct (relocated_read k B c objs r p w (ld_relocates _ _ _ _ _ Hl) (ld_structs _ _ _ _ _ Hl)
    (ld_wf _ _ _ _ _ Hl) (ld_objects _ _ _ _ _ Hl) (build_reads_program b r Hin) Hsh Hw) as [H _].
  by rewrite Ho in H.
Qed.
End loaded.

(** [BPF_CORE_READ ... = v] by read number [i] and the value's equation. *)
Ltac by_read i H :=
  let R := fresh in
  epose proof (one_read _ _ _ _ _ ltac:(eassumption) i _ _ _ _ _ eq_refl eq_refl H) as R; exact R.

Section members.
Context (b : build) (k : kernel_btf) (B : core_builtins) (c : ctx) (objs : objects).
Context (Hl : loaded_on b k B c objs).
#[local] Instance KL_members : KernelLayout := relocated B.
Local Abbreviation V := (val k objs).
Local Abbreviation rd := (cx_read_kernel c).
Local Abbreviation e := (kb_types k).

(** A value is a load from an object of the type. *)
Lemma val_load p s a v : V p s a [] = Some v →
  ∃ t obj w, objs p = Some (s, obj) ∧ pointee e s = Some t ∧ wf_type t = true ∧
    load t a obj = Some w ∧ v = le_val w.
Proof.
  unfold val. cbn [follow]. destruct (objs p) as [[s' obj]|] eqn:Hp; [|done]. cbn [mbind option_bind].
  destruct (String.eqb_spec s' s) as [->|]; [|done]. cbn [negb].
  destruct (pointee e s) as [t|] eqn:Ht; [|done]. cbn [mbind option_bind].
  destruct (load t a obj) as [w|] eqn:Hw; [|done]. cbn. intros [= <-].
  exists t, obj, w. split_and!; try done. by eapply wf_types; [apply (ld_wf _ _ _ _ _ Hl)|].
Qed.

(** The two members of [d_name], from the program's copy of the struct. *)
Lemma qstr_member d y v h :
  V d "struct dentry" ["d_name"; y]%string [] = Some v → path Vmlinux.qstr [y] = Some h → f_bits h = None →
  (Z.to_nat (f_bit h / 8) + Z.to_nat (sizeof (f_type h)) ≤ qstr_size)%nat → 0 ≤ f_bit h / 8 →
  (8 | f_bit h) →
  le_val (slice (rd_d_name c d) (Z.to_nat (f_bit h / 8)) (Z.to_nat (sizeof (f_type h)))) = v.
Proof.
  intros Hv Hh Hhb Hle H0 H8. destruct (val_load _ _ _ _ Hv) as (t & obj & w & Hp & Ht & Hwf & Hw & ->).
  pose proof (ld_objects _ _ _ _ _ Hl) as Ho. pose proof (ks_d_name _ (ld_structs _ _ _ _ _ Hl)) as Hq.
  pose proof (ho_type _ _ _ Ho _ _ _ Hp) as (t' & Ht' & _ & Hlen). assert (t' = t) as -> by congruence.
  unfold load in Hw. destruct (path t ["d_name"; y]%string) as [f|] eqn:Hf; [|done].
  cbn [mbind option_bind] in Hw. destruct (f_bits f) eqn:Hb; [done|]. injection Hw as <-.
  destruct (path_cons t _ _ _ Hf ltac:(done)) as (g & h' & Hg & Hgb & Hh' & ->).
  assert (Hpg : path t ["d_name"%string] = Some g) by (cbn [path]; by rewrite Hg).
  unfold member_type in Hq. rewrite Ht in Hq. cbn [mbind option_bind] in Hq. rewrite Hpg in Hq.
  injection Hq as Hq. rewrite Hq, Hh in Hh'. injection Hh' as <-.
  destruct (path_bytes t Hwf _ g Hpg Hgb) as (_ & Hg8 & Hg0 & _ & Hend). rewrite Hq in Hend.
  change (sizeof Vmlinux.qstr) with 16 in Hend.
  assert (Hacc : access B "struct dentry" ["d_name"%string] = f_bit g / 8).
  { apply (at_access k B (ld_relocates _ _ _ _ _ Hl)). by exists t, g. }
  assert (Hq16 : load t ["d_name"%string] obj = Some (slice obj (Z.to_nat (f_bit g / 8)) qstr_size)).
  { unfold load. rewrite Hpg. cbn [mbind option_bind]. by rewrite Hgb, Hq. }
  destruct (read_member e c objs Ho d _ obj t _ _ Hp Ht Hq16) as (g' & Hg' & _ & _ & Hrd).
  assert (g' = g) as -> by congruence. rewrite length_slice in Hrd by (unfold qstr_size; lia).
  unfold rd_d_name, BPF_CORE_READ_BYTES. cbn [core_read].
  change (off_dentry_d_name) with (access B "struct dentry" ["d_name"%string]).
  rewrite Hacc, Hrd. cbn [snd]. rewrite slice_slice by done. f_equal. f_equal.
  cbn [shift f_bit]. clear -Hg8 Hg0 H8 H0. remember (f_bit g / 8) as G eqn:EG. clear EG.
  destruct H8 as [q Hq8]. rewrite Hg8. rewrite Hq8, Z.div_mul in * by done.
  replace (8 * G + q * 8) with ((G + q) * 8) by lia. rewrite Z.div_mul by done. lia.
Qed.

(** [mnt.mnt_root] of a mount, through its [struct vfsmount]. *)
Lemma mount_root m v : V m "struct mount" ["mnt"; "mnt_root"]%string [] = Some v →
  rd_mnt_root c (field m off_mount_mnt) = v.
Proof.
  intros Hv. pose proof (ld_relocates _ _ _ _ _ Hl) as HB. pose proof (wf_types _ (ld_wf _ _ _ _ _ Hl)) as Hwfs.
  destruct (val_load _ _ _ _ Hv) as (t & obj & w & Hp & Ht & Hwf & Hw & ->).
  destruct (read_member e c objs (ld_objects _ _ _ _ _ Hl) m _ obj t _ _ Hp Ht Hw) as (f & Hf & Hb & Hlen & Hrd).
  pose proof (ld_mnt _ _ _ _ _ Hl) as Hm.
  assert (Ho : access B "struct mount" ["mnt"%string] + access B "struct vfsmount" ["mnt_root"%string] = f_bit f / 8).
  { apply (at_inner k B HB "struct vfsmount"); [done|done|by apply Hwfs|]. by exists t, f. }
  destruct (path_cons t _ _ _ Hf ltac:(done)) as (g & h & Hg & _ & Hh & ->).
  unfold member_type in Hm. rewrite Ht in Hm. cbn [mbind option_bind path] in Hm. rewrite Hg in Hm.
  pose proof (proj1 (proj1 (Forall_cons _ _ _) (ld_shapes _ _ _ _ _ Hl))) as Hs.
  unfold read_shape in Hs. cbn [pr_type pr_first pr_rest] in Hs. rewrite <- Hm in Hs.
  cbn [fmap option_fmap option_map mbind option_bind chain_shape] in Hs. rewrite Hh in Hs.
  cbn [mbind option_bind shift f_bits f_type] in *. rewrite Hb in Hs.
  replace (pointee vmlinux_env _ ≫= _) with (Some (@nil string, 8)) in Hs by (vm_compute; reflexivity).
  injection Hs as Hs. unfold rd_mnt_root. rewrite core_read_chase. cbn [chase]. rewrite field_field.
  change (off_mount_mnt + off_vfsmount_mnt_root)
    with (access B "struct mount" ["mnt"%string] + access B "struct vfsmount" ["mnt_root"%string]).
  rewrite Ho. assert (length w = 8%nat) as H8 by lia. by rewrite <- H8, Hrd.
Qed.

(** An object lies inside the address space. *)
Lemma val_addr p s a v : V p s a [] = Some v → 0 ≤ p < 2 ^ 64.
Proof.
  intros (t & obj & w & Hp & _)%val_load. destruct (ho_addr _ _ _ (ld_objects _ _ _ _ _ Hl) _ _ _ Hp). lia.
Qed.
End members.

(** ** The walks *)

Section walks.
Context (b : build) (k : kernel_btf) (B : core_builtins) (c : ctx) (objs : objects).
Context (Hl : loaded_on b k B c objs).
#[local] Instance KL_walks : KernelLayout := relocated B.

Lemma stored_ns ns : stores_ns k objs c ns → holds_ns c ns ∧ holds_keys c ns.
Proof.
  intros [Hd Hm]. split; [split|].
  - intros d de (Hz & Hp & Hn & (p & Hnm & Hk) & _)%Hd. split_and!; [by_read 1%nat Hp|done| |].
    + exact (qstr_member b k B c objs Hl d "len" _ (Found 32 None Vmlinux.u32) Hn eq_refl eq_refl ltac:(vm_compute; lia) ltac:(done) ltac:(by exists 4)).
    + eapply eq_ind_r with (P := λ q, kmem_at c q _); [exact Hk|].
      exact (qstr_member b k B c objs Hl d "name" _ (Found 64 None (CPtr "unsigned char")) Hnm eq_refl eq_refl ltac:(vm_compute; lia) ltac:(done) ltac:(by exists 8)).
  - intros m mt (Hr & Hpa & Hmp)%Hm. split_and!.
    + apply (val_addr b k B c objs Hl _ _ _ _ Hr).
    + apply (val_addr b k B c objs Hl _ _ _ _ Hr).
    + by apply (mount_root b k B c objs Hl).
    + by_read 2%nat Hpa.
    + by_read 3%nat Hmp.
  - intros d de (_ & _ & _ & _ & Hi & Hs)%Hd. unfold Prevent.key_of. f_equal; [by_read 22%nat Hi|by_read 23%nat Hs].
Qed.

Lemma stored_exec ns bprm v : stores_exec k objs c ns bprm v → sees_exec c ns bprm v.
Proof.
  intros [f d m de p xd xp Hf [Hfd Hfm] Hsl Hde Hdirs Hp Hb Hx Hxp Hpb].
  assert (Ef : Prevent.binprm_file c bprm = f) by by_read 24%nat Hf.
  assert (Ex : Prevent.task_exe_dentry c = xd) by by_read 25%nat Hx.
  assert (Ep : name_ptr c d = p) by by_read 6%nat Hp.
  assert (Exp : name_ptr c xd = xp) by by_read 6%nat Hxp.
  apply (sees c ns bprm v d m de); rewrite ?Ef, ?Ex, ?Ep, ?Exp; try done; [by_read 14%nat Hfd|by_read 15%nat Hfm].
Qed.

Lemma stored_target dfd d m : stores_target k objs c dfd d m → dir_target c dfd d m.
Proof.
  unfold stores_target, dir_target. destruct (dfd =? AT_FDCWD).
  - intros (fs & Hfs & Hd & Hm). cbv zeta.
    assert (BPF_CORE_READ (cx_read_kernel c) 8 (cx_task c) off_task_fs [] = fs) as -> by by_read 11%nat Hfs.
    split; [by_read 12%nat Hd|by_read 13%nat Hm].
  - intros (fdt & arr & f & mx & Hfdt & Hmx & Harr & H0 & Hlt & Hk & Hf & Hd & Hm).
    assert (fd_file c dfd = f) as ->.
    { unfold fd_file. cbv zeta.
      assert (BPF_CORE_READ (cx_read_kernel c) 8 (cx_task c) off_task_files [off_files_fdt] = fdt) as ->
        by by_read 8%nat Hfdt.
      assert (BPF_CORE_READ (cx_read_kernel c) 4 fdt off_fdtable_max_fds [] = mx) as -> by by_read 9%nat Hmx.
      assert (BPF_CORE_READ (cx_read_kernel c) 8 fdt off_fdtable_fd [] = arr) as -> by by_read 10%nat Harr.
      rewrite (proj2 (Z.ltb_ge _ _)), (proj2 (Z.leb_gt _ _)) by lia. cbn [orb].
      rewrite (Hk 8%nat) by done. cbn [snd]. rewrite take_ge by done.
      apply le_val_le_bytes_small. lia. }
    cbv zeta. split; [lia|]. split; [by_read 14%nat Hd|by_read 15%nat Hm].
Qed.
End walks.

(** C23. The path walks see the kernel's own structs.  On any kernel the
    programs are loaded into, whatever its layout, a mount namespace whose
    struct dentry, mount, inode and super_block objects lie in its memory is
    the namespace that build_path and in_denied_dir walk, with the inode
    numbers and devices of the rules' keys; the file, the name and the
    caller's executable check_exec looks at are those of the linux_binprm and
    the task; and the directory the sensor takes for a descriptor is the one
    in the task's fs_struct or descriptor table. *)
Theorem walks_see_the_kernels_objects b k B c objs ns :
  loaded_on b k B c objs → stores_ns k objs c ns →
  let KL := relocated B in
  holds_ns c ns ∧ holds_keys c ns ∧
  (∀ bprm v, stores_exec k objs c ns bprm v → sees_exec c ns bprm v) ∧
  (∀ dfd d m, stores_target k objs c dfd d m → dir_target c dfd d m).
Proof.
  intros Hl Hns KL. destruct (stored_ns b k B c objs Hl ns Hns) as [H1 H2]. split_and!; [done|done| |].
  - by apply (stored_exec b k B c objs Hl).
  - by apply (stored_target b k B c objs Hl).
Qed.

(** ** The sensor's records *)

(** The member the [i]-th argument of a syscall is in. *)
Definition arg_member (b : build) (i : nat) : string * list string :=
  match b with
  | X86 => ("struct pt_regs", [nth i ["di"; "si"; "dx"; "r10"] ""])
  | ARM64 => ("struct pt_regs___siem", ["regs"; nth i ["[0]"; "[1]"; "[2]"; "[3]"] ""])
  end%string.

Section records.
Context {M : Type} `{HM : !LruHash M Z pending}.
Context (b : build) (k : kernel_btf) (B : core_builtins) (c : ctx) (objs : objects).
Context (Hl : loaded_on b k B c objs).
#[local] Instance KL_records : KernelLayout := relocated B.
Local Abbreviation V := (val k objs).
Local Abbreviation task := (cx_task c).

Lemma sysarg_member regs i v : (i < 4)%nat → V regs (fst (arg_member b i)) (snd (arg_member b i)) [] = Some v →
  nth i (read_sysargs c b regs) 0 = v.
Proof.
  intros Hi Hv. destruct b, i as [|[|[|[|i]]]]; try lia.
  - by_read 32%nat Hv.
  - by_read 33%nat Hv.
  - by_read 34%nat Hv.
  - by_read 35%nat Hv.
  - by_read 26%nat Hv.
  - by_read 27%nat Hv.
  - by_read 28%nat Hv.
  - by_read 29%nat Hv.
Qed.

Lemma exec_members exe n p head :
  V task "struct task_struct" ["mm"]%string [["exe_file"]]%string = Some exe →
  V exe "struct file" ["f_inode"]%string [["__i_nlink"]]%string = Some n →
  V exe "struct file" ["f_path"; "dentry"]%string [["d_name"; "name"]]%string = Some p →
  kmem_at c p head → length head = 6%nat →
  task_exe c = exe ∧ exe_nlink c = n ∧ exe_name_head c = head.
Proof.
  intros He Hn Hp Hk Hlen.
  assert (E : task_exe c = exe) by by_read 18%nat He.
  unfold exe_nlink, exe_name_head. rewrite E. split_and!; [done|by_read 19%nat Hn|].
  assert (Ep : BPF_CORE_READ (cx_read_kernel c) 8 exe (off_file_f_path + off_path_dentry)
                 [off_dentry_d_name + Z.of_nat off_qstr_name] = p) by by_read 20%nat Hp.
  rewrite Ep, (Hk 6%nat) by lia. cbn [snd]. by rewrite take_ge by lia.
Qed.
End records.

(** C24. A record holds what the kernel's structs hold.  On any kernel the
    sensor is loaded into, whatever its layout, built for x86 or for arm64:
    every record has the tgid of the task's real_parent and the euid of its
    cred; the arguments of a syscall are those in the saved registers; the
    record of an exec has the link count of the inode of the mm's exe_file,
    the path of its f_path, and the kind fileless exactly when the count is
    0 or the name starts with "memfd:"; the record of an exit has the
    task's exit_code. *)
Theorem records_hold_the_kernels_values {M : Type} `{HM : !LruHash M Z pending} b k B c objs e0 (s : st M) :
  loaded_on b k B c objs → event_ok e0 →
  let KL := relocated B in let V := val k objs in let task := cx_task c in
  (∀ kind ppid euid,
     V task "struct task_struct" ["real_parent"] [["tgid"]] = Some ppid →
     V task "struct task_struct" ["cred"] [["euid"; "val"]] = Some euid →
     ∃ e, reserve c (Some e0) kind s = (Some e, s) ∧ ev_ppid e = ppid ∧ ev_euid e = euid)%string ∧
  (∀ regs i v, (i < 4)%nat → V regs (fst (arg_member b i)) (snd (arg_member b i)) [] = Some v →
     nth i (read_sysargs c b regs) 0 = v) ∧
  (is_self c s = false → ∀ ctx loc ns exe n p head d m l,
     V task "struct task_struct" ["mm"] [["exe_file"]] = Some exe →
     V exe "struct file" ["f_inode"] [["__i_nlink"]] = Some n →
     V exe "struct file" ["f_path"; "dentry"] [["d_name"; "name"]] = Some p →
     kmem_at c p head → length head = 6%nat →
     ctx_ok c → stores_ns k objs c ns → stores_path k objs exe "struct file" "f_path" d m →
     path_slots ns true d m l → d ≠ 0%Z → field m off_mount_mnt ≠ 0%Z → scratch_ok c s →
     ∃ e, st_events (exec (handle_exec c (Some e0) ctx loc) s) = (st_events s ++ [e])%list ∧ ev_arg0 e = n ∧
       ev_kind e = (if is_memfd head || (n =? 0)%Z then K_FILELESS_EXEC else K_EXEC) ∧
       cstr (ev_path e) = list.take 255 (slots_path (list.take MAX_DEPTH l)))%string ∧
  (is_self c s = false → cx_pid c = cx_tgid c → ∀ code,
     V task "struct task_struct" ["exit_code"] [] = Some code →
     ∃ e, exec (handle_exit c (Some e0)) s = up_events (st_events s ++ [e])%list s ∧
       ev_kind e = K_EXIT ∧ ev_arg0 e = u64 (s32 code))%string.
Proof.
  intros Hl [L1 L2 L3 L4] KL V task. split_and!.
  - intros kind ppid euid Hp He. exists (fresh_event c kind e0). split; [done|]. unfold fresh_event. cbn.
    split; [by_read 16%nat Hp|by_read 17%nat He].
  - by apply (sysarg_member b k B c objs Hl).
  - intros Hself ctx loc ns exe n p head d m l He Hn Hp Hk Hlen Hc Hns [Hd Hm] Hsl Hd0 Hm0 Hs.
    destruct (exec_members b k B c objs Hl exe n p head He Hn Hp Hk Hlen) as (E1 & E2 & E3).
    change (KL_records B) with KL in E1, E2, E3.
    destruct (handle_exec_exec c (Some e0) ctx loc s) as [v ->]. rewrite Hself.
    cbn [up_scratch up_events st_events]. eexists. split; [reflexivity|].
    assert (Hpath : cstr (exec_path c e0 s) = list.take 255 (slots_path (list.take MAX_DEPTH l))).
    { assert (Ed : file_dentry c exe = d) by by_read 14%nat Hd.
      assert (Em : file_mnt c exe = field m off_mount_mnt) by by_read 15%nat Hm.
      unfold exec_path. rewrite E1, Ed, Em.
      eapply build_path_path; try done; [apply (stored_ns b k B c objs Hl ns Hns)|].
      destruct e0; cbn. by rewrite length_insert. }
    set (e := exec_event _ _ _ _ _).
    assert (Ee : ev_kind e = exec_kind c ∧ ev_path e = exec_path c e0 s ∧ ev_arg0 e = exe_nlink c).
    { subst e. by destruct e0. }
    destruct Ee as (-> & -> & ->). unfold exec_kind. by rewrite E2, E3.
  - intros Hself Hpid code Hcode. rewrite handle_exit_exec, Hself, Hpid, Z.eqb_refl. cbn [negb orb].
    exists (exit_event c e0). split; [done|]. unfold exit_event.
    assert (BPF_CORE_READ (cx_read_kernel c) 4 (cx_task c) off_task_exit_code [] = code) as ->
      by by_read 21%nat Hcode.
    by destruct e0.
Qed.

(** ** A kernel with its objects

    Another layout than the header's: [struct task_struct] starts with an
    extra member, and [struct pt_regs] is arm64's, its registers inside an
    unnamed union. *)
Definition arm64_pt_regs : ctype :=
  c_struct [anon (c_union [(Declr "user_regs" None, CArr 34 Vmlinux.__u64);
                           anon (c_struct [(Declr "regs" None, CArr 31 Vmlinux.__u64)])]);
            (Declr "orig_x0" None, Vmlinux.__u64)]%string.

Definition demo_btf : kernel_btf := {|
  kb_types := ("struct task_struct", other_task) :: ("struct path", Vmlinux.path)
              :: ("struct pt_regs___siem", arm64_pt_regs) :: vmlinux_env;
  kb_enums := [];
|}%string.

(** An object of the type spelled [s], with values in some members. *)
Definition obj (s : string) (vals : list (list string * list Z)) : string * list Z :=
  let t := default c_char (pointee (kb_types demo_btf) s) in
  (s, foldl (λ o xv, store t (fst xv) (snd xv) o) (zeros (Z.to_nat (sizeof t))) vals).

Local Abbreviation w64 := (le_bytes 8).
Local Abbreviation w32 := (le_bytes 4).

Definition demo_dentry_obj (parent len name inode : Z) : string * list Z :=
  obj "struct dentry" [(["d_parent"], w64 parent); (["d_name"; "len"], w32 len); (["d_name"; "name"], w64 name);
    (["d_inode"], w64 inode); (["d_sb"], w64 0x370000)]%string.

Definition demo_mount_addr : Z := 0x350000.
Definition demo_vfsmount : Z := demo_mount_addr + off Vmlinux.mount "mnt".

Definition demo_objects : object_list :=
  [(0x100000, obj "struct task_struct" [(["real_parent"], w64 0x200000); (["cred"], w64 0x300000);
       (["mm"], w64 0x310000); (["fs"], w64 0x320000); (["exit_code"], w32 0x8B)]);
   (0x200000, obj "struct task_struct" [(["tgid"], w32 77)]);
   (0x300000, obj "struct cred" [(["euid"; "val"], w32 1000)]);
   (0x310000, obj "struct mm_struct" [(["exe_file"], w64 0x330000)]);
   (0x320000, obj "struct fs_struct" [(["pwd"; "dentry"], w64 0x341000); (["pwd"; "mnt"], w64 demo_vfsmount)]);
   (0x330000, obj "struct file" [(["f_path"; "dentry"], w64 0x342000); (["f_path"; "mnt"], w64 demo_vfsmount);
       (["f_inode"], w64 0x362000)]);
   (0x340000, demo_dentry_obj 0x340000 1 0x3A0000 0x360000);      (* "/" *)
   (0x341000, demo_dentry_obj 0x340000 3 0x3A0010 0x361000);      (* "/etc" *)
   (0x342000, demo_dentry_obj 0x340000 5 0x3A0020 0x362000);      (* "/shell" *)
   (0x350000, obj "struct mount" [(["mnt"; "mnt_root"], w64 0x340000); (["mnt_parent"], w64 0x350000);
       (["mnt_mountpoint"], w64 0x340000)]);
   (0x360000, obj "struct inode" [(["i_ino"], w64 2); (["__i_nlink"], w32 1)]);
   (0x361000, obj "struct inode" [(["i_ino"], w64 11); (["__i_nlink"], w32 1)]);
   (0x362000, obj "struct inode" [(["i_ino"], w64 12)]);          (* no name left *)
   (0x370000, obj "struct super_block" [(["s_dev"], w32 0x800001)]);
   (0x380000, obj "struct pt_regs___siem" [(["regs"; "[1]"], w64 0x10000)])]%string.

Definition demo_names : memory :=
  [(0x3A0000, zs "/" ++ [0]); (0x3A0010, zs "etc" ++ [0]); (0x3A0020, zs "shell" ++ [0])].

Definition demo_kctx : ctx :=
  image_ctx 0 (500 + 500 * 2 ^ 32) 1000 1000000 (zs "demo") 0x100000 (objects_mem demo_objects ++ demo_names) [].

Definition demo_tree : mnt_ns :=
  MntNs (list_to_map [(0x340000, Dentry 0x340000 (zs "/") 2 0x800001);
                      (0x341000, Dentry 0x340000 (zs "etc") 11 0x800001);
                      (0x342000, Dentry 0x340000 (zs "shell") 12 0x800001)])
        (list_to_map [(0x350000, Mount 0x340000 0x350000 0x340000)]).

(** More memory does not change what the objects hold. *)
Lemma image_read_app m m' a n l : image_read m a n = (0, l) → image_read (m ++ m') a n = (0, l).
Proof.
  unfold image_read. destruct (mem_bytes m a n) eqn:E; [|done]. by rewrite (mem_bytes_app _ _ _ _ _ E).
Qed.

Lemma holds_objects_app e cpu pt ug t comm task m m' um objs :
  holds_objects e (image_ctx cpu pt ug t comm task m um) objs →
  holds_objects e (image_ctx cpu pt ug t comm task (m ++ m') um) objs.
Proof.
  intros [H1 H2 H3]. split; [done|done|]. intros p s o i n Hp Hi. by apply image_read_app, (H3 p s o i n).
Qed.

Lemma demo_loaded b : loaded_on b demo_btf (btf_builtins demo_btf) demo_kctx (objects_of demo_objects).
Proof.
  split.
  - by apply btf_relocates.
  - by split.
  - reflexivity.
  - vm_compute. reflexivity.
  - apply holds_objects_app, image_holds_objects; vm_compute; reflexivity.
  - destruct b; repeat (apply Forall_cons; split; [vm_compute; reflexivity|]); apply Forall_nil_2.
Qed.

Lemma demo_stores : stores_ns demo_btf (objects_of demo_objects) demo_kctx demo_tree.
Proof.
  split.
  - intros d de H. apply elem_of_list_to_map_2 in H.
    repeat (apply elem_of_cons in H as [[= -> ->]|H]; [|]); [..|by apply not_elem_of_nil in H];
      (split; [by apply (zs_no_nul _)|]); (do 2 (split; [vm_compute; reflexivity|]));
      (split; [eexists; split; [vm_compute; reflexivity|apply image_kmem_at; vm_compute; reflexivity]|]);
      split; vm_compute; reflexivity.
  - intros m mt H. apply elem_of_list_to_map_2 in H.
    apply elem_of_cons in H as [[= -> ->]|H]; [|by apply not_elem_of_nil in H].
    split_and!; vm_compute; reflexivity.
Qed.

Lemma demo_shell_slots : path_slots demo_tree true 0x342000 demo_mount_addr [zs "shell"].
Proof.
  apply (slots_up _ _ _ _ (Mount 0x340000 0x350000 0x340000) (Dentry 0x340000 (zs "shell") 12 0x800001));
    [reflexivity|reflexivity|done|done|].
  by apply (slots_root _ _ _ _ (Mount 0x340000 0x350000 0x340000)).
Qed.

(** The working directory is "/etc", and its key that of inode 11. *)
Lemma walks_see_the_kernels_objects_witness :
  let KL := relocated (btf_builtins demo_btf) in
  holds_ns demo_kctx demo_tree ∧ Prevent.key_of demo_kctx 0x341000 = Prevent.DirKey 11 0x800001 0 ∧
  dir_target demo_kctx AT_FDCWD 0x341000 demo_mount_addr.
Proof.
  destruct (walks_see_the_kernels_objects X86 demo_btf (btf_builtins demo_btf) demo_kctx
              (objects_of demo_objects) demo_tree (demo_loaded X86) demo_stores) as (H1 & H2 & _ & H4).
  split; [exact H1|]. split; [by apply (H2 0x341000 (Dentry 0x340000 (zs "etc") 11 0x800001))|].
  apply H4. exists 0x320000. split; [vm_compute; reflexivity|]. split; vm_compute; reflexivity.
Defined.

(** The task runs "/shell", which has no name left: its exec is fileless;
    the second argument of its syscall is in x1. *)
Lemma records_hold_the_kernels_values_witness :
  let KL := relocated (btf_builtins demo_btf) in
  let s : st (gmap Z pending) := st_init ∅ 1 in
  nth 1 (read_sysargs demo_kctx ARM64 0x380000) 0 = 0x10000 ∧
  (∃ e, reserve demo_kctx (Some demo_record) K_EXIT s = (Some e, s) ∧ ev_ppid e = 77 ∧ ev_euid e = 1000) ∧
  ∃ e, st_events (exec (handle_exec demo_kctx (Some demo_record) 0x390000 0) s) = [] ++ [e] ∧ ev_arg0 e = 0 ∧
    ev_kind e = K_FILELESS_EXEC ∧ cstr (ev_path e) = list.take 255 (slots_path [zs "shell"]).
Proof.
  destruct (records_hold_the_kernels_values (M := gmap Z pending) ARM64 demo_btf (btf_builtins demo_btf) demo_kctx
              (objects_of demo_objects) demo_record (st_init ∅ 1) (demo_loaded ARM64)) as (H1 & H2 & H3 & _).
  - by split.
  - split; [apply H2; [lia|vm_compute; reflexivity]|]. split; [apply H1; vm_compute; reflexivity|].
    destruct (H3 eq_refl 0x390000 0 demo_tree 0x330000 0 0x3A0020 (zs "shell" ++ [0]) 0x342000 demo_mount_addr
                [zs "shell"]) as (e & He & Ha & Hk & Hp); try (vm_compute; reflexivity).
    + apply image_kmem_at. vm_compute. reflexivity.
    + apply image_ctx_ok.
    + apply demo_stores.
    + split; vm_compute; reflexivity.
    + apply demo_shell_slots.
    + done.
    + vm_compute. lia.
    + exists pp_zero. split; [reflexivity|split; reflexivity].
    + exists e. split_and!; [exact He|exact Ha|etrans; [exact Hk|vm_compute; reflexivity]|exact Hp].
Defined.
