(* ===== verification/Execve.v ===== *)
(** * execve.bpf.c: process exec events

    [handle_execve] records the file name, the arguments and the parent's
    image of every execve.  [est] is what the maps hold; [slot] is the
    ring-buffer record of the run with its old contents.  [splitArgs] and
    [joinArgs] are the agent's readers of the argument buffer
    (procexec.go). *)
From Stdlib Require Import ZArith Lia Ascii String.
From stdpp Require Import base tactics list gmap.
From S2P Require Import Prelude.
From S2P Require Import Kernel.
From S2P Require Import CoreRead.
From S2P Require Import Tracing.
From S2P Require Import PathWalk.
From S2P Require Import Scenario.
Local Open Scope Z_scope.

Module Execve.

(** ** Constants and data *)

Definition MAX_FILENAME_LEN : nat := 256.
Definition ARGSIZE : nat := 128.
Definition MAXARG : nat := 8.
Definition ARGS_BUF_LEN : nat := ARGSIZE * MAXARG.

Record exec_event := ExecEvent {
  ee_timestamp_ns : Z;
  ee_pid : Z;
  ee_ppid : Z;
  ee_uid : Z;
  ee_gid : Z;
  ee_comm : list Z;              (* char[TASK_COMM_LEN] *)
  ee_filename : list Z;          (* char[MAX_FILENAME_LEN] *)
  ee_parent_filename : list Z;   (* char[MAX_FILENAME_LEN] *)
  ee_args : list Z;              (* char[ARGS_BUF_LEN] *)
  ee_args_size : Z;
  ee_args_count : Z;
  ee_args_truncated : Z;         (* __u8 *)
}.

(** A record slot: the buffers have their sizes. *)
Record slot_ok (e : exec_event) : Prop := {
  so_filename : length (ee_filename e) = MAX_FILENAME_LEN;
  so_parent : length (ee_parent_filename e) = MAX_FILENAME_LEN;
  so_args : length (ee_args e) = ARGS_BUF_LEN;
}.

(** The maps; [M] is the LRU hash [pid_image_cache]. *)
Record est (M : Type) := Est {
  events : list exec_event;            (* ring buffer, oldest first *)
  pid_image_cache : M;                 (* pid → last exec'd file name *)
  scratch_buf : list (list (list Z));  (* PERCPU_ARRAY[1] of char[MAX_FILENAME_LEN] *)
}.
Arguments Est {M} _ _ _.
Arguments events {M} _.
Arguments pid_image_cache {M} _.
Arguments scratch_buf {M} _.

(** ** The program *)

Section execve.
Context {KL : KernelLayout} {M : Type} `{HM : !LruHash M Z (list Z)}.
Context (c : ctx).

(** The variables of the argument loop. *)
Record args_st := ArgsSt { a_off : Z; a_count : Z; a_truncated : Z; a_buf : list Z }.

(** [for (i = 0; i < MAXARG; i++)]: [n] iterations left, from [i]. *)
Fixpoint args_loop (n : nat) (i : Z) (argv : Z) (st : args_st) : args_st :=
  match n with
  | O => st
  | S n =>
      let argp := le_val (snd (cx_read_user c (field argv (8 * i)) 8)) in
      if argp =? 0 then st else
      if Z.of_nat ARGS_BUF_LEN <? u32 (a_off st + Z.of_nat ARGSIZE)
      then ArgsSt (a_off st) (a_count st) 1 (a_buf st) else
      let dst := slice (a_buf st) (Z.to_nat (a_off st)) ARGSIZE in
      let r := cx_read_user_str c argp dst in
      let buf := splice (a_buf st) (Z.to_nat (a_off st)) (snd r) in
      if fst r <=? 0 then ArgsSt (a_off st) (a_count st) (a_truncated st) buf
      else args_loop n (i + 1) argv
             (ArgsSt (u32 (a_off st + fst r)) (u32 (a_count st + 1)) (a_truncated st) buf)
  end.

(** [bpf_probe_read_user_str(&ev->filename, ...)], empty when it faults. *)
Definition read_filename (p : Z) (dst : list Z) : list Z :=
  let r := cx_read_user_str c p dst in
  if fst r <? 0 then <[0%nat := 0]> (snd r) else snd r.

(** The cached image of the parent, or the empty string. *)
Definition parent_image (s : est M) (ppid : Z) (dst : list Z) : list Z :=
  match hash_lookup (pid_image_cache s) ppid with
  | Some cached => cached
  | None => <[0%nat := 0]> dst
  end.

(** Remember this process's image, staged through the scratch buffer. *)
Definition cache_image (pid : Z) (filename : list Z) (s : est M) : est M :=
  match percpu_lookup (scratch_buf s) (cx_cpu c) 0 with
  | Some _ =>
      Est (events s) (snd (hash_update (pid_image_cache s) pid filename))
        (percpu_store (scratch_buf s) (cx_cpu c) 0 filename)
  | None => s
  end.

Definition handle_execve (slot : option exec_event) (args : list Z) : prog (est M) Z :=
  let pid := u32 (cx_tgid c) in
  let ppid := BPF_CORE_READ (cx_read_kernel c) 4 (cx_task c) off_task_real_parent [off_task_tgid] in
  match slot with
  | None => mret 0
  | Some e =>
      s ← get;
      let filename := read_filename (nth 0 args 0) (ee_filename e) in
      let parent := parent_image s ppid (ee_parent_filename e) in
      put (cache_image pid filename s);;
      let a := args_loop MAXARG 0 (nth 1 args 0) (ArgsSt 0 0 0 (ee_args e)) in
      modify (λ s, Est (events s ++
        [ExecEvent (cx_ktime c) pid ppid (cx_uid c) (cx_gid c) (cx_comm c) filename parent
           (a_buf a) (a_off a) (a_count a) (a_truncated a)])
        (pid_image_cache s) (scratch_buf s));;
      mret 0
  end.
End execve.

(** ** The agent's readers of the argument buffer *)

(** The pieces of [l] that end with a NUL, without the empty ones; [cur]
    is the piece being read. *)
Fixpoint nul_pieces (cur l : list Z) : list (list Z) :=
  match l with
  | [] => []
  | b :: l =>
      if b =? 0 then (match cur with [] => [] | _ => [cur] end) ++ nul_pieces [] l
      else nul_pieces (cur ++ [b]) l
  end.

Definition splitArgs (buf : list Z) (size : Z) : list (list Z) :=
  let size := if (size <=? 0) || (Z.of_nat (length buf) <? size)
              then Z.of_nat (length buf) else size in
  nul_pieces [] (take (Z.to_nat size) buf).

(** ' ' *)
Definition SPACE : Z := 32.

(** [strings.Join(parts, " ")] *)
Fixpoint join_sp (parts : list (list Z)) : list Z :=
  match parts with
  | [] => []
  | [p] => p
  | p :: parts => p ++ SPACE :: join_sp parts
  end.

Definition joinArgs (buf : list Z) (size : Z) : list Z := join_sp (splitArgs buf size).

(** ** What an argument vector leaves in the buffer *)

(** An argument as it is stored: at most 127 bytes and a NUL. *)
Definition arg_text (a : list Z) : list Z := take (ARGSIZE - 1) a ++ [0].

(** User memory holds the argument vector: pointers to the strings, then
    NULL or, past the ones the loop looks at, anything. *)
Fixpoint argv_at (c : ctx) (argv i : Z) (n : nat) (l : list (list Z)) : Prop :=
  match n with
  | O => True
  | S n =>
      let argp := le_val (snd (cx_read_user c (field argv (8 * i)) 8)) in
      match l with
      | [] => argp = 0
      | a :: l => argp ≠ 0 ∧ ustr_at c argp a ∧ argv_at c argv (i + 1) n l
      end
  end.

Section args.
Context (c : ctx) {Hc : ctx_ok c}.

(** Written so far: [t] at the start of the buffer. *)
Definition holds (t : list Z) (st : args_st) : Prop :=
  length (a_buf st) = ARGS_BUF_LEN ∧ a_off st = Z.of_nat (length t) ∧
  take (length t) (a_buf st) = t.

Lemma length_arg_text a : (0 < length (arg_text a) ≤ ARGSIZE)%nat.
Proof. unfold arg_text, ARGSIZE. rewrite length_app, length_take. change (length [0]) with 1%nat. lia. Qed.

Lemma take_splice {A} (l s : list A) off :
  (off ≤ length l)%nat → take (off + length s) (splice l off s) = take off l ++ s.
Proof.
  intros Ho. unfold splice. rewrite (assoc_L (++)). apply take_app_length'.
  rewrite length_app, length_take. lia.
Qed.

Lemma str_copy_text dst a : length dst = ARGSIZE →
  str_copy dst a = (Z.of_nat (length (arg_text a)), arg_text a ++ drop (length (arg_text a)) dst).
Proof.
  intros Hd. unfold str_copy, arg_text. rewrite Hd, length_app. cbn [length].
  f_equal; [lia|]. by rewrite <- (assoc_L (++)).
Qed.

(** One argument is appended; the room check always passes. *)
Lemma args_loop_cons n i argv a l t st :
  (Z.to_nat i + S n = MAXARG)%nat → 0 ≤ i → (length t ≤ ARGSIZE * Z.to_nat i)%nat →
  holds t st → argv_at c argv i (S n) (a :: l) →
  ∃ st', holds (t ++ arg_text a) st' ∧ a_count st' = u32 (a_count st + 1) ∧
    a_truncated st' = a_truncated st ∧
    args_loop c (S n) i argv st = args_loop c n (i + 1) argv st'.
Proof.
  intros Hn Hi Ht (Hl & Ho & Hb) (Hp & [_ Hu] & _). cbn [args_loop].
  rewrite (proj2 (Z.eqb_neq _ 0) Hp), Ho.
  unfold ARGS_BUF_LEN, ARGSIZE, MAXARG in *.
  assert (Hroom : (length t + 128 ≤ 1024)%nat) by lia.
  rewrite (u32_small (Z.of_nat (length t) + _)) by lia.
  rewrite (proj2 (Z.ltb_ge _ _)) by lia. rewrite Nat2Z.id.
  set (dst := slice (a_buf st) (length t) 128).
  assert (Hd : length dst = 128%nat) by (apply length_slice; lia).
  rewrite Hu by lia. rewrite str_copy_text by done. cbn [fst snd].
  pose proof (length_arg_text a) as Hat. unfold ARGSIZE in Hat.
  rewrite (proj2 (Z.leb_gt _ 0)) by lia. eexists.
  split; [|split; [|split; [|reflexivity]]]; [|reflexivity..]. split_and!; cbn [a_buf a_off].
  - rewrite length_splice; [exact Hl|]. rewrite length_app, length_drop. lia.
  - rewrite u32_small by lia. rewrite length_app. lia.
  - rewrite length_app. unfold splice. rewrite Hb at 1 || rewrite Hb. rewrite <- !(assoc_L (++)).
    rewrite (assoc_L (++)). rewrite take_app_length' by (rewrite length_app; lia). done.
Qed.

Lemma args_loop_argv n i argv l t st :
  (Z.to_nat i + n = MAXARG)%nat → 0 ≤ i → (length t ≤ ARGSIZE * Z.to_nat i)%nat →
  holds t st → argv_at c argv i n l → a_count st = i →
  let st' := args_loop c n i argv st in
  holds (t ++ concat (map arg_text (take n l))) st' ∧
  a_count st' = i + Z.of_nat (length (take n l)) ∧ a_truncated st' = a_truncated st.
Proof.
  revert i l t st; induction n as [|n IH]; intros i l t st Hn Hi Ht Hst Hv Hcnt.
  { rewrite take_0. cbn. rewrite app_nil_r. split_and!; [done|lia|done]. }
  destruct l as [|a l].
  { cbn [args_loop]. cbn in Hv. rewrite Hv. cbn. rewrite app_nil_r. split_and!; [done|lia|done]. }
  destruct (args_loop_cons n i argv a l t st) as (st1 & Hst1 & Hc1 & Ht1 & ->); [done..|].
  pose proof (length_arg_text a) as Hat. unfold MAXARG in *.
  destruct (IH (i + 1) l (t ++ arg_text a) st1) as (H1 & H2 & H3); [lia|lia| |done| | |].
  - rewrite length_app. replace (Z.to_nat (i + 1)) with (S (Z.to_nat i)) by lia. lia.
  - by destruct Hv as (_ & _ & Hv).
  - rewrite Hc1, Hcnt, u32_small; lia.
  - cbn [take map concat]. rewrite (assoc_L (++)). split_and!; [done| |congruence].
    rewrite H2. cbn [length]. lia.
Qed.
End args.
End Execve.
