(* ===== verification/ExecveProps.v ===== *)
(** * Properties of the exec events

    The argument buffer: what the program writes and what the agent reads
    back, and where the two disagree; whose image [parent_filename] is. *)
From Stdlib Require Import ZArith Lia Ascii String.
From stdpp Require Import base tactics list gmap.
From S2P Require Import Prelude.
From S2P Require Import Kernel.
From S2P Require Import CoreRead.
From S2P Require Import Tracing.
From S2P Require Import PathWalk.
From S2P Require Import Scenario.
From S2P Require Import Execve.
Local Open Scope Z_scope.
Import Execve.Execve.

(** ** The agent reads back what was written *)

Definition nonempty (l : list Z) : bool := match l with [] => false | _ => true end.

Lemma nul_pieces_text cur t l :
  (0 ∉ t) → nul_pieces cur (t ++ 0 :: l) =
    (match cur ++ t with [] => [] | p => [p] end) ++ nul_pieces [] l.
Proof.
  revert cur; induction t as [|b t IH]; intros cur Ht.
  - rewrite app_nil_r. cbn. by destruct cur.
  - rewrite not_elem_of_cons in Ht. destruct Ht as [Hb Ht]. cbn.
    rewrite (proj2 (Z.eqb_neq b 0)) by congruence. rewrite IH by done. by rewrite <- (assoc_L (++)).
Qed.

Lemma nul_pieces_args l :
  Forall (λ a, 0 ∉ a) l →
  nul_pieces [] (concat (map arg_text l)) = List.filter nonempty (map (take 127) l).
Proof.
  induction 1 as [|a l Ha _ IH]; [done|]. cbn [map concat List.filter]. unfold arg_text at 1.
  rewrite <- (assoc_L (++)). cbn [app]. rewrite nul_pieces_text by (by apply not_elem_of_take).
  rewrite IH. cbn [app]. unfold ARGSIZE. change (128 - 1)%nat with 127%nat.
  by destruct (take 127 a).
Qed.

Section events.
Context {KL : KernelLayout} {M : Type} `{HM : !LruHash M Z (list Z)}.
Context (c : ctx) (args : list Z).

(** The state the argument loop leaves. *)
Definition args_of (e : exec_event) : args_st :=
  args_loop c MAXARG 0 (nth 1 args 0) (ArgsSt 0 0 0 (ee_args e)).

(** The event of a run on slot [e] in state [s]. *)
Definition event_of (e : exec_event) (s : est M) : exec_event :=
  let ppid := BPF_CORE_READ (cx_read_kernel c) 4 (cx_task c) off_task_real_parent [off_task_tgid] in
  ExecEvent (cx_ktime c) (u32 (cx_tgid c)) ppid (cx_uid c) (cx_gid c) (cx_comm c)
    (read_filename c (nth 0 args 0) (ee_filename e))
    (parent_image s ppid (ee_parent_filename e))
    (a_buf (args_of e)) (a_off (args_of e)) (a_count (args_of e)) (a_truncated (args_of e)).

Lemma handle_execve_run e s :
  handle_execve c (Some e) args s =
    (0, let s1 := cache_image c (u32 (cx_tgid c)) (ee_filename (event_of e s)) s in
        Est (events s ++ [event_of e s]) (pid_image_cache s1) (scratch_buf s1)).
Proof.
  unfold event_of, args_of, handle_execve. set (a := args_loop _ _ _ _ _). clearbody a.
  unfold mbind, prog_bind, get, put, modify, mret, prog_ret. cbn beta iota zeta.
  unfold cache_image. cbn [ee_filename]. by destruct (percpu_lookup (scratch_buf s) (cx_cpu c) 0).
Qed.

Lemma args_of_argv e l :
  length (ee_args e) = ARGS_BUF_LEN → argv_at c (nth 1 args 0) 0 MAXARG l →
  holds (concat (map arg_text (take MAXARG l))) (args_of e) ∧
  a_count (args_of e) = Z.of_nat (length (take MAXARG l)).
Proof.
  intros Ha Hv. unfold args_of.
  destruct (args_loop_argv c MAXARG 0 (nth 1 args 0) l [] (ArgsSt 0 0 0 (ee_args e)))
    as (H & Hcnt & _); [reflexivity|lia|cbn [length]; lia| |exact Hv|reflexivity|].
  { by split_and!. }
  split; [exact H|]. exact Hcnt.
Qed.

Lemma argv_no_nul argv i n l : argv_at c argv i n l → Forall (λ a, 0 ∉ a) (take n l).
Proof.
  revert i l; induction n as [|n IH]; intros i l H; [constructor|].
  destruct l as [|a l]; [constructor|]. destruct H as (_ & [Ha _] & H). constructor; eauto.
Qed.

(** The agent's [splitArgs] of the buffer the loop leaves. *)
Lemma split_args_of e l : length (ee_args e) = ARGS_BUF_LEN → argv_at c (nth 1 args 0) 0 MAXARG l → l ≠ [] →
  splitArgs (a_buf (args_of e)) (a_off (args_of e))
  = List.filter nonempty (map (take 127) (take MAXARG l)).
Proof.
  intros Ha Hv Hl. destruct (args_of_argv e l Ha Hv) as ((L & O & B) & _).
  set (t := concat (map arg_text (take MAXARG l))) in *.
  assert (Hpos : (0 < length t)%nat).
  { subst t. destruct l as [|a l]; [done|]. unfold MAXARG; cbn [take map concat]. rewrite length_app.
    pose proof (length_arg_text a). lia. }
  assert (Hle : (length t ≤ length (a_buf (args_of e)))%nat).
  { rewrite <- B at 1. rewrite length_take. lia. }
  unfold splitArgs. rewrite O, (proj2 (Z.leb_gt _ 0)), (proj2 (Z.ltb_ge _ _)) by lia.
  cbn [orb]. rewrite Nat2Z.id, B. apply nul_pieces_args. by eapply argv_no_nul.
Qed.
End events.

(** The arguments the agent logs are the arguments of the exec: for an
    argument vector in user memory the buffer holds the first 8 arguments,
    each cut to 127 bytes, the count is theirs, and the agent's [splitArgs]
    gives them back in order (without the empty ones); a run appends exactly
    one event. *)
Theorem args_roundtrip {KL : KernelLayout} {M : Type} `{HM : !LruHash M Z (list Z)} (c : ctx) args e l
    (s : est M) :
  slot_ok e → argv_at c (nth 1 args 0) 0 MAXARG l → l ≠ [] →
  ∃ ev, events (exec (handle_execve c (Some e) args) s) = events s ++ [ev] ∧
    splitArgs (ee_args ev) (ee_args_size ev) = List.filter nonempty (map (take 127) (take MAXARG l)) ∧
    ee_args_count ev = Z.of_nat (length (take MAXARG l)) ∧
    ee_pid ev = u32 (cx_tgid c).
Proof.
  intros [_ _ Ha] Hv Hl. unfold exec. rewrite handle_execve_run. cbn [snd events].
  eexists. split; [reflexivity|]. cbn [event_of ee_args ee_args_size ee_args_count ee_pid].
  destruct (args_of_argv c args e l Ha Hv) as (_ & Hcnt).
  split; [by apply split_args_of|split; [exact Hcnt|reflexivity]].
Qed.

(** ** Bounds *)

(** Documented: a string read returns at most the size of its buffer. *)
Definition str_ret_ok (c : ctx) : Prop :=
  ∀ a dst, fst (cx_read_user_str c a dst) ≤ Z.of_nat (length dst).

Lemma args_loop_bounds c n i argv st :
  ctx_ok c → str_ret_ok c → (Z.to_nat i + n = MAXARG)%nat → 0 ≤ i →
  length (a_buf st) = ARGS_BUF_LEN → 0 ≤ a_off st ≤ 128 * i → a_truncated st = 0 →
  let st' := args_loop c n i argv st in
  length (a_buf st') = ARGS_BUF_LEN ∧ 0 ≤ a_off st' ≤ Z.of_nat ARGS_BUF_LEN ∧ a_truncated st' = 0.
Proof.
  intros Hc Hr. revert i st; induction n as [|n IH]; intros i st Hn Hi Hl Ho Ht;
    unfold ARGS_BUF_LEN, ARGSIZE, MAXARG in *.
  { cbn. split_and!; [done|lia|lia|done]. }
  cbn [args_loop]. destruct (_ =? 0); [split_and!; [done|lia|lia|done]|].
  rewrite (u32_small (a_off st + _)) by (unfold ARGSIZE; lia).
  rewrite (proj2 (Z.ltb_ge _ _)) by (unfold ARGS_BUF_LEN, ARGSIZE, MAXARG; lia).
  set (dst := slice _ _ _). set (r := cx_read_user_str c _ dst).
  assert (Hd : length dst = 128%nat) by (apply length_slice; unfold ARGSIZE; lia).
  assert (Hlen : length (splice (a_buf st) (Z.to_nat (a_off st)) (snd r)) = (128 * 8)%nat).
  { rewrite length_splice; [done|]. subst r. rewrite ok_ustr_len, Hd. lia. }
  pose proof (Hr (le_val (snd (cx_read_user c (field argv (8 * i)) 8))) dst) as Hret. fold r in Hret.
  destruct (Z.leb_spec (fst r) 0); [cbn; split_and!; [done|lia|lia|done]|].
  apply IH; cbn [a_buf a_off a_truncated]; try done; try lia.
  rewrite u32_small; lia.
Qed.

Lemma args_loop_null c n i argv st :
  le_val (snd (cx_read_user c (field argv (8 * i)) 8)) = 0 → args_loop c (S n) i argv st = st.
Proof. intros H. cbn [args_loop]. by rewrite H. Qed.

(** C33. The argument buffer is never overrun, and its truncation flag is
    dead: whatever user memory holds, every argument is written inside the
    1024 bytes, and [args_truncated] is 0 in every event, also when the
    process had more than 8 arguments or longer ones than 127 bytes. *)
Theorem args_in_bounds_and_never_truncated {KL : KernelLayout} {M : Type}
    `{HM : !LruHash M Z (list Z)} (c : ctx) args e (s : est M) :
  ctx_ok c → str_ret_ok c → slot_ok e →
  ∃ ev, events (exec (handle_execve c (Some e) args) s) = events s ++ [ev] ∧
    length (ee_args ev) = ARGS_BUF_LEN ∧ 0 ≤ ee_args_size ev ≤ Z.of_nat ARGS_BUF_LEN ∧
    ee_args_truncated ev = 0.
Proof.
  intros Hc Hr [_ _ Ha]. unfold exec. rewrite handle_execve_run. cbn [snd events].
  eexists. split; [reflexivity|]. cbn [event_of ee_args ee_args_size ee_args_truncated].
  by apply (args_loop_bounds c MAXARG 0).
Qed.

(** An exec without arguments is logged with another process's: when
    the first argument pointer is NULL (or cannot be read), the program
    writes nothing and reports size 0, and the agent takes size 0 for the
    whole buffer, that is the slot's old contents. *)
Theorem no_arguments_reads_the_old_record {KL : KernelLayout} {M : Type}
    `{HM : !LruHash M Z (list Z)} (c : ctx) args e (s : est M) :
  slot_ok e → le_val (snd (cx_read_user c (field (nth 1 args 0) 0) 8)) = 0 →
  ∃ ev, events (exec (handle_execve c (Some e) args) s) = events s ++ [ev] ∧
    ee_args_size ev = 0 ∧ ee_args_count ev = 0 ∧
    splitArgs (ee_args ev) (ee_args_size ev) = nul_pieces [] (ee_args e).
Proof.
  intros [_ _ Ha] Hz. unfold exec. rewrite handle_execve_run. cbn [snd events].
  eexists. split; [reflexivity|]. cbn [event_of ee_args ee_args_size ee_args_count].
  assert (E : args_of c args e = ArgsSt 0 0 0 (ee_args e)).
  { unfold args_of. change MAXARG with (S 7). by apply args_loop_null. }
  rewrite E. cbn [a_buf a_off a_count]. split; [done|]. split; [done|]. unfold splitArgs.
  cbn [Z.leb Z.compare orb]. by rewrite Nat2Z.id, firstn_all.
Qed.

(** *** The demo exec: "ls -l" *)

Definition demo_argv : memory :=
  [(0x20000, w64 0x20100 ++ w64 0x20200 ++ w64 0); (0x20100, zs "ls" ++ [0]);
   (0x20200, zs "-l" ++ [0]); (0x20300, zs "/bin/ls" ++ [0])].

Definition demo_exec_ctx (tgid : Z) : ctx :=
  image_ctx 0 (Z.lor (Z.shiftl tgid 32) tgid) 0 1000000 (zs "sh") 0x8000 demo_kernel demo_argv.

Definition demo_exec_slot : exec_event :=
  ExecEvent 1 1 1 1 1 (zeros 16) (replicate 256 65) (replicate 256 65)
    (zs "secret" ++ zeros 1018) 7 7 7.

Lemma demo_exec_slot_ok : slot_ok demo_exec_slot.
Proof. split; reflexivity. Qed.

Lemma image_str_ret_ok cpu pt ug kt comm task km um :
  str_ret_ok (image_ctx cpu pt ug kt comm task km um).
Proof.
  intros a dst. cbn [image_ctx cx_read_user_str]. unfold image_read_str.
  destruct dst as [|b dst]; [done|]. destruct (mem_str _ _ _); cbn [fst]; [|done].
  unfold str_copy; cbn [fst]. rewrite length_take. cbn [length]. lia.
Qed.

Lemma demo_argv_at tgid : argv_at (demo_exec_ctx tgid) 0x20000 0 MAXARG [zs "ls"; zs "-l"].
Proof.
  split; [vm_compute; discriminate|].
  split; [apply image_ustr_at; [vm_compute; reflexivity|by apply zs_no_nul]|].
  split; [vm_compute; discriminate|].
  split; [apply image_ustr_at; [vm_compute; reflexivity|by apply zs_no_nul]|].
  vm_compute. reflexivity.
Qed.

Lemma args_roundtrip_witness :
  ∃ ev, events (exec (handle_execve (M := gmap Z (list Z)) (demo_exec_ctx 500) (Some demo_exec_slot)
                        [0x20300; 0x20000]) (Est [] ∅ [[zeros 256]])) = [] ++ [ev] ∧
    splitArgs (ee_args ev) (ee_args_size ev)
      = List.filter nonempty (map (take 127) (take MAXARG [zs "ls"; zs "-l"])) ∧
    ee_args_count ev = Z.of_nat (length (take MAXARG [zs "ls"; zs "-l"])) ∧
    ee_pid ev = u32 (cx_tgid (demo_exec_ctx 500)).
Proof.
  apply (args_roundtrip (demo_exec_ctx 500) [0x20300; 0x20000] demo_exec_slot [zs "ls"; zs "-l"]
           (Est [] ∅ [[zeros 256]])); [apply demo_exec_slot_ok|apply (demo_argv_at 500)|done].
Defined.

Lemma args_in_bounds_and_never_truncated_witness :
  ∃ ev, events (exec (handle_execve (M := gmap Z (list Z)) (demo_exec_ctx 500) (Some demo_exec_slot)
                        [0x20300; 0x20000]) (Est [] ∅ [[zeros 256]])) = [] ++ [ev] ∧
    length (ee_args ev) = ARGS_BUF_LEN ∧ 0 ≤ ee_args_size ev ≤ Z.of_nat ARGS_BUF_LEN ∧
    ee_args_truncated ev = 0.
Proof.
  apply (args_in_bounds_and_never_truncated (demo_exec_ctx 500) [0x20300; 0x20000] demo_exec_slot
           (Est [] ∅ [[zeros 256]])); [apply image_ctx_ok|apply image_str_ret_ok|apply demo_exec_slot_ok].
Defined.

(** The log line of an exec with a NULL argument vector says "secret". *)
Lemma no_arguments_reads_the_old_record_witness :
  nul_pieces [] (ee_args demo_exec_slot) = [zs "secret"] ∧
  ∃ ev, events (exec (handle_execve (M := gmap Z (list Z)) (demo_exec_ctx 500) (Some demo_exec_slot)
                        [0x20300; 0]) (Est [] ∅ [[zeros 256]])) = [] ++ [ev] ∧
    ee_args_size ev = 0 ∧ ee_args_count ev = 0 ∧
    splitArgs (ee_args ev) (ee_args_size ev) = nul_pieces [] (ee_args demo_exec_slot).
Proof.
  split; [vm_compute; reflexivity|].
  apply (no_arguments_reads_the_old_record (demo_exec_ctx 500) [0x20300; 0] demo_exec_slot
           (Est [] ∅ [[zeros 256]])); [apply demo_exec_slot_ok|vm_compute; reflexivity].
Defined.

(** ** Whose image the parent's is *)

Record exec_firing := ExecFiring {
  xf_ctx : ctx;
  xf_slot : option exec_event;
  xf_args : list Z;
}.

Section runs.
Context {KL : KernelLayout} {M : Type} `{HM : !LruHash M Z (list Z)} `{!LruHashLaws M Z (list Z)}.

Definition run_exec_trace (fs : list exec_firing) (s : est M) : est M :=
  foldl (λ s f, exec (handle_execve (xf_ctx f) (xf_slot f) (xf_args f)) s) s fs.

(** Process [pid]'s image [b] is in a record of [l]. *)
Definition seen (l : list exec_event) (pid : Z) (b : list Z) : Prop :=
  ∃ e, e ∈ l ∧ ee_pid e = pid ∧ ee_filename e = b.

(** Every record's parent image is unknown or was seen in an earlier one. *)
Definition parents_seen (l : list exec_event) : Prop :=
  ∀ l1 e l2, l = l1 ++ e :: l2 →
    nth 0 (ee_parent_filename e) 0 = 0 ∨ seen l1 (ee_ppid e) (ee_parent_filename e).

Definition cache_seen (s : est M) : Prop :=
  ∀ k b, hash_lookup (pid_image_cache s) k = Some b → seen (events s) k b.

Lemma seen_app l l' pid b : seen l pid b → seen (l ++ l') pid b.
Proof. intros (e & He & H). exists e. split; [|done]. apply elem_of_app. by left. Qed.

Lemma cache_image_lookup c pid b (s : est M) k b' :
  hash_lookup (pid_image_cache (cache_image c pid b s)) k = Some b' →
  hash_lookup (pid_image_cache s) k = Some b' ∨ (k = pid ∧ b' = b).
Proof.
  unfold cache_image. destruct (percpu_lookup _ _ _); cbn; [|by left].
  destruct (decide (k = pid)) as [->|Hne].
  - destruct (decide (fst (hash_update (pid_image_cache s) pid b) = 0)) as [E|E].
    + rewrite hash_update_hit by done. intros [= <-]. by right.
    + destruct (hash_update_err _ _ _ E) as [->| ->]; [by left|done].
  - destruct (hash_update_other (pid_image_cache s) pid k b Hne) as [->| ->]; [by left|done].
Qed.

Lemma handle_execve_seen f (s : est M) :
  cache_seen s → parents_seen (events s) →
  let s' := exec (handle_execve (xf_ctx f) (xf_slot f) (xf_args f)) s in
  cache_seen s' ∧ parents_seen (events s').
Proof.
  intros Hc Hp. destruct (xf_slot f) as [e|]; [|done]. cbv zeta. unfold exec.
  rewrite handle_execve_run. cbn [snd]. set (ev := event_of _ _ _ _). split.
  - intros k b Hk. cbn [pid_image_cache events] in *.
    apply cache_image_lookup in Hk as [Hk|[-> ->]]; [by apply seen_app, Hc|].
    exists ev. split; [|done]. apply elem_of_app. right. by apply list_elem_of_singleton.
  - intros l1 e' l2 Hl. cbn [events] in Hl. destruct l2 as [|x l2 _] using rev_ind.
    + apply app_inj_tail in Hl as [<- <-]. subst ev. cbn [event_of ee_parent_filename ee_ppid].
      unfold parent_image.
      destruct (hash_lookup (pid_image_cache s) _) as [b|] eqn:E; [right; by apply Hc|left].
      by destruct (ee_parent_filename e).
    + rewrite app_comm_cons, (assoc_L (++)) in Hl. apply app_inj_tail in Hl as [Hl _].
      by eapply Hp.
Qed.
End runs.

(** A parent image is never invented: in every sequence of exec runs,
    whatever the LRU cache evicts or refuses, the parent image of a record is
    unknown (an empty string) or the file name of an earlier record of the
    process that is the parent. *)
Theorem parent_image_was_seen {KL : KernelLayout} {M : Type} `{HM : !LruHash M Z (list Z)}
    `{!LruHashLaws M Z (list Z)} fs (empty : M) scr :
  (∀ k, hash_lookup empty k = None) → parents_seen (events (run_exec_trace fs (Est [] empty scr))).
Proof.
  intros He.
  enough (H : ∀ s : est M, cache_seen s → parents_seen (events s) →
            parents_seen (events (run_exec_trace fs s))).
  { apply H; [|by intros [] ? ?]. intros k b Hk. cbn in Hk. by rewrite He in Hk. }
  induction fs as [|f fs IH]; intros s Hc Hp; [done|]. cbn.
  destruct (handle_execve_seen f s Hc Hp). by apply IH.
Qed.

Lemma parent_image_was_seen_witness :
  parents_seen (events (run_exec_trace (M := gmap Z (list Z))
    [ExecFiring (demo_exec_ctx 77) (Some demo_exec_slot) [0x20300; 0x20000];
     ExecFiring (demo_exec_ctx 500) (Some demo_exec_slot) [0x20300; 0x20000]]
    (Est [] ∅ [[zeros 256]]))).
Proof. apply parent_image_was_seen. intros k. apply lookup_empty. Defined.
