(* ===== verification/ExecRace.v ===== *)
(** * Exec runs that overlap (execve.bpf.c)

    [Execve.handle_execve] is one step on the maps.  Here a run is the [xcode]
    of its accesses, and the runs of several CPUs are interleaved access by
    access.  The ring buffer has the records in the order in which they are
    reserved, as the agent reads them; a record that is not submitted yet is
    [Busy] with its CPU, which has one reservation at a time. *)
From Stdlib Require Import ZArith Lia Ascii String.
From stdpp Require Import base tactics list gmap.
From S2P Require Import Prelude.
From S2P Require Import Kernel.
From S2P Require Import CoreRead.
From S2P Require Import Tracing.
From S2P Require Import PathWalk.
From S2P Require Import Scenario.
From S2P Require Import Execve.
From S2P Require Import ExecveProps.
Local Open Scope Z_scope.
Import Execve.Execve.

(** ** The accesses of a run *)

Inductive ring_slot :=
  | Busy (cpu : nat)
  | Record_ (e : exec_event).

Record xst (M : Type) := Xst {
  x_ring : list ring_slot;
  x_cache : M;                         (* pid_image_cache *)
  x_scratch : list (list (list Z));    (* scratch_buf *)
}.
Arguments Xst {M} _ _ _.
Arguments x_ring {M} _.
Arguments x_cache {M} _.
Arguments x_scratch {M} _.

Inductive xcode :=
  | X_halt
  | X_reserve (k : xcode)                          (* bpf_ringbuf_reserve *)
  | X_lookup (key : Z) (k : option (list Z) → xcode)
  | X_stage (v : list Z) (k : bool → xcode)        (* the memcpy to the scratch, if there is one *)
  | X_update (key : Z) (k : xcode)                 (* with what the scratch holds *)
  | X_submit (e : exec_event) (k : xcode).

Section accesses.
Context {M : Type} `{HM : !LruHash M Z (list Z)} (cpu : nat).

Definition fill_slot (e : exec_event) (x : ring_slot) : ring_slot :=
  match x with
  | Busy j => if decide (j = cpu) then Record_ e else x
  | Record_ _ => x
  end.

Definition xaccess (r : xcode) (s : xst M) : xcode * xst M :=
  match r with
  | X_halt => (X_halt, s)
  | X_reserve k => (k, Xst (x_ring s ++ [Busy cpu]) (x_cache s) (x_scratch s))
  | X_lookup key k => (k (hash_lookup (x_cache s) key), s)
  | X_stage v k =>
      match percpu_lookup (x_scratch s) cpu 0 with
      | Some _ => (k true, Xst (x_ring s) (x_cache s) (percpu_store (x_scratch s) cpu 0 v))
      | None => (k false, s)
      end
  | X_update key k =>
      let v := default [] (percpu_lookup (x_scratch s) cpu 0) in
      (k, Xst (x_ring s) (snd (hash_update (x_cache s) key v)) (x_scratch s))
  | X_submit e k => (k, Xst (map (fill_slot e) (x_ring s)) (x_cache s) (x_scratch s))
  end.

Fixpoint xfinish (n : nat) (r : xcode) (s : xst M) : xst M :=
  match n with
  | O => s
  | S n => let x := xaccess r s in xfinish n (fst x) (snd x)
  end.
End accesses.

Section program.
Context {KL : KernelLayout} (c : ctx) (slot : option exec_event) (args : list Z).

Definition x_pid : Z := u32 (cx_tgid c).
Definition x_ppid : Z :=
  BPF_CORE_READ (cx_read_kernel c) 4 (cx_task c) off_task_real_parent [off_task_tgid].

(** The record of a run, by its slot and the parent's image. *)
Definition x_event (e : exec_event) (parent : list Z) : exec_event :=
  let a := args_loop c MAXARG 0 (nth 1 args 0) (ArgsSt 0 0 0 (ee_args e)) in
  ExecEvent (cx_ktime c) x_pid x_ppid (cx_uid c) (cx_gid c) (cx_comm c)
    (read_filename c (nth 0 args 0) (ee_filename e)) parent
    (a_buf a) (a_off a) (a_count a) (a_truncated a).

Definition staged_code (ev : exec_event) (ok : bool) : xcode :=
  if ok then X_update x_pid (X_submit ev X_halt) else X_submit ev X_halt.

Definition looked_code (e : exec_event) (cached : option (list Z)) : xcode :=
  let parent := match cached with
                | Some b => b
                | None => <[0%nat := 0]> (ee_parent_filename e)
                end in
  X_stage (read_filename c (nth 0 args 0) (ee_filename e)) (staged_code (x_event e parent)).

Definition handle_execve_code : xcode :=
  match slot with
  | None => X_halt
  | Some e => X_reserve (X_lookup x_ppid (looked_code e))
  end.
End program.

(** A run on its own, on maps with no reservation of its CPU, is the
    program: five accesses. *)
Definition of_est {M} (s : est M) : xst M :=
  Xst (map Record_ (events s)) (pid_image_cache s) (scratch_buf s).

Lemma fill_records cpu ev l : map (fill_slot cpu ev) (map Record_ l) = map Record_ l.
Proof. induction l as [|e l IH]; cbn; congruence. Qed.

Lemma exec_code_runs_the_program {KL : KernelLayout} {M : Type} `{HM : !LruHash M Z (list Z)} c slot
    args (s : est M) :
  xfinish (cx_cpu c) 5 (handle_execve_code c slot args) (of_est s)
  = of_est (exec (handle_execve c slot args) s).
Proof.
  destruct slot as [e|]; [|done]. unfold exec. rewrite handle_execve_run. cbn [snd].
  unfold event_of, args_of, cache_image, handle_execve_code, looked_code, x_event, parent_image.
  set (a := args_loop _ _ _ _ _). clearbody a. cbn [ee_filename].
  set (fn := read_filename _ _ _). clearbody fn. unfold of_est.
  cbn [xfinish xaccess fst snd x_ring x_cache x_scratch].
  destruct (percpu_lookup (scratch_buf s) (cx_cpu c) 0) as [old|] eqn:E;
    cbn [staged_code xaccess fst snd x_ring x_cache x_scratch events pid_image_cache scratch_buf];
    rewrite !map_app, fill_records; cbn; rewrite decide_True by done; [|done].
  rewrite percpu_lookup_store by (done || by eexists). by rewrite decide_True.
Qed.

(** ** Several runs at once *)

Record xrunning := Xrunning { xr_firing : exec_firing; xr_code : xcode }.
Record xconf (M : Type) := Xconf { xc_maps : xst M; xc_running : gmap nat xrunning }.
Arguments Xconf {M} _ _.
Arguments xc_maps {M} _.
Arguments xc_running {M} _.

Inductive xmove :=
  | X_begin (f : exec_firing)
  | X_go (cpu : nat).

Section moves.
Context {KL : KernelLayout} {M : Type} `{HM : !LruHash M Z (list Z)}.

Definition xmove_step (m : xmove) (cf : xconf M) : option (xconf M) :=
  match m with
  | X_begin f =>
      match xc_running cf !! cx_cpu (xf_ctx f) with
      | Some _ => None
      | None =>
          Some (Xconf (xc_maps cf)
            (<[cx_cpu (xf_ctx f) :=
                 Xrunning f (handle_execve_code (xf_ctx f) (xf_slot f) (xf_args f))]> (xc_running cf)))
      end
  | X_go cpu =>
      match xc_running cf !! cpu with
      | None => None
      | Some (Xrunning f X_halt) => Some (Xconf (xc_maps cf) (delete cpu (xc_running cf)))
      | Some (Xrunning f r) =>
          let x := xaccess cpu r (xc_maps cf) in
          Some (Xconf (snd x) (<[cpu := Xrunning f (fst x)]> (xc_running cf)))
      end
  end.

Fixpoint run_xmoves (ms : list xmove) (cf : xconf M) : option (xconf M) :=
  match ms with
  | [] => Some cf
  | m :: ms => xmove_step m cf ≫= run_xmoves ms
  end.
End moves.

Definition xbegun (ms : list xmove) : list exec_firing :=
  omap (λ m, match m with X_begin f => Some f | X_go _ => None end) ms.

(** ** Whose image a record's parent image is *)

Section inv.
Context {KL : KernelLayout} {M : Type} `{HM : !LruHash M Z (list Z)} `{!LruHashLaws M Z (list Z)}.

Local Abbreviation cpu f := (cx_cpu (xf_ctx f)).

(** The process and the file name of a run that gets a record. *)
Definition image_of (f : exec_firing) (k : Z) (fn : list Z) : Prop :=
  ∃ e, xf_slot f = Some e ∧ k = x_pid (xf_ctx f) ∧
       fn = read_filename (xf_ctx f) (nth 0 (xf_args f) 0) (ee_filename e).
Definition imaged (l : list exec_firing) (k : Z) (fn : list Z) : Prop :=
  ∃ f, f ∈ l ∧ image_of f k fn.

Definition parent_ok (l : list exec_firing) (e : exec_event) : Prop :=
  nth 0 (ee_parent_filename e) 0 = 0 ∨ imaged l (ee_ppid e) (ee_parent_filename e).

(** The run's record is submitted. *)
Definition recorded (ring : list ring_slot) (f : exec_firing) : Prop :=
  ∀ k fn, image_of f k fn → ∃ e, Record_ e ∈ ring ∧ ee_pid e = k ∧ ee_filename e = fn.

(** How far a run is, on the maps [s] after the runs [l] have begun. *)
Inductive xstage (l : list exec_firing) (f : exec_firing) (s : xst M) : xcode → Prop :=
  | xs_start :
      Busy (cpu f) ∉ x_ring s →
      xstage l f s (handle_execve_code (xf_ctx f) (xf_slot f) (xf_args f))
  | xs_lookup e :
      Busy (cpu f) ∈ x_ring s → xf_slot f = Some e →
      xstage l f s (X_lookup (x_ppid (xf_ctx f)) (looked_code (xf_ctx f) (xf_args f) e))
  | xs_looked e cached :
      Busy (cpu f) ∈ x_ring s → xf_slot f = Some e →
      (∀ fn, cached = Some fn → imaged l (x_ppid (xf_ctx f)) fn) →
      xstage l f s (looked_code (xf_ctx f) (xf_args f) e cached)
  | xs_staged ev k fn :
      Busy (cpu f) ∈ x_ring s → parent_ok l ev → image_of f k fn → ee_pid ev = k →
      ee_filename ev = fn → percpu_lookup (x_scratch s) (cpu f) 0 = Some fn →
      xstage l f s (X_update k (X_submit ev X_halt))
  | xs_submit ev k fn :
      Busy (cpu f) ∈ x_ring s → parent_ok l ev → image_of f k fn → ee_pid ev = k →
      ee_filename ev = fn → xstage l f s (X_submit ev X_halt)
  | xs_halt : Busy (cpu f) ∉ x_ring s → recorded (x_ring s) f → xstage l f s X_halt.

Record xinv (l : list exec_firing) (cf : xconf M) : Prop := {
  xi_cache : ∀ k fn, hash_lookup (x_cache (xc_maps cf)) k = Some fn → imaged l k fn;
  xi_ring : ∀ e, Record_ e ∈ x_ring (xc_maps cf) → parent_ok l e;
  xi_busy : ∀ i, Busy i ∈ x_ring (xc_maps cf) → is_Some (xc_running cf !! i);
  xi_runs : ∀ i rn, xc_running cf !! i = Some rn →
    cpu (xr_firing rn) = i ∧ xr_firing rn ∈ l ∧ xstage l (xr_firing rn) (xc_maps cf) (xr_code rn);
  xi_done : ∀ f, f ∈ l → recorded (x_ring (xc_maps cf)) f ∨
    ∃ i r, xc_running cf !! i = Some (Xrunning f r);
}.

Lemma imaged_app l l' k fn : imaged l k fn → imaged (l ++ l') k fn.
Proof. intros (f & Hf & H). exists f. split; [|done]. apply elem_of_app. by left. Qed.

Lemma parent_ok_app l l' e : parent_ok l e → parent_ok (l ++ l') e.
Proof. intros [?|?]; [by left|right; by apply imaged_app]. Qed.

(** What a step of another CPU leaves of a stage. *)
Lemma xstage_other l l' f s s' r :
  (Busy (cpu f) ∈ x_ring s' ↔ Busy (cpu f) ∈ x_ring s) →
  (∀ e, Record_ e ∈ x_ring s → Record_ e ∈ x_ring s') →
  percpu_lookup (x_scratch s') (cpu f) 0 = percpu_lookup (x_scratch s) (cpu f) 0 →
  xstage l f s r → xstage (l ++ l') f s' r.
Proof.
  intros Hb Hr Hs Hst. destruct Hst.
  - apply xs_start. by rewrite Hb.
  - apply xs_lookup; [by rewrite Hb|done].
  - apply xs_looked; [by rewrite Hb|done|]. intros fn ->. by apply imaged_app, H1.
  - eapply xs_staged; [by rewrite Hb|by apply parent_ok_app|done..|by rewrite Hs].
  - eapply xs_submit; [by rewrite Hb|by apply parent_ok_app|done..].
  - apply xs_halt; [by rewrite Hb|]. intros k fn Hi. destruct (H0 k fn Hi) as (e & He & H1).
    exists e. auto.
Qed.

Lemma recorded_mono ring ring' f :
  (∀ e, Record_ e ∈ ring → Record_ e ∈ ring') → recorded ring f → recorded ring' f.
Proof. intros Hr Hf k fn Hi. destruct (Hf k fn Hi) as (e & He & H). exists e. auto. Qed.

Lemma fill_busy i ev j ring : Busy j ∈ map (fill_slot i ev) ring ↔ Busy j ∈ ring ∧ j ≠ i.
Proof.
  rewrite list_elem_of_fmap. split.
  - intros ([k|e] & E & Hin); cbn in E; [|done]. case_decide; [done|]. by injection E as ->.
  - intros [Hin Hj]. exists (Busy j). split; [|done]. cbn. by rewrite decide_False.
Qed.

Lemma fill_record i ev e ring : Record_ e ∈ map (fill_slot i ev) ring ↔
  Record_ e ∈ ring ∨ (e = ev ∧ Busy i ∈ ring).
Proof.
  rewrite list_elem_of_fmap. split.
  - intros ([k|e'] & E & Hin); cbn in E.
    + case_decide as Hk; [|done]. subst k. injection E as ->. by right.
    + injection E as ->. by left.
  - intros [Hin|[-> Hin]]; [by exists (Record_ e)|]. exists (Busy i). cbn. by rewrite decide_True.
Qed.

Definition cache_ok (l : list exec_firing) (s : xst M) : Prop :=
  ∀ k fn, hash_lookup (x_cache s) k = Some fn → imaged l k fn.
Definition ring_ok (l : list exec_firing) (s : xst M) : Prop :=
  ∀ e, Record_ e ∈ x_ring s → parent_ok l e.

(** What a step of CPU [i] changes. *)
Record xframe (i : nat) (s s' : xst M) : Prop := {
  xf_busy : ∀ j, j ≠ i → Busy j ∈ x_ring s' ↔ Busy j ∈ x_ring s;
  xf_records : ∀ e, Record_ e ∈ x_ring s → Record_ e ∈ x_ring s';
  xf_row : ∀ j, j ≠ i → percpu_lookup (x_scratch s') j 0 = percpu_lookup (x_scratch s) j 0;
}.

Lemma update_cache_ok l k fn s scr ring : cache_ok l s → imaged l k fn →
  cache_ok l (Xst ring (snd (hash_update (x_cache s) k fn)) scr).
Proof.
  intros Hc Hk k' fn' E. cbn in E. destruct (decide (k' = k)) as [->|Hne].
  - destruct (decide (fst (hash_update (x_cache s) k fn) = 0)) as [E0|E0].
    + rewrite hash_update_hit in E by done. by simplify_eq.
    + destruct (hash_update_err _ _ fn E0) as [E'|E']; rewrite E' in E; [by apply Hc|done].
  - destruct (hash_update_other (x_cache s) k k' fn Hne) as [E'|E']; rewrite E' in E;
      [by apply Hc|done].
Qed.

(** The record of a run is right when the cached image is. *)
Lemma event_stages l f e cached : xf_slot f = Some e →
  (∀ fn, cached = Some fn → imaged l (x_ppid (xf_ctx f)) fn) →
  let ev := x_event (xf_ctx f) (xf_args f) e
              match cached with Some b => b | None => <[0%nat := 0]> (ee_parent_filename e) end in
  parent_ok l ev ∧ image_of f (x_pid (xf_ctx f)) (ee_filename ev).
Proof.
  intros He Hc ev. split.
  - destruct cached as [fn|]; [right; by apply Hc|left]. cbn. by destruct (ee_parent_filename e).
  - by exists e.
Qed.

Lemma xaccess_ok l f s r :
  xstage l f s r → r ≠ X_halt → f ∈ l → cache_ok l s → ring_ok l s →
  let x := xaccess (cpu f) r s in
  xstage l f (snd x) (fst x) ∧ cache_ok l (snd x) ∧ ring_ok l (snd x) ∧ xframe (cpu f) s (snd x).
Proof.
  intros Hst Hne Hf Hc Hr. destruct Hst as [Hb|e Hb He|e cached Hb He Hca|ev k fn Hb Hp Hi Hk Hfn Hrow
    |ev k fn Hb Hp Hi Hk Hfn|]; cbv zeta; [| | | | |done].
  - unfold handle_execve_code in *. destruct (xf_slot f) as [e|] eqn:He; [|done]. cbn.
    split_and!; [|done| |].
    + apply xs_lookup; [|done]. cbn. apply elem_of_app. right. by apply list_elem_of_singleton.
    + intros ev [Hin|[=]%list_elem_of_singleton]%elem_of_app. by apply Hr.
    + split; [|intros ev Hin; apply elem_of_app; by left|done]. intros j Hj. cbn.
      rewrite elem_of_app, list_elem_of_singleton. split; [intros [?|[= ->]]; done|by left].
  - cbn. split_and!; [|done..]. apply xs_looked; [done..|]. intros fn. apply Hc.
  - destruct (event_stages l f e cached He Hca) as [Hp Hi]. cbn [looked_code xaccess].
    destruct (percpu_lookup (x_scratch s) (cpu f) 0) as [old|] eqn:Eo; cbn [fst snd staged_code].
    + split_and!; [|done|done|split; [done|done|]].
      * eapply xs_staged; [done|exact Hp|exact Hi|done|done|]. cbn.
        rewrite percpu_lookup_store by (done || by eexists). by rewrite decide_True.
      * intros j Hj. by apply percpu_lookup_store_ne.
    + split_and!; [|done..]. by eapply xs_submit; [done|exact Hp|exact Hi|..].
  - cbn. rewrite Hrow. cbn. split_and!; [|apply update_cache_ok; [done|by exists f]|done|done].
    by eapply xs_submit.
  - cbn. split_and!; [|done| |split; [| |done]].
    + apply xs_halt; cbn; [rewrite fill_busy; tauto|]. intros k' fn' (e' & H1 & -> & ->).
      destruct Hi as (e & H2 & -> & ->). exists ev. rewrite fill_record.
      rewrite H1 in H2. injection H2 as ->. auto.
    + intros e [Hin|[-> _]]%fill_record; [by apply Hr|done].
    + intros j Hj. cbn. rewrite fill_busy. tauto.
    + intros e Hin. cbn. apply fill_record. by left.
Qed.

Lemma halt_stage l f s :
  xstage l f s X_halt → Busy (cpu f) ∉ x_ring s ∧ recorded (x_ring s) f.
Proof.
  intros H. remember X_halt as r eqn:E. destruct H; try done. split; [done|].
  unfold handle_execve_code in E. destruct (xf_slot f) eqn:He; [done|].
  intros k fn (e & He' & _). congruence.
Qed.

Lemma xinv_begin l f cf cf' : xinv l cf → xmove_step (X_begin f) cf = Some cf' → xinv (l ++ [f]) cf'.
Proof.
  destruct cf as [s rs]. intros [Hc Hr Hb Hx Hd]. cbn [xmove_step xc_running xc_maps] in *.
  destruct (rs !! cpu f) as [rn|] eqn:Hi; [done|]. intros [= <-].
  split; cbn [xc_running xc_maps].
  - intros k fn Hk. by apply imaged_app, Hc.
  - intros e He. by apply parent_ok_app, Hr.
  - intros j Hj. rewrite lookup_insert. case_decide; [by eexists|by apply Hb].
  - intros j rn. rewrite lookup_insert. destruct (decide (cpu f = j)) as [Hj|Hj].
    + intros [= <-]. cbn [xr_firing xr_code]. split; [done|]. split.
      { apply elem_of_app. right. by apply list_elem_of_singleton. }
      apply xs_start. intros Hin. destruct (Hb _ Hin). congruence.
    + intros Hj0. destruct (Hx _ _ Hj0) as (H1 & H2 & H3). split; [done|]. split.
      { apply elem_of_app. by left. }
      by eapply xstage_other.
  - intros g [Hg|Hg%list_elem_of_singleton]%elem_of_app.
    + destruct (Hd g Hg) as [?|(j & r & Hj)]; [by left|]. right. exists j, r.
      rewrite lookup_insert_ne; [done|congruence].
    + subst g. right. eexists _, _. apply lookup_insert_eq.
Qed.

Lemma xinv_go l i cf cf' : xinv l cf → xmove_step (X_go i) cf = Some cf' → xinv l cf'.
Proof.
  destruct cf as [s rs]. intros [Hc Hr Hb Hx Hd]. cbn [xmove_step xc_running xc_maps] in *.
  destruct (rs !! i) as [[f r]|] eqn:Hi; [|done]. intros Hcf.
  destruct (Hx _ _ Hi) as (Hcpu & Hf & Hst). cbn [xr_firing xr_code] in *.
  assert (r = X_halt ∨ r ≠ X_halt) as [->|Hne] by (destruct r; [by left|by right..]).
  - injection Hcf as <-. destruct (halt_stage l f s Hst) as [Hnb Hrec]. rewrite Hcpu in Hnb.
    split; cbn [xc_running xc_maps]; [done|done| | |].
    + intros j Hj. rewrite lookup_delete_ne by congruence. by apply Hb.
    + intros j rn [_ Hj]%lookup_delete_Some. by apply Hx.
    + intros g Hg. destruct (Hd g Hg) as [?|(j & r & Hj)]; [by left|].
      destruct (decide (j = i)) as [->|Hne]; [rewrite Hi in Hj; simplify_eq; by left|].
      right. exists j, r. by rewrite lookup_delete_ne.
  - destruct (xaccess_ok l f s r Hst Hne Hf Hc Hr) as (Hst' & Hc' & Hr' & Hfr). rewrite Hcpu in *.
    assert (cf' = Xconf (snd (xaccess i r s)) (<[i := Xrunning f (fst (xaccess i r s))]> rs)) as ->.
    { by destruct r; simplify_eq. }
    destruct Hfr as [F1 F2 F3]. split; cbn [xc_running xc_maps]; [done|done| | |].
    + intros j Hj. rewrite lookup_insert. case_decide as E; [by eexists|].
      by apply Hb, F1.
    + intros j rn. rewrite lookup_insert. destruct (decide (i = j)) as [<-|Hj].
      * intros [= <-]. done.
      * intros Hj0. destruct (Hx _ _ Hj0) as (H1 & H2 & H3). split; [done|]. split; [done|].
        rewrite <- (app_nil_r l). apply xstage_other with s; rewrite ?H1; auto.
    + intros g Hg. destruct (Hd g Hg) as [Hrec|(j & r0 & Hj)].
      * left. by eapply recorded_mono.
      * right. destruct (decide (j = i)) as [->|Hji].
        -- rewrite Hi in Hj. simplify_eq. eexists _, _. apply lookup_insert_eq.
        -- exists j, r0. by rewrite lookup_insert_ne.
Qed.

Lemma xinv_moves ms : ∀ l cf cf', xinv l cf → run_xmoves ms cf = Some cf' → xinv (l ++ xbegun ms) cf'.
Proof.
  induction ms as [|m ms IH]; intros l cf cf' Hs; cbn [run_xmoves].
  { intros [= <-]. by rewrite app_nil_r. }
  destruct (xmove_step m cf) as [cf1|] eqn:Em; [|done]. cbn. intros Hr. destruct m as [f|i].
  - pose proof (IH _ _ _ (xinv_begin _ _ _ _ Hs Em) Hr) as H. by rewrite <- (assoc_L (++)) in H.
  - apply (IH _ _ _ (xinv_go _ _ _ _ Hs Em) Hr).
Qed.
End inv.

(** The records of a ring without reservations. *)
Definition all_records (ring : list ring_slot) : Prop := ∀ x, x ∈ ring → ∃ e, x = Record_ e.

(** C34. A parent image is never invented, also by runs that overlap: whatever
    the CPUs do, interleaved access by access, and whatever the LRU cache
    evicts or refuses, when no run is under way every reserved record is
    submitted, and its parent image is unknown (an empty string) or the file
    name in a record of the process that is the parent. *)
Theorem overlapping_parent_image_was_seen {KL : KernelLayout} {M : Type}
    `{HM : !LruHash M Z (list Z)} `{!LruHashLaws M Z (list Z)} (empty : M) scr ms s :
  (∀ k, hash_lookup empty k = None) →
  run_xmoves ms (Xconf (Xst [] empty scr) ∅) = Some (Xconf s ∅) →
  all_records (x_ring s) ∧
  ∀ e, Record_ e ∈ x_ring s →
    nth 0 (ee_parent_filename e) 0 = 0 ∨
    ∃ e', Record_ e' ∈ x_ring s ∧ ee_pid e' = ee_ppid e ∧ ee_filename e' = ee_parent_filename e.
Proof.
  intros H0 Hr. destruct (xinv_moves ms [] (Xconf (Xst [] empty scr) ∅) (Xconf s ∅))
    as [Hc Hring Hb _ Hd]; [|done|].
  { split; cbn [xc_running xc_maps x_ring x_cache]; try done.
    - intros k fn Hk. by rewrite H0 in Hk.
    - by intros e ?%elem_of_nil.
    - by intros i ?%elem_of_nil.
    - by intros f ?%elem_of_nil. }
  cbn [app xc_running xc_maps] in *. split.
  - intros [i|e] Hx; [|by eexists]. by destruct (Hb i Hx).
  - intros e He. destruct (Hring e He) as [?|(f & Hf & Hi)]; [by left|right].
    destruct (Hd f Hf) as [Hrec|(i & r & Hi')]; [|done]. by apply Hrec.
Qed.

(** Process 77 starts a program on CPU 1 while its child 500 does on CPU 0.
    The child reserves first and then finds the parent's image: its record
    comes before the one it refers to. *)
Definition demo_exec_run (cpu : nat) (tgid : Z) : exec_firing :=
  ExecFiring (image_ctx cpu (Z.lor (Z.shiftl tgid 32) tgid) 0 1000000 (zs "sh") 0x8000 demo_kernel
                demo_argv) (Some demo_exec_slot) [0x20300; 0x20000].
Definition demo_xmoves : list xmove :=
  [X_begin (demo_exec_run 0 500); X_go 0; X_begin (demo_exec_run 1 77); X_go 1; X_go 1; X_go 1;
   X_go 1; X_go 0; X_go 0; X_go 1; X_go 0; X_go 0; X_go 0; X_go 1].
Definition demo_xstart : xst (gmap Z (list Z)) := Xst [] ∅ [[zeros 256]; [zeros 256]].
Definition demo_xend : xst (gmap Z (list Z)) :=
  match run_xmoves demo_xmoves (Xconf demo_xstart ∅) with
  | Some cf => xc_maps cf
  | None => demo_xstart
  end.

Lemma overlapping_parent_image_was_seen_witness :
  match x_ring demo_xend with
  | [Record_ child; Record_ parent] =>
      ee_pid child = 500 ∧ ee_ppid child = 77 ∧ ee_pid parent = 77 ∧
      nth 0 (ee_parent_filename child) 0 ≠ 0 ∧ ee_parent_filename child = ee_filename parent
  | _ => False
  end ∧
  all_records (x_ring demo_xend) ∧
  ∀ e, Record_ e ∈ x_ring demo_xend →
    nth 0 (ee_parent_filename e) 0 = 0 ∨
    ∃ e', Record_ e' ∈ x_ring demo_xend ∧ ee_pid e' = ee_ppid e ∧
          ee_filename e' = ee_parent_filename e.
Proof.
  split; [vm_compute; split_and!; (reflexivity || discriminate)|].
  apply (overlapping_parent_image_was_seen (∅ : gmap Z (list Z)) [[zeros 256]; [zeros 256]]
           demo_xmoves demo_xend); [intros k; apply lookup_empty|].
  vm_compute. reflexivity.
Defined.
