(* ===== verification/Netwatch.v ===== *)
(** * netwatch.bpf.c: network telemetry

    The four programs on connect, bind, accept4 and sendto.  The ring buffer
    is the history of the operations on it: a record is reserved, then
    submitted or discarded.  [slot] is the record memory a run's reservation
    gets, whose old contents the helper does not clear. *)
From Stdlib Require Import ZArith Lia Ascii String.
From stdpp Require Import base tactics list gmap.
From S2P Require Import Prelude.
From S2P Require Import Kernel.
From S2P Require Import Endian.
From S2P Require Import Scenario.
Local Open Scope Z_scope.

Module Netwatch.

(** ** Constants and data *)

Definition MAX_HOST_LEN : nat := 128.
Definition AF_INET_ : Z := 2.
Definition SYSCALL_CONNECT : Z := 1.
Definition SYSCALL_BIND : Z := 2.
Definition SYSCALL_ACCEPT : Z := 3.
Definition SYSCALL_DNS : Z := 4.

Record net_event := NetEvent {
  ne_timestamp_ns : Z;
  ne_pid : Z;
  ne_tgid : Z;
  ne_uid : Z;
  ne_gid : Z;
  ne_syscall_kind : Z;   (* __u8 *)
  ne_family : Z;         (* __u8 *)
  ne_proto : Z;          (* __u8 *)
  ne_pad : Z;            (* __u8 *)
  ne_local_port : Z;     (* __u16 *)
  ne_remote_port : Z;    (* __u16 *)
  ne_saddr_v4 : Z;
  ne_daddr_v4 : Z;
  ne_comm : list Z;      (* char[TASK_COMM_LEN] *)
  ne_host : list Z;      (* char[MAX_HOST_LEN] *)
}.

(** Assignments to members. *)
Definition set_kind (v : Z) (e : net_event) : net_event :=
  let '(NetEvent ts p t u g _ f pr pd lp rp sa da cm h) := e in
  NetEvent ts p t u g v f pr pd lp rp sa da cm h.
Definition set_proto (v : Z) (e : net_event) : net_event :=
  let '(NetEvent ts p t u g k f _ pd lp rp sa da cm h) := e in
  NetEvent ts p t u g k f v pd lp rp sa da cm h.
Definition set_peer (family port addr : Z) (e : net_event) : net_event :=
  let '(NetEvent ts p t u g k _ pr pd lp _ sa _ cm h) := e in
  NetEvent ts p t u g k family pr pd lp port sa addr cm h.
Definition set_ports (local_port remote_port : Z) (e : net_event) : net_event :=
  let '(NetEvent ts p t u g k f pr pd _ _ sa da cm h) := e in
  NetEvent ts p t u g k f pr pd local_port remote_port sa da cm h.
Definition set_host (v : list Z) (e : net_event) : net_event :=
  let '(NetEvent ts p t u g k f pr pd lp rp sa da cm _) := e in
  NetEvent ts p t u g k f pr pd lp rp sa da cm v.

Inductive ring_op := Reserve | Submit (e : net_event) | Discard.

(** The history of [net_events], oldest first. *)
Definition nst : Type := list ring_op.

(** The records the agent gets. *)
Definition submitted (s : nst) : list net_event :=
  omap (λ op, match op with Submit e => Some e | _ => None end) s.

(** ** The programs *)

Section netwatch.
Context (c : ctx) (o : byte_order) (slot : option net_event).

Definition fill_identity (e : net_event) : net_event :=
  let '(NetEvent _ _ _ _ _ k f pr pd lp rp sa da _ h) := e in
  NetEvent (cx_ktime c) (cx_pid c) (u32 (cx_tgid c)) (cx_uid c) (cx_gid c) k f pr pd lp rp sa da
    (cx_comm c) h.

(** [struct sockaddr_in]: the members of its 16 bytes, as loaded. *)
Definition sin_family (sa : list Z) : Z := load_native o (slice sa 0 2).
Definition sin_port (sa : list Z) : Z := load_native o (slice sa 2 2).
Definition sin_addr (sa : list Z) : Z := load_native o (slice sa 4 4).

(** -1 and the record unchanged, or 0 and the peer filled in. *)
Definition read_sockaddr (e : net_event) (uaddr : Z) : Z * net_event :=
  if uaddr =? 0 then (-1, e) else
  let r := cx_read_user c uaddr 16 in
  if fst r <? 0 then (-1, e) else
  let sa := snd r in
  if negb (sin_family sa =? AF_INET_) then (-1, e)
  else (0, set_peer (u8 (sin_family sa)) (bpf_ntohs o false (sin_port sa)) (sin_addr sa) e).

Definition log (op : ring_op) : prog nst unit := modify (λ s, s ++ [op]).

(** [bpf_ringbuf_reserve]: NULL leaves no trace. *)
Definition reserve : prog nst (option net_event) :=
  match slot with
  | None => mret None
  | Some e => log Reserve;; mret (Some e)
  end.

Definition handle_connect (args : list Z) : prog nst Z :=
  e ← reserve;
  match e with
  | None => mret 0
  | Some e =>
      let e := set_proto 6 (set_kind SYSCALL_CONNECT (fill_identity e)) in
      let '(r, e) := read_sockaddr e (nth 1 args 0) in
      if r <? 0 then log Discard;; mret 0 else log (Submit e);; mret 0
  end.

Definition handle_bind (args : list Z) : prog nst Z :=
  e ← reserve;
  match e with
  | None => mret 0
  | Some e =>
      let e := set_kind SYSCALL_BIND (fill_identity e) in
      let '(r, e) := read_sockaddr e (nth 1 args 0) in
      if r <? 0 then log Discard;; mret 0
      else log (Submit (set_ports (ne_remote_port e) 0 e));; mret 0
  end.

Definition handle_accept (args : list Z) : prog nst Z :=
  e ← reserve;
  match e with
  | None => mret 0
  | Some e =>
      let e := set_proto 6 (set_kind SYSCALL_ACCEPT (fill_identity e)) in
      let '(r, e) := read_sockaddr e (nth 1 args 0) in
      if r <? 0 then log Discard;; mret 0 else log (Submit e);; mret 0
  end.

(** '.' *)
Definition DOT : Z := 46.

(** The loop over the 64 scratch bytes, on [out] and [ev->host]. *)
Fixpoint host_loop (scratch : list Z) (out : nat) (host : list Z) : nat * list Z :=
  match scratch with
  | [] => (out, host)
  | ch :: scratch =>
      if ch =? 0 then (out, host)
      else if (ch <? 32) || (126 <? ch) then
        if (0 <? out)%nat && (out <? MAX_HOST_LEN - 1)%nat
        then host_loop scratch (S out) (<[out := DOT]> host)
        else host_loop scratch out host
      else if (out <? MAX_HOST_LEN - 1)%nat
           then host_loop scratch (S out) (<[out := ch]> host)
           else host_loop scratch out host
  end.

Definition handle_sendto (args : list Z) : prog nst Z :=
  let ubuf := nth 1 args 0 in
  let len := u32 (nth 2 args 0) in
  if (ubuf =? 0) || (nth 4 args 0 =? 0) then mret 0 else
  let r := cx_read_user c (nth 4 args 0) 16 in
  if fst r <? 0 then mret 0 else
  let sa := snd r in
  if negb (sin_family sa =? AF_INET_) || negb (bpf_ntohs o false (sin_port sa) =? 53) then mret 0 else
  e ← reserve;
  match e with
  | None => mret 0
  | Some e =>
      let e := set_proto 17 (set_kind SYSCALL_DNS (fill_identity e)) in
      let e := set_peer (u8 (sin_family sa)) 53 (sin_addr sa) e in
      let e := if 12 <? len then
                 let q := cx_read_user c (field ubuf 12) 64 in
                 if fst q =? 0 then set_host (snd (host_loop (snd q) 0 (ne_host e))) e else e
               else e in
      log (Submit e);; mret 0
  end.
End netwatch.

(** The attached programs. *)
Inductive net_probe := N_connect | N_bind | N_accept | N_sendto.

Definition run_net (c : ctx) (o : byte_order) (slot : option net_event) (p : net_probe)
    (args : list Z) : prog nst Z :=
  match p with
  | N_connect => handle_connect c o slot args
  | N_bind => handle_bind c o slot args
  | N_accept => handle_accept c o slot args
  | N_sendto => handle_sendto c o slot args
  end.

(** ** The agent's side (netwatch.go) *)

(** [uint32ToIP]: the four numbers of the dotted address. *)
Definition uint32ToIP (v : Z) : list Z :=
  [u8 v; u8 (Z.shiftr v 8); u8 (Z.shiftr v 16); u8 (Z.shiftr v 24)].

(** The bytes [cstring] renders, before it drops unprintable ones. *)
Definition host_text (e : net_event) : list Z := cstr (ne_host e).

(** ** Lemmas: one run *)

Section runs.
Context (c : ctx) (o : byte_order).

Lemma log_run op s : log op s = (tt, s ++ [op]).
Proof. done. Qed.

(** A run leaves the history, or reserves once and closes the record. *)
Inductive net_result (s : nst) : nst → Prop :=
  | net_none : net_result s s
  | net_discarded : net_result s (s ++ [Reserve; Discard])
  | net_submitted e : net_result s (s ++ [Reserve; Submit e]).

Lemma run_net_result slot p args s : net_result s (exec (run_net c o slot p args) s).
Proof.
  assert (E : ∀ a b : ring_op, (s ++ [a]) ++ [b] = s ++ [a; b]) by (intros; by rewrite <- (assoc_L (++))).
  destruct p; cbn [run_net];
    unfold exec, handle_connect, handle_bind, handle_accept, handle_sendto, reserve, mbind,
      prog_bind, mret, prog_ret, log, modify; cbn beta iota zeta.
  1-3: destruct slot as [e|]; [|constructor]; cbn beta iota;
    destruct (read_sockaddr _ _ _ _) as [r e']; destruct (r <? 0); cbn [snd]; rewrite E; constructor.
  destruct (_ || _); [constructor|]. destruct (fst _ <? 0); [constructor|].
  destruct (_ || _); [constructor|]. destruct slot as [e|]; [|constructor]. cbn [snd].
  rewrite E. constructor.
Qed.

Lemma submitted_app s s' : submitted (s ++ s') = submitted s ++ submitted s'.
Proof. unfold submitted. apply omap_app. Qed.
End runs.
End Netwatch.
