(* ===== verification/NetwatchProps.v ===== *)
(** * Properties of the network events

    Every reservation is closed exactly once; the address and port the agent
    prints are the ones the process passed; what the host of a DNS record
    has of the query; and which members of a record are left over from an
    older one. *)
From Stdlib Require Import ZArith Lia Ascii String.
From stdpp Require Import base tactics list gmap.
From S2P Require Import Prelude.
From S2P Require Import Kernel.
From S2P Require Import Endian.
From S2P Require Import Scenario.
From S2P Require Import Netwatch.
Local Open Scope Z_scope.
Import Netwatch.Netwatch.

(** ** Reservations *)

(** A history in which every reservation is closed before the next one. *)
Fixpoint closed (s : nst) : Prop :=
  match s with
  | [] => True
  | Reserve :: (Submit _ | Discard) :: s => closed s
  | _ => False
  end.

Lemma closed_snoc_pair s b : closed s → match b with Reserve => False | _ => True end →
  closed (s ++ [Reserve; b]).
Proof.
  intros Hs Hb. remember (length s) as n eqn:Hn. revert s Hn Hs.
  induction (lt_wf n) as [n _ IH]. intros [|op s] -> Hs.
  { by destruct b. }
  destruct op; try (by destruct Hs). destruct s as [|[|e|] s]; try (by destruct Hs); cbn in *;
    (eapply IH; [|reflexivity|exact Hs]; lia).
Qed.

Record net_firing := NetFiring {
  nf_ctx : ctx;
  nf_slot : option net_event;
  nf_probe : net_probe;
  nf_args : list Z;
}.

Definition run_net_trace (o : byte_order) (fs : list net_firing) (s : nst) : nst :=
  foldl (λ s f, exec (run_net (nf_ctx f) o (nf_slot f) (nf_probe f) (nf_args f)) s) s fs.

(** No record leaks: in every sequence of program runs each record that
    is reserved is submitted or discarded exactly once, before anything else
    happens to the buffer; and no run submits more than one. *)
Theorem reservations_are_closed o fs :
  closed (run_net_trace o fs []) ∧ (length (submitted (run_net_trace o fs [])) ≤ length fs)%nat.
Proof.
  enough (H : ∀ s, closed s → closed (run_net_trace o fs s) ∧
    (length (submitted (run_net_trace o fs s)) ≤ length (submitted s) + length fs)%nat) by by apply H.
  induction fs as [|f fs IH]; intros s Hs; [split; [done|unfold run_net_trace; cbn [foldl length]; lia]|].
  cbn [run_net_trace foldl]. set (s' := exec _ s).
  assert (Hr : net_result s s') by apply run_net_result.
  assert (Hc : closed s') by (destruct Hr; [done| |]; by apply closed_snoc_pair).
  destruct (IH s' Hc) as [H1 H2]. split; [done|]. cbn [length].
  assert (Hl : (length (submitted s') ≤ S (length (submitted s)))%nat).
  { clear - Hr. destruct Hr as [| |e]; [lia|rewrite submitted_app, length_app..].
    - change (length (submitted [Reserve; Discard])) with 0%nat. lia.
    - change (length (submitted [Reserve; Submit e])) with 1%nat. lia. }
  unfold run_net_trace in *. lia.
Qed.

(** ** The peer *)

Section peer.
Context (c : ctx) {Hc : ctx_ok c}.

Lemma uint32ToIP_le l : is_bytes l → length l = 4%nat → uint32ToIP (le_val l) = l.
Proof.
  intros Hb Hl. do 5 (destruct l as [|? l]; [try done|]); try done. cbn in Hl.
  unfold is_bytes in Hb. rewrite !Forall_cons in Hb. unfold is_byte in Hb.
  destruct Hb as (? & ? & ? & ? & _). unfold uint32ToIP, u8, wrap. cbn [le_val].
  rewrite !Z.shiftr_div_pow2 by lia. change (2 ^ 8) with 256. change (2 ^ 16) with (256 * 256).
  change (2 ^ 24) with (256 * (256 * 256)).
  rewrite <- !Z.div_div by lia.
  assert (D1 : ∀ a r, 0 ≤ a < 256 → (a + 256 * r) / 256 = r).
  { intros a r Ha. rewrite (Z.mul_comm 256), Z.div_add, Z.div_small by lia. lia. }
  assert (D2 : ∀ a r, 0 ≤ a < 256 → (a + 256 * r) mod 256 = a).
  { intros a r Ha. rewrite (Z.mul_comm 256), Z_mod_plus_full, Z.mod_small by lia. lia. }
  rewrite !D1 by done. by rewrite !D2 by done.
Qed.

(** What a readable IPv4 socket address leaves in the record. *)
Lemma read_sockaddr_inet e addr sa :
  addr ≠ 0 → umem_at c addr sa → length sa = 16%nat → is_bytes sa →
  sin_family LITTLE_ENDIAN sa = AF_INET_ →
  read_sockaddr c LITTLE_ENDIAN e addr
  = (0, set_peer AF_INET_ (be_val (slice sa 2 2)) (le_val (slice sa 4 4)) e).
Proof.
  intros Ha Hm Hl Hb Hf. unfold read_sockaddr. rewrite (proj2 (Z.eqb_neq addr 0)) by done.
  rewrite (Hm 16%nat) by lia. cbn [fst snd]. rewrite <- Hl, firstn_all.
  change (0 <? 0) with false. cbn beta iota. rewrite Hf. cbn [Z.eqb negb AF_INET_ Pos.eqb].
  unfold sin_port, sin_addr. cbn [load_native bpf_ntohs].
  rewrite (bswap_le_val' 2); [done|by apply Forall_take, Forall_drop|].
  apply length_slice. lia.
Qed.

Lemma read_sockaddr_other e addr :
  addr = 0 ∨ fst (cx_read_user c addr 16) < 0 ∨
    sin_family LITTLE_ENDIAN (snd (cx_read_user c addr 16)) ≠ AF_INET_ →
  read_sockaddr c LITTLE_ENDIAN e addr = (-1, e).
Proof.
  intros H. unfold read_sockaddr. destruct (Z.eqb_spec addr 0); [done|].
  destruct (Z.ltb_spec (fst (cx_read_user c addr 16)) 0); [done|].
  destruct (Z.eqb_spec (sin_family LITTLE_ENDIAN (snd (cx_read_user c addr 16))) AF_INET_); [|done].
  exfalso. destruct H as [H|[H|H]]; [done|lia|done].
Qed.
End peer.

(** The kind and protocol of the record of connect, bind and accept; bind
    does not set the protocol. *)
Definition net_kind (p : net_probe) : Z :=
  match p with
  | N_connect => SYSCALL_CONNECT | N_bind => SYSCALL_BIND | N_accept => SYSCALL_ACCEPT
  | N_sendto => SYSCALL_DNS
  end.

(** The local and remote port a record says. *)
Definition net_ports (p : net_probe) (port : Z) (old : net_event) : Z * Z :=
  match p with N_bind => (port, 0) | _ => (ne_local_port old, port) end.

(** The record of such a call over the slot [e]. *)
Definition socket_event (c : ctx) (p : net_probe) (sa : list Z) (e : net_event) : net_event :=
  let '(lp, rp) := net_ports p (be_val (slice sa 2 2)) e in
  NetEvent (cx_ktime c) (cx_pid c) (u32 (cx_tgid c)) (cx_uid c) (cx_gid c) (net_kind p) AF_INET_
    (match p with N_bind => ne_proto e | _ => 6 end) (ne_pad e) lp rp (ne_saddr_v4 e) (le_val (slice sa 4 4))
    (cx_comm c) (ne_host e).

Lemma run_socket (c : ctx) p args e (s : nst) sa : ctx_ok c → p ≠ N_sendto →
  nth 1 args 0 ≠ 0 → umem_at c (nth 1 args 0) sa → length sa = 16%nat → is_bytes sa →
  sin_family LITTLE_ENDIAN sa = AF_INET_ →
  exec (run_net c LITTLE_ENDIAN (Some e) p args) s = s ++ [Reserve; Submit (socket_event c p sa e)].
Proof.
  intros Hc Hp Ha Hm Hl Hb Hf.
  assert (E : ∀ a b : ring_op, (s ++ [a]) ++ [b] = s ++ [a; b]) by (intros; by rewrite <- (assoc_L (++))).
  destruct p; try done; cbn [run_net];
    unfold exec, handle_connect, handle_bind, handle_accept, reserve, mbind, prog_bind, mret,
      prog_ret, log, modify; cbn beta iota zeta; rewrite (read_sockaddr_inet c _ _ sa) by done;
    cbn [Z.ltb Z.compare snd]; rewrite E; by destruct e.
Qed.

(** The address in the log is the address of the call: for a connect,
    bind or accept with a readable IPv4 socket address the run submits one
    record of the call's kind with the process's identity, whose port is the
    number of the big-endian port field (the local one for bind) and whose
    peer the agent prints as the four address bytes in order; for any other
    address the record is discarded. *)
Theorem socket_record (c : ctx) p args e (s : nst) :
  ctx_ok c → p ≠ N_sendto →
  (∀ sa, nth 1 args 0 ≠ 0 → umem_at c (nth 1 args 0) sa → length sa = 16%nat → is_bytes sa →
   sin_family LITTLE_ENDIAN sa = AF_INET_ →
   ∃ ev, exec (run_net c LITTLE_ENDIAN (Some e) p args) s = s ++ [Reserve; Submit ev] ∧
     ne_syscall_kind ev = net_kind p ∧ ne_family ev = AF_INET_ ∧ ne_tgid ev = u32 (cx_tgid c) ∧
     ne_pid ev = cx_pid c ∧ ne_uid ev = cx_uid c ∧ ne_gid ev = cx_gid c ∧
     (ne_local_port ev, ne_remote_port ev) = net_ports p (be_val (slice sa 2 2)) e ∧
     uint32ToIP (ne_daddr_v4 ev) = slice sa 4 4) ∧
  (nth 1 args 0 = 0 ∨ fst (cx_read_user c (nth 1 args 0) 16) < 0 ∨
     sin_family LITTLE_ENDIAN (snd (cx_read_user c (nth 1 args 0) 16)) ≠ AF_INET_ →
   exec (run_net c LITTLE_ENDIAN (Some e) p args) s = s ++ [Reserve; Discard]).
Proof.
  intros Hc Hp.
  assert (E : ∀ a b : ring_op, (s ++ [a]) ++ [b] = s ++ [a; b]) by (intros; by rewrite <- (assoc_L (++))).
  split.
  - intros sa Ha Hm Hl Hb Hf. exists (socket_event c p sa e). split; [by apply run_socket|].
    unfold socket_event. destruct (net_ports p _ e) as [lp rp]. cbn. split_and!; try done.
    apply uint32ToIP_le; [by apply Forall_take, Forall_drop|]. apply length_slice. lia.
  - intros H. destruct p; try done; cbn [run_net];
      unfold exec, handle_connect, handle_bind, handle_accept, reserve, mbind, prog_bind, mret,
        prog_ret, log, modify; cbn beta iota zeta; rewrite (read_sockaddr_other c _ _ H);
      cbn [Z.ltb Z.compare snd]; by rewrite E.
Qed.

(** *** Witnesses *)

Definition demo_net_ctx (umem : memory) : ctx :=
  image_ctx 0 (Z.lor (Z.shiftl 500 32) 501) (Z.lor (Z.shiftl 1000 32) 1000) 1000000 (zs "curl") 0x8000
    demo_kernel umem.

(** 93.184.216.34, port 443 *)
Definition demo_sockaddr : list Z := [2; 0; 1; 187; 93; 184; 216; 34] ++ zeros 8.

Definition demo_net_slot : net_event :=
  NetEvent 0 0 0 0 0 9 9 9 9 9 9 9 9 (zeros 16) (zs "old.example" ++ zeros 117).

Lemma socket_record_witness :
  let c := demo_net_ctx [(0x7000, demo_sockaddr)] in
  ∃ ev, exec (run_net c LITTLE_ENDIAN (Some demo_net_slot) N_connect [3; 0x7000; 16]) []
        = [] ++ [Reserve; Submit ev] ∧
     ne_syscall_kind ev = net_kind N_connect ∧ ne_family ev = AF_INET_ ∧
     ne_tgid ev = u32 (cx_tgid c) ∧ ne_pid ev = cx_pid c ∧ ne_uid ev = cx_uid c ∧ ne_gid ev = cx_gid c ∧
     (ne_local_port ev, ne_remote_port ev)
     = net_ports N_connect (be_val (slice demo_sockaddr 2 2)) demo_net_slot ∧
     uint32ToIP (ne_daddr_v4 ev) = slice demo_sockaddr 4 4.
Proof.
  refine (proj1 (socket_record (demo_net_ctx [(0x7000, demo_sockaddr)]) N_connect [3; 0x7000; 16]
            demo_net_slot [] (image_ctx_ok _ _ _ _ _ _ _ _) _) demo_sockaddr _ _ _ _ _).
  - done.
  - done.
  - apply image_umem_at. vm_compute. reflexivity.
  - reflexivity.
  - repeat (constructor; [done|]). constructor.
  - reflexivity.
Defined.

(** ** DNS names *)

(** A name in a query: each label after its length, then a zero. *)
Definition dns_name (labels : list (list Z)) : list Z :=
  concat (map (λ l, Z.of_nat (length l) :: l) labels) ++ [0].

Fixpoint join_dots (labels : list (list Z)) : list Z :=
  match labels with
  | [] => []
  | [l] => l
  | l :: labels => l ++ DOT :: join_dots labels
  end.

Definition printable (ch : Z) : Prop := 32 ≤ ch ≤ 126.

(** Labels as host names have them: DNS allows 63 characters. *)
Definition label_ok (l : list Z) : Prop := (0 < length l < 64)%nat ∧ Forall printable l.

(** What the record says of a name: a dot for a length below 32, other than
    the first; a length of 32 to 63 is a character. *)
Fixpoint dns_text (started : bool) (labels : list (list Z)) : list Z :=
  match labels with
  | [] => []
  | l :: labels =>
      (if (length l <? 32)%nat then if started then [DOT] else [] else [Z.of_nat (length l)])
      ++ l ++ dns_text true labels
  end.

Lemma dns_text_joined labels : Forall (λ l, length l < 32)%nat labels → dns_text false labels = join_dots labels.
Proof.
  assert (H : ∀ b, Forall (λ l, length l < 32)%nat labels → labels ≠ [] →
    dns_text b labels = (if b then [DOT] else []) ++ join_dots labels); [|by destruct labels; [|intros; apply H]].
  induction labels as [|l ls IH]; intros b Hl Hne; [done|]. apply Forall_cons in Hl as [Hl Hls].
  cbn [dns_text]. rewrite (proj2 (Nat.ltb_lt _ _) Hl). f_equal.
  destruct ls as [|l' ls]; [cbn; by rewrite app_nil_r|]. rewrite IH by done. done.
Qed.

Lemma printable_all l : forallb (λ x, (32 <=? x) && (x <=? 126)) l = true → Forall printable l.
Proof.
  rewrite forallb_forall, Forall_forall. intros H x Hx. apply list_elem_of_In, H in Hx.
  unfold printable. lia.
Qed.

(** The characters the loop writes, [started] when one was written before. *)
Fixpoint host_chars (scratch : list Z) (started : bool) : list Z :=
  match scratch with
  | [] => []
  | ch :: scratch =>
      if ch =? 0 then []
      else if (ch <? 32) || (126 <? ch)
           then if started then DOT :: host_chars scratch true else host_chars scratch false
           else ch :: host_chars scratch true
  end.

Lemma splice_step (out : nat) (host t : list Z) ch :
  (out < length host)%nat →
  splice (<[out:=ch]> host) (S out) t = splice host out (ch :: t).
Proof.
  intros Ho. unfold splice. rewrite (insert_take_drop _ out) by done.
  assert (Hlen : length (take out host) = out) by (rewrite length_take; lia).
  replace (take (S out) (take out host ++ ch :: drop (S out) host)) with (take out host ++ [ch]).
  2: { rewrite take_app_ge by lia. rewrite Hlen. replace (S out - out)%nat with 1%nat by lia. done. }
  rewrite <- (assoc_L (++)). f_equal. cbn [app]. f_equal. f_equal.
  rewrite drop_app_ge by lia. rewrite Hlen.
  replace (S out + length t - out)%nat with (S (length t)) by lia. cbn [drop length].
  rewrite drop_drop. f_equal. lia.
Qed.

(** The loop never reaches the end of [host] on the 64 bytes it reads. *)
Lemma host_loop_chars s out host :
  (out + length s < MAX_HOST_LEN)%nat → length host = MAX_HOST_LEN →
  let t := host_chars s (0 <? out)%nat in
  host_loop s out host = ((out + length t)%nat, splice host out t).
Proof.
  revert out host; induction s as [|ch s IH]; intros out host Ho Hh; cbn [length] in *.
  { cbn. by rewrite splice_nil, Nat.add_0_r. }
  cbn [host_loop host_chars].
  destruct (ch =? 0); [cbn; by rewrite splice_nil, Nat.add_0_r|].
  assert (Hlt : (out <? MAX_HOST_LEN - 1)%nat = true) by (apply Nat.ltb_lt; lia).
  rewrite Hlt. destruct (_ || _).
  - destruct (0 <? out)%nat eqn:E; cbn [andb].
    + rewrite (IH (S out)) by (rewrite ?length_insert; lia). change (0 <? S out)%nat with true.
      rewrite splice_step by (unfold MAX_HOST_LEN in *; lia). cbn [length]. f_equal. lia.
    + rewrite IH by lia. by rewrite E.
  - rewrite (IH (S out)) by (rewrite ?length_insert; lia). change (0 <? S out)%nat with true.
    rewrite splice_step by (unfold MAX_HOST_LEN in *; lia). cbn [length]. f_equal. lia.
Qed.

Lemma host_chars_label l s b : Forall printable l → l ≠ [] →
  host_chars (l ++ s) b = l ++ host_chars s true.
Proof.
  intros Hl Hne. destruct l as [|x l]; [done|]. clear Hne. revert x b Hl.
  induction l as [|y l IH]; intros x b Hl; apply Forall_cons in Hl as [Hx Hl]; unfold printable in Hx;
    cbn [app host_chars]; rewrite (proj2 (Z.eqb_neq x 0)), (proj2 (Z.ltb_ge x 32)),
      (proj2 (Z.ltb_ge 126 x)) by lia; cbn [orb]; [done|].
  f_equal. by apply (IH y true).
Qed.

Lemma host_chars_len n s b : (0 < n < 32)%nat →
  host_chars (Z.of_nat n :: s) b = (if b then [DOT] else []) ++ host_chars s b.
Proof.
  intros Hn. cbn [host_chars]. rewrite (proj2 (Z.eqb_neq _ 0)), (proj2 (Z.ltb_lt _ 32)) by lia.
  by destruct b.
Qed.

Lemma host_chars_labels labels s b : Forall label_ok labels →
  host_chars (concat (map (λ l, Z.of_nat (length l) :: l) labels) ++ 0 :: s) b = dns_text b labels.
Proof.
  intros Hf. revert b. induction Hf as [|l labels [Hlen Hl] Hf IH]; intros b; [by destruct b|].
  assert (Hne : l ≠ []) by (intros ->; cbn in Hlen; lia).
  cbn [map concat dns_text app]. rewrite <- (assoc_L (++)). destruct (Nat.ltb_spec (length l) 32).
  - rewrite host_chars_len by lia. f_equal. by rewrite host_chars_label, IH by done.
  - etrans; [apply (host_chars_label [Z.of_nat (length l)]); [|done]|].
    { repeat constructor; unfold printable; lia. }
    cbn [app]. f_equal. by rewrite host_chars_label, IH by done.
Qed.

Lemma host_chars_no_nul q : ∀ b, Forall (λ x, x ≠ 0) (host_chars q b).
Proof.
  induction q as [|ch q IH]; intros b; cbn [host_chars]; [constructor|].
  destruct (Z.eqb_spec ch 0); [constructor|]. destruct (_ || _); [|by constructor].
  destruct b; [by constructor|apply IH].
Qed.

Lemma cstr_no_nul_app t r : Forall (λ x, x ≠ 0) t → cstr (t ++ r) = t ++ cstr r.
Proof.
  induction 1 as [|x t Hx Ht IH]; [done|]. cbn [app cstr]. by rewrite (proj2 (Z.eqb_neq x 0) Hx), IH.
Qed.

(** C35. What the record of a DNS query says.  A sendto of more than 12
    bytes to port 53 over IPv4 whose 64 bytes after the first 12 can be read
    gives one record, with the address and the port.  Its host begins with
    those bytes up to the first NUL, a dot for each that is not printable
    (none before the first printable one); the rest of the host is what the
    slot held, since no NUL is written.  So for a name within the 64 bytes,
    of labels of 1 to 63 printable characters, the agent reads the labels,
    each after a dot if it is shorter than 32, and after its length byte as a
    character if not, and then the rest of the old host: the labels joined by
    dots if all are shorter than 32. *)
Theorem dns_host_of_a_query (c : ctx) args e sa q s :
  ctx_ok c → nth 1 args 0 ≠ 0 → nth 4 args 0 ≠ 0 → umem_at c (nth 4 args 0) sa →
  length sa = 16%nat → is_bytes sa → sin_family LITTLE_ENDIAN sa = AF_INET_ →
  be_val (slice sa 2 2) = 53 → 12 < u32 (nth 2 args 0) →
  umem_at c (field (nth 1 args 0) 12) q → length q = 64%nat → length (ne_host e) = MAX_HOST_LEN →
  ∃ ev, exec (handle_sendto c LITTLE_ENDIAN (Some e) args) s = s ++ [Reserve; Submit ev] ∧
    ne_syscall_kind ev = SYSCALL_DNS ∧ ne_remote_port ev = 53 ∧
    uint32ToIP (ne_daddr_v4 ev) = slice sa 4 4 ∧
    ne_host ev = splice (ne_host e) 0 (host_chars q false) ∧
    ∀ labels, q = dns_name labels ++ drop (length (dns_name labels)) q → Forall label_ok labels →
      let t := dns_text false labels in
      host_text ev = t ++ cstr (drop (length t) (ne_host e)) ∧
      (Forall (λ l, length l < 32)%nat labels → t = join_dots labels).
Proof.
  intros Hc Hb Ha Hsa Hlsa Hbsa Hf Hp Hlen Hq Hlq Hh.
  unfold exec, handle_sendto. rewrite (proj2 (Z.eqb_neq _ 0) Hb), (proj2 (Z.eqb_neq _ 0) Ha).
  cbn [orb]. rewrite (Hsa 16%nat) by lia. cbn [fst snd]. rewrite (take_ge sa) by lia.
  change (0 <? 0) with false. cbn beta iota. rewrite Hf.
  assert (Hport : bpf_ntohs LITTLE_ENDIAN false (sin_port LITTLE_ENDIAN sa) = 53).
  { unfold sin_port. cbn [load_native bpf_ntohs]. rewrite (bswap_le_val' 2); [done| |].
    - by apply Forall_take, Forall_drop.
    - apply length_slice. lia. }
  rewrite Hport. cbn [AF_INET_ Z.eqb Pos.eqb negb orb].
  unfold reserve, mbind, prog_bind, mret, prog_ret, log, modify. cbn beta iota zeta.
  rewrite (proj2 (Z.ltb_lt 12 _) Hlen). rewrite (Hq 64%nat) by lia. cbn [fst snd Z.eqb].
  rewrite (take_ge q) by lia.
  set (e1 := set_peer _ _ _ _).
  assert (He1 : ne_host e1 = ne_host e) by (subst e1; by destruct e).
  rewrite host_loop_chars; [|cbn; unfold MAX_HOST_LEN; lia|by rewrite He1].
  cbn [Nat.ltb Nat.leb fst snd]. rewrite He1.
  eexists. split; [by rewrite <- (assoc_L (++))|].
  assert (Hip : uint32ToIP (le_val (slice sa 4 4)) = slice sa 4 4).
  { apply uint32ToIP_le; [by apply Forall_take, Forall_drop|]. apply length_slice. lia. }
  subst e1. destruct e. cbn in *. split_and!; try done. intros labels Hname Hlab.
  assert (Hch : host_chars q false = dns_text false labels).
  { rewrite Hname. unfold dns_name. rewrite <- (assoc_L (++)). cbn [app]. by rewrite host_chars_labels. }
  split; [|apply dns_text_joined]. unfold host_text. cbn [ne_host]. rewrite Hch.
  unfold splice. rewrite take_0. cbn [app Nat.add]. apply cstr_no_nul_app. rewrite <- Hch. apply host_chars_no_nul.
Qed.

(** A long label, and a short one. *)
Definition demo_labels : list (list Z) := [replicate 40 97; zs "org"].
Definition demo_query : list Z := dns_name demo_labels ++ zeros 18.

Lemma dns_host_of_a_query_witness :
  let c := demo_net_ctx [(0x7000, [2; 0; 0; 53; 1; 1; 1; 1] ++ zeros 8); (0x800C, demo_query)] in
  ∃ ev, exec (handle_sendto c LITTLE_ENDIAN (Some demo_net_slot) [3; 0x8000; 64; 0; 0x7000; 16]) []
        = [] ++ [Reserve; Submit ev] ∧
    uint32ToIP (ne_daddr_v4 ev) = slice ([2; 0; 0; 53; 1; 1; 1; 1] ++ zeros 8) 4 4 ∧
    ne_host ev = splice (ne_host demo_net_slot) 0 (host_chars demo_query false) ∧
    host_text ev = (40 :: replicate 40 97 ++ zs ".org") ++ cstr (drop 45 (ne_host demo_net_slot)).
Proof.
  destruct (dns_host_of_a_query
    (demo_net_ctx [(0x7000, [2; 0; 0; 53; 1; 1; 1; 1] ++ zeros 8); (0x800C, demo_query)])
    [3; 0x8000; 64; 0; 0x7000; 16] demo_net_slot ([2; 0; 0; 53; 1; 1; 1; 1] ++ zeros 8) demo_query [])
    as (ev & He & _ & _ & Hip & Hh & Hl).
  - apply image_ctx_ok.
  - done.
  - done.
  - apply image_umem_at. vm_compute. reflexivity.
  - reflexivity.
  - repeat (constructor; [done|]). constructor.
  - reflexivity.
  - reflexivity.
  - vm_compute. reflexivity.
  - apply image_umem_at. vm_compute. reflexivity.
  - reflexivity.
  - reflexivity.
  - exists ev. split; [exact He|]. split; [exact Hip|]. split; [exact Hh|].
    destruct (Hl demo_labels) as [Ht _]; [reflexivity| |].
    + repeat (constructor; [split; [vm_compute; lia|by apply printable_all]|]). constructor.
    + etrans; [exact Ht|]. reflexivity.
Defined.

(** ** What is left over from an older record *)

(** The host in the log of a connect, bind or accept is not of that
    call: these programs never write the record's host (nor its source
    address, nor for connect and accept its local port), so the agent prints
    whatever the ring-buffer memory held before. *)
Theorem socket_host_is_left_over (c : ctx) o p args e s ev :
  p ≠ N_sendto → exec (run_net c o (Some e) p args) s = s ++ [Reserve; Submit ev] →
  ne_host ev = ne_host e ∧ ne_saddr_v4 ev = ne_saddr_v4 e ∧ ne_pad ev = ne_pad e ∧
  (p ≠ N_bind → ne_local_port ev = ne_local_port e) ∧ (p = N_bind → ne_proto ev = ne_proto e).
Proof.
  intros Hp.
  assert (E : ∀ a b : ring_op, (s ++ [a]) ++ [b] = s ++ [a; b]) by (intros; by rewrite <- (assoc_L (++))).
  assert (R : ∀ e' a r e2, read_sockaddr c o e' a = (r, e2) →
    ne_host e2 = ne_host e' ∧ ne_saddr_v4 e2 = ne_saddr_v4 e' ∧ ne_pad e2 = ne_pad e' ∧
    ne_local_port e2 = ne_local_port e' ∧ ne_proto e2 = ne_proto e').
  { intros e' a r e2. unfold read_sockaddr. destruct e'. repeat case_match; intros; by simplify_eq. }
  destruct p; try done; cbn [run_net];
    unfold exec, handle_connect, handle_bind, handle_accept, reserve, mbind, prog_bind, mret,
      prog_ret, log, modify; cbn beta iota zeta; destruct (read_sockaddr _ _ _ _) as [r e2] eqn:Er;
    apply R in Er as (R1 & R2 & R3 & R4 & R5); destruct (r <? 0); cbn [snd]; rewrite E;
    intros Hs%app_inv_head; try discriminate Hs; injection Hs as <-;
    destruct e, e2; cbn in *; split_and!; done.
Qed.

(** The agent's line for a connect shows "old.example". *)
Lemma socket_host_is_left_over_witness :
  let c := demo_net_ctx [(0x7000, demo_sockaddr)] in
  let ev := hd demo_net_slot (submitted (exec (run_net c LITTLE_ENDIAN (Some demo_net_slot) N_connect
              [3; 0x7000; 16]) [])) in
  host_text ev = zs "old.example" ∧
  (ne_host ev = ne_host demo_net_slot ∧ ne_saddr_v4 ev = ne_saddr_v4 demo_net_slot ∧
   ne_pad ev = ne_pad demo_net_slot ∧
   (N_connect ≠ N_bind → ne_local_port ev = ne_local_port demo_net_slot) ∧
   (N_connect = N_bind → ne_proto ev = ne_proto demo_net_slot)).
Proof.
  split; [vm_compute; reflexivity|].
  apply (socket_host_is_left_over (demo_net_ctx [(0x7000, demo_sockaddr)]) LITTLE_ENDIAN N_connect
           [3; 0x7000; 16] demo_net_slot []); [done|vm_compute; reflexivity].
Defined.

(** A DNS label of 32 or more characters is logged with its length
    byte in front, which is a printable character itself: the loop takes it
    for part of the name. *)
Theorem long_label_keeps_its_length l pad host :
  (32 ≤ length l ≤ 62)%nat → Forall printable l → length (dns_name [l] ++ pad) = 64%nat →
  length host = MAX_HOST_LEN →
  host_loop (dns_name [l] ++ pad) 0 host
  = (S (length l), splice host 0 (Z.of_nat (length l) :: l)).
Proof.
  intros Hl Hp H64 Hh. rewrite host_loop_chars by (rewrite ?H64; unfold MAX_HOST_LEN; lia || done).
  cbn [Nat.ltb Nat.leb]. replace (host_chars _ _) with (Z.of_nat (length l) :: l); [done|].
  unfold dns_name. cbn [map concat app]. rewrite app_nil_r, <- (assoc_L (++)). cbn [app].
  rewrite (app_comm_cons l (0 :: pad)). rewrite host_chars_label; [by rewrite app_nil_r| |done].
  constructor; [unfold printable; lia|done].
Qed.

Lemma long_label_keeps_its_length_witness :
  host_loop (dns_name [replicate 40 97] ++ zeros 22) 0 (zeros 128)
  = (41%nat, splice (zeros 128) 0 (40 :: replicate 40 97)).
Proof.
  apply (long_label_keeps_its_length (replicate 40 97) (zeros 22) (zeros 128));
    [vm_compute; lia|by apply printable_all|reflexivity|reflexivity].
Defined.
