(* ===== verification/Wire.v ===== *)
(** * Records on the ring buffers

    The programs write C structs into the ring buffers; the agent's Go
    decoders read them back by hand-written offsets.  Here are the
    declarations of the four records and the decoders; the places of the
    members are [CLayout]'s. *)
From Stdlib Require Import ZArith Lia String.
From stdpp Require Import base tactics list gmap strings.
From S2P Require Import Prelude.
From S2P Require Import CLayout.
From S2P Require Import Kernel.
From S2P Require Import PathWalk.
From S2P Require Import Scenario.
From S2P Require Import Linsensor.
From S2P Require Import Prevent.
From S2P Require Import PreventProps.
From S2P Require Import PreventPolicy.
From S2P Require Import Execve.
From S2P Require Import Netwatch.
Local Open Scope Z_scope.

(** ** The four records

    [store_<record>] is the ring-buffer slot after every member was
    assigned; padding keeps what it held. *)

Definition u8_t := c_uchar.
Definition u16_t := c_ushort.
Definition u32_t := c_uint.
Definition s32_t := c_int.
Definition u64_t := c_ulong.
Definition s64_t := c_long.
Definition chars (n : nat) := CArr (Z.of_nat n) c_char.

Definition sensor_event_members : list (declr * ctype) :=
  ["ts" ∷ u64_t; "ret" ∷ s64_t; "arg0" ∷ u64_t; "arg1" ∷ u64_t; "arg2" ∷ u64_t;
   "kind" ∷ u32_t; "pid" ∷ u32_t; "tgid" ∷ u32_t; "ppid" ∷ u32_t; "uid" ∷ u32_t; "euid" ∷ u32_t;
   "dfd" ∷ s32_t; "dfd2" ∷ s32_t; "comm" ∷ chars 16; "path" ∷ chars PATH_LEN;
   "path2" ∷ chars PATH_LEN; "dir" ∷ chars PATH_LEN; "dir2" ∷ chars PATH_LEN]%c.

Definition sensor_event_vals (e : sensor_event) : list (string * list Z) :=
  [("ts", le_bytes 8 (ev_ts e)); ("ret", le_bytes 8 (ev_ret e)); ("arg0", le_bytes 8 (ev_arg0 e));
   ("arg1", le_bytes 8 (ev_arg1 e)); ("arg2", le_bytes 8 (ev_arg2 e)); ("kind", le_bytes 4 (ev_kind e));
   ("pid", le_bytes 4 (ev_pid e)); ("tgid", le_bytes 4 (ev_tgid e)); ("ppid", le_bytes 4 (ev_ppid e));
   ("uid", le_bytes 4 (ev_uid e)); ("euid", le_bytes 4 (ev_euid e)); ("dfd", le_bytes 4 (ev_dfd e));
   ("dfd2", le_bytes 4 (ev_dfd2 e)); ("comm", ev_comm e); ("path", ev_path e); ("path2", ev_path2 e);
   ("dir", ev_dir e); ("dir2", ev_dir2 e)]%string.

Definition decision_members : list (declr * ctype) :=
  ["ts" ∷ u64_t; "pid" ∷ u32_t; "tgid" ∷ u32_t; "ppid" ∷ u32_t; "uid" ∷ u32_t; "rule" ∷ u32_t;
   "action" ∷ u32_t; "comm" ∷ chars 16; "path" ∷ chars PATH_LEN; "parent" ∷ chars Prevent.NAME_LEN]%c.

Definition decision_vals (d : Prevent.decision) : list (string * list Z) :=
  [("ts", le_bytes 8 (Prevent.dec_ts d)); ("pid", le_bytes 4 (Prevent.dec_pid d));
   ("tgid", le_bytes 4 (Prevent.dec_tgid d)); ("ppid", le_bytes 4 (Prevent.dec_ppid d));
   ("uid", le_bytes 4 (Prevent.dec_uid d)); ("rule", le_bytes 4 (Prevent.dec_rule d));
   ("action", le_bytes 4 (Prevent.dec_action d)); ("comm", Prevent.dec_comm d);
   ("path", Prevent.dec_path d); ("parent", Prevent.dec_parent d)]%string.

Definition exec_event_members : list (declr * ctype) :=
  ["timestamp_ns" ∷ u64_t; "pid" ∷ u32_t; "ppid" ∷ u32_t; "uid" ∷ u32_t; "gid" ∷ u32_t;
   "comm" ∷ chars 16; "filename" ∷ chars Execve.MAX_FILENAME_LEN;
   "parent_filename" ∷ chars Execve.MAX_FILENAME_LEN; "args" ∷ chars Execve.ARGS_BUF_LEN;
   "args_size" ∷ u32_t; "args_count" ∷ u32_t; "args_truncated" ∷ u8_t]%c.

Definition exec_event_vals (e : Execve.exec_event) : list (string * list Z) :=
  [("timestamp_ns", le_bytes 8 (Execve.ee_timestamp_ns e)); ("pid", le_bytes 4 (Execve.ee_pid e));
   ("ppid", le_bytes 4 (Execve.ee_ppid e)); ("uid", le_bytes 4 (Execve.ee_uid e));
   ("gid", le_bytes 4 (Execve.ee_gid e)); ("comm", Execve.ee_comm e);
   ("filename", Execve.ee_filename e); ("parent_filename", Execve.ee_parent_filename e);
   ("args", Execve.ee_args e); ("args_size", le_bytes 4 (Execve.ee_args_size e));
   ("args_count", le_bytes 4 (Execve.ee_args_count e));
   ("args_truncated", le_bytes 1 (Execve.ee_args_truncated e))]%string.

Definition net_event_members : list (declr * ctype) :=
  ["timestamp_ns" ∷ u64_t; "pid" ∷ u32_t; "tgid" ∷ u32_t; "uid" ∷ u32_t; "gid" ∷ u32_t;
   "syscall_kind" ∷ u8_t; "family" ∷ u8_t; "proto" ∷ u8_t; "pad" ∷ u8_t;
   "local_port" ∷ u16_t; "remote_port" ∷ u16_t; "saddr_v4" ∷ u32_t; "daddr_v4" ∷ u32_t;
   "comm" ∷ chars 16; "host" ∷ chars Netwatch.MAX_HOST_LEN]%c.

Definition net_event_vals (e : Netwatch.net_event) : list (string * list Z) :=
  [("timestamp_ns", le_bytes 8 (Netwatch.ne_timestamp_ns e)); ("pid", le_bytes 4 (Netwatch.ne_pid e));
   ("tgid", le_bytes 4 (Netwatch.ne_tgid e)); ("uid", le_bytes 4 (Netwatch.ne_uid e));
   ("gid", le_bytes 4 (Netwatch.ne_gid e)); ("syscall_kind", le_bytes 1 (Netwatch.ne_syscall_kind e));
   ("family", le_bytes 1 (Netwatch.ne_family e)); ("proto", le_bytes 1 (Netwatch.ne_proto e));
   ("pad", le_bytes 1 (Netwatch.ne_pad e)); ("local_port", le_bytes 2 (Netwatch.ne_local_port e));
   ("remote_port", le_bytes 2 (Netwatch.ne_remote_port e));
   ("saddr_v4", le_bytes 4 (Netwatch.ne_saddr_v4 e)); ("daddr_v4", le_bytes 4 (Netwatch.ne_daddr_v4 e));
   ("comm", Netwatch.ne_comm e); ("host", Netwatch.ne_host e)]%string.

Definition store_sensor_event (e : sensor_event) (slot : list Z) : list Z :=
  set_members (c_struct sensor_event_members) (sensor_event_vals e) slot.
Definition store_decision (d : Prevent.decision) (slot : list Z) : list Z :=
  set_members (c_struct decision_members) (decision_vals d) slot.
Definition store_exec_event (e : Execve.exec_event) (slot : list Z) : list Z :=
  set_members (c_struct exec_event_members) (exec_event_vals e) slot.
Definition store_net_event (e : Netwatch.net_event) (slot : list Z) : list Z :=
  set_members (c_struct net_event_members) (net_event_vals e) slot.

(** [bpf_ringbuf_reserve] of [sizeof] the record. *)
Definition slot_of (ms : list (declr * ctype)) (slot : list Z) : Prop :=
  Z.of_nat (length slot) = sizeof (c_struct ms).

(** ** The decoders *)

(** [binary.LittleEndian.Uint64(b[off:])] and the narrower forms. *)
Definition le_uint (n : nat) (b : list Z) (off : nat) : Z := le_val (slice b off n).

(** [cstr(b[off : off+n])] *)
Definition cstr_at (b : list Z) (off n : nat) : list Z := cstr (slice b off n).

(** linsensor/event.go *)
Record rawEvent := RawEvent {
  raw_kind : Z; raw_pid : Z; raw_tgid : Z; raw_ppid : Z; raw_uid : Z; raw_euid : Z;
  raw_dfd : Z; raw_dfd2 : Z; raw_ret : Z; raw_arg0 : Z; raw_arg1 : Z; raw_arg2 : Z;
  raw_comm : list Z; raw_path : list Z; raw_path2 : list Z; raw_dir : list Z; raw_dir2 : list Z;
  raw_ts : Z;
}.

Definition sensor_recordSize : nat := 88 + 4 * 256.

Definition decodeRaw (b : list Z) : option rawEvent :=
  if decide (length b < sensor_recordSize)%nat then None else
  Some (RawEvent
    (le_uint 4 b 40) (le_uint 4 b 44) (le_uint 4 b 48) (le_uint 4 b 52) (le_uint 4 b 56)
    (le_uint 4 b 60) (s32 (le_uint 4 b 64)) (s32 (le_uint 4 b 68)) (s64 (le_uint 8 b 8))
    (le_uint 8 b 16) (le_uint 8 b 24) (le_uint 8 b 32)
    (cstr_at b 72 16) (cstr_at b 88 256) (cstr_at b (88 + 256) 256) (cstr_at b (88 + 2 * 256) 256)
    (cstr_at b (88 + 3 * 256) 256) (le_uint 8 b 0)).

(** prevent/lsm_linux.go, [read]: what is reported, by the policy of the
    moment ([nil] before the first). *)
Record lsm_decision := LsmDecision {
  ld_rule : compiled; ld_blocked : bool; ld_pid : Z; ld_ppid : Z; ld_uid : Z;
  ld_comm : list Z; ld_path : list Z; ld_parent : list Z;
}.

Definition decisionBytes : nat := 48 + 256 + 32.

Definition read_decision (policy : option (list compiled)) (b : list Z) : option lsm_decision :=
  if decide (length b < decisionBytes)%nat then None else
  rules ← policy;
  rule ← rules !! Z.to_nat (le_uint 4 b 24);
  Some (LsmDecision rule (le_uint 4 b 28 =? Prevent.ACT_BLOCK)
    (le_uint 4 b 12) (le_uint 4 b 16) (le_uint 4 b 20)
    (cstr_at b 32 16) (cstr_at b 48 256) (cstr_at b (48 + 256) 32)).

(** procexec/procexec.go, [decodeExec]: what the log line is made of. *)
Record exec_line := ExecLine {
  xl_pid : Z; xl_ppid : Z; xl_uid : Z; xl_image : list Z; xl_args : list (list Z);
  xl_command_line : list Z; xl_parent : list Z; xl_comm : list Z; xl_truncated : bool;
}.

Definition exec_recordMinSize : nat := 8 + 4 * 4 + 16 + 256 * 2 + 1024 + 4 + 4 + 1.

Definition decodeExec (b : list Z) : option exec_line :=
  if decide (length b < exec_recordMinSize)%nat then None else
  let filename := cstr_at b 40 256 in
  let argsBuf := slice b 552 1024 in
  let argsSize := le_uint 4 b 1576 in
  if decide (filename = []) then None else
  let commandLine := Execve.joinArgs argsBuf argsSize in
  Some (ExecLine (le_uint 4 b 8) (le_uint 4 b 12) (le_uint 4 b 16) filename
    (Execve.splitArgs argsBuf argsSize)
    (if decide (commandLine = []) then filename else commandLine)
    (cstr_at b 296 256) (cstr_at b 24 16) (negb (le_uint 1 b 1584 =? 0))).

(** netwatch/netwatch.go, [decode] as the read loop calls it. *)
Definition net_recordSize : nat := 8 + 4 * 4 + 4 + 2 + 2 + 4 + 4 + 16 + 128.

Definition decode_net (raw : list Z) : option Netwatch.net_event :=
  if decide (length raw < net_recordSize)%nat then None else
  Some (Netwatch.NetEvent (le_uint 8 raw 0) (le_uint 4 raw 8) (le_uint 4 raw 12) (le_uint 4 raw 16)
    (le_uint 4 raw 20) (le_uint 1 raw 24) (le_uint 1 raw 25) (le_uint 1 raw 26) (le_uint 1 raw 27)
    (le_uint 2 raw 28) (le_uint 2 raw 30) (le_uint 4 raw 32) (le_uint 4 raw 36)
    (slice raw 40 16) (slice raw 56 128)).

(** ** What a stored member reads as *)

Section decode.
Context (ms : list (declr * ctype)) (vals : list (string * list Z)) (slot : list Z).
Hypothesis Hwf : wf_type (c_struct ms) = true.
Hypothesis Hvals : Forall (fits AStruct ms) vals.
Hypothesis Hnd : NoDup (map (λ xv, index_of (fst xv) ms) vals).
Hypothesis Hslot : slot_of ms slot.

Local Abbreviation rec := (set_members (c_struct ms) vals slot).

Lemma slice_member x v o :
  (x, v) ∈ vals → offsetof (c_struct ms) [x] = Some (Z.of_nat o) → slice rec o (length v) = v.
Proof. intros Hin Ho. by apply (slice_set_members AStruct ms Hwf vals slot x). Qed.

Lemma le_uint_member x n z o :
  (x, le_bytes n z) ∈ vals → offsetof (c_struct ms) [x] = Some (Z.of_nat o) →
  le_uint n rec o = wrap (8 * Z.of_nat n) z.
Proof.
  intros Hin Ho. unfold le_uint. pose proof (slice_member x _ o Hin Ho) as H.
  rewrite length_le_bytes in H. rewrite H, le_val_le_bytes. unfold wrap. f_equal.
  change 256 with (2 ^ 8). rewrite <- Z.pow_mul_r by lia. done.
Qed.

Lemma slice_chars x l o n :
  (x, l) ∈ vals → length l = n → offsetof (c_struct ms) [x] = Some (Z.of_nat o) → slice rec o n = l.
Proof. intros Hin <- Ho. by apply (slice_member x). Qed.

Lemma cstr_at_member x l o n :
  (x, l) ∈ vals → length l = n → offsetof (c_struct ms) [x] = Some (Z.of_nat o) → cstr_at rec o n = cstr l.
Proof. intros. unfold cstr_at. f_equal. by apply (slice_chars x). Qed.
End decode.

(** Reads the member [x] of the record the goal decodes. *)
Ltac in_vals := repeat (apply list_elem_of_here || apply list_elem_of_further).
Ltac member x :=
  match goal with
  | Hd : wf_type (c_struct ?ms) = true, Hv : Forall _ ?vals, Hn : NoDup _, Hs : slot_of ?ms _ |- _ =>
      let o := eval vm_compute in (Z.to_nat (default 0 (offsetof (c_struct ms) [x]))) in
      first
        [ erewrite (le_uint_member ms vals _ Hd Hv Hn Hs x _ _ o); [|in_vals|reflexivity]
        | erewrite (cstr_at_member ms vals _ Hd Hv Hn Hs x _ o); [|in_vals|done|reflexivity]
        | erewrite (slice_chars ms vals _ Hd Hv Hn Hs x _ o); [|in_vals|done|reflexivity] ]
  end.

(** A record's facts: the declaration is well-formed, the values fit their
    members, each member has one, and the slot is not too short for the
    decoder. *)
Ltac fits_member :=
  eexists; split; [reflexivity|split; [reflexivity|]]; cbn [snd];
  first [rewrite length_le_bytes | match goal with H : length ?l = _ |- context [length ?l] => rewrite H end];
  reflexivity.
Ltac record_facts ms vals slot min :=
  assert (Hd : wf_type (c_struct ms) = true) by reflexivity;
  assert (Hv : Forall (fits AStruct ms) vals) by (repeat (apply Forall_cons_2; [fits_member|]); apply Forall_nil_2);
  assert (Hnd : NoDup (map (λ xv, index_of (fst xv) ms) vals)) by (apply (bool_decide_unpack _); vm_compute; exact I);
  assert (Hm : ¬ (length (set_members (c_struct ms) vals slot) < min)%nat)
    by (match goal with
        | Hs : slot_of _ _ |- _ =>
            intros Hlt; pose proof (length_set_members AStruct ms Hd vals slot Hv Hs) as El;
            let n := eval vm_compute in (sizeof (c_struct ms)) in
            let m := eval vm_compute in min in
            assert (Hn' : Z.of_nat (length slot) = n) by exact Hs;
            change (length (set_members (CAgg AStruct ms) vals slot) < m)%nat in Hlt;
            rewrite El in Hlt; lia
        end).

Lemma decodeRaw_store e slot :
  event_ok e → length (ev_comm e) = 16%nat → slot_of sensor_event_members slot →
  decodeRaw (store_sensor_event e slot) =
    Some (RawEvent (u32 (ev_kind e)) (u32 (ev_pid e)) (u32 (ev_tgid e)) (u32 (ev_ppid e))
            (u32 (ev_uid e)) (u32 (ev_euid e)) (s32 (ev_dfd e)) (s32 (ev_dfd2 e)) (s64 (ev_ret e))
            (u64 (ev_arg0 e)) (u64 (ev_arg1 e)) (u64 (ev_arg2 e)) (cstr (ev_comm e))
            (cstr (ev_path e)) (cstr (ev_path2 e)) (cstr (ev_dir e)) (cstr (ev_dir2 e)) (u64 (ev_ts e))).
Proof.
  intros [] Hc Hs. unfold store_sensor_event. record_facts sensor_event_members (sensor_event_vals e) slot sensor_recordSize.
  unfold decodeRaw. rewrite decide_False by done.
  member "kind"%string. member "pid"%string. member "tgid"%string. member "ppid"%string. member "uid"%string. member "euid"%string.
  member "dfd"%string. member "dfd2"%string. member "ret"%string. member "arg0"%string. member "arg1"%string. member "arg2"%string.
  member "comm"%string. member "path"%string. member "path2"%string. member "dir"%string. member "dir2"%string. member "ts"%string.
  unfold s32, s64. by rewrite !swrap_wrap.
Qed.

Lemma read_decision_store d slot rules :
  length (Prevent.dec_comm d) = 16%nat → length (Prevent.dec_path d) = PATH_LEN →
  length (Prevent.dec_parent d) = Prevent.NAME_LEN → slot_of decision_members slot →
  read_decision (Some rules) (store_decision d slot) =
    (rule ← rules !! Z.to_nat (u32 (Prevent.dec_rule d));
     Some (LsmDecision rule (u32 (Prevent.dec_action d) =? Prevent.ACT_BLOCK)
             (u32 (Prevent.dec_tgid d)) (u32 (Prevent.dec_ppid d)) (u32 (Prevent.dec_uid d))
             (cstr (Prevent.dec_comm d)) (cstr (Prevent.dec_path d)) (cstr (Prevent.dec_parent d)))).
Proof.
  intros Hc Hp Hn Hs. unfold store_decision. record_facts decision_members (decision_vals d) slot decisionBytes.
  unfold read_decision. rewrite decide_False by done. cbn [mbind option_bind].
  member "rule"%string. destruct (rules !! _) as [r|]; [|done]. cbn [mbind option_bind].
  member "action"%string. member "tgid"%string. member "ppid"%string. member "uid"%string. member "comm"%string. member "path"%string. by member "parent"%string.
Qed.

Lemma decodeExec_store e slot :
  Execve.slot_ok e → length (Execve.ee_comm e) = 16%nat → slot_of exec_event_members slot →
  decodeExec (store_exec_event e slot) =
    let filename := cstr (Execve.ee_filename e) in
    let line := Execve.joinArgs (Execve.ee_args e) (u32 (Execve.ee_args_size e)) in
    if decide (filename = []) then None else
    Some (ExecLine (u32 (Execve.ee_pid e)) (u32 (Execve.ee_ppid e)) (u32 (Execve.ee_uid e)) filename
            (Execve.splitArgs (Execve.ee_args e) (u32 (Execve.ee_args_size e)))
            (if decide (line = []) then filename else line)
            (cstr (Execve.ee_parent_filename e)) (cstr (Execve.ee_comm e))
            (negb (u8 (Execve.ee_args_truncated e) =? 0))).
Proof.
  intros [] Hc Hs. unfold store_exec_event. record_facts exec_event_members (exec_event_vals e) slot exec_recordMinSize.
  unfold decodeExec. rewrite decide_False by done. cbv zeta.
  member "filename"%string. member "args"%string. member "args_size"%string. destruct (decide (cstr _ = [])); [done|].
  member "pid"%string. member "ppid"%string. member "uid"%string. member "parent_filename"%string. member "comm"%string. by member "args_truncated"%string.
Qed.

Lemma decode_net_store e slot :
  length (Netwatch.ne_comm e) = 16%nat → length (Netwatch.ne_host e) = Netwatch.MAX_HOST_LEN →
  slot_of net_event_members slot →
  decode_net (store_net_event e slot) =
    Some (Netwatch.NetEvent (u64 (Netwatch.ne_timestamp_ns e)) (u32 (Netwatch.ne_pid e))
            (u32 (Netwatch.ne_tgid e)) (u32 (Netwatch.ne_uid e)) (u32 (Netwatch.ne_gid e))
            (u8 (Netwatch.ne_syscall_kind e)) (u8 (Netwatch.ne_family e)) (u8 (Netwatch.ne_proto e))
            (u8 (Netwatch.ne_pad e)) (u16 (Netwatch.ne_local_port e)) (u16 (Netwatch.ne_remote_port e))
            (u32 (Netwatch.ne_saddr_v4 e)) (u32 (Netwatch.ne_daddr_v4 e))
            (Netwatch.ne_comm e) (Netwatch.ne_host e)).
Proof.
  intros Hc Hh Hs. unfold store_net_event. record_facts net_event_members (net_event_vals e) slot net_recordSize.
  unfold decode_net. rewrite decide_False by done.
  member "timestamp_ns"%string. member "pid"%string. member "tgid"%string. member "uid"%string. member "gid"%string. member "syscall_kind"%string. member "family"%string.
  member "proto"%string. member "pad"%string. member "local_port"%string. member "remote_port"%string. member "saddr_v4"%string. member "daddr_v4"%string.
  member "comm"%string. by member "host"%string.
Qed.

(** ** Properties *)

(** C13. The agent's decoders read the records the programs write: each
    record's C layout has the size its decoder expects (the exec record ends
    in 7 bytes of padding the decoder does not ask for), and over any slot of
    that size the decoder gives back every member it reads, integers at
    their width and signedness and character arrays up to the first NUL (the
    network record's two arrays whole; the log line cuts them).  The sensor's
    and the network record's decoders read every member; that of decisions
    all but the time and the thread, with the rule at the record's number in
    the policy; that of execs all but the time, the group and the number of
    arguments. *)
Theorem records_decode :
  (sizeof (c_struct sensor_event_members) = Z.of_nat sensor_recordSize ∧
   sizeof (c_struct decision_members) = Z.of_nat decisionBytes ∧
   sizeof (c_struct exec_event_members) = Z.of_nat exec_recordMinSize + 7 ∧
   sizeof (c_struct net_event_members) = Z.of_nat net_recordSize) ∧
  (∀ e slot, event_ok e → length (ev_comm e) = 16%nat → slot_of sensor_event_members slot →
     decodeRaw (store_sensor_event e slot) =
       Some (RawEvent (u32 (ev_kind e)) (u32 (ev_pid e)) (u32 (ev_tgid e)) (u32 (ev_ppid e))
               (u32 (ev_uid e)) (u32 (ev_euid e)) (s32 (ev_dfd e)) (s32 (ev_dfd2 e)) (s64 (ev_ret e))
               (u64 (ev_arg0 e)) (u64 (ev_arg1 e)) (u64 (ev_arg2 e)) (cstr (ev_comm e))
               (cstr (ev_path e)) (cstr (ev_path2 e)) (cstr (ev_dir e)) (cstr (ev_dir2 e))
               (u64 (ev_ts e)))) ∧
  (∀ d slot rules, length (Prevent.dec_comm d) = 16%nat → length (Prevent.dec_path d) = PATH_LEN →
     length (Prevent.dec_parent d) = Prevent.NAME_LEN → slot_of decision_members slot →
     read_decision (Some rules) (store_decision d slot) =
       (rule ← rules !! Z.to_nat (u32 (Prevent.dec_rule d));
        Some (LsmDecision rule (u32 (Prevent.dec_action d) =? Prevent.ACT_BLOCK)
                (u32 (Prevent.dec_tgid d)) (u32 (Prevent.dec_ppid d)) (u32 (Prevent.dec_uid d))
                (cstr (Prevent.dec_comm d)) (cstr (Prevent.dec_path d)) (cstr (Prevent.dec_parent d))))) ∧
  (∀ e slot, Execve.slot_ok e → length (Execve.ee_comm e) = 16%nat →
     slot_of exec_event_members slot →
     decodeExec (store_exec_event e slot) =
       let filename := cstr (Execve.ee_filename e) in
       let line := Execve.joinArgs (Execve.ee_args e) (u32 (Execve.ee_args_size e)) in
       if decide (filename = []) then None else
       Some (ExecLine (u32 (Execve.ee_pid e)) (u32 (Execve.ee_ppid e)) (u32 (Execve.ee_uid e)) filename
               (Execve.splitArgs (Execve.ee_args e) (u32 (Execve.ee_args_size e)))
               (if decide (line = []) then filename else line)
               (cstr (Execve.ee_parent_filename e)) (cstr (Execve.ee_comm e))
               (negb (u8 (Execve.ee_args_truncated e) =? 0)))) ∧
  (∀ e slot, length (Netwatch.ne_comm e) = 16%nat → length (Netwatch.ne_host e) = Netwatch.MAX_HOST_LEN →
     slot_of net_event_members slot →
     decode_net (store_net_event e slot) =
       Some (Netwatch.NetEvent (u64 (Netwatch.ne_timestamp_ns e)) (u32 (Netwatch.ne_pid e))
               (u32 (Netwatch.ne_tgid e)) (u32 (Netwatch.ne_uid e)) (u32 (Netwatch.ne_gid e))
               (u8 (Netwatch.ne_syscall_kind e)) (u8 (Netwatch.ne_family e)) (u8 (Netwatch.ne_proto e))
               (u8 (Netwatch.ne_pad e)) (u16 (Netwatch.ne_local_port e)) (u16 (Netwatch.ne_remote_port e))
               (u32 (Netwatch.ne_saddr_v4 e)) (u32 (Netwatch.ne_daddr_v4 e))
               (Netwatch.ne_comm e) (Netwatch.ne_host e))).
Proof.
  split; [by vm_compute|]. split; [exact decodeRaw_store|]. split; [exact read_decision_store|].
  split; [exact decodeExec_store|].
  exact decode_net_store.
Qed.

Lemma cstr_fixed (n : nat) (s : list Z) : c_str n s → cstr (fixed s n) = s.
Proof.
  intros [Hn Hs]. unfold fixed. rewrite take_ge by lia.
  replace (n - length s)%nat with (S (n - length s - 1)) by lia. by apply cstr_app_nul.
Qed.

Lemma rule_act_block r : (u32 (rule_act r) =? Prevent.ACT_BLOCK) = r_block r.
Proof. unfold rule_act. by destruct (r_block r). Qed.

(** A decision reaches the agent whole: when a policy is loaded and a
    rule of it matches an execution, the record [check_exec] writes into its
    ring-buffer slot is decoded, over whatever the slot held before, as that
    very rule, whether it was blocked, the process and its parent and user,
    its name, the executed path and the parent image's base name. *)
Theorem decision_reaches_the_agent {KL : KernelLayout} stat major minor iter rules s (c : ctx) ns bprm rest v
    path child parent sc i r slot :
  policy_ok rules → names_fit rules → (∀ m, iter m ≡ₚ map_to_list m) → pst_shape s → pst_ok s →
  ctx_ok c → holds_ns c ns → holds_keys c ns → sees_exec c ns bprm v →
  same_exec stat major minor rules v path child parent →
  array_lookup (Prevent.prevent_config s) 1 ≠ Some (cx_tgid c) →
  percpu_lookup (Prevent.scratch_map s) (cx_cpu c) 0 = Some sc → pp_ok (Prevent.sc_parts sc) →
  match_ rules path child parent = Some i → rules !! i = Some r →
  length (cx_comm c) = 16%nat → slot_of decision_members slot →
  ∃ s' d, apply stat major minor iter rules s = (true, s') ∧
    Prevent.decisions (exec (Prevent.check_exec c true (bprm :: rest)) s') = Prevent.decisions s ++ [d] ∧
    read_decision (Some rules) (store_decision d slot) =
      Some (LsmDecision r (r_block r) (u32 (cx_tgid c)) (u32 (Prevent.dec_ppid d)) (u32 (cx_uid c))
              (cstr (cx_comm c)) path parent).
Proof.
  intros Hok Hfit Hi Hsh Hsok Hc Hns Hk Hse Hv Hself Hsc Hpp Hm Hr Hcomm Hslot.
  destruct (loaded_run stat major minor iter rules s c ns bprm rest v path child parent true sc Hok Hfit
              Hi Hsh Hsok Hc Hns Hk Hse Hv Hself Hsc Hpp) as (s' & Ha & Hrun).
  exists s', (decision_of c v (Z.of_nat i) (rule_act r)). split; [done|]. unfold exec.
  destruct (Prevent.check_exec c true (bprm :: rest) s') as [ret s1].
  rewrite Hm in Hrun. destruct Hrun as (r' & Hr' & _ & Hd). assert (r' = r) as -> by congruence.
  split; [done|].
  assert (Hi' : 0 ≤ Z.of_nat i < 2 ^ 32).
  { pose proof (pk_rules _ Hok). apply lookup_lt_Some in Hr. unfold Prevent.MAX_RULES in *. change (2 ^ 32) with 4294967296. lia. }
  rewrite read_decision_store; try done.
  - cbn [decision_of Prevent.dec_rule Prevent.dec_action Prevent.dec_tgid Prevent.dec_uid Prevent.dec_comm
         Prevent.dec_path Prevent.dec_parent].
    rewrite (u32_small (Z.of_nat i)), Nat2Z.id, Hr by done. cbn [mbind option_bind].
    rewrite rule_act_block. unfold view_key, view_pbase.
    rewrite (se_path _ _ _ _ _ _ _ _ Hv), (se_parent _ _ _ _ _ _ _ _ Hv).
    rewrite (cstr_fixed PATH_LEN) by (eapply se_path_ok, Hv).
    rewrite (cstr_fixed Prevent.NAME_LEN) by (eapply se_parent_ok, Hv).
    unfold u32. by rewrite wrap_wrap.
  - by apply length_fixed, Nat.ltb_lt.
  - by apply length_fixed, Nat.ltb_lt.
Qed.

(** An exec record of "ls" with the arguments "ls" and "-l". *)
Definition demo_exec : Execve.exec_event :=
  Execve.ExecEvent 5 700 1 1000 1000 (fixed (zs "bash") 16) (fixed (zs "/bin/ls") 256)
    (fixed (zs "/bin/bash") 256) (zs "ls" ++ [0] ++ zs "-l" ++ zeros 1019) 6 2 0.

(** A decision about /etc/shadow, by the policy's second rule. *)
Definition demo_decided : Prevent.decision :=
  Prevent.Decision 5 701 700 77 1000 1 Prevent.ACT_BLOCK (fixed (zs "bash") 16) (fixed (zs "/etc/shadow") 256)
    (fixed (zs "sh") 32).

Lemma records_decode_witness :
  decodeExec (store_exec_event demo_exec (replicate 1592 255))
  = Some (ExecLine 700 1 1000 (zs "/bin/ls") [zs "ls"; zs "-l"] (zs "ls -l") (zs "/bin/bash")
            (zs "bash") false) ∧
  read_decision (Some [dir_rule (zs "/bin") false; dir_rule (zs "/etc") true])
    (store_decision demo_decided (replicate 336 7))
  = Some (LsmDecision (dir_rule (zs "/etc") true) true 700 77 1000 (zs "bash") (zs "/etc/shadow") (zs "sh")).
Proof.
  destruct records_decode as (_ & _ & Hd & He & _). split.
  - rewrite (He demo_exec (replicate 1592 255)).
    + vm_compute. done.
    + split; vm_compute; done.
    + vm_compute. done.
    + vm_compute. done.
  - rewrite (Hd demo_decided (replicate 336 7)); vm_compute; done.
Defined.

Lemma decision_reaches_the_agent_witness :
  let rules := [dir_rule (zs "/etc") true] in
  let c := demo_ctx 0 500 500 1000 0 0 0 0 in
  ∃ s' d, apply demo_stat demo_dev_major demo_dev_minor map_to_list rules demo_maps = (true, s') ∧
    Prevent.decisions (exec (Prevent.check_exec c true [0xA000]) s') = Prevent.decisions demo_maps ++ [d] ∧
    read_decision (Some rules) (store_decision d (replicate 336 7)) =
      Some (LsmDecision (dir_rule (zs "/etc") true) true (u32 (cx_tgid c)) (u32 (Prevent.dec_ppid d))
              (u32 (cx_uid c)) (cstr (cx_comm c)) (zs "/etc/shadow") (zs "shadow")).
Proof.
  apply (decision_reaches_the_agent demo_stat demo_dev_major demo_dev_minor map_to_list
           [dir_rule (zs "/etc") true] demo_maps (demo_ctx 0 500 500 1000 0 0 0 0) demo_ns 0xA000 []
           demo_view (zs "/etc/shadow") (zs "shadow") (zs "shadow")
           (Prevent.Scratch pp_zero (zeros 256) (zeros 32) (zeros 32)) 0%nat
           (dir_rule (zs "/etc") true)); try reflexivity.
  - apply (dir_policy_ok [(zs "/etc", true)]); [cbn; lia|]. constructor; [by apply zs_no_nul|done].
  - apply (dir_policy_ok [(zs "/etc", true)]); [cbn; lia|]. constructor; [by apply zs_no_nul|done].
  - apply demo_maps_shape.
  - apply demo_maps_ok.
  - apply demo_ctx_ok.
  - apply demo_holds.
  - apply demo_holds_keys.
  - apply demo_sees.
  - apply demo_same_exec.
  - vm_compute. done.
  - split; reflexivity.
Defined.
