(* ===== verification/KvParse.v ===== *)
(** * The worker's parser of log lines (worker/worker/decoder_engine.py)

    [_parse_kv], which the decoders of type kv use, on lists of code points
    (see [Transport] for the string the worker gets).  Which characters
    outside ASCII Python's \w and \s hold is a parameter; nothing that is
    proved depends on it.  A line that is pure ASCII is the list of its
    bytes. *)
From Stdlib Require Import ZArith Lia.
From stdpp Require Import base tactics list gmap.
Local Open Scope Z_scope.

Fixpoint span (f : Z → bool) (s : list Z) : list Z * list Z :=
  match s with
  | [] => ([], [])
  | b :: s' => if f b then let '(x, y) := span f s' in (b :: x, y) else ([], s)
  end.

(** The rest of a quoted string: what is before the closing quote, and
    what is after. *)
Fixpoint quoted (s : list Z) : option (list Z * list Z) :=
  match s with
  | [] => None
  | b :: s =>
      if b =? 34 then Some ([], s)
      else if b =? 92 then
        match s with
        | [] => None
        | e :: s => if e =? 10 then None else '(v, rest) ← quoted s; Some (b :: e :: v, rest)
        end
      else '(v, rest) ← quoted s; Some (b :: v, rest)
  end.

Section parser.
Context (uni_word uni_space : Z → bool).

Definition is_word (b : Z) : bool :=
  ((48 <=? b) && (b <=? 57)) || ((65 <=? b) && (b <=? 90)) || (b =? 95) || ((97 <=? b) && (b <=? 122))
  || ((128 <=? b) && uni_word b).
Definition is_space (b : Z) : bool :=
  ((9 <=? b) && (b <=? 13)) || ((28 <=? b) && (b <=? 32)) || ((128 <=? b) && uni_space b).

(** [_KV_RE] at the start of [s]: the key, the value, the rest. *)
Definition match_at (s : list Z) : option (list Z * list Z * list Z) :=
  match span is_word s with
  | (b :: key, eq :: s) =>
      if eq =? 61 then
        match (match s with q :: s => if q =? 34 then quoted s else None | [] => None end) with
        | Some (v, rest) => Some (b :: key, 34 :: v ++ [34], rest)
        | None =>
            match span (λ b, negb (is_space b)) s with
            | ([], _) => None
            | (v, rest) => Some (b :: key, v, rest)
            end
        end
      else None
  | _ => None
  end.

(** [_KV_RE.findall]; each turn takes a byte, so the length of [s] is enough
    turns. *)
Fixpoint findall (n : nat) (s : list Z) : list (list Z * list Z) :=
  match n, s with
  | O, _ | _, [] => []
  | S n, _ :: s' =>
      match match_at s with
      | Some (k, v, rest) => (k, v) :: findall n rest
      | None => findall n s'
      end
  end.

(** [_KV_UNESCAPE_RE.sub] *)
Fixpoint unescape (s : list Z) : list Z :=
  match s with
  | [] => []
  | b :: s =>
      if b =? 92 then
        match s with
        | e :: s' => if (e =? 34) || (e =? 92) then e :: unescape s' else b :: unescape s
        | [] => [b]
        end
      else b :: unescape s
  end.

(** The value of a pair. *)
Definition value_of (v : list Z) : list Z :=
  if (2 <=? length v)%nat && bool_decide (head v = Some 34) && bool_decide (last v = Some 34)
  then unescape (removelast (drop 1 v))
  else if bool_decide (last v = Some 39) && (length (filter (λ b : Z, b = 39%Z) v) =? 1)%nat
  then removelast v
  else v.

(** [_parse_kv] *)
Definition parse_kv (s : list Z) : gmap (list Z) (list Z) :=
  foldl (λ m kv, <[fst kv := value_of (snd kv)]> m) ∅ (findall (length s) s).
End parser.
