(* ===== verification/Transport.v ===== *)
(** * Lines on their way to the worker (client.go)

    The agent posts its log lines as JSON; the worker gets the text as a
    string of characters.  JSON carries text: [json.Marshal] writes a byte
    that is not part of valid UTF-8 as the replacement character.
    [received] is a line as the worker sees it, by code points; what follows
    is that this commutes with putting a line together and with quoting. *)
From Stdlib Require Import ZArith Lia Ascii String.
From stdpp Require Import base tactics list.
From S2P Require Import Prelude.
Local Open Scope Z_scope.

(** ** UTF-8, as Go decodes it *)

Definition in_range (lo hi b : Z) : bool := (lo <=? b) && (b <=? hi).

(** The sequences of two, three and four bytes. *)
Definition utf8_2 (b c1 : Z) : bool := in_range 0xC2 0xDF b && in_range 0x80 0xBF c1.
Definition utf8_3 (b c1 c2 : Z) : bool :=
  in_range 0xE0 0xEF b
  && in_range (if b =? 0xE0 then 0xA0 else 0x80) (if b =? 0xED then 0x9F else 0xBF) c1 && in_range 0x80 0xBF c2.
Definition utf8_4 (b c1 c2 c3 : Z) : bool :=
  in_range 0xF0 0xF4 b
  && in_range (if b =? 0xF0 then 0x90 else 0x80) (if b =? 0xF4 then 0x8F else 0xBF) c1
  && in_range 0x80 0xBF c2 && in_range 0x80 0xBF c3.

(** The character that starts with [b], not ASCII, and how many of the bytes
    [s] after it belong to it. *)
Definition multi (b : Z) (s : list Z) : option (Z * nat) :=
  match s with
  | [] => None
  | c1 :: s =>
      if utf8_2 b c1 then Some ((b - 0xC0) * 64 + (c1 - 0x80), 1%nat) else
      match s with
      | [] => None
      | c2 :: s =>
          if utf8_3 b c1 c2 then Some (((b - 0xE0) * 64 + (c1 - 0x80)) * 64 + (c2 - 0x80), 2%nat) else
          match s with
          | [] => None
          | c3 :: _ =>
              if utf8_4 b c1 c2 c3
              then Some ((((b - 0xF0) * 64 + (c1 - 0x80)) * 64 + (c2 - 0x80)) * 64 + (c3 - 0x80), 3%nat)
              else None
          end
      end
  end.

(** U+FFFD *)
Definition replacement_char : Z := 0xFFFD.

(** The characters of a byte string, its first [skip] bytes belonging to the
    one before. *)
Fixpoint chars_of (skip : nat) (s : list Z) : list Z :=
  match s with
  | [] => []
  | b :: s =>
      match skip with
      | S skip => chars_of skip s
      | O =>
          if b <? 0x80 then b :: chars_of 0 s else
          match multi b s with
          | Some (ch, k) => ch :: chars_of k s
          | None => replacement_char :: chars_of 0 s
          end
      end
  end.

Definition received (s : list Z) : list Z := chars_of 0 s.

Example received_ex :
  received (zs "/tmp/" ++ [0xC3; 0xA9; 0xFF; 0xE2; 0x82; 0xAC; 0xED; 0xA0; 0x80; 0xF0; 0x9F; 0x98; 0x80])
  = zs "/tmp/" ++ [0xE9; 0xFFFD; 0x20AC; 0xFFFD; 0xFFFD; 0xFFFD; 0x1F600].
Proof. reflexivity. Qed.

(** ** Runs of bytes outside ASCII *)

(** The bytes up to the first ASCII character. *)
Fixpoint high (s : list Z) : list Z :=
  match s with
  | [] => []
  | b :: s => if b <? 0x80 then [] else b :: high s
  end.

Lemma in_range_iff lo hi b : in_range lo hi b = true ↔ lo ≤ b ≤ hi.
Proof. unfold in_range. lia. Qed.

Lemma multi_high b s : multi b s = multi b (high s).
Proof.
  assert (H2 : ∀ c, c < 0x80 → utf8_2 b c = false) by (unfold utf8_2, in_range; lia).
  assert (H3 : ∀ c c', c < 0x80 ∨ c' < 0x80 → utf8_3 b c c' = false).
  { unfold utf8_3, in_range. intros c c' H. destruct (b =? 0xE0), (b =? 0xED); lia. }
  assert (H4 : ∀ c c' c'', c < 0x80 ∨ c' < 0x80 ∨ c'' < 0x80 → utf8_4 b c c' c'' = false).
  { unfold utf8_4, in_range. intros c c' c'' H. destruct (b =? 0xF0), (b =? 0xF4); lia. }
  destruct s as [|c1 s]; [done|]. cbn [high multi].
  destruct (Z.ltb_spec c1 0x80); cbn [multi].
  { rewrite H2 by done. destruct s as [|c2 s]; [done|]. rewrite H3 by auto.
    destruct s as [|c3 s]; [done|]. by rewrite H4 by auto. }
  destruct (utf8_2 b c1); [done|]. destruct s as [|c2 s]; [done|]. cbn [high].
  destruct (Z.ltb_spec c2 0x80); cbn [multi].
  { rewrite H3 by auto. destruct s as [|c3 s]; [done|]. by rewrite H4 by auto. }
  destruct (utf8_3 b c1 c2); [done|]. destruct s as [|c3 s]; [done|]. cbn [high].
  destruct (Z.ltb_spec c3 0x80); [|done]. by rewrite H4 by auto.
Qed.

(** The first [k] bytes are there, and none is ASCII. *)
Definition inside (k : nat) (s : list Z) : Prop := (k ≤ length (high s))%nat.

Lemma multi_inside b s ch k : multi b s = Some (ch, k) → inside k s ∧ 0x80 ≤ ch.
Proof.
  unfold inside. rewrite multi_high. generalize (high s). clear s. intros s. unfold multi.
  destruct s as [|c1 s]; [done|].
  destruct (utf8_2 b c1) eqn:E2.
  { intros [= <- <-]. unfold utf8_2 in E2. rewrite andb_true_iff, !in_range_iff in E2. cbn [length]. lia. }
  destruct s as [|c2 s]; [done|]. destruct (utf8_3 b c1 c2) eqn:E3.
  { intros [= <- <-]. unfold utf8_3 in E3. rewrite !andb_true_iff, !in_range_iff in E3. cbn [length].
    destruct (Z.eqb_spec b 0xE0), (Z.eqb_spec b 0xED); lia. }
  destruct s as [|c3 s]; [done|]. destruct (utf8_4 b c1 c2 c3) eqn:E4; [|done].
  intros [= <- <-]. unfold utf8_4 in E4. rewrite !andb_true_iff, !in_range_iff in E4. cbn [length].
  destruct (Z.eqb_spec b 0xF0), (Z.eqb_spec b 0xF4); lia.
Qed.

Lemma inside_0 s : inside 0 s.
Proof. unfold inside. lia. Qed.

Lemma inside_S k b s : inside (S k) (b :: s) → 0x80 ≤ b ∧ inside k s.
Proof. unfold inside. cbn [high]. destruct (Z.ltb_spec b 0x80); cbn [length]; [lia|]. split; [lia|lia]. Qed.

(** ** Lines put together *)

(** Text that starts with an ASCII character, or is empty. *)
Definition starts_ascii (r : list Z) : Prop := match r with [] => True | b :: _ => b < 0x80 end.

Lemma high_app s r : starts_ascii r → high (s ++ r) = high s.
Proof.
  intros Hr. induction s as [|b s IH]; cbn [app high].
  - destruct r as [|b r]; [done|]. cbn in *. by rewrite (proj2 (Z.ltb_lt b 0x80)).
  - destruct (b <? 0x80); [done|]. by rewrite IH.
Qed.

Lemma chars_of_app s r : starts_ascii r → ∀ k, inside k s → chars_of k (s ++ r) = chars_of k s ++ received r.
Proof.
  intros Hr. induction s as [|b s IH]; intros k Hk.
  { unfold inside in Hk. cbn in Hk. by replace k with 0%nat by lia. }
  cbn [app chars_of]. destruct k as [|k].
  - destruct (b <? 0x80); cbn [app]; [by rewrite IH by apply inside_0|].
    rewrite (multi_high b (s ++ r)), high_app, <- multi_high by done.
    destruct (multi b s) as [[ch k]|] eqn:E; cbn [app].
    + by rewrite IH by eapply multi_inside, E.
    + by rewrite IH by apply inside_0.
  - apply inside_S in Hk as [_ Hk]. by apply IH.
Qed.

Lemma received_app s r : starts_ascii r → received (s ++ r) = received s ++ received r.
Proof. intros Hr. apply chars_of_app; [done|apply inside_0]. Qed.

Lemma received_ascii s : Forall (λ b, b < 0x80) s → received s = s.
Proof.
  unfold received. induction 1 as [|b s Hb Hs IH]; [done|]. cbn [chars_of].
  by rewrite (proj2 (Z.ltb_lt b 0x80)), IH.
Qed.

Lemma received_ascii_app s r : Forall (λ b, b < 0x80) s → received (s ++ r) = s ++ received r.
Proof.
  intros Hs. induction Hs as [|b s Hb Hs IH]; [done|]. unfold received in *. cbn [app chars_of].
  by rewrite (proj2 (Z.ltb_lt b 0x80)), IH.
Qed.

(** ** Quoting *)

Section quote.
(** A byte-wise replacement of ASCII characters by ASCII text. *)
Context (f : Z → list Z).
Hypothesis f_ascii : ∀ b, b < 0x80 → f b ≠ [] ∧ Forall (λ c, c < 0x80) (f b).
Hypothesis f_high : ∀ b, 0x80 ≤ b → f b = [b].

Lemma high_bind s : high (s ≫= f) = high s.
Proof.
  induction s as [|b s IH]; [done|]. cbn [mbind list_bind high].
  destruct (Z.ltb_spec b 0x80) as [Hb|Hb].
  - destruct (f_ascii b Hb) as [Hne Hf]. destruct (f b) as [|c l]; [done|]. apply Forall_cons in Hf as [Hc _].
    cbn [app high]. by rewrite (proj2 (Z.ltb_lt c 0x80)).
  - rewrite f_high by done. cbn [app high]. rewrite (proj2 (Z.ltb_ge b 0x80)) by done. by rewrite IH.
Qed.

Lemma chars_of_bind s : ∀ k, inside k s → chars_of k (s ≫= f) = chars_of k s ≫= f.
Proof.
  induction s as [|b s IH]; intros k Hk; [by destruct k|]. cbn [mbind list_bind]. destruct k as [|k].
  - cbn [chars_of]. destruct (Z.ltb_spec b 0x80) as [Hb|Hb].
    + destruct (f_ascii b Hb) as [_ Hf]. change (chars_of 0) with received. rewrite received_ascii_app by done.
      cbn [mbind list_bind]. f_equal. apply IH, inside_0.
    + rewrite f_high by done. cbn [app chars_of]. rewrite (proj2 (Z.ltb_ge b 0x80)) by done.
      rewrite (multi_high b (s ≫= f)), high_bind, <- multi_high.
      destruct (multi b s) as [[ch k]|] eqn:E; cbn [mbind list_bind].
      * destruct (multi_inside _ _ _ _ E) as [Hin Hch]. by rewrite f_high, IH.
      * rewrite f_high by (unfold replacement_char; lia). by rewrite IH by apply inside_0.
  - apply inside_S in Hk as [Hb Hk]. rewrite f_high by done. cbn [app chars_of]. by apply IH.
Qed.

Lemma received_bind s : received (s ≫= f) = received s ≫= f.
Proof. apply chars_of_bind, inside_0. Qed.
End quote.

(** ** Characters *)

(** An ASCII character is received exactly where it was sent. *)
Lemma chars_of_ascii c s : c < 0x80 → ∀ k, inside k s → c ∈ chars_of k s ↔ c ∈ s.
Proof.
  intros Hc. induction s as [|b s IH]; intros k Hk; [done|]. cbn [chars_of]. rewrite elem_of_cons. destruct k as [|k].
  - destruct (Z.ltb_spec b 0x80); [by rewrite elem_of_cons, IH by apply inside_0|].
    destruct (multi b s) as [[ch k]|] eqn:E; rewrite elem_of_cons.
    + destruct (multi_inside _ _ _ _ E) as [Hin Hch]. rewrite IH by done. split; intros [->|?]; auto; lia.
    + rewrite IH by apply inside_0. unfold replacement_char. split; intros [->|?]; auto; lia.
  - apply inside_S in Hk as [Hb Hk]. rewrite IH by done. split; [auto|]. intros [->|?]; [lia|done].
Qed.

Lemma received_no_newline s : (10 ∉ s) → (10 ∉ received s).
Proof. intros H. unfold received. by rewrite chars_of_ascii by (lia || apply inside_0). Qed.

Lemma received_nil s : received s = [] ↔ s = [].
Proof.
  unfold received. destruct s as [|b s]; [done|]. cbn [chars_of].
  destruct (b <? 0x80), (multi b s) as [[]|]; done.
Qed.
