(* ===== verification/Lines.v ===== *)
(** * The sensor's log lines (linsensor/event.go)

    The agent prints a record of linsensor as a line of key=value pairs; the
    server's worker parses the line ([KvParse]).  File names, program names
    and images are whatever the watched host calls them. *)
From Stdlib Require Import ZArith Lia Ascii String.
From stdpp Require Import base tactics list gmap.
From S2P Require Import Prelude.
From S2P Require Import Linsensor.
From S2P Require Import SensorData.
From S2P Require Import Wire.
From S2P Require Import KvParse.
From S2P Require Import Transport.
Local Open Scope Z_scope.

(** ** Printing *)

(** [strings.ReplaceAll] of a one-byte string. *)
Definition replace_all (b : Z) (r s : list Z) : list Z :=
  s ≫= λ c, if c =? b then r else [c].

(** [kv] *)
Definition kv (s : list Z) : list Z :=
  34 :: replace_all 10 [92; 110] (replace_all 34 [92; 34] (replace_all 92 [92; 92] s)) ++ [34].

(** [%d] and [%x] of an unsigned integer of at most 64 bits: [fuel] is the
    most digits it can have. *)
Definition digit (d : Z) : Z := if d <? 10 then 48 + d else 87 + d.
Fixpoint digits (base : Z) (fuel : nat) (z : Z) (acc : list Z) : list Z :=
  match fuel with
  | O => acc
  | S fuel =>
      let acc := digit (z mod base) :: acc in
      if z / base =? 0 then acc else digits base fuel (z / base) acc
  end.
Definition fmt_d (z : Z) : list Z := digits 10 20 z [].
Definition fmt_x (z : Z) : list Z := digits 16 16 z [].

Inductive file_action := A_create | A_write | A_rename | A_delete | A_read.

(** [FileEvent], without the time, which is not printed. *)
Record file_event := FileEvent {
  fe_action : file_action;
  fe_path : list Z;
  fe_from : list Z;
  fe_pid : Z;
  fe_ppid : Z;
  fe_uid : Z;
  fe_image : list Z;
  fe_comm : list Z;
  fe_dir : bool;
}.

Definition action_text (a : file_action) : list Z :=
  zs match a with
     | A_create => "create" | A_write => "write" | A_rename => "rename" | A_delete => "delete"
     | A_read => "read"
     end%string.

(** [FileEvent.line] *)
Definition file_line (f : file_event) : list Z :=
  zs "action=" ++ action_text (fe_action f) ++ zs " TargetFilename=" ++ kv (fe_path f)
  ++ (if bool_decide (fe_from f = []) then [] else zs " SourceFilename=" ++ kv (fe_from f))
  ++ (if fe_dir f then zs " IsDirectory=true" else [])
  ++ zs " Image=" ++ kv (fe_image f) ++ zs " Comm=" ++ kv (fe_comm f) ++ zs " PID=" ++ fmt_d (fe_pid f)
  ++ zs " PPID=" ++ fmt_d (fe_ppid f) ++ zs " User=" ++ fmt_d (fe_uid f).

(** The counts of a process's events over its budget ([flushFiles] of
    processor.go prints them). *)
Record file_summary := FileSummary {
  fs_writes : Z;
  fs_renames : Z;
  fs_deletes : Z;
  fs_sample : list Z;
  fs_image : list Z;
  fs_comm : list Z;
  fs_pid : Z;
  fs_ppid : Z;
  fs_uid : Z;
}.

Definition summary_line (f : file_summary) : list Z :=
  zs "action=summary Writes=" ++ fmt_d (fs_writes f) ++ zs " Renames=" ++ fmt_d (fs_renames f)
  ++ zs " Deletes=" ++ fmt_d (fs_deletes f) ++ zs " TargetFilename=" ++ kv (fs_sample f)
  ++ zs " Image=" ++ kv (fs_image f) ++ zs " Comm=" ++ kv (fs_comm f) ++ zs " PID=" ++ fmt_d (fs_pid f)
  ++ zs " PPID=" ++ fmt_d (fs_ppid f) ++ zs " User=" ++ fmt_d (fs_uid f).

(** [identity] *)
Definition identity (ev : rawEvent) (image : list Z) : list Z :=
  zs " Image=" ++ kv image ++ zs " Comm=" ++ kv (raw_comm ev) ++ zs " PID=" ++ fmt_d (raw_tgid ev)
  ++ zs " PPID=" ++ fmt_d (raw_ppid ev) ++ zs " User=" ++ fmt_d (raw_uid ev)
  ++ zs " EUID=" ++ fmt_d (raw_euid ev).

Definition moduleLine (ev : rawEvent) (image : list Z) : list Z :=
  (if raw_kind ev =? K_MODULE_INIT
   then zs "action=load_memory Size=" ++ fmt_d (raw_arg0 ev) ++ zs " Params=" ++ kv (raw_path2 ev)
   else if raw_kind ev =? K_MODULE_FINIT
   then zs "action=load Module=" ++ kv (raw_path ev) ++ zs " Params=" ++ kv (raw_path2 ev)
   else zs "action=unload Module=" ++ kv (raw_path ev))
  ++ identity ev image.

(** [ptraceRequests] *)
Definition ptrace_request (r : Z) : list Z :=
  if r =? 4 then zs "poketext" else if r =? 5 then zs "pokedata" else if r =? 6 then zs "pokeuser"
  else if r =? 13 then zs "setregs" else if r =? 16 then zs "attach"
  else if r =? 0x4206 then zs "seize" else fmt_d r.

Definition ptraceLine (ev : rawEvent) (image target_image : list Z) : list Z :=
  zs "action=" ++ ptrace_request (raw_arg0 ev) ++ zs " TargetPID=" ++ fmt_d (raw_arg1 ev)
  ++ zs " TargetImage=" ++ kv target_image ++ identity ev image.

Inductive access_action := A_vm_read | A_vm_write | A_mem_read | A_mem_write.
Definition access_text (a : access_action) : list Z :=
  zs match a with
     | A_vm_read => "vm_read" | A_vm_write => "vm_write" | A_mem_read => "mem_read"
     | A_mem_write => "mem_write"
     end%string.

Definition accessLine (ev : rawEvent) (a : access_action) (target : Z) (image target_image : list Z) : list Z :=
  zs "action=" ++ access_text a ++ zs " TargetPID=" ++ fmt_d target
  ++ zs " TargetImage=" ++ kv target_image ++ identity ev image.

(** [signedID] prints -1 or the number. *)
Definition id_text (v : Z) : list Z := if v =? -1 then zs "-1" else fmt_d v.

Fixpoint join_comma (l : list (list Z)) : list Z :=
  match l with
  | [] => []
  | [x] => x
  | x :: l => x ++ 44 :: join_comma l
  end.

(** [setIDCalls] *)
Definition setid_call (which : Z) : list Z :=
  if which =? 1 then zs "setuid" else if which =? 2 then zs "setreuid" else if which =? 3 then zs "setresuid"
  else if which =? 4 then zs "setgid" else if which =? 5 then zs "setregid"
  else if which =? 6 then zs "setresgid" else [].

Definition ids_text (ev : rawEvent) : list Z :=
  join_comma (id_text <$> privilege_ids (raw_arg0 ev) (raw_arg1 ev) (raw_arg2 ev)).

Definition privilegeLine (ev : rawEvent) (image parent_image : list Z) : list Z :=
  (if raw_kind ev =? K_CAPSET
   then zs "action=capset Effective=0x" ++ fmt_x (raw_arg0 ev) ++ zs " Permitted=0x" ++ fmt_x (raw_arg1 ev)
   else zs "action=" ++ setid_call (raw_arg0 ev) ++ zs " IDs=" ++ kv (ids_text ev))
  ++ identity ev image ++ zs " ParentImage=" ++ kv parent_image.

Definition memfdLine (ev : rawEvent) (image : list Z) : list Z :=
  zs "MemfdName=" ++ kv (raw_path ev) ++ zs " Flags=0x" ++ fmt_x (raw_arg0 ev) ++ identity ev image.

Definition filelessLine (ev : rawEvent) (parent_image : list Z) : list Z :=
  zs "Image=" ++ kv (raw_path ev) ++ zs " ExecPath=" ++ kv (raw_path2 ev) ++ zs " Links=" ++ fmt_d (raw_arg0 ev)
  ++ zs " Comm=" ++ kv (raw_comm ev) ++ zs " PID=" ++ fmt_d (raw_tgid ev)
  ++ zs " PPID=" ++ fmt_d (raw_ppid ev) ++ zs " User=" ++ fmt_d (raw_uid ev)
  ++ zs " EUID=" ++ fmt_d (raw_euid ev) ++ zs " ParentImage=" ++ kv parent_image.

Definition exitLine (ev : rawEvent) (image : list Z) : list Z :=
  let '(code, sig) := exit_line (raw_arg0 ev) in
  zs "ExitCode=" ++ id_text code ++ zs " Signal=" ++ fmt_d sig ++ identity ev image.

(** ** Quoting *)

(** The agent's [kv]s differ in one replacement: that of procexec.go leaves
    a newline as it is ([nl] is false). *)
Definition esc (nl : bool) (b : Z) : list Z :=
  if b =? 92 then [92; 92] else if b =? 34 then [92; 34] else if nl && (b =? 10) then [92; 110] else [b].

(** procexec.go's [kv] *)
Definition kv_exec (s : list Z) : list Z :=
  34 :: replace_all 34 [92; 34] (replace_all 92 [92; 92] s) ++ [34].

(** What the worker gets back: an escaped newline as a backslash and an n. *)
Definition shown (nl : bool) (s : list Z) : list Z := if nl then replace_all 10 [92; 110] s else s.

(** The replacements do not see each other's results. *)
Lemma kv_esc s : kv s = 34 :: (s ≫= esc true) ++ [34].
Proof.
  unfold kv. f_equal. f_equal. unfold replace_all. induction s as [|b s IH]; [done|].
  cbn [mbind list_bind]. rewrite !bind_app, IH. f_equal. unfold esc.
  destruct (Z.eqb_spec b 92) as [->|H1]; [done|]. cbn. rewrite ?app_nil_r.
  destruct (Z.eqb_spec b 34) as [->|H2]; [done|]. cbn.
  destruct (Z.eqb_spec b 10) as [->|H3]; [done|]. done.
Qed.

Lemma kv_exec_esc s : kv_exec s = 34 :: (s ≫= esc false) ++ [34].
Proof.
  unfold kv_exec. f_equal. f_equal. unfold replace_all. induction s as [|b s IH]; [done|].
  cbn [mbind list_bind]. rewrite !bind_app, IH. f_equal. unfold esc.
  destruct (Z.eqb_spec b 92) as [->|H1]; [done|]. cbn. rewrite ?app_nil_r.
  by destruct (Z.eqb_spec b 34) as [->|H2].
Qed.

Lemma quoted_esc nl s rest : quoted ((s ≫= esc nl) ++ 34 :: rest) = Some (s ≫= esc nl, rest).
Proof.
  induction s as [|b s IH]; [done|]. cbn [mbind list_bind]. rewrite <- (assoc_L (++)). unfold esc at 1 3.
  destruct (Z.eqb_spec b 92) as [->|H1]; [cbn; by rewrite IH|].
  destruct (Z.eqb_spec b 34) as [->|H2]; [cbn; by rewrite IH|].
  destruct (nl && (b =? 10)); [cbn; by rewrite IH|].
  cbn. rewrite (proj2 (Z.eqb_neq b 34)), (proj2 (Z.eqb_neq b 92)) by done. by rewrite IH.
Qed.

Lemma unescape_esc nl s : unescape (s ≫= esc nl) = shown nl s.
Proof.
  assert (Hs : ∀ b s, shown nl (b :: s) = (if nl && (b =? 10) then [92; 110] else [b]) ++ shown nl s).
  { intros b t. unfold shown. destruct nl; [|done]. cbn [replace_all mbind list_bind andb]. done. }
  induction s as [|b s IH]; [by destruct nl|]. rewrite Hs, <- IH. cbn [mbind list_bind]. unfold esc at 1.
  destruct (Z.eqb_spec b 92) as [->|H1]; [by destruct nl|].
  destruct (Z.eqb_spec b 34) as [->|H2]; [by destruct nl|].
  destruct (nl && (b =? 10)); [done|].
  cbn. by rewrite (proj2 (Z.eqb_neq b 92)) by done.
Qed.

Lemma value_of_kv nl s : value_of (34 :: (s ≫= esc nl) ++ [34]) = shown nl s.
Proof.
  unfold value_of. cbn [length head]. rewrite length_app. cbn [length].
  rewrite (proj2 (Nat.leb_le 2 _)), bool_decide_true by (done || lia).
  rewrite app_comm_cons, last_snoc, bool_decide_true by done. cbn [andb app drop].
  by rewrite drop_0, removelast_last, unescape_esc.
Qed.

(** ** Lines as lists of pairs *)

(** A value: quoted by [kv], by procexec.go's [kv], or as it is. *)
Inductive text := Quoted (s : list Z) | Verbatim (s : list Z) | Plain (s : list Z).
Definition pair_text (kt : string * text) : list Z :=
  zs (fst kt) ++ [61] ++ match snd kt with Quoted s => kv s | Verbatim s => kv_exec s | Plain s => s end.
Fixpoint line_of (l : list (string * text)) : list Z :=
  match l with
  | [] => []
  | [kt] => pair_text kt
  | kt :: l => pair_text kt ++ 32 :: line_of l
  end.

(** What the worker should read. *)
Definition text_value (t : text) : list Z := match t with Quoted s => shown true s | Verbatim s | Plain s => s end.
Definition fields (l : list (string * text)) : gmap (list Z) (list Z) :=
  list_to_map ((λ kt, (zs (fst kt), text_value (snd kt))) <$> l).

(** Text that needs no quotes. *)
Definition plain_byte (b : Z) : bool := (33 <=? b) && (b <? 128) && negb (b =? 34) && negb (b =? 39).
Definition pair_ok0 (kt : string * text) : bool :=
  negb (bool_decide (zs (fst kt) = [])) && forallb (is_word (λ _, false)) (zs (fst kt)) &&
  match snd kt with Quoted _ | Verbatim _ => true | Plain s => forallb plain_byte s end.

(** An empty plain value leaves a name without a value. *)
Definition present (kt : string * text) : bool := match snd kt with Plain [] => false | _ => true end.

Definition pair_ok (kt : string * text) : bool := pair_ok0 kt && present kt.

Lemma span_all f x rest : forallb f x = true → (∀ b s, rest = b :: s → f b = false) →
  span f (x ++ rest) = (x, rest).
Proof.
  intros Hx Hr. induction x as [|b x IH]; cbn in *.
  - destruct rest as [|b s]; [done|]. cbn. by rewrite (Hr b s).
  - apply andb_true_iff in Hx as [-> Hx]. by rewrite IH.
Qed.

Section lines.
Context (uni_word uni_space : Z → bool).

Lemma word_ascii b : is_word (λ _, false) b = true → is_word uni_word b = true.
Proof. unfold is_word. rewrite andb_false_r, orb_false_r. intros H. by rewrite H. Qed.

Lemma plain_not_space b : plain_byte b = true → negb (is_space uni_space b) = true.
Proof. unfold plain_byte, is_space. intros H. destruct (uni_space b); lia. Qed.

Definition raw_value (t : text) : list Z :=
  match t with
  | Quoted s => 34 :: (s ≫= esc true) ++ [34]
  | Verbatim s => 34 :: (s ≫= esc false) ++ [34]
  | Plain s => s
  end.

Lemma match_pair k t rest : pair_ok (k, t) = true → (rest = [] ∨ ∃ s, rest = 32 :: s) →
  match_at uni_word uni_space (pair_text (k, t) ++ rest) = Some (zs k, raw_value t, rest).
Proof.
  unfold pair_ok, pair_ok0, pair_text, match_at. cbn [fst snd].
  intros [[[Hne Hw]%andb_true_iff Hp]%andb_true_iff Ht]%andb_true_iff Hrest.
  rewrite <- (assoc_L (++)). rewrite span_all.
  2: { rewrite forallb_forall in *. intros b Hb. by apply word_ascii, Hw. }
  2: { intros b s [= <- _]. unfold is_word. cbn. done. }
  destruct (zs k) as [|b0 k0]; [done|]. cbn [app]. rewrite (Z.eqb_refl 61). destruct t as [s|s|s].
  - rewrite kv_esc. cbn [app]. rewrite (Z.eqb_refl 34), <- (assoc_L (++)). cbn [app]. by rewrite quoted_esc.
  - rewrite kv_exec_esc. cbn [app]. rewrite (Z.eqb_refl 34), <- (assoc_L (++)). cbn [app]. by rewrite quoted_esc.
  - assert (Hspan : span (λ b, negb (is_space uni_space b)) (s ++ rest) = (s, rest)).
    { apply span_all.
      - rewrite forallb_forall in *. intros b Hb. by apply plain_not_space, Hp.
      - intros b s' ->. destruct Hrest as [|[s1 [= -> _]]]; done. }
    rewrite Hspan. destruct s as [|b s]; [done|]. cbn [app raw_value].
    cbn [forallb] in Hp. apply andb_true_iff in Hp as [Hb _]. unfold plain_byte in Hb.
    rewrite (proj2 (Z.eqb_neq b 34)) by lia. done.
Qed.

Lemma pair_text_length k t : (0 < length (pair_text (k, t)))%nat.
Proof. unfold pair_text. rewrite !length_app. cbn. lia. Qed.

(** A name with nothing after its sign is not a pair. *)
Lemma findall_empty k n rest : forallb (is_word uni_word) k = true → (rest = [] ∨ ∃ s, rest = 32 :: s) →
  findall uni_word uni_space (length k + S n) (k ++ 61 :: rest) = findall uni_word uni_space n rest.
Proof.
  intros Hk Hr. induction k as [|b k IH].
  - cbn [length Nat.add app findall]. destruct Hr as [->|[s ->]]; done.
  - pose proof Hk as Hk'. cbn [forallb] in Hk. apply andb_true_iff in Hk as [_ Hk].
    cbn [length Nat.add app findall].
    assert (match_at uni_word uni_space (b :: k ++ 61 :: rest) = None) as ->; [|by apply IH].
    unfold match_at. change (b :: k ++ 61 :: rest) with ((b :: k) ++ 61 :: rest).
    rewrite span_all; [|done|by intros b' s' [= <- _]].
    cbn [app]. rewrite (Z.eqb_refl 61). destruct Hr as [->|[s ->]]; done.
Qed.

Lemma pair0_word k t : pair_ok0 (k, t) = true → forallb (is_word uni_word) (zs k) = true.
Proof.
  unfold pair_ok0. cbn [fst]. intros [[_ Hw]%andb_true_iff _]%andb_true_iff.
  rewrite forallb_forall in *. intros b Hb. by apply word_ascii, Hw.
Qed.

Lemma findall_pair k t n rest : pair_ok0 (k, t) = true → (rest = [] ∨ ∃ s, rest = 32 :: s) →
  (length (pair_text (k, t) ++ rest) ≤ n)%nat → ∃ n', (length rest ≤ n')%nat ∧
  findall uni_word uni_space n (pair_text (k, t) ++ rest)
  = (if present (k, t) then [(zs k, raw_value t)] else []) ++ findall uni_word uni_space n' rest.
Proof.
  intros Hk Hr Hn. pose proof (pair_text_length k t) as Hlen. destruct (present (k, t)) eqn:Hp.
  - assert (Hok : pair_ok (k, t) = true) by (unfold pair_ok; by rewrite Hk, Hp).
    pose proof (match_pair k t rest Hok Hr) as Hm. rewrite length_app in Hn. destruct n as [|n]; [lia|].
    exists n. split; [lia|]. destruct (pair_text (k, t) ++ rest) as [|b s] eqn:E.
    { apply (f_equal length) in E. rewrite length_app in E. cbn [length] in E. lia. }
    cbn [findall]. by rewrite Hm.
  - assert (t = Plain []) as -> by by destruct t as [s|s|[|]].
    unfold pair_text in *. cbn [fst snd] in *. rewrite app_nil_r in *. rewrite <- (assoc_L (++)) in *.
    cbn [app] in *. rewrite length_app in Hn. cbn [length] in Hn.
    exists (n - length (zs k) - 1)%nat. split; [lia|].
    replace n with (length (zs k) + S (n - length (zs k) - 1))%nat at 1 by lia.
    apply findall_empty; [by eapply pair0_word|done].
Qed.

Lemma findall_line l : ∀ n, forallb pair_ok0 l = true → (length (line_of l) ≤ n)%nat →
  findall uni_word uni_space n (line_of l) = (λ kt, (zs (fst kt), raw_value (snd kt))) <$> filter present l.
Proof.
  assert (Hf : ∀ kt l, filter (λ x, present x) (kt :: l)
      = (if present kt then [kt] else []) ++ filter (λ x, present x) l).
  { intros kt l'. rewrite filter_cons. by destruct (present kt). }
  induction l as [|[k t] l IH]; intros n; cbn [forallb]; [by destruct n|].
  intros [Hk Hl]%andb_true_iff. rewrite Hf, fmap_app. destruct l as [|kt l].
  - cbn [line_of]. intros Hn. rewrite <- (app_nil_r (pair_text (k, t))) in *.
    destruct (findall_pair k t n [] Hk (or_introl eq_refl) Hn) as (n' & _ & ->).
    f_equal; [by destruct (present (k, t))|by destruct n'].
  - change (line_of ((k, t) :: kt :: l)) with (pair_text (k, t) ++ 32 :: line_of (kt :: l)). intros Hn.
    destruct (findall_pair k t n (32 :: line_of (kt :: l)) Hk (or_intror (ex_intro _ _ eq_refl)) Hn)
      as (n' & Hn' & ->). f_equal; [by destruct (present (k, t))|].
    cbn [length] in Hn'. destruct n' as [|n']; [lia|]. cbn [findall].
    replace (match_at uni_word uni_space (32 :: line_of (kt :: l))) with
      (None : option (list Z * list Z * list Z)) by done.
    apply IH; [done|lia].
Qed.
End lines.

(** ** The worker's map *)

Lemma value_of_plain s : forallb plain_byte s = true → value_of s = s.
Proof.
  intros Hs. unfold value_of.
  assert (Hin : ∀ b, b ∈ s → b ≠ 34 ∧ b ≠ 39).
  { intros b Hb%list_elem_of_In. rewrite forallb_forall in Hs. apply Hs in Hb. unfold plain_byte in Hb. lia. }
  rewrite (bool_decide_false (head s = Some 34)).
  2: { intros H. destruct s as [|b s]; [done|]. injection H as ->. by destruct (Hin 34 (list_elem_of_here _ _)). }
  rewrite andb_false_r. cbn [andb]. rewrite (bool_decide_false (last s = Some 39)); [done|].
  intros [s' ->]%last_Some. by destruct (Hin 39) as [_ []]; [apply elem_of_app; right; apply list_elem_of_here|].
Qed.

Lemma value_of_raw k t : pair_ok0 (k, t) = true → value_of (raw_value t) = text_value t.
Proof.
  destruct t as [s|s|s]; cbn [raw_value text_value]; [by rewrite value_of_kv..|].
  unfold pair_ok0. cbn [fst snd]. intros [_ Hs]%andb_true_iff. by apply value_of_plain.
Qed.

Lemma foldl_insert_map (l : list (list Z * list Z)) (m : gmap (list Z) (list Z)) : NoDup l.*1 →
  foldl (λ m kv, <[fst kv := snd kv]> m) m l = list_to_map l ∪ m.
Proof.
  revert m. induction l as [|[k v] l IH]; intros m Hnd; cbn [foldl]; [by rewrite list_to_map_nil, (left_id_L ∅ (∪))|].
  cbn [fmap list_fmap fst snd] in *. apply NoDup_cons in Hnd as [Hk Hnd]. rewrite IH by done.
  cbn [list_to_map foldr]. change (list_to_map ((k, v) :: l)) with (<[k := v]> (list_to_map l : gmap (list Z) (list Z))).
  rewrite <- insert_union_l, insert_union_r; [done|]. by apply not_elem_of_list_to_map_1.
Qed.

(** The later of two pairs of the same name wins. *)
Definition fields_in_order (l : list (string * text)) : gmap (list Z) (list Z) :=
  foldl (λ m kv, <[fst kv := snd kv]> m) ∅ ((λ kt, (zs (fst kt), text_value (snd kt))) <$> filter present l).

Lemma parse_pairs uni_word uni_space l : forallb pair_ok0 l = true →
  parse_kv uni_word uni_space (line_of l) = fields_in_order l.
Proof.
  intros Hok. unfold parse_kv, fields_in_order. rewrite findall_line by done.
  assert (Hf : Forall (λ kt, pair_ok0 kt = true) (filter present l)).
  { apply Forall_forall. intros kt [_ Hin]%list_elem_of_filter. rewrite forallb_forall in Hok.
    by apply Hok, list_elem_of_In. }
  generalize (∅ : gmap (list Z) (list Z)) as m. induction Hf as [|[k t] l' Hk Hl IH]; intros m; [done|].
  cbn [fmap list_fmap foldl fst snd]. by rewrite (value_of_raw k t), IH.
Qed.

Lemma parse_line uni_word uni_space l : forallb pair_ok l = true → NoDup ((λ kt, zs (fst kt)) <$> l) →
  parse_kv uni_word uni_space (line_of l) = fields l.
Proof.
  intros Hok Hnd. rewrite forallb_forall in Hok.
  assert (Hp : filter present l = l).
  { clear Hnd. induction l as [|kt l IH]; [done|]. rewrite filter_cons_True.
    - f_equal. apply IH. intros x Hx. apply Hok. by right.
    - specialize (Hok kt (or_introl eq_refl)). apply andb_true_iff in Hok as [_ Hok]. by rewrite Hok. }
  rewrite parse_pairs.
  - unfold fields_in_order, fields. rewrite Hp, foldl_insert_map, (right_id_L ∅ (∪)); [done|].
    by rewrite <- list_fmap_compose.
  - apply forallb_forall. intros kt Hin. by apply Hok, andb_true_iff in Hin as [? _].
Qed.

(** ** Lines as they are received *)

Definition received_text (t : text) : text :=
  match t with Quoted s => Quoted (received s) | Verbatim s => Verbatim (received s) | Plain s => Plain s end.
Definition received_pair (kt : string * text) : string * text := (fst kt, received_text (snd kt)).

Lemma esc_ascii nl b : b < 0x80 → esc nl b ≠ [] ∧ Forall (λ c, c < 0x80) (esc nl b).
Proof.
  intros Hb. unfold esc. destruct (b =? 92); [|destruct (b =? 34); [|destruct (nl && (b =? 10))]];
    (split; [done|]); repeat (apply Forall_cons_2; [lia|]); apply Forall_nil_2.
Qed.

Lemma esc_high nl b : 0x80 ≤ b → esc nl b = [b].
Proof.
  intros Hb. unfold esc. rewrite (proj2 (Z.eqb_neq b 92)), (proj2 (Z.eqb_neq b 34)), (proj2 (Z.eqb_neq b 10)) by lia.
  by rewrite andb_false_r.
Qed.

Lemma received_quoted nl s r : starts_ascii r →
  received ((34 :: (s ≫= esc nl) ++ [34]) ++ r) = (34 :: (received s ≫= esc nl) ++ [34]) ++ received r.
Proof.
  intros Hr. change (received (34 :: ((s ≫= esc nl) ++ [34]) ++ r)
    = 34 :: ((received s ≫= esc nl) ++ [34]) ++ received r).
  rewrite <- !(assoc_L (++)). change (received (34 :: ?x)) with (34 :: received x). f_equal.
  rewrite received_app by done. f_equal. apply received_bind; [apply esc_ascii|apply esc_high].
Qed.

Lemma word_is_ascii b : is_word (λ _, false) b = true → b < 0x80.
Proof. unfold is_word. lia. Qed.

Lemma received_pair_text kt r : pair_ok0 kt = true → starts_ascii r →
  received (pair_text kt ++ r) = pair_text (received_pair kt) ++ received r.
Proof.
  destruct kt as [k t]. unfold pair_ok0, pair_text, received_pair. cbn [fst snd].
  intros [[_ Hw]%andb_true_iff Ht]%andb_true_iff Hr. rewrite forallb_forall in Hw.
  rewrite <- !(assoc_L (++)). rewrite received_ascii_app.
  2: { apply Forall_forall. intros b Hb%list_elem_of_In. by apply word_is_ascii, Hw. }
  f_equal. rewrite received_ascii_app by by repeat constructor. f_equal.
  destruct t as [s|s|s]; cbn [received_text].
  - rewrite !kv_esc. by apply received_quoted.
  - rewrite !kv_exec_esc. by apply received_quoted.
  - apply received_ascii_app. apply Forall_forall. rewrite forallb_forall in Ht.
    intros b Hb%list_elem_of_In%Ht. unfold plain_byte in Hb. lia.
Qed.

Lemma received_line l : forallb pair_ok0 l = true → received (line_of l) = line_of (received_pair <$> l).
Proof.
  induction l as [|kt l IH]; [done|]. cbn [forallb]. intros [Hk Hl]%andb_true_iff.
  destruct l as [|kt' l].
  - cbn [line_of fmap list_fmap]. rewrite <- (app_nil_r (pair_text kt)), received_pair_text by done. by rewrite app_nil_r.
  - change (line_of (kt :: kt' :: l)) with (pair_text kt ++ 32 :: line_of (kt' :: l)).
    rewrite received_pair_text by done. rewrite fmap_cons.
    change (received (32 :: ?x)) with (32 :: received x). by rewrite IH.
Qed.

Lemma received_pair_ok kt : pair_ok kt = true → pair_ok (received_pair kt) = true.
Proof. by destruct kt as [k [s|s|s]]. Qed.

Lemma received_keys (l : list (string * text)) : (λ kt, zs (fst kt)) <$> (received_pair <$> l) = (λ kt, zs (fst kt)) <$> l.
Proof. by rewrite <- list_fmap_compose. Qed.

(** A line of distinct names, as the worker reads what it received. *)
Lemma parse_received uni_word uni_space l : forallb pair_ok l = true → NoDup ((λ kt, zs (fst kt)) <$> l) →
  parse_kv uni_word uni_space (received (line_of l)) = fields (received_pair <$> l).
Proof.
  intros Hok Hnd. rewrite forallb_forall in Hok. rewrite received_line.
  - apply parse_line; [|by rewrite received_keys]. apply forallb_forall.
    intros kt (kt' & -> & Hin%list_elem_of_In%Hok)%list_elem_of_In%list_elem_of_fmap. by apply received_pair_ok.
  - apply forallb_forall. intros kt Hin. by apply Hok, andb_true_iff in Hin as [? _].
Qed.

Lemma received_shown nl s : received (shown nl s) = shown nl (received s).
Proof.
  destruct nl; [|done]. unfold shown, replace_all. apply received_bind.
  - intros b Hb. destruct (b =? 10); (split; [done|]); repeat (apply Forall_cons_2; [lia|]); apply Forall_nil_2.
  - intros b Hb. by rewrite (proj2 (Z.eqb_neq b 10)) by lia.
Qed.

Lemma received_value kt : pair_ok kt = true → text_value (received_text (snd kt)) = received (text_value (snd kt)).
Proof.
  destruct kt as [k [s|s|s]]; cbn [snd received_text text_value]; [by rewrite received_shown|done|].
  unfold pair_ok, pair_ok0. cbn [fst snd]. intros [[_ Hs]%andb_true_iff _]%andb_true_iff.
  rewrite received_ascii; [done|]. apply Forall_forall. rewrite forallb_forall in Hs.
  intros b Hb%list_elem_of_In%Hs. unfold plain_byte in Hb. lia.
Qed.

(** What the worker reads of such a line is what the bytes say, each value
    by its characters. *)
Lemma received_parse uni_word uni_space l : forallb pair_ok l = true → NoDup ((λ kt, zs (fst kt)) <$> l) →
  parse_kv uni_word uni_space (received (line_of l)) = received <$> parse_kv uni_word uni_space (line_of l).
Proof.
  intros Hok Hnd. rewrite parse_received, parse_line by done. unfold fields. rewrite <- list_to_map_fmap.
  f_equal. rewrite <- !list_fmap_compose. apply list_fmap_ext. intros i kt Hi%list_elem_of_lookup_2. cbn.
  rewrite forallb_forall in Hok. by rewrite received_value by by apply Hok, list_elem_of_In.
Qed.

(** ** Numbers *)

Definition digit_val (b : Z) : Z := if b <? 97 then b - 48 else b - 87.
Definition num_val (base : Z) (s : list Z) : Z := foldl (λ a b, a * base + digit_val b) 0 s.

Lemma digit_val_digit d : 0 ≤ d < 16 → digit_val (digit d) = d.
Proof.
  unfold digit, digit_val. intros H.
  destruct (Z.ltb_spec d 10); [rewrite (proj2 (Z.ltb_lt _ 97)) by lia; lia|].
  rewrite (proj2 (Z.ltb_ge _ 97)) by lia. lia.
Qed.

Lemma digits_val base n : 1 < base ≤ 16 → ∀ z acc, 0 ≤ z < base ^ Z.of_nat n →
  foldl (λ a b, a * base + digit_val b) 0 (digits base n z acc)
  = foldl (λ a b, a * base + digit_val b) z acc.
Proof.
  intros Hb. induction n as [|n IH]; intros z acc Hz; cbn [digits].
  { by replace z with 0 by (cbn in Hz; lia). }
  pose proof (Z.mod_pos_bound z base). pose proof (Z.div_mod z base).
  assert (Hd : 0 ≤ z / base < base ^ Z.of_nat n).
  { rewrite Nat2Z.inj_succ, Z.pow_succ_r in Hz by lia. split; [apply Z.div_pos; lia|].
    apply Z.div_lt_upper_bound; lia. }
  destruct (Z.eqb_spec (z / base) 0) as [E|_]; [|rewrite IH by done];
    cbn [foldl]; rewrite digit_val_digit by lia; f_equal; lia.
Qed.

(** A number is read back from its digits. *)
Lemma fmt_d_val z : 0 ≤ z < 2 ^ 64 → num_val 10 (fmt_d z) = z.
Proof. intros Hz. unfold num_val, fmt_d. rewrite digits_val by lia. done. Qed.

Lemma fmt_x_val z : 0 ≤ z < 2 ^ 64 → num_val 16 (fmt_x z) = z.
Proof. intros Hz. unfold num_val, fmt_x. rewrite digits_val by lia. done. Qed.

Lemma digits_plain base n : 1 < base ≤ 16 → ∀ z acc, forallb plain_byte acc = true → (n ≠ 0 ∨ acc ≠ [])%nat →
  forallb plain_byte (digits base n z acc) = true ∧ digits base n z acc ≠ [].
Proof.
  intros Hb. induction n as [|n IH]; intros z acc Ha Hn; cbn [digits]; [split; [done|naive_solver]|].
  assert (Hp : forallb plain_byte (digit (z mod base) :: acc) = true).
  { cbn [forallb]. rewrite Ha, andb_true_r. pose proof (Z.mod_pos_bound z base). unfold plain_byte, digit.
    destruct (_ <? 10) eqn:E; lia. }
  destruct (_ =? 0); [done|]. apply IH; [done|by right].
Qed.

Definition plain_ok (s : list Z) : bool := negb (bool_decide (s = [])) && forallb plain_byte s.

Lemma digits_ok base n z acc : 1 < base ≤ 16 → forallb plain_byte acc = true → (n ≠ 0)%nat → plain_ok (digits base n z acc) = true.
Proof.
  intros Hb Ha Hn. destruct (digits_plain base n Hb z acc Ha (or_introl Hn)) as [H1 H2].
  unfold plain_ok. by rewrite H1, bool_decide_false.
Qed.

Lemma fmt_d_ok z : plain_ok (fmt_d z) = true.
Proof. by apply digits_ok. Qed.

Lemma fmt_x_ok z : plain_ok (48 :: 120 :: fmt_x z) = true.
Proof.
  pose proof (digits_ok 16 16 z [] ltac:(lia) eq_refl ltac:(done)) as H.
  unfold fmt_x, plain_ok in *. by apply andb_true_iff in H as [_ H].
Qed.

Lemma id_text_ok z : plain_ok (id_text z) = true.
Proof. unfold id_text. destruct (z =? -1); [done|apply fmt_d_ok]. Qed.

Lemma ptrace_request_ok r : plain_ok (ptrace_request r) = true.
Proof. unfold ptrace_request. repeat (destruct (_ =? _); [done|]). apply fmt_d_ok. Qed.

Lemma setid_call_ok which : 1 ≤ which ≤ 6 → plain_ok (setid_call which) = true.
Proof. intros H. unfold setid_call. repeat case_match; done || lia. Qed.

(** ** The lines of the sensor *)

Inductive log_line :=
  | L_file (f : file_event)
  | L_summary (f : file_summary)
  | L_module (ev : rawEvent) (image : list Z)
  | L_ptrace (ev : rawEvent) (image target_image : list Z)
  | L_access (ev : rawEvent) (a : access_action) (target : Z) (image target_image : list Z)
  | L_privilege (ev : rawEvent) (image parent_image : list Z)
  | L_memfd (ev : rawEvent) (image : list Z)
  | L_fileless (ev : rawEvent) (parent_image : list Z)
  | L_exit (ev : rawEvent) (image : list Z).

Definition text_of (l : log_line) : list Z :=
  match l with
  | L_file f => file_line f
  | L_summary f => summary_line f
  | L_module ev image => moduleLine ev image
  | L_ptrace ev image target_image => ptraceLine ev image target_image
  | L_access ev a target image target_image => accessLine ev a target image target_image
  | L_privilege ev image parent_image => privilegeLine ev image parent_image
  | L_memfd ev image => memfdLine ev image
  | L_fileless ev parent_image => filelessLine ev parent_image
  | L_exit ev image => exitLine ev image
  end.

Local Open Scope string_scope.

Definition identity_pairs (ev : rawEvent) (image : list Z) : list (string * text) :=
  [("Image", Quoted image); ("Comm", Quoted (raw_comm ev)); ("PID", Plain (fmt_d (raw_tgid ev)));
   ("PPID", Plain (fmt_d (raw_ppid ev))); ("User", Plain (fmt_d (raw_uid ev)));
   ("EUID", Plain (fmt_d (raw_euid ev)))].

(** What a line says: the names and values, in order. *)
Definition pairs_of (l : log_line) : list (string * text) :=
  match l with
  | L_file f =>
      ("action", Plain (action_text (fe_action f))) :: ("TargetFilename", Quoted (fe_path f))
      :: (if bool_decide (fe_from f = []) then [] else [("SourceFilename", Quoted (fe_from f))])
      ++ (if fe_dir f then [("IsDirectory", Plain (zs "true"))] else [])
      ++ [("Image", Quoted (fe_image f)); ("Comm", Quoted (fe_comm f)); ("PID", Plain (fmt_d (fe_pid f)));
          ("PPID", Plain (fmt_d (fe_ppid f))); ("User", Plain (fmt_d (fe_uid f)))]
  | L_summary f =>
      [("action", Plain (zs "summary")); ("Writes", Plain (fmt_d (fs_writes f)));
       ("Renames", Plain (fmt_d (fs_renames f))); ("Deletes", Plain (fmt_d (fs_deletes f)));
       ("TargetFilename", Quoted (fs_sample f)); ("Image", Quoted (fs_image f)); ("Comm", Quoted (fs_comm f));
       ("PID", Plain (fmt_d (fs_pid f))); ("PPID", Plain (fmt_d (fs_ppid f))); ("User", Plain (fmt_d (fs_uid f)))]
  | L_module ev image =>
      (if (raw_kind ev =? K_MODULE_INIT)%Z
       then [("action", Plain (zs "load_memory")); ("Size", Plain (fmt_d (raw_arg0 ev)));
             ("Params", Quoted (raw_path2 ev))]
       else if (raw_kind ev =? K_MODULE_FINIT)%Z
       then [("action", Plain (zs "load")); ("Module", Quoted (raw_path ev)); ("Params", Quoted (raw_path2 ev))]
       else [("action", Plain (zs "unload")); ("Module", Quoted (raw_path ev))])
      ++ identity_pairs ev image
  | L_ptrace ev image target_image =>
      ("action", Plain (ptrace_request (raw_arg0 ev))) :: ("TargetPID", Plain (fmt_d (raw_arg1 ev)))
      :: ("TargetImage", Quoted target_image) :: identity_pairs ev image
  | L_access ev a target image target_image =>
      ("action", Plain (access_text a)) :: ("TargetPID", Plain (fmt_d target))
      :: ("TargetImage", Quoted target_image) :: identity_pairs ev image
  | L_privilege ev image parent_image =>
      (if (raw_kind ev =? K_CAPSET)%Z
       then [("action", Plain (zs "capset")); ("Effective", Plain (48 :: 120 :: fmt_x (raw_arg0 ev)));
             ("Permitted", Plain (48 :: 120 :: fmt_x (raw_arg1 ev)))]
       else [("action", Plain (setid_call (raw_arg0 ev))); ("IDs", Quoted (ids_text ev))])%Z
      ++ identity_pairs ev image ++ [("ParentImage", Quoted parent_image)]
  | L_memfd ev image =>
      ("MemfdName", Quoted (raw_path ev)) :: ("Flags", Plain (48 :: 120 :: fmt_x (raw_arg0 ev))%Z)
      :: identity_pairs ev image
  | L_fileless ev parent_image =>
      [("Image", Quoted (raw_path ev)); ("ExecPath", Quoted (raw_path2 ev));
       ("Links", Plain (fmt_d (raw_arg0 ev))); ("Comm", Quoted (raw_comm ev));
       ("PID", Plain (fmt_d (raw_tgid ev))); ("PPID", Plain (fmt_d (raw_ppid ev)));
       ("User", Plain (fmt_d (raw_uid ev))); ("EUID", Plain (fmt_d (raw_euid ev)));
       ("ParentImage", Quoted parent_image)]
  | L_exit ev image =>
      ("ExitCode", Plain (id_text (fst (exit_line (raw_arg0 ev)))))
      :: ("Signal", Plain (fmt_d (snd (exit_line (raw_arg0 ev))))) :: identity_pairs ev image
  end.
Local Close Scope string_scope.

(** The call of a set*id record is one of the six. *)
Definition line_ok (l : log_line) : Prop :=
  match l with
  | L_privilege ev _ _ => raw_kind ev = K_CAPSET ∨ 1 ≤ raw_arg0 ev ≤ 6
  | _ => True
  end.

Lemma line_pairs l : text_of l = line_of (pairs_of l).
Proof.
  destruct l; cbn [text_of pairs_of]; unfold file_line, summary_line, moduleLine, ptraceLine, accessLine, privilegeLine,
    memfdLine, filelessLine, exitLine, identity_pairs, identity.
  1: destruct (bool_decide _), (fe_dir f).
  all: try destruct (exit_line _); repeat destruct (raw_kind ev =? _).
  all: cbn [line_of app fst snd]; unfold pair_text; cbn [fst snd]; rewrite <- ?(assoc_L (++)); reflexivity.
Qed.

Lemma quoted_pair_ok k s : forallb (is_word (λ _, false)) (zs k) = true → zs k ≠ [] → pair_ok (k, Quoted s) = true.
Proof. intros H1 H2. unfold pair_ok, pair_ok0. cbn [fst snd]. by rewrite H1, bool_decide_false. Qed.

Lemma verbatim_pair_ok k s :
  forallb (is_word (λ _, false)) (zs k) = true → zs k ≠ [] → pair_ok (k, Verbatim s) = true.
Proof. intros H1 H2. unfold pair_ok, pair_ok0. cbn [fst snd]. by rewrite H1, bool_decide_false. Qed.

Lemma plain_pair_ok k s :
  forallb (is_word (λ _, false)) (zs k) = true → zs k ≠ [] → plain_ok s = true → pair_ok (k, Plain s) = true.
Proof.
  intros H1 H2 [H3 H4]%andb_true_iff. unfold pair_ok, pair_ok0, present. cbn [fst snd].
  rewrite H1, bool_decide_false, H4 by done. by destruct s.
Qed.

Lemma pairs_forall l : Forall (λ kt, pair_ok kt = true) l → forallb pair_ok l = true.
Proof. intros H. apply forallb_forall. intros kt Hin. rewrite Forall_forall in H. apply H, list_elem_of_In, Hin. Qed.

Lemma pairs_ok l : line_ok l → forallb pair_ok (pairs_of l) = true.
Proof.
  intros Hl. apply pairs_forall.
  destruct l; cbn [pairs_of line_ok] in *; unfold identity_pairs.
  1: destruct (bool_decide _), (fe_dir f).
  all: repeat match goal with |- context [if raw_kind ?ev =? ?k then _ else _] => destruct (Z.eqb_spec (raw_kind ev) k) end.
  all: cbn [app]; repeat (apply Forall_cons_2;
    [match goal with
     | |- pair_ok (_, Quoted _) = true => apply quoted_pair_ok; [reflexivity|discriminate]
     | |- pair_ok (_, Plain _) = true => apply plain_pair_ok; [reflexivity|discriminate|]
     end|]); try apply Forall_nil_2.
  all: match goal with
       | |- plain_ok (fmt_d _) = true => apply fmt_d_ok
       | |- plain_ok (_ :: _ :: fmt_x _) = true => apply fmt_x_ok
       | |- plain_ok (id_text _) = true => apply id_text_ok
       | |- plain_ok (ptrace_request _) = true => apply ptrace_request_ok
       | |- plain_ok (setid_call _) = true => apply setid_call_ok; lia
       | |- plain_ok (action_text ?a) = true => by destruct a
       | |- plain_ok (access_text ?a) = true => by destruct a
       | |- _ => reflexivity
       end.
Qed.

Lemma pairs_nodup l : NoDup ((λ kt, zs (fst kt)) <$> pairs_of l).
Proof.
  destruct l; cbn [pairs_of]; unfold identity_pairs.
  1: destruct (bool_decide _), (fe_dir f).
  all: repeat match goal with |- context [if raw_kind ?ev =? ?k then _ else _] => destruct (raw_kind ev =? k) end.
  all: apply (bool_decide_unpack _); vm_compute; exact I.
Qed.

Lemma shown_id s : 10 ∉ s → shown true s = s.
Proof.
  unfold shown, replace_all. induction s as [|b s IH]; [done|]. intros [Hb Hs]%not_elem_of_cons.
  cbn [mbind list_bind]. rewrite (proj2 (Z.eqb_neq b 10)) by done. cbn [app]. by rewrite IH.
Qed.

Lemma fields_lookup l k t : NoDup ((λ kt, zs (fst kt)) <$> l) → (k, t) ∈ l → fields l !! zs k = Some (text_value t).
Proof.
  intros Hnd Hin. unfold fields. apply elem_of_list_to_map_1.
  - by rewrite <- list_fmap_compose.
  - apply list_elem_of_fmap. by exists (k, t).
Qed.

(** ** Properties *)

(** C14. Whatever a watched program calls its files, the worker reads each line
    of the sensor as the fields the agent printed: the parsed map has exactly
    the line's names, each with its value; no file name, argument or image can
    add, hide or change another field.  A name without a newline is read back
    as it was (a newline is read as a backslash and an n).  So it is when the
    worker gets the line's characters from the agent's JSON: each value is
    then the characters of the agent's, where a byte that is not part of valid
    UTF-8 has become U+FFFD. *)
Theorem worker_reads_every_line uni_word uni_space l : line_ok l →
  parse_kv uni_word uni_space (text_of l) = fields (pairs_of l) ∧
  (∀ k s, (k, Quoted s) ∈ pairs_of l → (10 ∉ s) →
     parse_kv uni_word uni_space (text_of l) !! zs k = Some s) ∧
  (∀ k s, (k, Plain s) ∈ pairs_of l → parse_kv uni_word uni_space (text_of l) !! zs k = Some s) ∧
  parse_kv uni_word uni_space (received (text_of l)) = fields (received_pair <$> pairs_of l) ∧
  (∀ k s, (k, Quoted s) ∈ pairs_of l → (10 ∉ s) →
     parse_kv uni_word uni_space (received (text_of l)) !! zs k = Some (received s)).
Proof.
  intros Hl. assert (H : parse_kv uni_word uni_space (text_of l) = fields (pairs_of l)).
  { rewrite line_pairs. apply parse_line; [by apply pairs_ok|apply pairs_nodup]. }
  assert (Hr : parse_kv uni_word uni_space (received (text_of l)) = fields (received_pair <$> pairs_of l)).
  { rewrite line_pairs. apply parse_received; [by apply pairs_ok|apply pairs_nodup]. }
  rewrite H, Hr. split_and!; [done| | |done|]; intros k s Hin.
  - intros Hs. rewrite (fields_lookup _ k (Quoted s)) by (apply pairs_nodup || done). cbn [text_value]. by rewrite shown_id.
  - by rewrite (fields_lookup _ k (Plain s)) by (apply pairs_nodup || done).
  - intros Hs. rewrite (fields_lookup _ k (Quoted (received s))).
    + cbn [text_value]. by rewrite shown_id by by apply received_no_newline.
    + rewrite received_keys. apply pairs_nodup.
    + apply list_elem_of_fmap. by exists (k, Quoted s).
Qed.

(** A file whose name tries to be another line, and is not UTF-8. *)
Definition demo_forged : list Z := zs "/tmp/x" ++ [0xFF; 34] ++ zs " PID=1 Image=" ++ [34] ++ zs "/usr/bin/ok\".
Definition demo_line : log_line :=
  L_file (FileEvent A_create demo_forged [] 700 77 1000 (zs "/bin/sh") (zs "sh") false).

Lemma worker_reads_every_line_witness :
  let m := parse_kv (λ _, false) (λ _, false) (text_of demo_line) in
  m = fields (pairs_of demo_line) ∧
  (∀ k s, (k, Quoted s) ∈ pairs_of demo_line → (10 ∉ s) → m !! zs k = Some s) ∧
  (∀ k s, (k, Plain s) ∈ pairs_of demo_line → m !! zs k = Some s) ∧
  let w := parse_kv (λ _, false) (λ _, false) (received (text_of demo_line)) in
  w = fields (received_pair <$> pairs_of demo_line) ∧
  (∀ k s, (k, Quoted s) ∈ pairs_of demo_line → (10 ∉ s) → w !! zs k = Some (received s)).
Proof. exact (worker_reads_every_line (λ _, false) (λ _, false) demo_line I). Defined.

Example demo_line_parsed :
  let m := parse_kv (λ _, false) (λ _, false) (text_of demo_line) in
  m !! zs "TargetFilename" = Some demo_forged ∧ m !! zs "PID" = Some (zs "700") ∧
  m !! zs "Image" = Some (zs "/bin/sh") ∧
  parse_kv (λ _, false) (λ _, false) (received (text_of demo_line)) !! zs "TargetFilename"
  = Some (zs "/tmp/x" ++ [0xFFFD; 34] ++ zs " PID=1 Image=" ++ [34] ++ zs "/usr/bin/ok\").
Proof. vm_compute. done. Qed.

(** Two names the worker cannot tell apart. *)
Lemma newline_reads_as_backslash_n s t : shown true (s ++ 10 :: t) = shown true (s ++ 92 :: 110 :: t).
Proof. unfold shown, replace_all. by rewrite !bind_app. Qed.
