(* ===== verification/Engines.v ===== *)
(** * The two engines together (engines_linux.go, fanhelper_linux.go)

    [linuxEngines] loads a policy into the BPF LSM engine, where the kernel
    has one, and into the fanotify engine, which runs in a helper process:
    the policy travels as the server's rules and is compiled there again.
    What the host refuses is what either engine refuses. *)
From Stdlib Require Import ZArith Lia Ascii String.
From stdpp Require Import base tactics list gmap strings.
From S2P Require Import Prelude.
From S2P Require Import GoStrings.
From S2P Require Import MalHash.
From S2P Require Import Kernel.
From S2P Require Import PathWalk.
From S2P Require Import Scenario.
From S2P Require Import Prevent.
From S2P Require Import PreventProps.
From S2P Require Import PreventPolicy.
From S2P Require Import PreventCompile.
From S2P Require Import PreventMatch.
From S2P Require Import Fanotify.
From S2P Require Import Lines.
Local Open Scope Z_scope.
Import Prevent.Prevent.

(** ** What the agent sends the helper *)

(** [helperPolicy]; the JSON between the two processes is left out. *)
Record helperPolicy := HelperPolicy {
  hp_Rules : list rule;
  hp_KernelDecides : bool;
  hp_MalwareFile : list Z;
  hp_MalwareVersion : list Z;
  hp_Off : bool;
  hp_Exclusions : list exclusion;
}.

(** A rule as [setPolicy] sends it: the guard's verdict travels with it. *)
Definition sent_rule (c : compiled) : rule :=
  Rule (ru_id (r_rule c)) (ru_name (r_rule c)) (ru_type (r_rule c)) (r_value c) (ru_parent (r_rule c))
    (if r_block c then ru_action (r_rule c) else zs "detect").

Definition set_version (s : set) : list Z :=
  s_version s ++ [124] ++ s_action s ++ [124] ++ fmt_d (s_seq s) ++ [124]
  ++ fmt_d (Z.of_nat (length (s_keys s))).

(** The message of [setPolicy]. *)
Definition policy_msg (p : policy) (kernelDecides : bool) : helperPolicy :=
  let rules := sent_rule <$> p_rules p in
  match p_malware p with
  | Some s => if checksMalware p && negb (bool_decide (p_malwareFile p = []))
              then HelperPolicy rules kernelDecides (p_malwareFile p) (set_version s) (p_off p) (p_exclusions p)
              else HelperPolicy rules kernelDecides [] [] (p_off p) (p_exclusions p)
  | None => HelperPolicy rules kernelDecides [] [] (p_off p) (p_exclusions p)
  end.

(** ** The helper *)

(** The variables of [RunHelper] and the engine's policy. *)
Record helper := Helper {
  h_malware : option set;
  h_version : list Z;
  h_policy : option fanPolicy;
}.

Section helper.
(** What the helper asks the operating system, as [newGuard] does, and
    [malhash.Load] of the saved set. *)
Context (resolve : list Z → option (list Z)) (hash_file : list Z → option (list Z)) (exe : option (list Z)).
Context (load : list Z → option set).

(** One turn of [RunHelper]'s loop. *)
Definition helper_turn (msg : helperPolicy) (h : helper) : helper :=
  let g := newGuard resolve hash_file exe in
  let p := compiled_policy (fst (compileWith resolve g (hp_Rules msg))) g in
  let '(malware, version) :=
    if bool_decide (hp_MalwareFile msg = []) then (None, [])
    else if negb (bool_decide (hp_MalwareVersion msg = h_version h)) then
      match load (hp_MalwareFile msg) with
      | None => (None, [])
      | Some s => (Some s, hp_MalwareVersion msg)
      end
    else (h_malware h, h_version h) in
  let p := match malware with Some s => withMalware p (Some s) (hp_MalwareFile msg) | None => p end in
  Helper malware version (Some (FanPolicy (withGate p (hp_Off msg) (hp_Exclusions msg)) (hp_KernelDecides msg))).

Definition new_helper : helper := Helper None [] None.

(** ** The engines *)

(** [linuxEngines]: what the LSM engine's maps hold, where there is one,
    and the helper, while it runs. *)
Record linux := Linux { e_lsm : option pst; e_fan : option helper }.

Context (stat : list Z → option (Z * Z)) (major minor : Z → Z).
Context (iter : gmap (list Z) Z → list (list Z * Z)).

(** [apply]; [starts] is whether the helper can be started, and the helper
    reads what it is sent. *)
Definition engines_apply (starts : bool) (p : policy) (e : linux) : linux :=
  let lsm := (λ s, snd (apply stat major minor iter (p_rules p) s)) <$> e_lsm e in
  let needFan := (negb (bool_decide (p_rules p = [])) && (bool_decide (e_lsm e = None) || HasHashRules p))
                 || checksMalware p in
  let set_policy h := Some (helper_turn (policy_msg p (negb (bool_decide (e_lsm e = None)))) h) in
  match needFan, e_fan e with
  | true, None => if starts then Linux lsm (set_policy new_helper) else Linux lsm None
  | true, Some h => Linux lsm (set_policy h)
  | false, _ => Linux lsm None
  end.
End helper.

(** ** The policy survives the way to the helper *)

(** The helper's copy of a rule. *)
Definition resent (c : compiled) : compiled :=
  Compiled (r_type c) (r_value c) (r_block c) (r_parents c) (r_children c) (sent_rule c).

Definition as_guarded (resolve : list Z → option (list Z)) (g : guard) (c : compiled) : compiled :=
  if r_block c && refuse resolve g c then no_block (resent c) else resent c.

(** A digest has no spaces to trim, and folding its case again changes
    nothing. *)
Lemma spaces_not_hex p : p ∈ spaces ++ (reverse <$> spaces) → ∃ x p', p = x :: p' ∧ is_hex x = false.
Proof.
  assert (H : forallb (λ p, match p with x :: _ => negb (is_hex x) | [] => false end)
                (spaces ++ (reverse <$> spaces)) = true) by (vm_compute; reflexivity).
  rewrite forallb_forall in H. intros Hp%list_elem_of_In%H. destruct p as [|x p]; [done|].
  exists x, p. split; [done|]. by apply negb_true_iff.
Qed.

Lemma drop_prefixes_hex ps n s : (∀ p, p ∈ ps → ∃ x p', p = x :: p' ∧ is_hex x = false) →
  forallb is_hex s = true → drop_prefixes ps n s = s.
Proof.
  intros Hps Hs. destruct n as [|n]; [done|]. cbn [drop_prefixes].
  destruct (list_find (λ p, p `prefix_of` s) ps) as [[i p]|] eqn:E; [|done]. exfalso.
  apply list_find_Some in E as (Hi & [l Hl] & _). apply list_elem_of_lookup_2 in Hi.
  destruct (Hps p Hi) as (x & p' & -> & Hx). subst s. cbn in Hs. by rewrite Hx in Hs.
Qed.

Lemma trim_space_hex s : forallb is_hex s = true → trim_space s = s.
Proof.
  intros Hs. unfold trim_space. rewrite (drop_prefixes_hex spaces) by
    (done || intros p Hp; apply spaces_not_hex, elem_of_app; by left).
  rewrite drop_prefixes_hex; [apply reverse_involutive| |].
  - intros p Hp. apply spaces_not_hex, elem_of_app. by right.
  - rewrite forallb_forall in Hs |- *. intros x Hx. apply Hs. rewrite <- list_elem_of_In in *.
    by apply elem_of_reverse.
Qed.

Lemma to_lower_idem s : to_lower (to_lower s) = to_lower s.
Proof.
  unfold to_lower. rewrite <- list_fmap_compose. apply list_fmap_ext. intros i b _. cbn.
  destruct ((65 <=? b) && (b <=? 90)) eqn:E; [|by rewrite E].
  apply andb_true_iff in E as [H1%Z.leb_le H2%Z.leb_le]. rewrite (proj2 (Z.leb_gt (b + 32) 90)) by lia.
  by rewrite andb_false_r.
Qed.

(** A rule the agent compiled compiles again, to itself. *)
Lemma compile_rule_sent n n' r c0 c : compile_rule n r = inr c0 → c = c0 ∨ c = no_block c0 →
  (is_parent c = true → n' ≠ maxParentRules) → compile_rule n' (sent_rule c) = inr (resent c).
Proof.
  intros Hc Hcc Hn.
  assert (Hact : ru_action (r_rule c) = ru_action r ∧ ru_type (r_rule c) = ru_type r ∧ ru_parent (r_rule c) = ru_parent r
    ∧ r_value c = r_value c0 ∧ r_type c = r_type c0 ∧ r_parents c = r_parents c0 ∧ r_children c = r_children c0
    ∧ (r_block c = true → ru_action r = zs "block")).
  { pose proof (compile_rule_wf n r c0 Hc) as (_ & _ & Hb).
    assert (Hru : r_rule c0 = r).
    { revert Hc. unfold compile_rule. repeat case_match; try done; by intros [= <-]. }
    destruct Hcc as [->| ->]; cbn; rewrite Hru; split_and!; try done. intros H. by apply Hb. }
  destruct Hact as (Ha & Hty & Hpar & Hv & Hrt & Hps & Hcs & Hb).
  assert (Hact' : ru_action (sent_rule c) = if r_block c then zs "block" else zs "detect").
  { unfold sent_rule. cbn. rewrite Ha. destruct (r_block c); [by apply Hb|done]. }
  assert (Hblk : bool_decide (ru_action (sent_rule c) = zs "block") = r_block c).
  { rewrite Hact'. by destruct (r_block c). }
  assert (Hok : negb (r_block c) && negb (bool_decide (ru_action (sent_rule c) = zs "detect")) = false).
  { rewrite Hact'. by destruct (r_block c). }
  unfold resent. rewrite Hrt, Hv, Hps, Hcs. unfold is_parent in Hn. rewrite Hrt in Hn.
  unfold compile_rule. rewrite Hblk, Hok. revert Hc. unfold compile_rule.
  destruct (negb (bool_decide (ru_action r = zs "block")) && negb (bool_decide (ru_action r = zs "detect")));
    [done|]. cbn [sent_rule ru_type ru_value ru_parent]. rewrite Hty, Hpar, Hv.
  destruct (bool_decide (ru_type r = zs "hash")).
  { destruct (is_sha256 (to_lower (trim_space (ru_value r)))) eqn:E; [|done]. intros [= <-]. cbn [r_value r_type r_parents r_children].
    rewrite trim_space_hex, to_lower_idem, E; [done|]. by apply andb_true_iff in E as [? _]. }
  destruct (bool_decide (ru_type r = zs "path") || bool_decide (ru_type r = zs "dir")).
  { destruct (is_abs (ru_value r)) eqn:E; cbn [negb]; [|done]. intros [= <-].
    cbn [r_value r_type r_parents r_children]. rewrite (clean_id (clean (ru_value r))) by by apply clean_normal.
    destruct (clean_normal _ E) as (es & _ & Hes). rewrite Hes. done. }
  destruct (bool_decide (ru_type r = zs "parent")); [|done].
  destruct (bool_decide (split_names (ru_parent r) = []) || bool_decide (split_names (ru_value r) = [])) eqn:E;
    [done|].
  destruct (n =? maxParentRules)%nat; [done|]. intros [= <-].
  cbn [r_value r_type r_parents r_children] in *. rewrite E, (proj2 (Nat.eqb_neq _ _)); [done|]. by apply Hn.
Qed.

Lemma compile_sent resolve g p : ∀ done errs,
  (∀ c, c ∈ p → ∃ n r c0, compile_rule n r = inr c0 ∧ (c = c0 ∨ c = no_block c0)) →
  (length done + length p ≤ maxRules)%nat →
  (length (filter is_parent done) + length (filter is_parent p) ≤ maxParentRules)%nat →
  ∃ errs', compile_loop resolve g (sent_rule <$> p) done errs
             = (done ++ (as_guarded resolve g <$> p), errs ++ errs') ∧ Forall (eq err_guard) errs'.
Proof.
  induction p as [|c p IH]; intros done errs Hp Hl Hpar; cbn [fmap list_fmap compile_loop].
  { exists []. rewrite !app_nil_r. by split. }
  destruct (Hp c (list_elem_of_here _ _)) as (n & r & c0 & Hc & Hcc). cbn in Hl.
  assert (Hpar' : (length (filter is_parent done) + (if is_parent c then 1 else 0)
                   + length (filter is_parent p) ≤ maxParentRules)%nat).
  { destruct (is_parent c) eqn:E.
    - rewrite filter_cons_True in Hpar by by rewrite E. cbn in Hpar. lia.
    - rewrite filter_cons_False in Hpar by (rewrite E; intros []). lia. }
  erewrite compile_rule_sent; [|exact Hc|exact Hcc|intros E; rewrite E in Hpar'; lia].
  rewrite (proj2 (Nat.eqb_neq _ _)) by lia. unfold as_guarded at 1.
  change (refuse resolve g (resent c)) with (refuse resolve g c). change (r_block (resent c)) with (r_block c).
  assert (Hnext : ∀ c' errs1, is_parent c' = is_parent c → ∃ errs', compile_loop resolve g (sent_rule <$> p)
      (done ++ [c']) errs1 = ((done ++ [c']) ++ (as_guarded resolve g <$> p), errs1 ++ errs')
      ∧ Forall (eq err_guard) errs').
  { intros c' errs1 E. apply IH.
    - intros x Hx. by apply Hp, list_elem_of_further.
    - rewrite length_app. cbn. lia.
    - rewrite filter_app, length_app. destruct (is_parent c).
      + rewrite (filter_cons_True _ c') by by rewrite E. rewrite filter_nil. cbn. lia.
      + rewrite (filter_cons_False _ c') by (rewrite E; intros []). rewrite filter_nil. cbn. lia. }
  destruct (r_block c && refuse resolve g c).
  - destruct (Hnext (no_block (resent c)) (errs ++ [err_guard]) eq_refl) as (errs' & -> & Hf).
    exists (err_guard :: errs'). rewrite <- !(assoc_L (++)). split; [done|]. by constructor.
  - destruct (Hnext (resent c) errs eq_refl) as (errs' & -> & Hf).
    exists errs'. by rewrite <- !(assoc_L (++)).
Qed.

Lemma compiled_source resolve g rules c : c ∈ fst (compileWith resolve g rules) →
  ∃ n r c0, compile_rule n r = inr c0 ∧ (c = c0 ∨ c = no_block c0).
Proof.
  destruct (compile_ok resolve g rules) as (rs & _ & [_ _ H] & _). intros [i Hi]%list_elem_of_lookup.
  destruct (Forall2_lookup_r _ _ _ _ _ H Hi) as (r & _ & n & c0 & Hc & ->). exists n, r, c0.
  split; [done|]. destruct (_ && _); [by right|by left].
Qed.

(** The helper compiles the agent's policy to the same rules at the same
    indexes. *)
Lemma helper_rules resolve g resolve' g' rules :
  let p := fst (compileWith resolve g rules) in
  fst (compileWith resolve' g' (sent_rule <$> p)) = as_guarded resolve' g' <$> p ∧
  Forall (eq err_guard) (snd (compileWith resolve' g' (sent_rule <$> p))).
Proof.
  intros p. destruct (compile_ok resolve g rules) as (rs & _ & [H1 H2 _] & _).
  destruct (compile_sent resolve' g' p [] []) as (errs' & H & Hf); [by apply compiled_source|done|done|].
  change (compile_loop resolve' g' (sent_rule <$> p) [] []) with (compileWith resolve' g' (sent_rule <$> p)) in H.
  rewrite H. by split.
Qed.

(** ** The helper decides as the agent's policy says *)

Definition resent_matched (m : matched) : matched :=
  if m_index m =? -1 then m else Matched (m_index m) (resent (m_rule m)).

Definition blocks (m : option matched) : bool := match m with Some m => r_block (m_rule m) | None => false end.

Lemma blocks_resent m : blocks (resent_matched <$> m) = blocks m.
Proof. destruct m as [[i c]|]; [|done]. unfold resent_matched. cbn. by destruct (i =? -1). Qed.

Lemma blocks_allows m : allows m = negb (blocks m).
Proof. by destruct m. Qed.

Lemma first_rule_resent f rs : (∀ c, f (resent c) = f c) → ∀ i, first_rule f i (resent <$> rs) = first_rule f i rs.
Proof. intros Hf. induction rs as [|c rs IH]; intros i; cbn; [done|]. by rewrite Hf, IH. Qed.

Lemma paths_from_resent rs : ∀ i m, paths_from i (resent <$> rs) m = paths_from i rs m.
Proof. induction rs as [|c rs IH]; intros i m; cbn; [done|]. apply IH. Qed.

Lemma hashes_from_resent rs : ∀ i m, hashes_from i (resent <$> rs) m = hashes_from i rs m.
Proof. induction rs as [|c rs IH]; intros i m; cbn; [done|]. apply IH. Qed.

Lemma match_resent rs path child parent : match_ (resent <$> rs) path child parent = match_ rs path child parent.
Proof.
  unfold match_. rewrite paths_from_resent. destruct (_ !! path); [done|].
  rewrite first_rule_resent by done. destruct (first_rule _ 0 rs); [done|]. by apply first_rule_resent.
Qed.

(** The malware set as the agent keeps it: empty when it is off, and in its
    file when it is on. *)
Definition malware_saved (load : list Z → option set) (p : policy) : Prop :=
  match p_malware p with
  | None => True
  | Some s => if Active (Some s) then p_malwareFile p ≠ [] ∧ load (p_malwareFile p) = Some s
              else s_keys s = []
  end.

(** The helper's version names the set it has. *)
Definition version_names (h : helper) (p : policy) : Prop :=
  ∀ s, p_malware p = Some s → h_version h = set_version s → h_malware h = Some s.

Lemma new_helper_versions p : version_names new_helper p.
Proof. intros s _ H%(f_equal length). unfold set_version in H. rewrite !length_app in H. cbn in H. lia. Qed.

Section same_guard.
Context (resolve : list Z → option (list Z)) (hash_file : list Z → option (list Z)) (exe : option (list Z)).
Context (load : list Z → option set).
Context (equal_fold : list Z → list Z → bool) (lower : list Z → list Z).
Local Abbreviation g := (newGuard resolve hash_file exe).

(** A policy of the agent, compiled where the helper finds the guard's files
    the same. *)
Record agent_policy (rules : list rule) (p : policy) : Prop := {
  ap_rules : p_rules p = fst (compileWith resolve g rules);
  ap_guard : p_guardHashes p = g_hashes g;
  ap_saved : malware_saved load p;
}.

Lemma agent_rules_unguarded rules p c : agent_policy rules p → c ∈ p_rules p → as_guarded resolve g c = resent c.
Proof.
  intros Hp Hc. rewrite (ap_rules _ _ Hp) in Hc. unfold as_guarded.
  destruct (compile_ok resolve g rules) as (rs & _ & [_ _ H] & _). apply list_elem_of_lookup in Hc as [i Hi].
  destruct (Forall2_lookup_r _ _ _ _ _ H Hi) as (r & _ & Hr). destruct (compiled_from_wf _ _ _ _ Hr) as [_ Hb].
  destruct (r_block c); [|done]. by destruct Hb as [-> _].
Qed.

Local Ltac helper_cbn :=
  cbn [andb negb hp_Rules hp_MalwareFile hp_MalwareVersion hp_Off hp_Exclusions hp_KernelDecides h_policy
       withGate withMalware compiled_policy p_rules p_malware p_malwareFile p_off p_exclusions p_guardHashes].

(** What the helper's engine has after the message. *)
Lemma helper_policy rules p k h : agent_policy rules p → version_names h p →
  ∃ q, h_policy (helper_turn resolve hash_file exe load (policy_msg p k) h) = Some (FanPolicy q k) ∧
    p_rules q = resent <$> p_rules p ∧ p_off q = p_off p ∧ p_exclusions q = p_exclusions p ∧
    p_guardHashes q = p_guardHashes p ∧
    (p_malware q = p_malware p ∨ p_malware q = None ∧ ∃ s, p_malware p = Some s ∧ s_keys s = []).
Proof.
  intros Hp Hv.
  assert (Hrules : fst (compileWith resolve g (sent_rule <$> p_rules p)) = resent <$> p_rules p).
  { rewrite (ap_rules _ _ Hp) at 1. rewrite (proj1 (helper_rules resolve g resolve g rules)), <- (ap_rules _ _ Hp).
    apply list_fmap_ext. intros i c Hc%list_elem_of_lookup_2. by eapply agent_rules_unguarded. }
  pose proof (ap_saved _ _ Hp) as Hs. pose proof (ap_guard _ _ Hp) as Hg. 
  unfold malware_saved in Hs. unfold policy_msg, checksMalware, helper_turn.
  clear Hp. set (g0 := g) in *. clearbody g0. destruct (p_malware p) as [s|] eqn:Em.
  2: { helper_cbn. rewrite (bool_decide_true ([] = [])) by done.
       eexists. split; [done|]. helper_cbn. rewrite Hrules, Hg. split_and!; try done. by left. }
  destruct (Active (Some s)) eqn:Ea.
  2: { helper_cbn.
       rewrite bool_decide_true by done. eexists. split; [done|]. helper_cbn. rewrite Hrules, Hg.
       split_and!; try done. right. split; [done|]. by exists s. }
  destruct Hs as [Hf Hl]. rewrite (bool_decide_false (p_malwareFile p = [])) by done. helper_cbn.
  case_bool_decide as Hnil; [done|]. clear Hnil. case_bool_decide as Hver; cbn [negb].
  - specialize (Hv s Em (eq_sym Hver)). rewrite Hv. eexists. split; [done|]. helper_cbn. rewrite Hrules, Hg.
    split_and!; try done. by left.
  - rewrite Hl. eexists. split; [done|]. helper_cbn. rewrite Hrules, Hg. split_and!; try done. by left.
Qed.

(** A policy that differs from [p] as the helper's does. *)
Record same_policy (p q : policy) : Prop := {
  sp_rules : p_rules q = resent <$> p_rules p;
  sp_off : p_off q = p_off p;
  sp_excl : p_exclusions q = p_exclusions p;
  sp_guard : p_guardHashes q = p_guardHashes p;
  sp_malware : p_malware q = p_malware p ∨ p_malware q = None ∧ ∃ s, p_malware p = Some s ∧ s_keys s = [];
}.

Section same.
Context (p q : policy).
Hypothesis Hpq : same_policy p q.

Lemma same_rule_at i : rule_at q i = resent_matched <$> rule_at p i.
Proof.
  unfold rule_at. rewrite (sp_rules _ _ Hpq), list_lookup_fmap. destruct (p_rules p !! i) as [c|]; [|done].
  cbn. unfold resent_matched. cbn. by rewrite (proj2 (Z.eqb_neq _ _)) by lia.
Qed.

Lemma same_bind (o : option nat) : (o ≫= rule_at q) = resent_matched <$> (o ≫= rule_at p).
Proof. destruct o as [i|]; [|done]. apply same_rule_at. Qed.

Lemma same_names path parent : match_names q path parent = resent_matched <$> match_names p path parent.
Proof. unfold match_names. by rewrite (sp_rules _ _ Hpq), match_resent, <- same_bind. Qed.

Lemma same_checks : HasHashRules q || checksMalware q = HasHashRules p || checksMalware p.
Proof.
  unfold HasHashRules, checksMalware. rewrite (sp_rules _ _ Hpq). f_equal.
  - induction (p_rules p) as [|c rs IH]; [done|]. cbn. by rewrite IH.
  - destruct (sp_malware _ _ Hpq) as [->|(-> & s & -> & Hs)]; [done|]. cbn. by rewrite Hs.
Qed.

Lemma same_hash h : match_hash q h = resent_matched <$> match_hash p h.
Proof.
  unfold match_hash. rewrite (sp_rules _ _ Hpq), hashes_from_resent, same_bind.
  destruct (_ ≫= rule_at p); [done|]. cbn [fmap option_fmap option_map].
  destruct (sp_malware _ _ Hpq) as [Hm|(Hm & s & Hm' & Hs)].
  - unfold malwareRule. rewrite Hm, (sp_guard _ _ Hpq). by destruct (Lookup (p_malware p) h).
  - rewrite Hm, Hm'. unfold Lookup. by rewrite Hs, bool_decide_true.
Qed.

Lemma same_excluded m path sum :
  excluded equal_fold lower q (resent_matched m) path sum = excluded equal_fold lower p m path sum.
Proof. unfold excluded, resent_matched. rewrite (sp_excl _ _ Hpq). by destruct (m_index m =? -1). Qed.

Lemma same_verdict k path parent h :
  verdict equal_fold lower q k path parent h = resent_matched <$> verdict equal_fold lower p k path parent h.
Proof.
  unfold verdict, match_exec. rewrite (sp_off _ _ Hpq), same_checks, same_names.
  destruct (p_off p); [done|]. destruct k.
  - destruct (_ || checksMalware p); [|done]. destruct h as [h|]; [|done]. cbn [mbind option_bind].
    rewrite same_hash. destruct (match_hash p h) as [m|]; cbn; [|done]. rewrite same_excluded.
    by destruct (excluded _ _ _ _ _ _).
  - destruct (match_names p path parent) as [m|]; cbn.
    { rewrite same_excluded. by destruct (excluded _ _ _ _ _ _). }
    destruct (_ || checksMalware p); [|done]. destruct h as [h|]; [|done]. cbn [mbind option_bind].
    rewrite same_hash. destruct (match_hash p h) as [m|]; cbn; [|done]. rewrite same_excluded.
    by destruct (excluded _ _ _ _ _ _).
Qed.
End same.
End same_guard.

(** ** What the host refuses *)

(** The reference: with the BPF LSM engine, the path, directory and parent
    rules in the order of [match] (whatever is excluded), or the hash rules
    and known malware; without it, the first rule of all in that order. *)
Definition policy_refuses (equal_fold : list Z → list Z → bool) (lower : list Z → list Z) (lsm : bool)
    (p : policy) (path parent : list Z) (h : option (list Z)) : bool :=
  if lsm then blocks (match_names p path parent) || blocks (verdict equal_fold lower p true path parent h)
  else blocks (verdict equal_fold lower p false path parent h).

Section host.
Context (resolve : list Z → option (list Z)) (hash_file : list Z → option (list Z)) (exe : option (list Z)).
Context (load : list Z → option set).
Context (stat : list Z → option (Z * Z)) (major minor : Z → Z).
Context (iter : gmap (list Z) Z → list (list Z * Z)).
Context (sha256 : list Z → list Z) (equal_fold : list Z → list Z → bool) (lower : list Z → list Z).
Context (fuel : nat) (content : hashKey → list Z).

Local Abbreviation eapply_ := (engines_apply resolve hash_file exe load stat major minor iter).

(** The fanotify engine of the host decides an exec with [allow]. *)
Definition fan_allows (e : linux) (os : fan_os) (ev : fanEvent) (c : gmap hashKey (list Z)) : bool :=
  fst (fst (decide sha256 equal_fold lower fuel (e_fan e ≫= h_policy) os ev c)).

Definition has_lsm (e : linux) : bool := negb (bool_decide (e_lsm e = None)).

(** The kernel's view of one exec event. *)
Record sees_event (os : fan_os) (ev : fanEvent) (path parent : list Z) : Prop := {
  se_honest : honest fuel content os;
  se_link : os_path os (fv_fd ev) = Some path;
  se_exe : os_exe os (fv_pid ev) = Some parent;
}.

Lemma fan_allows_spec rules p e os ev c path parent :
  agent_policy resolve hash_file exe load rules p → (∀ h, e_fan e = Some h → version_names h p) →
  cache_ok sha256 content c → sees_event os ev path parent →
  fan_allows (eapply_ true p e) os ev c
  = negb (blocks (verdict equal_fold lower p (has_lsm e) path parent (digest_of sha256 content os (fv_fd ev)))).
Proof.
  intros Hp Hv Hc [Ho Hpath Hexe]. unfold fan_allows, engines_apply. cbv zeta.
  set (need := _ || checksMalware p). fold (has_lsm e).
  assert (Hrun : ∀ h, version_names h p →
    fst (fst (decide sha256 equal_fold lower fuel
      (h_policy (helper_turn resolve hash_file exe load (policy_msg p (has_lsm e)) h)) os ev c))
    = negb (blocks (verdict equal_fold lower p (has_lsm e) path parent (digest_of sha256 content os (fv_fd ev))))).
  { intros h Hh. destruct (helper_policy resolve hash_file exe load rules p (has_lsm e) h Hp Hh)
      as (q & -> & H1 & H2 & H3 & H4 & H5).
    pose proof (decide_digest sha256 equal_fold lower fuel content (Some (FanPolicy q (has_lsm e))) os ev c Ho Hc) as Hd.
    destruct (decide _ _ _ _ _ _ _ _) as [[allow d] c']. destruct Hd as (-> & _). cbn [fst].
    unfold policy_verdict. cbn [mbind option_bind fp_p fp_kernelDecides]. rewrite Hpath, Hexe.
    cbn [mbind option_bind default from_option id].
    rewrite (same_verdict equal_fold lower p q) by by split. by rewrite blocks_allows, blocks_resent. }
  destruct need eqn:En.
  - destruct (e_fan e) as [h|] eqn:Ef; cbn [e_fan mbind option_bind]; apply Hrun; [by apply Hv|apply new_helper_versions].
  - assert (Hnone : verdict equal_fold lower p (has_lsm e) path parent (digest_of sha256 content os (fv_fd ev)) = None).
    { unfold need in En. apply orb_false_iff in En as [En Em]. apply andb_false_iff in En as [En|En].
      - apply verdict_inactive. unfold active. rewrite Em. apply negb_false_iff, bool_decide_eq_true in En.
        rewrite En. cbn. by destruct (p_off p).
      - apply orb_false_iff in En as [El Eh]. unfold verdict, match_exec, has_lsm. rewrite El, Eh, Em. cbn.
        by destruct (p_off p). }
    rewrite Hnone. by destruct (e_fan e).
Qed.
End host.

(** ** Properties *)

Lemma blocks_names p path parent :
  blocks (match_names p path parent) = blocked (p_rules p) (match_ (p_rules p) path (base_name path) (base_name parent)).
Proof.
  unfold match_names, blocked, rule_at. destruct (match_ (p_rules p) path _ _) as [i|]; [|done].
  cbn [mbind option_bind]. by destruct (p_rules p !! i).
Qed.


(** Without BPF LSM the fanotify engine enforces the whole policy: it
    refuses an execution exactly when the first rule found for it, in the
    order path, directory, parent, hash, known malware, blocks and its scope
    does not exclude the program. *)
Theorem fanotify_alone_enforces_the_policy resolve hash_file exe load stat major minor iter
    sha256 equal_fold lower fuel content rules p e os ev cache path parent :
  let e' := engines_apply resolve hash_file exe load stat major minor iter true p e in
  agent_policy resolve hash_file exe load rules p → e_lsm e = None →
  (∀ h, e_fan e = Some h → version_names h p) →
  cache_ok sha256 content cache → sees_event fuel content os ev path parent →
  fan_allows sha256 equal_fold lower fuel e' os ev cache
  = negb (policy_refuses equal_fold lower false p path parent (digest_of sha256 content os (fv_fd ev))).
Proof.
  intros e' Hp Hlsm Hv Hca Hev. unfold e'.
  rewrite (fan_allows_spec resolve hash_file exe load stat major minor iter _ _ _ fuel content
    rules p e os ev cache path parent Hp Hv Hca Hev).
  unfold has_lsm. by rewrite Hlsm, bool_decide_true.
Qed.

(** When the policy cannot be loaded into the kernel, no engine enforces
    its path, directory and parent rules: the BPF program then allows every
    execution, and the helper, which is still told that the kernel decides,
    refuses one only for a hash rule or a known-malware hash. *)
Theorem failed_load_leaves_rules_to_nobody resolve hash_file exe load stat major minor iter
    sha256 equal_fold lower fuel content rules p e s os ev cache path parent :
  let e' := engines_apply resolve hash_file exe load stat major minor iter true p e in
  agent_policy resolve hash_file exe load rules p → e_lsm e = Some s →
  prevent_config s ≠ [] →
  fst (PreventPolicy.apply stat major minor iter (p_rules p) s) = false →
  (∀ h, e_fan e = Some h → version_names h p) →
  cache_ok sha256 content cache → sees_event fuel content os ev path parent →
  (∃ s', e_lsm e' = Some s' ∧
     ∀ (KL : KernelLayout) (c : ctx) slot args, check_exec c slot args s' = (0, s')) ∧
  (fan_allows sha256 equal_fold lower fuel e' os ev cache = false →
   ∃ h m, digest_of sha256 content os (fv_fd ev) = Some h ∧ match_hash p h = Some m ∧ r_block (m_rule m) = true).
Proof.
  intros e' Hp Hlsm Hcfg Hfail Hv Hca Hev. split.
  - destruct (PreventPolicy.apply stat major minor iter (p_rules p) s) as [ok s'] eqn:Ha. cbn in Hfail. subst ok.
    exists s'. split; [|exact (failed_load_turns_prevention_off _ _ _ _ _ _ _ Hcfg Ha)].
    unfold e', engines_apply. rewrite Hlsm. cbn [fmap option_fmap option_map]. rewrite Ha.
    by destruct (_ || checksMalware p), (e_fan e).
  - unfold e'. rewrite (fan_allows_spec resolve hash_file exe load stat major minor iter _ _ _ fuel content
      rules p e os ev cache path parent Hp Hv Hca Hev).
    unfold has_lsm. rewrite Hlsm, bool_decide_false by done. cbn [negb].
    rewrite negb_false_iff. unfold verdict, match_exec. destruct (p_off p); [done|].
    destruct (_ || checksMalware p); [|done]. destruct (digest_of sha256 content os (fv_fd ev)) as [h|]; [|done].
    cbn [mbind option_bind]. destruct (match_hash p h) as [m|] eqn:Em; cbn [mbind option_bind]; [|done].
    destruct (excluded _ _ _ _ _ _); [done|]. intros Hb. by exists h, m.
Qed.

(** A rule that only detects can decide: for a program with a path rule
    in detect mode and a blocking hash rule, a host with BPF LSM refuses it
    (the engines decide separately), and a host without it lets it run (the
    path rule is found first, and the hash is not looked at). *)
Theorem detect_rule_shields_from_hash_rule resolve hash_file exe load stat major minor iter
    sha256 equal_fold lower fuel content rules p e1 e2 os ev cache path parent h m m' :
  let host e := engines_apply resolve hash_file exe load stat major minor iter true p e in
  agent_policy resolve hash_file exe load rules p → p_off p = false →
  e_lsm e1 ≠ None → e_fan e1 = None → e_lsm e2 = None → e_fan e2 = None →
  cache_ok sha256 content cache → sees_event fuel content os ev path parent →
  digest_of sha256 content os (fv_fd ev) = Some h →
  match_names p path parent = Some m → r_block (m_rule m) = false →
  match_hash p h = Some m' → r_block (m_rule m') = true → excluded equal_fold lower p m' path h = false →
  HasHashRules p || checksMalware p = true →
  fan_allows sha256 equal_fold lower fuel (host e1) os ev cache = false ∧
  fan_allows sha256 equal_fold lower fuel (host e2) os ev cache = true.
Proof.
  intros host Hp Hoff Hl1 Hf1 Hl2 Hf2 Hca Hev Hh Hm Hmb Hm' Hmb' Hex Hneed. unfold host.
  assert (Hspec : ∀ e, e_fan e = None → _) by (intros e He; exact
    (fan_allows_spec resolve hash_file exe load stat major minor iter sha256 equal_fold lower fuel content
      rules p e os ev cache path parent Hp (λ h E, ltac:(congruence)) Hca Hev)).
  rewrite !Hspec by done. unfold has_lsm. rewrite (bool_decide_false _ Hl1), (bool_decide_true _ Hl2), Hh.
  unfold verdict, match_exec. rewrite Hoff, Hneed, Hm. cbn [negb mbind option_bind]. rewrite Hm'.
  cbn [mbind option_bind default from_option mjoin option_join id]. rewrite Hex. cbn [blocks]. rewrite Hmb'.
  split; [done|]. destruct (excluded _ _ _ m _ _); cbn; [done|]. by rewrite Hmb.
Qed.

(** C30. The helper compiles the rules it is sent to the agent's policy: each
    rule at the same index (the decisions name rules by index), with the same
    type, value and names, and nothing is left out.  Its own guard can only
    take a block away, and takes none when it finds the same files. *)
Theorem helper_compiles_the_same_policy resolve g resolve' g' rules :
  let p := fst (compileWith resolve g rules) in
  let q := fst (compileWith resolve' g' (sent_rule <$> p)) in
  length q = length p ∧
  (∀ i c, p !! i = Some c → ∃ c', q !! i = Some c' ∧ r_type c' = r_type c ∧ r_value c' = r_value c ∧
     r_parents c' = r_parents c ∧ r_children c' = r_children c ∧
     (r_block c' = true ↔ r_block c = true ∧ refuse resolve' g' c = false)) ∧
  (resolve' = resolve → g' = g → map r_block q = map r_block p) ∧
  Forall (eq err_guard) (snd (compileWith resolve' g' (sent_rule <$> p))).
Proof.
  intros p q. destruct (helper_rules resolve g resolve' g' rules) as [Hq Hf].
  change (q = as_guarded resolve' g' <$> p) in Hq. split_and!; [by rewrite Hq, length_fmap| | |done].
  - intros i c Hi. eexists. split; [by rewrite Hq, list_lookup_fmap, Hi|]. unfold as_guarded.
    destruct (r_block c) eqn:Eb, (refuse resolve' g' c) eqn:Er; cbn; rewrite ?Eb; naive_solver.
  - intros -> ->. rewrite Hq. rewrite <- list_fmap_compose. apply list_fmap_ext. intros i c Hi. cbn.
    destruct (compile_ok resolve g rules) as (rs & _ & [_ _ H] & _).
    destruct (Forall2_lookup_r _ _ _ _ _ H Hi) as (r & _ & Hr). destruct (compiled_from_wf _ _ _ _ Hr) as [_ Hb].
    unfold as_guarded. destruct (r_block c) eqn:Eb; cbn [andb]; [|done]. by destruct Hb as [-> _].
Qed.

(** A known-malware set that could not be saved is never enforced: the
    helper loads the older set from the file under the new set's version,
    and keeps it with every later message of that version, also once the
    file holds the new set. *)
Theorem unsaved_malware_set_is_not_enforced resolve hash_file exe load load' p k h s old :
  p_malware p = Some s → checksMalware p = true → p_malwareFile p ≠ [] →
  load (p_malwareFile p) = Some old → load' (p_malwareFile p) = Some s → h_version h ≠ set_version s →
  let h1 := helper_turn resolve hash_file exe load (policy_msg p k) h in
  let h2 := helper_turn resolve hash_file exe load' (policy_msg p k) h1 in
  h_malware h1 = Some old ∧ h_malware h2 = Some old ∧
  ∀ q, h_policy h2 = Some q → ∀ sha, Lookup (p_malware (fp_p q)) sha = Lookup (Some old) sha.
Proof.
  intros Hm Hc Hf Hl _ Hv h1 h2.
  assert (H1 : h_malware h1 = Some old ∧ h_version h1 = set_version s).
  { unfold h1, helper_turn, policy_msg. rewrite Hm, Hc, (bool_decide_false _ Hf).
    cbn [andb negb hp_MalwareFile hp_MalwareVersion]. rewrite (bool_decide_false _ Hf), bool_decide_false by done.
    cbn [negb]. by rewrite Hl. }
  destruct H1 as [H1 Hv1]. split; [done|]. unfold h2, helper_turn, policy_msg. rewrite Hm, Hc, (bool_decide_false _ Hf).
  cbn [andb negb hp_MalwareFile hp_MalwareVersion]. rewrite (bool_decide_false _ Hf), bool_decide_true by done.
  cbn [negb]. rewrite H1. split; [done|]. by intros q [= <-] sha.
Qed.

(** ** A host with /etc/shadow executed, and the policies *)

Definition host_rules : list rule :=
  [Rule (zs "r1") (zs "no etc") (zs "dir") (zs "/usr/../etc/") [] (zs "block")].
Definition host_guard : guard := newGuard demo_resolve (λ _, None) None.
Definition host_policy (rules : list rule) : policy :=
  compiled_policy (fst (compileWith demo_resolve host_guard rules)) host_guard.
Definition host_os : fan_os :=
  FanOs (λ fd, if fd =? 5 then Some demo_key else None)
    (λ _ off, Some (take readChunk (drop (Z.to_nat off) (demo_content demo_key))))
    (λ _, Some (zs "/etc/shadow")) (λ _, Some (zs "/etc/shadow")) (λ _, None).
Definition no_load (f : list Z) : option set := None.

Lemma host_policy_ok rules : agent_policy demo_resolve (λ _, None) None no_load rules (host_policy rules).
Proof. by split. Qed.

Lemma host_honest : honest 20 demo_content host_os.
Proof. exact demo_honest. Qed.

Lemma host_sees : sees_event 20 demo_content host_os (FanEvent 5 41) (zs "/etc/shadow") (zs "/etc/shadow").
Proof. split; [exact host_honest|done..]. Qed.

Lemma empty_cache_ok : cache_ok demo_digest demo_content ∅.
Proof. split; [rewrite map_size_empty; lia|]. intros key h H. by rewrite lookup_empty in H. Qed.


Lemma fanotify_alone_enforces_the_policy_witness :
  let e' := engines_apply demo_resolve (λ _, None) None no_load demo_stat demo_dev_major demo_dev_minor map_to_list
              true (host_policy host_rules) (Linux None None) in
  fan_allows demo_digest demo_fold to_lower 20 e' host_os (FanEvent 5 41) ∅
  = negb (policy_refuses demo_fold to_lower false (host_policy host_rules) (zs "/etc/shadow") (zs "/etc/shadow")
            (digest_of demo_digest demo_content host_os 5)).
Proof.
  apply (fanotify_alone_enforces_the_policy demo_resolve (λ _, None) None no_load demo_stat demo_dev_major
           demo_dev_minor map_to_list demo_digest demo_fold to_lower 20 demo_content host_rules
           (host_policy host_rules) (Linux None None)).
  - apply host_policy_ok.
  - done.
  - done.
  - apply empty_cache_ok.
  - apply host_sees.
Defined.

Example host_policy_refuses :
  policy_refuses demo_fold to_lower false (host_policy host_rules) (zs "/etc/shadow") (zs "/etc/shadow") None = true.
Proof. vm_compute. reflexivity. Qed.

(** The maps of a kernel that takes no rule. *)
Definition full_maps : pst := Pst [] ∅ ∅ ∅ ∅ [] [0; 900] [] [].

Lemma failed_load_leaves_rules_to_nobody_witness :
  let e' := engines_apply demo_resolve (λ _, None) None no_load demo_stat demo_dev_major demo_dev_minor map_to_list
              true (host_policy host_rules) (Linux (Some full_maps) None) in
  (∃ s', e_lsm e' = Some s' ∧
     ∀ (KL : KernelLayout) (c : ctx) slot args, check_exec c slot args s' = (0, s')) ∧
  (fan_allows demo_digest demo_fold to_lower 20 e' host_os (FanEvent 5 41) ∅ = false →
   ∃ h m, digest_of demo_digest demo_content host_os 5 = Some h ∧ match_hash (host_policy host_rules) h = Some m ∧
     r_block (m_rule m) = true).
Proof.
  apply (failed_load_leaves_rules_to_nobody demo_resolve (λ _, None) None no_load demo_stat demo_dev_major
           demo_dev_minor map_to_list demo_digest demo_fold to_lower 20 demo_content host_rules
           (host_policy host_rules) (Linux (Some full_maps) None) full_maps host_os (FanEvent 5 41) ∅
           (zs "/etc/shadow") (zs "/etc/shadow")).
  - apply host_policy_ok.
  - done.
  - done.
  - vm_compute. reflexivity.
  - done.
  - apply empty_cache_ok.
  - apply host_sees.
Defined.

Definition shield_rules : list rule :=
  [Rule (zs "r1") (zs "watch") (zs "path") (zs "/etc/shadow") [] (zs "detect");
   Rule (zs "r2") (zs "bad") (zs "hash") (hex_encode (demo_digest (demo_content demo_key))) [] (zs "block")].

Lemma detect_rule_shields_from_hash_rule_witness :
  let host e := engines_apply demo_resolve (λ _, None) None no_load demo_stat demo_dev_major demo_dev_minor
                  map_to_list true (host_policy shield_rules) e in
  fan_allows demo_digest demo_fold to_lower 20 (host (Linux (Some demo_maps) None)) host_os (FanEvent 5 41) ∅ = false ∧
  fan_allows demo_digest demo_fold to_lower 20 (host (Linux None None)) host_os (FanEvent 5 41) ∅ = true.
Proof.
  apply (detect_rule_shields_from_hash_rule demo_resolve (λ _, None) None no_load demo_stat demo_dev_major
           demo_dev_minor map_to_list demo_digest demo_fold to_lower 20 demo_content shield_rules
           (host_policy shield_rules) (Linux (Some demo_maps) None) (Linux None None) host_os (FanEvent 5 41) ∅
           (zs "/etc/shadow") (zs "/etc/shadow") (hex_encode (demo_digest (demo_content demo_key)))
           (Matched 0 (Compiled TypePath (zs "/etc/shadow") false [] []
              (Rule (zs "r1") (zs "watch") (zs "path") (zs "/etc/shadow") [] (zs "detect"))))
           (Matched 1 (Compiled TypeHash (hex_encode (demo_digest (demo_content demo_key))) true [] []
              (Rule (zs "r2") (zs "bad") (zs "hash") (hex_encode (demo_digest (demo_content demo_key))) [] (zs "block"))))).
  - apply host_policy_ok.
  - done.
  - done.
  - done.
  - done.
  - done.
  - apply empty_cache_ok.
  - apply host_sees.
  - vm_compute. reflexivity.
  - vm_compute. reflexivity.
  - reflexivity.
  - vm_compute. reflexivity.
  - reflexivity.
  - reflexivity.
  - vm_compute. reflexivity.
Defined.

Lemma helper_compiles_the_same_policy_witness :
  let p := fst (compileWith demo_resolve host_guard demo_rules) in
  let q := fst (compileWith demo_resolve host_guard (sent_rule <$> p)) in
  length q = length p ∧ map r_block q = map r_block p.
Proof.
  destruct (helper_compiles_the_same_policy demo_resolve host_guard demo_resolve host_guard demo_rules)
    as (H1 & _ & H2 & _). split; [exact H1|exact (H2 eq_refl eq_refl)].
Defined.

Definition demo_set (v : string) (sha : string) : set :=
  let s := build {[ default [] (parse (demo_sha sha)) := zs "Emotet" ]} in
  MkSet 7 ActionBlock (zs v) (s_keys s) (s_labels s) (s_table s).

Lemma unsaved_malware_set_is_not_enforced_witness :
  let p := withMalware (host_policy []) (Some (demo_set "v2" "b")) (zs "/var/lib/siem/malware") in
  let turn load := helper_turn demo_resolve (λ _, None) None load (policy_msg p true) in
  let h1 := turn (λ _, Some (demo_set "v1" "a")) new_helper in
  let h2 := turn (λ _, Some (demo_set "v2" "b")) h1 in
  h_malware h1 = Some (demo_set "v1" "a") ∧ h_malware h2 = Some (demo_set "v1" "a") ∧
  ∀ q, h_policy h2 = Some q → ∀ sha, Lookup (p_malware (fp_p q)) sha = Lookup (Some (demo_set "v1" "a")) sha.
Proof.
  cbv zeta. apply (unsaved_malware_set_is_not_enforced demo_resolve (λ _, None) None
    (λ _, Some (demo_set "v1" "a")) (λ _, Some (demo_set "v2" "b"))
    (withMalware (host_policy []) (Some (demo_set "v2" "b")) (zs "/var/lib/siem/malware")) true new_helper
    (demo_set "v2" "b") (demo_set "v1" "a")); try done.
Defined.
