(* ===== verification/AgentLines.v ===== *)
(** * The log lines of the other programs (procexec.go, netwatch.go)

    What the agent logs of an exec and of a network call, and what the
    worker's parser reads back: from the program's run to the worker's
    fields.  netwatch.go does not quote the process name. *)
From Stdlib Require Import ZArith Lia Ascii String.
From stdpp Require Import base tactics list gmap strings.
From S2P Require Import Prelude.
From S2P Require Import GoStrings.
From S2P Require Import Kernel.
From S2P Require Import CoreRead.
From S2P Require Import Scenario.
From S2P Require Import Endian.
From S2P Require Import Execve.
From S2P Require Import ExecveProps.
From S2P Require Import Netwatch.
From S2P Require Import NetwatchProps.
From S2P Require Import Wire.
From S2P Require Import KvParse.
From S2P Require Import Transport.
From S2P Require Import Lines.
Local Open Scope Z_scope.
Import Execve.

(** ** An exec (procexec.go) *)

(** The end of [decodeExec]: the text of the line. *)
Definition exec_text (x : exec_line) : list Z :=
  zs "Image=" ++ kv_exec (xl_image x) ++ zs " CommandLine=" ++ kv_exec (xl_command_line x)
  ++ zs " PID=" ++ fmt_d (xl_pid x) ++ zs " PPID=" ++ fmt_d (xl_ppid x) ++ zs " User=" ++ fmt_d (xl_uid x)
  ++ (if bool_decide (xl_parent x = []) then [] else zs " ParentImage=" ++ kv_exec (xl_parent x))
  ++ (if bool_decide (xl_comm x = []) then [] else zs " Comm=" ++ kv_exec (xl_comm x))
  ++ (if xl_truncated x then zs " ArgsTruncated=true" else []).

Local Open Scope string_scope.
Definition exec_pairs (x : exec_line) : list (string * text) :=
  [("Image", Verbatim (xl_image x)); ("CommandLine", Verbatim (xl_command_line x));
   ("PID", Plain (fmt_d (xl_pid x))); ("PPID", Plain (fmt_d (xl_ppid x))); ("User", Plain (fmt_d (xl_uid x)))]
  ++ (if bool_decide (xl_parent x = []) then [] else [("ParentImage", Verbatim (xl_parent x))])
  ++ (if bool_decide (xl_comm x = []) then [] else [("Comm", Verbatim (xl_comm x))])
  ++ (if xl_truncated x then [("ArgsTruncated", Plain (zs "true"))] else []).
Local Close Scope string_scope.

Lemma exec_text_pairs x : exec_text x = line_of (exec_pairs x).
Proof.
  unfold exec_text, exec_pairs. destruct (bool_decide (xl_parent x = [])), (bool_decide (xl_comm x = [])), (xl_truncated x);
    cbn [app line_of]; unfold pair_text; cbn [fst snd]; rewrite <- ?(assoc_L (++)), ?app_nil_r; reflexivity.
Qed.

(** Lists of pairs as the code prints them: each value quoted, a number, or
    checked by computing. *)
Ltac solve_pairs :=
  apply pairs_forall; cbn [app];
  repeat (apply Forall_cons_2;
    [match goal with
     | |- pair_ok (_, Quoted _) = true => apply quoted_pair_ok; [reflexivity|discriminate]
     | |- pair_ok (_, Verbatim _) = true => apply verbatim_pair_ok; [reflexivity|discriminate]
     | |- pair_ok (_, Plain _) = true => apply plain_pair_ok; [reflexivity|discriminate|]
     end|]); try apply Forall_nil_2;
  try match goal with
      | |- plain_ok (fmt_d _) = true => apply fmt_d_ok
      | |- _ => reflexivity
      end.

Lemma exec_pairs_ok x : forallb pair_ok (exec_pairs x) = true.
Proof.
  unfold exec_pairs.
  destruct (bool_decide (xl_parent x = [])), (bool_decide (xl_comm x = [])), (xl_truncated x); solve_pairs.
Qed.

Lemma exec_pairs_nodup x : NoDup ((λ kt, zs (fst kt)) <$> exec_pairs x).
Proof.
  unfold exec_pairs.
  destruct (bool_decide (xl_parent x = [])), (bool_decide (xl_comm x = [])), (xl_truncated x);
    apply (bool_decide_unpack _); vm_compute; exact I.
Qed.

(** What the worker gets of a pair, quoted by procexec.go's [kv]. *)
Lemma exec_field uw us x k t : (k, t) ∈ exec_pairs x →
  parse_kv uw us (received (exec_text x)) !! zs k = Some (text_value (received_text t)).
Proof.
  intros Hin. rewrite exec_text_pairs, parse_received by (apply exec_pairs_ok || apply exec_pairs_nodup).
  apply fields_lookup; [rewrite received_keys; apply exec_pairs_nodup|]. apply list_elem_of_fmap. by exists (k, t).
Qed.

(** A pair of a list that is written out. *)
Ltac in_pairs :=
  cbn [app];
  repeat match goal with
         | |- ?x ∈ ?y :: _ => constr_eq x y; apply list_elem_of_here
         | |- _ ∈ _ :: _ => apply list_elem_of_further
         end.

Lemma exec_fields uw us x : let w := parse_kv uw us (received (exec_text x)) in
  w !! zs "Image" = Some (received (xl_image x)) ∧ w !! zs "CommandLine" = Some (received (xl_command_line x)) ∧
  w !! zs "PID" = Some (fmt_d (xl_pid x)) ∧ w !! zs "PPID" = Some (fmt_d (xl_ppid x)) ∧
  w !! zs "User" = Some (fmt_d (xl_uid x)) ∧
  (xl_comm x ≠ [] → w !! zs "Comm" = Some (received (xl_comm x))) ∧
  (xl_parent x ≠ [] → w !! zs "ParentImage" = Some (received (xl_parent x))).
Proof.
  pose proof (exec_field uw us x) as Hv.
  cbv zeta. split_and!; try intros Hne.
  - apply (Hv "Image"%string (Verbatim (xl_image x))); unfold exec_pairs; in_pairs.
  - apply (Hv "CommandLine"%string (Verbatim (xl_command_line x))); unfold exec_pairs; in_pairs.
  - apply (Hv "PID"%string (Plain (fmt_d (xl_pid x)))); unfold exec_pairs; in_pairs.
  - apply (Hv "PPID"%string (Plain (fmt_d (xl_ppid x)))); unfold exec_pairs; in_pairs.
  - apply (Hv "User"%string (Plain (fmt_d (xl_uid x)))); unfold exec_pairs; in_pairs.
  - apply (Hv "Comm"%string (Verbatim (xl_comm x))); unfold exec_pairs. rewrite (bool_decide_false _ Hne).
    apply elem_of_app. right. apply elem_of_app. right. apply elem_of_app. left. in_pairs.
  - apply (Hv "ParentImage"%string (Verbatim (xl_parent x))); unfold exec_pairs. rewrite (bool_decide_false _ Hne).
    apply elem_of_app. right. apply elem_of_app. left. in_pairs.
Qed.

(** The file name in the record is the string in user memory. *)
Lemma read_filename_string c p dst s : ustr_at c p s → (0 < length dst)%nat →
  cstr (read_filename c p dst) = take (length dst - 1) s.
Proof.
  intros [Hs Hr] Hd. unfold read_filename. rewrite (Hr dst Hd). unfold str_copy at 1. cbn [fst].
  rewrite (proj2 (Z.ltb_ge _ 0)) by lia. by apply cstr_str_copy.
Qed.

(** The command line of the log: the first 8 arguments, of 127 bytes each,
    without the empty ones; the file name when there is none. *)
Definition command_line (file : list Z) (argv : list (list Z)) : list Z :=
  let l := join_sp (List.filter nonempty (map (list.take 127) (list.take MAXARG argv))) in
  if decide (l = []) then file else l.

Section exec.
Context {KL : KernelLayout} {M : Type} `{HM : !LruHash M Z (list Z)} (c : ctx) {Hc : ctx_ok c}.
Context (args : list Z) (e : exec_event) (file : list Z) (argv : list (list Z)) (s : est M).
Hypothesis He : slot_ok e.
Hypothesis Hargv : argv_at c (nth 1 args 0) 0 MAXARG argv.
Hypothesis Hne : argv ≠ [].
Hypothesis Hfile : ustr_at c (nth 0 args 0) file.
Hypothesis Hfne : file ≠ [].
Hypothesis Hcache : ∀ pid b, hash_lookup (pid_image_cache s) pid = Some b → length b = MAX_FILENAME_LEN.

Local Abbreviation ev := (event_of c args e s).

Lemma event_slot_ok : slot_ok ev.
Proof.
  destruct He as [Hf Hp Ha]. split; cbn [event_of ee_filename ee_parent_filename ee_args].
  - unfold read_filename. pose proof (ok_ustr_len (nth 0 args 0) (ee_filename e)) as H.
    destruct (fst _ <? 0); [rewrite length_insert|]; congruence.
  - unfold parent_image. destruct (hash_lookup _ _) as [b|] eqn:E; [by eapply Hcache|].
    by rewrite length_insert.
  - by destruct (args_of_argv c args e argv Ha Hargv) as ((H & _) & _).
Qed.

Lemma event_size : 0 ≤ a_off (args_of c args e) < 2 ^ 32.
Proof.
  destruct (args_of_argv c args e argv (so_args _ He) Hargv) as ((H1 & H2 & H3) & _). rewrite H2.
  assert (H : (length (concat (map arg_text (take MAXARG argv))) ≤ ARGS_BUF_LEN)%nat).
  { rewrite <- H3, length_take. lia. }
  change ARGS_BUF_LEN with 1024%nat in H. change (2 ^ 32) with 4294967296. lia.
Qed.

(** What the agent decodes from the record, over any old slot. *)
Lemma event_decoded slot : length (cx_comm c) = 16%nat → slot_of exec_event_members slot →
  decodeExec (store_exec_event ev slot) =
    Some (ExecLine (u32 (cx_tgid c)) (u32 (ee_ppid ev)) (u32 (cx_uid c)) (take 255 file)
            (List.filter nonempty (map (list.take 127) (list.take MAXARG argv)))
            (command_line (take 255 file) argv) (cstr (ee_parent_filename ev)) (cstr (cx_comm c))
            (negb (u8 (a_truncated (args_of c args e)) =? 0))).
Proof.
  intros Hcomm Hs. rewrite decodeExec_store by (done || apply event_slot_ok). cbv zeta.
  cbn [event_of ee_filename ee_args ee_args_size ee_pid ee_uid ee_comm ee_args_truncated].
  rewrite (read_filename_string c _ _ file) by (done || (rewrite (so_filename _ He); unfold MAX_FILENAME_LEN; lia)).
  rewrite (so_filename _ He). change (MAX_FILENAME_LEN - 1)%nat with 255%nat.
  rewrite decide_False by by destruct file.
  rewrite (u32_small (a_off _)) by apply event_size. unfold joinArgs.
  rewrite (split_args_of c args e argv (so_args _ He) Hargv Hne).
  unfold u32. rewrite !wrap_wrap. done.
Qed.

End exec.

(** ** A network call (netwatch.go) *)

Import Netwatch.Netwatch.

(** [%0nd] of a number of at most [n] digits. *)
Fixpoint pad_digits (n : nat) (z : Z) : list Z :=
  match n with O => [] | S n => pad_digits n (z / 10) ++ [48 + z mod 10] end.

(** The civil date of a day counted from 1970-01-01. *)
Definition civil (days : Z) : Z * Z * Z :=
  let z := days + 719468 in
  let era := z / 146097 in
  let doe := z mod 146097 in
  let yoe := (doe - doe / 1460 + doe / 36524 - doe / 146096) / 365 in
  let doy := doe - (365 * yoe + yoe / 4 - yoe / 100) in
  let mp := (5 * doy + 2) / 153 in
  let m := if mp <? 10 then mp + 3 else mp - 9 in
  (yoe + era * 400 + (if m <=? 2 then 1 else 0), m, doy - (153 * mp + 2) / 5 + 1).

(** The fraction of a second, without the zeros at its end. *)
Fixpoint trim_zeros (s : list Z) : list Z :=
  match s with
  | [] => []
  | b :: s => match trim_zeros s with [] => if b =? 48 then [] else [b] | t => b :: t end
  end.

(** [Format(time.RFC3339Nano)] of a UTC time in nanoseconds since 1970, of a
    year of four digits. *)
Definition rfc3339nano (ns : Z) : list Z :=
  let secs := ns / 10 ^ 9 in
  let '(y, m, d) := civil (secs / 86400) in
  let t := secs mod 86400 in
  pad_digits 4 y ++ [45] ++ pad_digits 2 m ++ [45] ++ pad_digits 2 d ++ [84]
  ++ pad_digits 2 (t / 3600) ++ [58] ++ pad_digits 2 (t / 60 mod 60) ++ [58] ++ pad_digits 2 (t mod 60)
  ++ (match trim_zeros (pad_digits 9 (ns mod 10 ^ 9)) with [] => [] | f => 46 :: f end) ++ [90].

Example rfc3339nano_ex : (λ ns, rfc3339nano ns) <$> [0; 1700000000123450000; 951782400000000001; -1]
  = zs <$> ["1970-01-01T00:00:00Z"; "2023-11-14T22:13:20.12345Z"; "2000-02-29T00:00:00.000000001Z";
            "1969-12-31T23:59:59.999999999Z"]%string.
Proof. vm_compute. reflexivity. Qed.

(** [cstring]: the text up to the NUL, its printable ASCII, trimmed. *)
Definition printable_byte (b : Z) : bool := (32 <=? b) && (b <=? 126).
Definition cstring (b : list Z) : list Z := trim_space (filter (λ x, printable_byte x) (cstr b)).

(** [net.IPv4(...).String()] *)
Definition ip_text (v : Z) : list Z :=
  match uint32ToIP v with
  | [a; b; c; d] => fmt_d a ++ [46] ++ fmt_d b ++ [46] ++ fmt_d c ++ [46] ++ fmt_d d
  | _ => []
  end.

(** [isPrivate] of such an address. *)
Definition is_private (v : Z) : bool :=
  match uint32ToIP v with
  | [a; b; _; _] =>
      (a =? 10) || ((a =? 172) && (Z.land b 0xf0 =? 16)) || ((a =? 192) && (b =? 168)) (* IsPrivate *)
      || (a =? 127)                                                                  (* IsLoopback *)
      || ((a =? 169) && (b =? 254))                                            (* IsLinkLocalUnicast *)
  | _ => false
  end.

Definition proto_name (p : Z) : list Z :=
  if p =? 6 then zs "tcp" else if p =? 17 then zs "udp" else if p =? 1 then zs "icmp" else zs "other".

(** The log type and the action of a kind. *)
Definition net_action (k : Z) : option (list Z * list Z) :=
  if k =? SYSCALL_CONNECT then Some (zs "linux_network_connect", zs "network_connect")
  else if k =? SYSCALL_BIND then Some (zs "linux_network_bind", zs "network_bind")
  else if k =? SYSCALL_ACCEPT then Some (zs "linux_network_accept", zs "network_accept")
  else if k =? SYSCALL_DNS then Some (zs "linux_dns_query", zs "dns_query")
  else None.

Definition net_direction (k : Z) : list Z :=
  if (k =? SYSCALL_BIND) || (k =? SYSCALL_ACCEPT) then zs "inbound" else zs "outbound".

Local Open Scope string_scope.
(** The arguments of the [Sprintf], by name: those before the process name,
    those after it, all; [boot] is the time of boot. *)
Definition pairs_before (boot : Z) (ev : net_event) : list (string * text) :=
  [("ts", Plain (rfc3339nano (boot + s64 (ne_timestamp_ns ev)))); ("pid", Plain (fmt_d (ne_pid ev)));
   ("tgid", Plain (fmt_d (ne_tgid ev))); ("uid", Plain (fmt_d (ne_uid ev))); ("gid", Plain (fmt_d (ne_gid ev)))].
Definition pairs_after (ev : net_event) (action : list Z) : list (string * text) :=
  [("action", Plain action); ("proto", Plain (proto_name (ne_proto ev)));
   ("direction", Plain (net_direction (ne_syscall_kind ev))); ("src", Plain (ip_text (ne_saddr_v4 ev)));
   ("dport", Plain (fmt_d (ne_remote_port ev))); ("dst", Plain (ip_text (ne_daddr_v4 ev)));
   ("lport", Plain (fmt_d (ne_local_port ev))); ("host", Plain (cstring (ne_host ev)));
   ("private_dst", Plain (zs (if is_private (ne_daddr_v4 ev) then "true" else "false")))].
Definition net_pairs (boot : Z) (ev : net_event) (action : list Z) : list (string * text) :=
  pairs_before boot ev ++ ("comm", Plain (cstring (ne_comm ev))) :: pairs_after ev action.
Local Close Scope string_scope.

(** [render]: the log type and the line; empty for another kind. *)
Definition render (boot : Z) (ev : net_event) : list Z * list Z :=
  match net_action (ne_syscall_kind ev) with
  | Some (log_type, action) => (log_type, line_of (net_pairs boot ev action))
  | None => ([], [])
  end.

(** ** Which values need no quotes *)

Lemma pad_digits_plain n z : forallb plain_byte (pad_digits n z) = true.
Proof.
  revert z. induction n as [|n IH]; intros z; [done|]. cbn [pad_digits]. rewrite forallb_app, IH. cbn.
  pose proof (Z.mod_pos_bound z 10). unfold plain_byte. lia.
Qed.

Lemma trim_zeros_plain s : forallb plain_byte s = true → forallb plain_byte (trim_zeros s) = true.
Proof.
  induction s as [|b s IH]; [done|]. cbn [trim_zeros forallb]. intros [Hb Hs]%andb_true_iff. specialize (IH Hs).
  destruct (trim_zeros s) as [|x t]; cbn in *; [|by rewrite Hb].
  destruct (b =? 48); [done|]. cbn. by rewrite Hb.
Qed.

Lemma rfc3339nano_ok ns : plain_ok (rfc3339nano ns) = true.
Proof.
  unfold rfc3339nano. destruct (civil _) as [[y m] d]. unfold plain_ok. apply andb_true_iff. split.
  - rewrite bool_decide_false; [done|]. intros H%(f_equal length). rewrite !length_app in H. cbn in H. lia.
  - rewrite !forallb_app, !pad_digits_plain.
    pose proof (trim_zeros_plain _ (pad_digits_plain 9 (ns mod 10 ^ 9))) as Hz.
    destruct (trim_zeros _) as [|x t]; [done|]. cbn [forallb app] in *. by rewrite Hz.
Qed.

Lemma ip_text_ok v : plain_ok (ip_text v) = true.
Proof.
  unfold ip_text. cbn [uint32ToIP]. unfold plain_ok. apply andb_true_iff. split.
  - rewrite bool_decide_false; [done|]. intros H%(f_equal length). rewrite !length_app in H. cbn in H. lia.
  - rewrite !forallb_app. assert (H : ∀ z, forallb plain_byte (fmt_d z) = true).
    { intros z. pose proof (fmt_d_ok z) as [_ H]%andb_true_iff. exact H. }
    by rewrite !H.
Qed.

Lemma proto_name_ok p : plain_ok (proto_name p) = true.
Proof. unfold proto_name. by repeat destruct (_ =? _). Qed.

Lemma direction_ok k : plain_ok (net_direction k) = true.
Proof. unfold net_direction. by destruct (_ || _). Qed.

Lemma action_ok k lt action : net_action k = Some (lt, action) → plain_ok action = true.
Proof. unfold net_action. repeat destruct (_ =? _); intros H; simplify_eq; reflexivity. Qed.

(** ** What the worker reads of a network call *)

Lemma zs_inj s t : zs s = zs t → s = t.
Proof.
  unfold zs. revert t. induction s as [|a s IH]; intros [|b t] H; try done. injection H as Hab Hst.
  apply Nat2Z.inj, (f_equal ascii_of_nat) in Hab. rewrite !ascii_nat_embedding in Hab. by rewrite Hab, (IH t).
Qed.

(** A word, or nothing. *)
Definition plain_text (s : list Z) : Prop := forallb plain_byte s = true.

Lemma plain_pair_ok0 k s :
  forallb (is_word (λ _, false)) (zs k) = true → zs k ≠ [] → plain_text s → pair_ok0 (k, Plain s) = true.
Proof. intros H1 H2 H3. unfold pair_ok0. cbn [fst snd]. by rewrite H1, bool_decide_false, H3. Qed.

Lemma plain_ok_text s : plain_ok s = true → plain_text s.
Proof. by intros [_ H]%andb_true_iff. Qed.

Lemma pairs0_forall l : Forall (λ kt, pair_ok0 kt = true) l → forallb pair_ok0 l = true.
Proof. rewrite forallb_forall, Forall_forall. intros H kt Hin. by apply H, list_elem_of_In. Qed.

Create HintDb plain.
#[export] Hint Resolve rfc3339nano_ok fmt_d_ok ip_text_ok proto_name_ok direction_ok action_ok plain_ok_text : plain.

(** A list of plain pairs, one value after the other. *)
Ltac solve_pairs0 :=
  repeat (apply Forall_cons_2;
    [apply plain_pair_ok0; [reflexivity|discriminate|eauto with plain]|]); try apply Forall_nil_2.

Section net_pairs.
Context (boot : Z) (ev : net_event) (lt action : list Z).
Hypothesis Ha : net_action (ne_syscall_kind ev) = Some (lt, action).
Hypothesis Hh : plain_text (cstring (ne_host ev)).

(** Every value but the name and the host is a word. *)
Lemma net_pairs_ok l : Forall (λ kt, pair_ok0 kt = true) l →
  forallb pair_ok0 (pairs_before boot ev ++ l ++ pairs_after ev action) = true.
Proof.
  intros Hl. apply pairs0_forall, Forall_app; split; [|apply Forall_app; split; [done|]]; unfold pairs_before, pairs_after;
    solve_pairs0. by destruct (is_private _).
Qed.
End net_pairs.

(** The last pair of a name is the one that counts. *)
Lemma fields_in_order_last l1 k t l2 : present (k, t) = true → zs k ∉ (λ kt, zs (fst kt)) <$> l2 →
  fields_in_order (l1 ++ (k, t) :: l2) !! zs k = Some (text_value t).
Proof.
  intros Hp Hk. unfold fields_in_order. rewrite filter_app, filter_cons_True by by rewrite Hp.
  rewrite fmap_app, foldl_app. cbn [fmap list_fmap foldl fst snd].
  assert (H : ∀ l (m : gmap (list Z) (list Z)), zs k ∉ (λ kt, zs (fst kt)) <$> l →
    foldl (λ m kv, <[fst kv := snd kv]> m) m ((λ kt, (zs (fst kt), text_value (snd kt))) <$> filter (λ x, present x) l)
    !! zs k = m !! zs k).
  { clear. intros l. induction l as [|kt l IH]; intros m Hl; [done|].
    cbn [fmap list_fmap] in Hl. apply not_elem_of_cons in Hl as [Hne Hl]. rewrite filter_cons.
    destruct (decide _); [|by apply IH]. cbn [fmap list_fmap foldl fst snd].
    rewrite IH by done. by rewrite lookup_insert_ne. }
  rewrite H by done. apply lookup_insert_eq.
Qed.

Lemma fields_in_order_in l k t : NoDup ((λ kt, zs (fst kt)) <$> l) → present (k, t) = true → (k, t) ∈ l →
  fields_in_order l !! zs k = Some (text_value t).
Proof.
  intros Hnd Hp (l1 & l2 & ->)%list_elem_of_split. apply fields_in_order_last; [done|].
  rewrite fmap_app in Hnd. apply NoDup_app in Hnd as (_ & _ & Hnd). cbn [fmap list_fmap] in Hnd.
  by apply NoDup_cons in Hnd as [Hnd _].
Qed.

Lemma net_pairs_nodup boot ev action : NoDup ((λ kt, zs (fst kt)) <$> net_pairs boot ev action).
Proof. apply (bool_decide_unpack _). vm_compute. exact I. Qed.

Lemma plain_present k s : s ≠ [] → present (k, Plain s) = true.
Proof. by destruct s. Qed.

Lemma plain_ok_nonempty s : plain_ok s = true → s ≠ [].
Proof. intros [H _]%andb_true_iff. by intros ->. Qed.

(** A process named [a k=v] prints the line of a process named [a] with a
    pair [k=v] after the name. *)
Lemma net_line_forged boot ev action a k v :
  cstring (ne_comm ev) = a ++ 32 :: pair_text (k, Plain v) →
  line_of (net_pairs boot ev action)
  = line_of (pairs_before boot ev ++ [("comm"%string, Plain a); (k, Plain v)] ++ pairs_after ev action).
Proof.
  intros Hn. unfold net_pairs. rewrite Hn. assert (Ha : pairs_after ev action ≠ []) by done.
  revert Ha. generalize (pairs_after ev action) as l2. intros [|kt2 l2] Hl2; [done|].
  induction (pairs_before boot ev) as [|kt l1 IH].
  - cbn [app line_of]. unfold pair_text. cbn [fst snd]. rewrite <- ?app_assoc. cbn [app]. by rewrite <- ?app_assoc.
  - cbn [app]. destruct l1 as [|kt1 l1]; cbn [app line_of] in *; by rewrite IH.
Qed.

(** The body of the read loop: the log type and the line it pushes. *)
Definition selfComm : list Z := zs "agent".
Definition noiseComms : list (list Z) := [selfComm].
Definition read_record (boot : Z) (raw : list Z) : option (list Z * list Z) :=
  ev ← decode_net raw;
  if bool_decide (cstring (ne_comm ev) ∈ noiseComms) then None else
  let '(logType, line) := render boot ev in
  if bool_decide (logType = []) then None else Some (logType, line).

(** The dotted address of its four bytes. *)
Definition dotted (b : list Z) : list Z :=
  match b with
  | [w; x; y; z] => fmt_d w ++ [46] ++ fmt_d x ++ [46] ++ fmt_d y ++ [46] ++ fmt_d z
  | _ => []
  end.

Lemma dotted_ip v : dotted (uint32ToIP v) = ip_text v.
Proof. done. Qed.

(** The fields that are printed after the name. *)
Definition keys_after_comm : list string :=
  ["action"; "proto"; "direction"; "src"; "dport"; "dst"; "lport"; "host"; "private_dst"]%string.

Section net.
Context (c : ctx) (Hc : ctx_ok c) (boot : Z) (uw us : Z → bool).
Context (p : net_probe) (args : list Z) (e : net_event) (s : nst) (sa slot : list Z).
Hypothesis Hp : p ≠ N_sendto.
Hypothesis Ha : nth 1 args 0 ≠ 0.
Hypothesis Hm : umem_at c (nth 1 args 0) sa.
Hypothesis Hl : length sa = 16%nat.
Hypothesis Hb : is_bytes sa.
Hypothesis Hf : sin_family LITTLE_ENDIAN sa = AF_INET_.
Hypothesis Hcomm : length (cx_comm c) = 16%nat.
Hypothesis Hhost : length (ne_host e) = MAX_HOST_LEN.
Hypothesis Hslot : slot_of net_event_members slot.

Local Abbreviation ev := (socket_event c p sa e).
Local Abbreviation name := (cstring (cx_comm c)).

(** The event as the agent has it. *)
Lemma socket_decoded : ∃ ev', decode_net (store_net_event ev slot) = Some ev' ∧
  ne_pid ev' = u32 (cx_pid c) ∧ ne_tgid ev' = u32 (cx_tgid c) ∧ ne_uid ev' = u32 (cx_uid c) ∧
  ne_gid ev' = u32 (cx_gid c) ∧ ne_syscall_kind ev' = net_kind p ∧ ne_comm ev' = cx_comm c ∧
  ne_host ev' = ne_host e ∧ uint32ToIP (ne_daddr_v4 ev') = slice sa 4 4 ∧
  match p with N_bind => ne_local_port ev' | _ => ne_remote_port ev' end = be_val (slice sa 2 2).
Proof.
  eexists. split; [apply decode_net_store; unfold socket_event; by destruct p|].
  assert (Hs : ∀ n m, is_bytes (slice sa n m)) by (intros; by apply Forall_take, Forall_drop).
  assert (Hip : u32 (le_val (slice sa 4 4)) = le_val (slice sa 4 4)).
  { apply wrap_small. pose proof (le_val_range _ (Hs 4%nat 4%nat)) as H.
    rewrite (length_slice sa 4 4) in H by lia. exact H. }
  assert (Hport : u16 (be_val (slice sa 2 2)) = be_val (slice sa 2 2)).
  { apply wrap_small. unfold be_val. pose proof (le_val_range (rev (slice sa 2 2))) as H.
    rewrite length_rev, (length_slice sa 2 2) in H by lia. apply H, Forall_rev, Hs. }
  unfold socket_event. destruct p; try done; cbn [net_ports net_kind ne_pid ne_tgid ne_uid ne_gid
    ne_syscall_kind ne_comm ne_host ne_daddr_v4 ne_local_port ne_remote_port];
    rewrite Hip, ?Hport, ?uint32ToIP_le by (done || (apply length_slice; lia));
    unfold u32; rewrite ?wrap_wrap; done.
Qed.

(** What it prints of it. *)
Lemma read_record_socket ev' : name ∉ noiseComms → ne_syscall_kind ev' = net_kind p → ne_comm ev' = cx_comm c →
  decode_net (store_net_event ev slot) = Some ev' →
  ∃ lt action, net_action (ne_syscall_kind ev') = Some (lt, action) ∧
    read_record boot (store_net_event ev slot) = Some (lt, line_of (net_pairs boot ev' action)).
Proof.
  intros Hn Hk Hco Hd. unfold read_record. rewrite Hd. cbn [mbind option_bind].
  rewrite Hco, bool_decide_false by done. unfold render. rewrite Hk.
  destruct p; try done; cbn [net_kind]; eexists _, _; by split.
Qed.

(** The port a connect or accept is to, or a bind is of. *)
Definition port_key : string := match p with N_bind => "lport" | _ => "dport" end.

Local Abbreviation worker line := (parse_kv uw us line).

(** C29. A network call reaches the worker: of a connect, bind or accept with
    a readable IPv4 address, when the process name (other than the agent's)
    and the slot's old host are words, the agent pushes one line from which
    the worker reads the thread, process, user and group, the name, the four
    address bytes in order and the big-endian port. *)
Theorem network_call_reaches_the_worker : plain_text name → name ∉ noiseComms → plain_text (cstring (ne_host e)) →
  ∃ rec lt line, exec (run_net c LITTLE_ENDIAN (Some e) p args) s = s ++ [Reserve; Submit rec] ∧
    read_record boot (store_net_event rec slot) = Some (lt, line) ∧
    worker line !! zs "pid" = Some (fmt_d (u32 (cx_pid c))) ∧
    worker line !! zs "tgid" = Some (fmt_d (u32 (cx_tgid c))) ∧
    worker line !! zs "uid" = Some (fmt_d (u32 (cx_uid c))) ∧
    worker line !! zs "gid" = Some (fmt_d (u32 (cx_gid c))) ∧
    (name ≠ [] → worker line !! zs "comm" = Some name) ∧
    worker line !! zs "dst" = Some (dotted (slice sa 4 4)) ∧
    worker line !! zs port_key = Some (fmt_d (be_val (slice sa 2 2))).
Proof.
  intros Hn Hno Hh. exists ev. destruct socket_decoded as (ev' & Hd & Hpid & Htgid & Huid & Hgid & Hk & Hco & Hho & Hip & Hport).
  destruct (read_record_socket ev' Hno Hk Hco Hd) as (lt & action & Hact & Hr).
  exists lt, (line_of (net_pairs boot ev' action)). split; [by apply run_socket|]. split; [done|].
  assert (Hok : forallb pair_ok0 (net_pairs boot ev' action) = true).
  { apply (net_pairs_ok boot ev' lt action Hact ltac:(by rewrite Hho) [_]), Forall_singleton.
    apply plain_pair_ok0; [done|done|]. by rewrite Hco. }
  rewrite parse_pairs by done.
  assert (Hw : ∀ k t, (k, Plain t) ∈ net_pairs boot ev' action → t ≠ [] →
    fields_in_order (net_pairs boot ev' action) !! zs k = Some t).
  { intros k t Hin Ht. by rewrite (fields_in_order_in _ k (Plain t)) by eauto using net_pairs_nodup, plain_present. }
  assert (Hf0 : ∀ z, fmt_d z ≠ []) by (intros z; apply plain_ok_nonempty, fmt_d_ok).
  rewrite <- Hip, <- Hpid, <- Htgid, <- Huid, <- Hgid, <- Hport, dotted_ip. unfold port_key.
  split_and!; try intros Hne0.
  1-4: by apply Hw; [unfold net_pairs, pairs_before, pairs_after; in_pairs|].
  - rewrite <- Hco in Hne0 |- *. by apply Hw; [unfold net_pairs, pairs_before, pairs_after; in_pairs|].
  - apply Hw; [unfold net_pairs, pairs_before, pairs_after; in_pairs|]. apply plain_ok_nonempty, ip_text_ok.
  - destruct p; try done; (by apply Hw; [unfold net_pairs, pairs_before, pairs_after; in_pairs|]).
Qed.

(** C40. The process name is printed as it is: a process that names itself
    [a k=v] makes the worker read [v] for the field [k] of its connects,
    binds and accepts, whether [k] is new or one the agent printed before the
    name, such as the user. *)
Theorem process_name_forges_fields a k v :
  name = a ++ 32 :: pair_text (k, Plain v) → plain_text a → pair_ok (k, Plain v) = true → k ∉ keys_after_comm →
  plain_text (cstring (ne_host e)) →
  ∃ rec lt line, exec (run_net c LITTLE_ENDIAN (Some e) p args) s = s ++ [Reserve; Submit rec] ∧
    ne_uid rec = cx_uid c ∧ read_record boot (store_net_event rec slot) = Some (lt, line) ∧
    worker line !! zs k = Some v.
Proof.
  intros Hname Hpa [Hk Hpr]%andb_true_iff Hlater Hh. exists ev.
  destruct socket_decoded as (ev' & Hd & _ & _ & _ & _ & Hki & Hco & Hho & _).
  assert (Hno : name ∉ noiseComms).
  { rewrite Hname. unfold noiseComms. intros Hin%list_elem_of_singleton.
    assert (Hsp : 32 ∈ selfComm) by (rewrite <- Hin; apply elem_of_app; right; left).
    revert Hsp. apply (bool_decide_unpack _). vm_compute. exact I. }
  destruct (read_record_socket ev' Hno Hki Hco Hd) as (lt & action & Hact & Hr).
  exists lt, (line_of (net_pairs boot ev' action)). split; [by apply run_socket|]. split; [by destruct p|]. split; [done|].
  rewrite (net_line_forged boot ev' action a k v) by by rewrite Hco.
  rewrite parse_pairs.
  - change (_ ++ _ ++ _) with ((pairs_before boot ev' ++ [("comm"%string, Plain a)]) ++ (k, Plain v) :: pairs_after ev' action).
    apply fields_in_order_last; [done|].
    change ((λ kt, zs (fst kt)) <$> pairs_after ev' action) with (zs <$> keys_after_comm).
    by intros (k' & ->%zs_inj & Hin)%list_elem_of_fmap.
  - apply (net_pairs_ok boot ev' lt action Hact); [by rewrite Hho|].
    apply Forall_cons_2; [by apply plain_pair_ok0|]. by apply Forall_singleton.
Qed.
End net.

(** ** Witnesses *)


(** [run_net] of a process with a name. *)
Definition demo_named_ctx (name : string) : ctx :=
  image_ctx 0 (Z.lor (Z.shiftl 500 32) 501) (Z.lor (Z.shiftl 1000 32) 1000) 1000000 (zs name) 0x8000
    demo_kernel [(0x7000, demo_sockaddr)].

Lemma network_call_reaches_the_worker_witness :
  let c := demo_named_ctx "curl" in
  ∃ rec lt line, exec (run_net c LITTLE_ENDIAN (Some demo_net_slot) N_connect [3; 0x7000; 16]) []
      = [] ++ [Reserve; Submit rec] ∧
    read_record 0 (store_net_event rec (replicate 184 255)) = Some (lt, line) ∧
    let w := parse_kv (λ _, false) (λ _, false) line in
    w !! zs "pid" = Some (fmt_d (u32 (cx_pid c))) ∧
    w !! zs "tgid" = Some (fmt_d (u32 (cx_tgid c))) ∧
    w !! zs "uid" = Some (fmt_d (u32 (cx_uid c))) ∧ w !! zs "gid" = Some (fmt_d (u32 (cx_gid c))) ∧
    (cstring (cx_comm c) ≠ [] → w !! zs "comm" = Some (cstring (cx_comm c))) ∧
    w !! zs "dst" = Some (dotted (slice demo_sockaddr 4 4)) ∧
    w !! zs (port_key N_connect) = Some (fmt_d (be_val (slice demo_sockaddr 2 2))).
Proof.
  apply (network_call_reaches_the_worker (demo_named_ctx "curl") (image_ctx_ok _ _ _ _ _ _ _ _) 0
    (λ _, false) (λ _, false) N_connect [3; 0x7000; 16] demo_net_slot [] demo_sockaddr (replicate 184 255));
    try done; try (by vm_compute).
  - apply image_umem_at. vm_compute. reflexivity.
  - repeat (constructor; [done|]). constructor.
  - intros Hin. revert Hin. apply (bool_decide_unpack _). vm_compute. exact I.
Defined.

(** User 1000 names the process "x uid=0". *)
Lemma process_name_forges_fields_witness :
  let c := demo_named_ctx "x uid=0" in
  u32 (cx_uid c) = 1000 ∧
  ∃ rec lt line, exec (run_net c LITTLE_ENDIAN (Some demo_net_slot) N_connect [3; 0x7000; 16]) []
      = [] ++ [Reserve; Submit rec] ∧
    ne_uid rec = cx_uid c ∧ read_record 0 (store_net_event rec (replicate 184 255)) = Some (lt, line) ∧
    parse_kv (λ _, false) (λ _, false) line !! zs "uid" = Some (zs "0").
Proof.
  split; [reflexivity|].
  apply (process_name_forges_fields (demo_named_ctx "x uid=0") (image_ctx_ok _ _ _ _ _ _ _ _) 0
    (λ _, false) (λ _, false) N_connect [3; 0x7000; 16] demo_net_slot [] demo_sockaddr (replicate 184 255))
    with (a := zs "x");
    try done; try (by vm_compute).
  - apply image_umem_at. vm_compute. reflexivity.
  - repeat (constructor; [done|]). constructor.
  - intros Hin. revert Hin. apply (bool_decide_unpack _). vm_compute. exact I.
Defined.
