(* ===== verification/Manager.v ===== *)
(** * The prevention manager of the agent (prevent.go)

    Keeps the server's rules, the known-malware set and the group policy
    applied to the engines, and pushes a line per decision. *)
From Stdlib Require Import ZArith Lia Ascii String Sorted.
From stdpp Require Import base tactics list gmap strings.
From S2P Require Import Prelude.
From S2P Require Import GoStrings.
From S2P Require Import Kernel.
From S2P Require Import CoreRead.
From S2P Require Import PathWalk.
From S2P Require Import Scenario.
From S2P Require Import Prevent.
From S2P Require Import PreventProps.
From S2P Require Import MalHash.
From S2P Require Import PreventPolicy.
From S2P Require Import PreventCompile.
From S2P Require Import PreventMatch.
From S2P Require Import Fanotify.
From S2P Require Import Wire.
From S2P Require Import KvParse.
From S2P Require Import Transport.
From S2P Require Import Lines.
From S2P Require Import Engines.
From S2P Require Import AgentLines.
Local Open Scope Z_scope.

(** ** The settings *)

(** What [Compile] asks the operating system ([newGuard]). *)
Record compile_os := CompileOs {
  co_resolve : list Z → option (list Z);
  co_hash : list Z → option (list Z);
  co_exe : option (list Z);
}.

Definition Compile (os : compile_os) (rules : list rule) : policy :=
  let g := newGuard (co_resolve os) (co_hash os) (co_exe os) in
  compiled_policy (fst (compileWith (co_resolve os) g rules)) g.

(** [Manager], up to the decision table. *)
Record manager := MkManager {
  m_hash : list Z;
  m_policy : option policy;
  m_malware : option set;
  m_malwareFile : list Z;
  m_off : bool;
  m_exclusions : list exclusion;
}.

(** [Start] *)
Definition new_manager : manager := MkManager [] None None [] false [].

(** [gated]: what the engines enforce. *)
Definition nothing : policy := withGate (Policy [] None [] false [] ∅) true [].
Definition gated (m : manager) (p : policy) : policy :=
  if m_off m then nothing else withGate p false (m_exclusions m).

(** The critical sections of [Apply], [SetKnownMalware], [SetGate] and of
    [Run]'s re-application: the state after, and what the caller then hands
    to [eng.apply].  [os] is what [Compile] sees. *)
Inductive call :=
  | Apply (os : compile_os) (hash : list Z) (rules : list rule)
  | SetKnownMalware (os : compile_os) (set : option set) (file : list Z)
  | SetGate (os : compile_os) (off : bool) (es : list exclusion)
  | Tick.

Definition locked (c : call) (m : manager) : manager * option policy :=
  match c with
  | Apply os hash rules =>
      let p := withMalware (Compile os rules) (m_malware m) (m_malwareFile m) in
      let m := MkManager hash (Some p) (m_malware m) (m_malwareFile m) (m_off m) (m_exclusions m) in
      (m, Some (gated m p))
  | SetKnownMalware os set file =>
      let p := withMalware (default (Compile os []) (m_policy m)) set file in
      let m := MkManager (m_hash m) (Some p) set file (m_off m) (m_exclusions m) in
      (m, Some (gated m p))
  | SetGate os off es =>
      let p := match m_policy m with
               | Some p => p
               | None => withMalware (Compile os []) (m_malware m) (m_malwareFile m)
               end in
      let m := MkManager (m_hash m) (Some p) (m_malware m) (m_malwareFile m) off es in
      (m, Some (gated m p))
  | Tick => (m, gated m <$> m_policy m)
  end.

(** [Sync] and the re-application that follows it in [Run]: the calls one
    round makes, by the server's answer ([None]: an error). *)
Record rulesResponse := RulesResponse { rr_Hash : list Z; rr_Unchanged : bool; rr_Rules : list rule }.

Definition Sync (os : compile_os) (resp : rulesResponse) (m : manager) : list call :=
  if rr_Unchanged resp && bool_decide (rr_Hash resp = m_hash m) then []
  else [Apply os (rr_Hash resp) (rr_Rules resp)].

Definition round (os : compile_os) (resp : option rulesResponse) (m : manager) : list call :=
  match resp with
  | None => []
  | Some resp => Sync os resp m ++ [Tick]
  end.

(** ** Calls of several goroutines

    The sync loops of the rules, of the known-malware set and of the group
    policy run at once.  A call is its critical section and then, without
    the lock, [eng.apply]. *)
Inductive thread := T_rules | T_malware | T_gate.
#[export] Instance thread_eq_dec : EqDecision thread.
Proof. solve_decision. Defined.
#[export] Instance thread_countable : Countable thread.
Proof.
  refine (inj_countable' (λ t, match t with T_rules => 0 | T_malware => 1 | T_gate => 2 end)
    (λ n, match n with 0 => T_rules | 1 => T_malware | _ => T_gate end) _). by intros [].
Defined.

Record world := World {
  w_manager : manager;
  w_pending : gmap thread policy;      (* handed to [eng.apply], which has not run *)
  w_engines : option policy;           (* what the engines were last given *)
}.

Inductive step : world → world → Prop :=
  | step_locked t c w m p :
      w_pending w !! t = None → locked c (w_manager w) = (m, Some p) →
      step w (World m (<[t := p]> (w_pending w)) (w_engines w))
  | step_idle t c w m :
      w_pending w !! t = None → locked c (w_manager w) = (m, None) →
      step w (World m (w_pending w) (w_engines w))
  | step_apply t p w :
      w_pending w !! t = Some p →
      step w (World (w_manager w) (delete t (w_pending w)) (Some p)).

(** A call of which nothing comes between the lock and [eng.apply]. *)
Definition run_call (w : world) (c : call) : world :=
  let '(m, p) := locked c (w_manager w) in
  World m (w_pending w) (match p with Some p => Some p | None => w_engines w end).

Lemma run_call_steps w c : w_pending w = ∅ → rtc step w (run_call w c).
Proof.
  intros Hw. unfold run_call. destruct (locked c (w_manager w)) as [m [p|]] eqn:E.
  - eapply rtc_l; [apply (step_locked T_rules c w m p); [by rewrite Hw|done]|].
    eapply rtc_l; [apply (step_apply T_rules p); cbn; apply lookup_insert_eq|]. cbn.
    rewrite Hw, delete_insert_id by done. apply rtc_refl.
  - eapply rtc_l; [apply (step_idle T_rules c w m); [by rewrite Hw|done]|]. apply rtc_refl.
Qed.

(** ** What the settings are

    The latest of each call, and what they say together. *)
Definition latest {A} (f : call → option A) (cs : list call) : option A := last (omap f cs).

Definition rules_of (c : call) : option (compile_os * list rule) :=
  match c with Apply os _ rules => Some (os, rules) | _ => None end.
Definition set_of (c : call) : option (option set * list Z) :=
  match c with SetKnownMalware _ s file => Some (s, file) | _ => None end.
Definition gate_of (c : call) : option (bool * list exclusion) :=
  match c with SetGate _ off es => Some (off, es) | _ => None end.
Definition start_of (c : call) : option compile_os :=
  match c with SetKnownMalware os _ _ | SetGate os _ _ => Some os | _ => None end.

(** The rules' policy: the last one compiled, or, before the first, an empty
    one compiled by the first other call. *)
Definition latest_base (cs : list call) : option policy :=
  match latest rules_of cs with
  | Some (os, rules) => Some (Compile os rules)
  | None => (λ os, Compile os []) <$> head (omap start_of cs)
  end.

(** What the engines should enforce after the calls. *)
Definition settings (cs : list call) : option policy :=
  base ← latest_base cs;
  let '(s, file) := default (None, []) (latest set_of cs) in
  let '(off, es) := default (false, []) (latest gate_of cs) in
  Some (if off then nothing else withGate (withMalware base s file) false es).

(** The manager keeps exactly that. *)
Record keeps (cs : list call) (m : manager) : Prop := {
  ks_policy : m_policy m = (λ base, withMalware base (m_malware m) (m_malwareFile m)) <$> latest_base cs;
  ks_set : (m_malware m, m_malwareFile m) = default (None, []) (latest set_of cs);
  ks_gate : (m_off m, m_exclusions m) = default (false, []) (latest gate_of cs);
}.

Lemma latest_snoc {A} (f : call → option A) cs c :
  latest f (cs ++ [c]) = match f c with Some x => Some x | None => latest f cs end.
Proof.
  unfold latest. rewrite omap_app. cbn. destruct (f c); [by rewrite last_snoc|by rewrite app_nil_r].
Qed.

Lemma latest_base_snoc cs c : latest_base (cs ++ [c]) =
  match c with
  | Apply os _ rules => Some (Compile os rules)
  | SetKnownMalware os _ _ | SetGate os _ _ => Some (default (Compile os []) (latest_base cs))
  | Tick => latest_base cs
  end.
Proof.
  unfold latest_base. rewrite latest_snoc. destruct c; cbn [rules_of]; [done|..]; destruct (latest rules_of cs) as [[]|];
    try done; rewrite omap_app; cbn; destruct (omap start_of cs); done.
Qed.

Lemma keeps_new : keeps [] new_manager.
Proof. by split. Qed.

Lemma keeps_locked cs m c : keeps cs m → keeps (cs ++ [c]) (locked c m).1.
Proof.
  intros [Hp Hs Hg]. split; rewrite ?latest_snoc, ?latest_base_snoc; destruct c; cbn; rewrite ?Hp; try done.
  - by destruct (latest_base cs).
  - by destruct (latest_base cs).
Qed.

Lemma gated_settings cs m : keeps cs m → gated m <$> m_policy m = settings cs.
Proof.
  intros [Hp Hs Hg]. unfold settings. rewrite Hp, <- Hs, <- Hg. by destruct (latest_base cs).
Qed.

(** Every call hands the engines what the settings then say. *)
Lemma locked_enforces c m : (locked c m).2 = gated (locked c m).1 <$> m_policy (locked c m).1.
Proof. by destruct c. Qed.

Lemma settings_start cs : settings cs = None → latest_base cs = None.
Proof.
  unfold settings. destruct (latest_base cs); [|done]. cbn. destruct (default _ _), (default _ _). done.
Qed.

(** ** Decisions *)

(** [Decision], with the rule's index. *)
Record Decision := MkDecision {
  d_index : Z;
  d_rule : compiled;
  d_blocked : bool;
  d_terminated : bool;
  d_error : list Z;
  d_engine : list Z;
  d_path : list Z;
  d_parent : list Z;
  d_sha256 : list Z;
  d_comm : list Z;
  d_pid : Z;
  d_ppid : Z;
  d_uid : Z;
}.

Definition decision_action (d : Decision) : list Z :=
  if d_blocked d then zs "blocked" else if d_terminated d then zs "terminated" else zs "detected".

(** [line] *)
Definition line (d : Decision) : list Z :=
  zs "action=" ++ decision_action d ++ zs " rule=" ++ kv (ru_name (r_rule (d_rule d)))
  ++ zs " rule_id=" ++ kv (ru_id (r_rule (d_rule d))) ++ zs " rule_type=" ++ ru_type (r_rule (d_rule d))
  ++ zs " engine=" ++ d_engine d ++ zs " Image=" ++ kv (d_path d) ++ zs " ParentImage=" ++ kv (d_parent d)
  ++ (if bool_decide (d_sha256 d = []) then [] else zs " SHA256=" ++ d_sha256 d)
  ++ zs " Comm=" ++ kv (d_comm d) ++ zs " PID=" ++ fmt_d (d_pid d) ++ zs " PPID=" ++ fmt_d (d_ppid d)
  ++ zs " User=" ++ fmt_d (d_uid d)
  ++ (if bool_decide (d_error d = []) then [] else zs " Error=" ++ kv (d_error d)).

(** malhash/sync.go, [Event.Line] of the event [malwareEvent] makes (its
    size and match are not set). *)
Definition malware_line (d : Decision) : list Z :=
  let label := ru_name (r_rule (d_rule d)) in
  zs "event=known_malware action=" ++ decision_action d ++ zs " trigger=exec label="
  ++ kv (if bool_decide (label = []) then zs "unknown" else label)
  ++ zs " sha256=" ++ d_sha256 d ++ zs " path=" ++ kv (d_path d) ++ zs " engine=" ++ d_engine d
  ++ (if bool_decide (d_parent d = []) then [] else zs " parent=" ++ kv (d_parent d))
  ++ (if d_pid d =? 0 then [] else
      zs " pid=" ++ fmt_d (d_pid d) ++ zs " ppid=" ++ fmt_d (d_ppid d) ++ zs " uid=" ++ fmt_d (d_uid d))
  ++ (if bool_decide (d_error d = []) then [] else zs " error=" ++ kv (d_error d)).

(** [%d] of an index and [%t]. *)
Definition fmt_index (i : Z) : list Z := if i <? 0 then 45 :: fmt_d (- i) else fmt_d i.
Definition fmt_t (b : bool) : list Z := if b then zs "true" else zs "false".

(** The key of [report]'s table. *)
Definition report_key (d : Decision) : list Z :=
  fmt_index (d_index d) ++ 124 :: ru_id (r_rule (d_rule d)) ++ 124 :: d_path d ++ 124 :: d_parent d
  ++ 124 :: fmt_t (d_blocked d) ++ 124 :: fmt_t (d_terminated d).

Definition minute : Z := 60 * 10 ^ 9.
Definition decisionLogType : list Z := zs "linux_exec_prevention".
Definition malhash_LogType : list Z := zs "known_malware".

(** The text [report] pushes. *)
Definition report_line (d : Decision) : list Z * list Z :=
  if bool_decide (r_type (d_rule d) = TypeKnownMalware) then (malhash_LogType, malware_line d)
  else (decisionLogType, line d).

(** [report] at the time [now], on the table of last reports. *)
Definition report (d : Decision) (now : Z) (last : gmap (list Z) Z)
    : option (list Z * list Z) * gmap (list Z) Z :=
  let key := report_key d in
  if match last !! key with Some t => now - t <? minute | None => false end then (None, last)
  else
    let last := if 10000 <? Z.of_nat (size last) then ∅ else last in
    (Some (report_line d), <[key := now]> last).

(** A run of decisions, each with its time: those that were pushed. *)
Fixpoint reports (ds : list (Decision * Z)) (last : gmap (list Z) Z) : list (Decision * Z) :=
  match ds with
  | [] => []
  | (d, now) :: ds =>
      let '(pushed, last) := report d now last in
      match pushed with Some _ => (d, now) :: reports ds last | None => reports ds last end
  end.

(** lsm_linux.go, [read]: the decision of a record. *)
Definition lsm_report (policy : option (list compiled)) (b : list Z) : option Decision :=
  d ← read_decision policy b;
  Some (MkDecision (le_uint 4 b 24) (ld_rule d) (ld_blocked d) false [] (zs "lsm") (ld_path d) (ld_parent d) []
          (ld_comm d) (ld_pid d) (ld_ppid d) (ld_uid d)).

(** ** Lemmas: decisions *)

Lemma minute_pos : 0 < minute.
Proof. done. Qed.

Lemma map_size_insert_le (m : gmap (list Z) Z) k x : (size (<[k := x]> m) ≤ S (size m))%nat.
Proof. rewrite map_size_insert. destruct (m !! k); unfold id; lia. Qed.

(** What the table says of the reports pushed so far. *)
Definition pushed_at (ps : list (Decision * Z)) (key : list Z) (t : Z) : Prop :=
  ∃ d, (d, t) ∈ ps ∧ report_key d = key.
Definition table_ok (ps : list (Decision * Z)) (last : gmap (list Z) Z) : Prop :=
  ∀ key t, last !! key = Some t → pushed_at ps key t.

Lemma pushed_at_app ps ps' key t : pushed_at ps key t → pushed_at (ps ++ ps') key t.
Proof. intros (d & Hin & Hk). exists d. split; [|done]. apply elem_of_app. by left. Qed.

(** A report is pushed, or the table holds one less than a minute old. *)
Lemma report_step ps d now last : table_ok ps last →
  let '(pushed, last') := report d now last in
  match pushed with
  | Some l => l = report_line d ∧ table_ok (ps ++ [(d, now)]) last'
  | None => last' = last ∧ ∃ t, pushed_at ps (report_key d) t ∧ now - t < minute
  end.
Proof.
  intros Hok. unfold report. destruct (last !! report_key d) as [t|] eqn:El; [destruct (Z.ltb_spec (now - t) minute)|].
  1: split; [done|]; exists t; by split; [apply Hok|].
  all: split; [done|]; intros key t' [[<- <-]|[Hne Hl]]%lookup_insert_Some;
    [exists d; split; [apply elem_of_app; right; by apply list_elem_of_singleton|done]|];
    apply pushed_at_app; apply Hok; destruct (10000 <? _); [by rewrite lookup_empty in Hl|done].
Qed.

Lemma reports_covered ds : ∀ ps last, table_ok ps last →
  ∀ d now, (d, now) ∈ ds → ∃ t, pushed_at (ps ++ reports ds last) (report_key d) t ∧ now - t < minute.
Proof.
  induction ds as [|[d0 now0] ds IH]; intros ps last Hok d now Hin; [by apply not_elem_of_nil in Hin|].
  cbn [reports]. pose proof (report_step ps d0 now0 last Hok) as Hs.
  destruct (report d0 now0 last) as [[l|] last'].
  - destruct Hs as (-> & Hok'). rewrite cons_middle, (assoc_L (++)).
    apply elem_of_cons in Hin as [[= -> ->]|Hin]; [|by eapply IH].
    exists now0. split; [|pose proof minute_pos; lia]. apply pushed_at_app. exists d0. split; [|done].
    apply elem_of_app. right. by apply list_elem_of_singleton.
  - destruct Hs as (-> & t & Ht & Hlt). apply elem_of_cons in Hin as [[= -> ->]|Hin]; [|by eapply IH].
    exists t. split; [by apply pushed_at_app|done].
Qed.

(** Two reports of a key are a minute apart. *)
Definition apart (x y : Decision * Z) : Prop := report_key (fst x) = report_key (fst y) → minute ≤ snd y - snd x.

(** While the table is not replaced, it holds the last push of every key. *)
Lemma reports_apart ds : ∀ last, (size last + length ds ≤ Z.to_nat 10000)%nat →
  (∀ x t, x ∈ reports ds last → last !! report_key (fst x) = Some t → minute ≤ snd x - t) ∧
  StronglySorted apart (reports ds last).
Proof.
  induction ds as [|[d now] ds IH]; intros last Hn; [split; [intros x t Hx; by apply not_elem_of_nil in Hx|constructor]|].
  cbn [reports length] in *. unfold report.
  destruct (match last !! report_key d with Some t => now - t <? minute | None => false end) eqn:Et; [apply IH; lia|].
  rewrite (proj2 (Z.ltb_ge 10000 _)) by lia.
  pose proof (map_size_insert_le last (report_key d) now) as Hsz.
  destruct (IH (<[report_key d := now]> last)) as [Ha Hs]; [lia|]. split.
  - intros x t [->|Hx]%elem_of_cons Hl; cbn [fst snd] in *.
    + rewrite Hl in Et. lia.
    + destruct (base.decide (report_key (fst x) = report_key d)) as [Ek|Ek].
      * specialize (Ha x now Hx). rewrite Ek, lookup_insert_eq in Ha. specialize (Ha eq_refl).
        rewrite Ek in Hl. rewrite Hl in Et. pose proof minute_pos. lia.
      * apply (Ha x t Hx). by rewrite lookup_insert_ne.
  - constructor; [done|]. apply List.Forall_forall. intros y Hy%list_elem_of_In Hk. cbn [fst snd] in *.
    apply (Ha y now Hy). by rewrite <- Hk, lookup_insert_eq.
Qed.

(** ** Lemmas: the settings *)

Definition w_start : world := World new_manager ∅ None.
Definition run_calls (cs : list call) (w : world) : world := foldl run_call w cs.

Lemma run_calls_settings cs : let w := run_calls cs w_start in
  keeps cs (w_manager w) ∧ w_pending w = ∅ ∧ w_engines w = settings cs.
Proof.
  induction cs as [|c cs (Hk & Hp & He)] using rev_ind; [split; [apply keeps_new|done]|].
  unfold run_calls in *. rewrite foldl_snoc. set (w := foldl run_call w_start cs) in *. cbv zeta in *.
  pose proof (keeps_locked cs (w_manager w) c Hk) as Hk'. pose proof (gated_settings _ _ Hk') as Hs.
  pose proof (locked_enforces c (w_manager w)) as Hl. unfold run_call.
  destruct (locked c (w_manager w)) as [m p]; cbn [fst snd w_manager w_pending w_engines] in *.
  split_and!; [done..|]. rewrite <- Hl in Hs. rewrite <- Hs. destruct p as [p|]; [done|]. rewrite He.
  destruct (settings cs) as [q|] eqn:Eq; [|done]. exfalso.
  symmetry in Hs. apply settings_start in Hs. rewrite latest_base_snoc in Hs.
  destruct c; try done. unfold settings in Eq. by rewrite Hs in Eq.
Qed.

Lemma nothing_refuses equal_fold lower lsm path parent h :
  policy_refuses equal_fold lower lsm nothing path parent h = false.
Proof. by destruct lsm. Qed.

(** A round without an error leaves the engines with the manager's policy. *)
Lemma round_reapplies os resp w : m_policy (w_manager w) ≠ None →
  let w' := run_calls (round os (Some resp) (w_manager w)) w in
  m_policy (w_manager w') ≠ None ∧ w_engines w' = gated (w_manager w') <$> m_policy (w_manager w').
Proof.
  intros Hp. cbv zeta. unfold run_calls, round. rewrite foldl_snoc.
  set (w1 := foldl run_call w (Sync os resp (w_manager w))).
  assert (H1 : m_policy (w_manager w1) ≠ None) by (unfold w1, Sync; destruct (_ && _); [exact Hp|discriminate]).
  unfold run_call. cbn. by destruct (m_policy (w_manager w1)).
Qed.

(** ** Properties: the settings *)

(** C20. The engines follow the settings: after any sequence of calls, one
    after another, they have the policy compiled from the last rules with the
    last known-malware set and the last exclusions, whatever the order the
    three came in; while the last group policy turns prevention off they
    refuse nothing. *)
Theorem engines_follow_the_settings cs :
  w_engines (run_calls cs w_start) = settings cs ∧
  (∀ es, latest gate_of cs = Some (true, es) → ∃ p, settings cs = Some p ∧
     ∀ equal_fold lower lsm path parent h, policy_refuses equal_fold lower lsm p path parent h = false).
Proof.
  split; [by apply run_calls_settings|]. intros es Hg. exists nothing. split; [|intros; apply nothing_refuses].
  unfold settings. rewrite Hg. cbn [default from_option id].
  destruct (latest_base cs) as [base|] eqn:Eb; [cbn; by destruct (default _ _)|]. exfalso.
  unfold latest, latest_base in *. destruct (latest rules_of cs) as [[]|]; [done|].
  induction cs as [|c cs IH]; [done|]. destruct c; cbn in Eb; try done; by apply IH.
Qed.

(** C39. A call that comes between the lock and [eng.apply] of the minutely
    re-application is undone: the manager has the new settings, every call is
    done, and the engines have the policy of before; the next round that is
    left alone and gets the server's answer puts the manager's in force. *)
Theorem call_during_a_tick_is_undone w p0 c m' p' :
  w_pending w = ∅ → m_policy (w_manager w) = Some p0 → locked c (w_manager w) = (m', Some p') →
  ∃ w', rtc step w w' ∧ w_pending w' = ∅ ∧ w_manager w' = m' ∧
    w_engines w' = Some (gated (w_manager w) p0) ∧
    ∀ os resp, let w2 := run_calls (round os (Some resp) (w_manager w')) w' in
      ∃ p, m_policy (w_manager w2) = Some p ∧ w_engines w2 = Some (gated (w_manager w2) p).
Proof.
  intros Hw Hp Hc. exists (World m' ∅ (Some (gated (w_manager w) p0))). split_and!; try done.
  - eapply rtc_l.
    { apply (step_locked T_rules Tick w (w_manager w) (gated (w_manager w) p0)); [by rewrite Hw|]. cbn. by rewrite Hp. }
    eapply rtc_l.
    { apply (step_locked T_gate c _ m' p'); [|done]. cbn. by rewrite Hw, lookup_insert_ne. }
    eapply rtc_l; [apply (step_apply T_gate p'); apply lookup_insert_eq|]. cbn [w_manager w_pending].
    eapply rtc_l.
    { apply (step_apply T_rules (gated (w_manager w) p0)). cbn. rewrite delete_insert_id; [apply lookup_insert_eq|].
      by rewrite Hw, lookup_insert_ne. }
    cbn. rewrite Hw, delete_insert_id by by rewrite lookup_insert_ne.
    rewrite delete_insert_id by done. apply rtc_refl.
  - pose proof (locked_enforces c (w_manager w)) as Hl. rewrite Hc in Hl. cbn [fst snd] in Hl. intros os resp.
    destruct (round_reapplies os resp (World m' ∅ (Some (gated (w_manager w) p0)))) as [H1 H2].
    { cbn. intros Hm. by rewrite Hm in Hl. }
    cbv zeta. rewrite H2.
    destruct (m_policy (w_manager (run_calls _ _))) as [p|]; [by exists p|done].
Qed.

(** ** Properties: the reports *)

(** C31. Every decision is reported: when one is made, a line for its rule,
    image, parent and verdict was pushed less than a minute before or is
    pushed now; up to 10000 decisions, two such lines are a minute apart. *)
Theorem every_decision_is_reported ds d now :
  (∃ d' t, (d', t) ∈ reports (ds ++ [(d, now)]) ∅ ∧ report_key d' = report_key d ∧ now - t < minute) ∧
  ((length ds ≤ Z.to_nat 10000)%nat → StronglySorted apart (reports ds ∅)).
Proof.
  split.
  - destruct (reports_covered (ds ++ [(d, now)]) [] ∅) with (d := d) (now := now) as (t & (d' & Hin & Hk) & Hlt).
    + intros key t H. by rewrite lookup_empty in H.
    + apply elem_of_app. right. by apply list_elem_of_singleton.
    + by exists d', t.
  - intros Hn. apply reports_apart. by rewrite map_size_empty.
Qed.

(** A decision for another image and parent. *)
Definition of_paths (d : Decision) (path parent : list Z) : Decision :=
  MkDecision (d_index d) (d_rule d) (d_blocked d) (d_terminated d) (d_error d) (d_engine d) path parent (d_sha256 d)
    (d_comm d) (d_pid d) (d_ppid d) (d_uid d).

(** The separator of the report table's key is a character of names:
    after a decision on the image [a|b] started by [c], one on the image [a]
    started by [b|c] is not reported for a minute. *)
Theorem separator_hides_a_decision d a b c now now' : now' - now < minute →
  let d1 := of_paths d (a ++ 124 :: b) c in
  let d2 := of_paths d a (b ++ 124 :: c) in
  d_path d1 ≠ d_path d2 ∧ reports [(d1, now); (d2, now')] ∅ = [(d1, now)].
Proof.
  intros Hlt. cbv zeta. split.
  { cbn. intros H%(f_equal length). rewrite length_app in H. cbn in H. lia. }
  set (d1 := of_paths d _ c). set (d2 := of_paths d a _).
  assert (Hk : report_key d2 = report_key d1).
  { unfold report_key, d1, d2. cbn. repeat (rewrite <- ?app_assoc; cbn [app]). done. }
  cbn [reports]. unfold report. rewrite lookup_empty, Hk, map_size_empty. cbn [Z.of_nat Z.ltb Z.compare].
  rewrite lookup_insert_eq. by rewrite (proj2 (Z.ltb_lt _ _)).
Qed.

(** ** The line of a decision *)

Local Open Scope string_scope.
Definition decision_pairs (d : Decision) : list (string * text) :=
  [("action", Plain (decision_action d)); ("rule", Quoted (ru_name (r_rule (d_rule d))));
   ("rule_id", Quoted (ru_id (r_rule (d_rule d)))); ("rule_type", Plain (ru_type (r_rule (d_rule d))));
   ("engine", Plain (d_engine d)); ("Image", Quoted (d_path d)); ("ParentImage", Quoted (d_parent d))]
  ++ (if bool_decide (d_sha256 d = []) then [] else [("SHA256", Plain (d_sha256 d))])
  ++ [("Comm", Quoted (d_comm d)); ("PID", Plain (fmt_d (d_pid d))); ("PPID", Plain (fmt_d (d_ppid d)));
      ("User", Plain (fmt_d (d_uid d)))]
  ++ (if bool_decide (d_error d = []) then [] else [("Error", Quoted (d_error d))]).
Local Close Scope string_scope.

Lemma line_pairs_d d : line d = line_of (decision_pairs d).
Proof.
  unfold line, decision_pairs. destruct (bool_decide (d_sha256 d = [])), (bool_decide (d_error d = []));
    cbn [app line_of]; unfold pair_text; cbn [fst snd]; rewrite <- ?(assoc_L (++)), ?app_nil_r; reflexivity.
Qed.

Lemma decision_pairs_nodup d : NoDup ((λ kt, zs (fst kt)) <$> decision_pairs d).
Proof.
  unfold decision_pairs. destruct (bool_decide (d_sha256 d = [])), (bool_decide (d_error d = []));
    apply (bool_decide_unpack _); vm_compute; exact I.
Qed.

Lemma decision_pairs_ok d : plain_ok (ru_type (r_rule (d_rule d))) = true → plain_ok (d_engine d) = true →
  (d_sha256 d ≠ [] → plain_ok (d_sha256 d) = true) → forallb pair_ok (decision_pairs d) = true.
Proof.
  intros Ht He Hs. assert (Ha : plain_ok (decision_action d) = true).
  { unfold decision_action. by destruct (d_blocked d), (d_terminated d). }
  unfold decision_pairs. case_bool_decide as Hsha; destruct (bool_decide (d_error d = [])); solve_pairs; by try apply Hs.
Qed.

(** A rule that compiles has one of four types. *)
Lemma compiled_type_word resolve g rules c : c ∈ fst (compileWith resolve g rules) →
  plain_ok (ru_type (r_rule c)) = true ∧ r_type c ≠ TypeKnownMalware.
Proof.
  intros (n & r & c0 & Hc & Heq)%compiled_source.
  assert (H : plain_ok (ru_type (r_rule c0)) = true ∧ r_type c0 ≠ TypeKnownMalware).
  { unfold compile_rule in Hc. destruct (_ && _); [done|].
    repeat case_bool_decide; cbn [orb] in Hc; repeat case_match; simplify_eq; cbn [r_rule r_type];
      match goal with H : ru_type _ = _ |- _ => rewrite H end; done. }
  by destruct Heq as [-> | ->].
Qed.

(** The values of a decision's line that are not quoted. *)
Record decision_plain (d : Decision) : Prop := {
  dp_type : plain_ok (ru_type (r_rule (d_rule d))) = true;
  dp_engine : plain_ok (d_engine d) = true;
  dp_sha : d_sha256 d ≠ [] → plain_ok (d_sha256 d) = true;
}.

Lemma decision_field uw us d k t : decision_plain d → (k, t) ∈ decision_pairs d →
  parse_kv uw us (line d) !! zs k = Some (text_value t).
Proof.
  intros [Ht He Hs] Hin. rewrite line_pairs_d, parse_line.
  - apply fields_lookup; [apply decision_pairs_nodup|done].
  - by apply decision_pairs_ok.
  - apply decision_pairs_nodup.
Qed.

Lemma decision_received uw us d : decision_plain d →
  parse_kv uw us (received (line d)) = received <$> parse_kv uw us (line d).
Proof.
  intros [Ht He Hs]. rewrite line_pairs_d. apply received_parse; [by apply decision_pairs_ok|apply decision_pairs_nodup].
Qed.

(** What the worker reads of a decision. *)
Lemma decision_fields uw us d : decision_plain d →
  let w := parse_kv uw us (line d) in
  w !! zs "action" = Some (decision_action d) ∧ w !! zs "rule" = Some (shown true (ru_name (r_rule (d_rule d)))) ∧
  w !! zs "rule_id" = Some (shown true (ru_id (r_rule (d_rule d)))) ∧
  w !! zs "Image" = Some (shown true (d_path d)) ∧ w !! zs "ParentImage" = Some (shown true (d_parent d)) ∧
  w !! zs "Comm" = Some (shown true (d_comm d)) ∧ w !! zs "PID" = Some (fmt_d (d_pid d)) ∧
  w !! zs "PPID" = Some (fmt_d (d_ppid d)) ∧ w !! zs "User" = Some (fmt_d (d_uid d)).
Proof.
  intros Hd. assert (Hv : ∀ k t, (k, t) ∈ decision_pairs d → parse_kv uw us (line d) !! zs k = Some (text_value t))
    by (intros; by apply decision_field).
  pose proof (λ k t H, Hv k t (proj2 (elem_of_app _ _ _) (or_introl H))) as Hv1.
  pose proof (λ k t H, Hv k t (proj2 (elem_of_app _ _ _) (or_intror (proj2 (elem_of_app _ _ _) (or_intror
    (proj2 (elem_of_app _ _ _) (or_introl H))))))) as Hv3. cbv zeta. split_and!.
  - apply (Hv1 "action"%string (Plain (decision_action d))). in_pairs.
  - apply (Hv1 "rule"%string (Quoted (ru_name (r_rule (d_rule d))))). in_pairs.
  - apply (Hv1 "rule_id"%string (Quoted (ru_id (r_rule (d_rule d))))). in_pairs.
  - apply (Hv1 "Image"%string (Quoted (d_path d))). in_pairs.
  - apply (Hv1 "ParentImage"%string (Quoted (d_parent d))). in_pairs.
  - apply (Hv3 "Comm"%string (Quoted (d_comm d))). in_pairs.
  - apply (Hv3 "PID"%string (Plain (fmt_d (d_pid d)))). in_pairs.
  - apply (Hv3 "PPID"%string (Plain (fmt_d (d_ppid d)))). in_pairs.
  - apply (Hv3 "User"%string (Plain (fmt_d (d_uid d)))). in_pairs.
Qed.

(** The same of a known-malware line. *)
Local Open Scope string_scope.
Definition malware_pairs (d : Decision) : list (string * text) :=
  let label := ru_name (r_rule (d_rule d)) in
  [("event", Plain (zs "known_malware")); ("action", Plain (decision_action d)); ("trigger", Plain (zs "exec"));
   ("label", Quoted (if bool_decide (label = []) then zs "unknown" else label)); ("sha256", Plain (d_sha256 d));
   ("path", Quoted (d_path d)); ("engine", Plain (d_engine d))]
  ++ (if bool_decide (d_parent d = []) then [] else [("parent", Quoted (d_parent d))])
  ++ (if (d_pid d =? 0)%Z then [] else
      [("pid", Plain (fmt_d (d_pid d))); ("ppid", Plain (fmt_d (d_ppid d))); ("uid", Plain (fmt_d (d_uid d)))])
  ++ (if bool_decide (d_error d = []) then [] else [("error", Quoted (d_error d))]).
Local Close Scope string_scope.

Lemma malware_line_pairs d : malware_line d = line_of (malware_pairs d).
Proof.
  unfold malware_line, malware_pairs.
  destruct (bool_decide (d_parent d = [])), (d_pid d =? 0), (bool_decide (d_error d = []));
    cbn [app line_of]; unfold pair_text; cbn [fst snd]; rewrite <- ?(assoc_L (++)), ?app_nil_r; reflexivity.
Qed.

Lemma malware_pairs_nodup d : NoDup ((λ kt, zs (fst kt)) <$> malware_pairs d).
Proof.
  unfold malware_pairs.
  destruct (bool_decide (d_parent d = [])), (d_pid d =? 0), (bool_decide (d_error d = []));
    apply (bool_decide_unpack _); vm_compute; exact I.
Qed.

Lemma malware_pairs_ok d : plain_ok (d_engine d) = true → plain_ok (d_sha256 d) = true →
  forallb pair_ok (malware_pairs d) = true.
Proof.
  intros He Hs. assert (Ha : plain_ok (decision_action d) = true).
  { unfold decision_action. by destruct (d_blocked d), (d_terminated d). }
  unfold malware_pairs. destruct (bool_decide (d_parent d = [])), (d_pid d =? 0), (bool_decide (d_error d = []));
    solve_pairs; done.
Qed.

Lemma malware_fields uw us d : plain_ok (d_engine d) = true → plain_ok (d_sha256 d) = true →
  let w := parse_kv uw us (malware_line d) in let label := ru_name (r_rule (d_rule d)) in
  w !! zs "action" = Some (decision_action d) ∧
  w !! zs "label" = Some (shown true (if bool_decide (label = []) then zs "unknown" else label)) ∧
  w !! zs "sha256" = Some (d_sha256 d) ∧ w !! zs "path" = Some (shown true (d_path d)).
Proof.
  intros He Hs.
  assert (Hv : ∀ k t, (k, t) ∈ take 7 (malware_pairs d) → parse_kv uw us (malware_line d) !! zs k = Some (text_value t)).
  { intros k t Hin. rewrite malware_line_pairs, parse_line by (apply malware_pairs_nodup || by apply malware_pairs_ok).
    apply fields_lookup; [apply malware_pairs_nodup|]. by eapply subseteq_take. }
  unfold malware_pairs in Hv. cbn [app take list.take] in Hv. cbv zeta in *. split_and!.
  - apply (Hv "action"%string (Plain (decision_action d))). in_pairs.
  - apply (Hv "label"%string (Quoted _)). in_pairs.
  - apply (Hv "sha256"%string (Plain (d_sha256 d))). in_pairs.
  - apply (Hv "path"%string (Quoted (d_path d))). in_pairs.
Qed.

(** C9. A verdict of the kernel reaches the worker: when the rules the server
    sent are compiled and loaded and one of them matches an execution, with
    at most one directory rule above the file, the
    run of [check_exec] writes one record, from which the agent prints a line,
    from which the worker reads the rule's name and id, whether the execution
    was blocked, the executed path, the parent image's base name, the process
    name, and the process, its parent and user; and the same from the line as
    JSON carries it, each value by its characters. *)
Theorem decision_reaches_the_worker {KL : KernelLayout} stat major minor iter resolve g rules s (c : ctx) ns bprm
    rest v path child parent sc i r slot uw us :
  let p := fst (compileWith resolve g rules) in
  Forall rule_fits rules → names_fit p → (∀ m, iter m ≡ₚ map_to_list m) → pst_shape s → pst_ok s →
  ctx_ok c → holds_ns c ns → holds_keys c ns → sees_exec c ns bprm v →
  same_exec stat major minor p v path child parent →
  array_lookup (Prevent.prevent_config s) 1 ≠ Some (cx_tgid c) →
  percpu_lookup (Prevent.scratch_map s) (cx_cpu c) 0 = Some sc → pp_ok (Prevent.sc_parts sc) →
  match_ p path child parent = Some i → p !! i = Some r →
  length (cx_comm c) = 16%nat → slot_of decision_members slot →
  ∃ s' d x, PreventPolicy.apply stat major minor iter p s = (true, s') ∧
    Prevent.decisions (exec (Prevent.check_exec c true (bprm :: rest)) s') = Prevent.decisions s ++ [d] ∧
    lsm_report (Some p) (store_decision d slot) = Some x ∧ report_line x = (decisionLogType, line x) ∧
    let w := parse_kv uw us (line x) in
    w !! zs "action" = Some (if r_block r then zs "blocked" else zs "detected") ∧
    w !! zs "rule" = Some (shown true (ru_name (r_rule r))) ∧ w !! zs "rule_id" = Some (shown true (ru_id (r_rule r))) ∧
    w !! zs "Image" = Some (shown true path) ∧ w !! zs "ParentImage" = Some (shown true parent) ∧
    w !! zs "Comm" = Some (shown true (cstr (cx_comm c))) ∧ w !! zs "PID" = Some (fmt_d (u32 (cx_tgid c))) ∧
    w !! zs "PPID" = Some (fmt_d (u32 (Prevent.dec_ppid d))) ∧ w !! zs "User" = Some (fmt_d (u32 (cx_uid c))) ∧
    parse_kv uw us (received (line x)) = received <$> w.
Proof.
  intros p Hr Hfit Hi Hsh Hsok Hc Hns Hk Hse Hv Hself Hsc Hpp Hm Hri Hcomm Hslot.
  pose proof (compiled_policy_ok resolve g rules Hr) as Hok.
  destruct (decision_reaches_the_agent stat major minor iter p s c ns bprm rest v path child parent sc i r slot
    Hok Hfit Hi Hsh Hsok Hc Hns Hk Hse Hv Hself Hsc Hpp Hm Hri Hcomm Hslot) as (s' & d & Ha & Hd & Hread).
  destruct (compiled_type_word resolve g rules r) as [Hw Hty]; [by eapply list_elem_of_lookup_2|].
  exists s', d. eexists. split; [done|]. split; [done|].
  split; [unfold lsm_report; by rewrite Hread|]. cbn [ld_rule ld_blocked ld_path ld_parent ld_comm ld_pid ld_ppid ld_uid].
  split.
  - unfold report_line. cbn [d_rule ld_rule]. by rewrite bool_decide_false.
  - match goal with |- context [line ?x] => assert (Hpl : decision_plain x) by by split end.
    cbv zeta. destruct (decision_fields uw us _ Hpl) as (F1 & F2 & F3 & F4 & F5 & F6 & F7 & F8 & F9).
    split_and!; [done..|]. by apply decision_received.
Qed.

(** ** Witnesses *)

Definition demo_os : compile_os := CompileOs demo_resolve (λ _, None) None.

(** Prevention on, one rule; then off. *)
Definition demo_calls : list call := [Apply demo_os (zs "v1") host_rules; SetGate demo_os true []].

Lemma engines_follow_the_settings_witness :
  settings (take 1 demo_calls) = Some (withGate (Compile demo_os host_rules) false []) ∧
  w_engines (run_calls demo_calls w_start) = settings demo_calls ∧
  (∀ es, latest gate_of demo_calls = Some (true, es) → ∃ p, settings demo_calls = Some p ∧
     ∀ equal_fold lower lsm path parent h, policy_refuses equal_fold lower lsm p path parent h = false).
Proof. split; [reflexivity|]. exact (engines_follow_the_settings demo_calls). Defined.

(** Prevention is switched off during the re-application: it stays on, and
    the host refuses /etc/shadow until the next one. *)
Lemma call_during_a_tick_is_undone_witness :
  let w := run_calls (take 1 demo_calls) w_start in
  let p := Compile demo_os host_rules in
  policy_refuses demo_fold to_lower true (gated (w_manager w) p) (zs "/etc/shadow") (zs "/etc/shadow") None = true ∧
  ∃ w', rtc step w w' ∧ w_pending w' = ∅ ∧
    w_manager w' = fst (locked (SetGate demo_os true []) (w_manager w)) ∧
    w_engines w' = Some (gated (w_manager w) (withMalware p None [])) ∧
    ∀ os resp, let w2 := run_calls (round os (Some resp) (w_manager w')) w' in
      ∃ p, m_policy (w_manager w2) = Some p ∧ w_engines w2 = Some (gated (w_manager w2) p).
Proof.
  split; [vm_compute; reflexivity|].
  apply (call_during_a_tick_is_undone (run_calls (take 1 demo_calls) w_start) (withMalware (Compile demo_os host_rules) None [])
    (SetGate demo_os true []) _ nothing); reflexivity.
Defined.

Definition demo_decision : Decision :=
  MkDecision 0 (dir_rule (zs "/etc") true) true false [] (zs "lsm") [] [] [] (zs "sh") 500 1 0.

Lemma every_decision_is_reported_witness :
  let ds := [(demo_decision, 0); (demo_decision, 5)] in
  reports (ds ++ [(demo_decision, minute)]) ∅ = [(demo_decision, 0); (demo_decision, minute)] ∧
  (∃ d' t, (d', t) ∈ reports (ds ++ [(demo_decision, minute)]) ∅ ∧ report_key d' = report_key demo_decision ∧
     minute - t < minute) ∧
  StronglySorted apart (reports ds ∅).
Proof.
  split; [vm_compute; reflexivity|].
  destruct (every_decision_is_reported [(demo_decision, 0); (demo_decision, 5)] demo_decision minute) as [H1 H2].
  split; [exact H1|]. apply H2. apply Nat2Z.inj_le. vm_compute. discriminate.
Defined.

Lemma separator_hides_a_decision_witness :
  let d1 := of_paths demo_decision (zs "/tmp/x" ++ 124 :: zs "b") (zs "c") in
  let d2 := of_paths demo_decision (zs "/tmp/x") (zs "b" ++ 124 :: zs "c") in
  d_path d1 ≠ d_path d2 ∧ reports [(d1, 0); (d2, 10)] ∅ = [(d1, 0)].
Proof. apply (separator_hides_a_decision demo_decision (zs "/tmp/x") (zs "b") (zs "c") 0 10). reflexivity. Defined.

Lemma decision_reaches_the_worker_witness :
  let p := fst (compileWith demo_resolve host_guard host_rules) in
  let c := demo_ctx 0 500 500 1000 0 0 0 0 in
  ∃ s' d x, PreventPolicy.apply demo_stat demo_dev_major demo_dev_minor map_to_list p demo_maps = (true, s') ∧
    Prevent.decisions (exec (Prevent.check_exec c true [0xA000]) s') = Prevent.decisions demo_maps ++ [d] ∧
    lsm_report (Some p) (store_decision d (replicate 336 7)) = Some x ∧ report_line x = (decisionLogType, line x) ∧
    let w := parse_kv (λ _, false) (λ _, false) (line x) in
    w !! zs "action" = Some (zs "blocked") ∧
    w !! zs "rule" = Some (shown true (zs "no etc")) ∧ w !! zs "rule_id" = Some (shown true (zs "r1")) ∧
    w !! zs "Image" = Some (shown true (zs "/etc/shadow")) ∧ w !! zs "ParentImage" = Some (shown true (zs "shadow")) ∧
    w !! zs "Comm" = Some (shown true (cstr (cx_comm c))) ∧ w !! zs "PID" = Some (fmt_d (u32 (cx_tgid c))) ∧
    w !! zs "PPID" = Some (fmt_d (u32 (Prevent.dec_ppid d))) ∧ w !! zs "User" = Some (fmt_d (u32 (cx_uid c))) ∧
    parse_kv (λ _, false) (λ _, false) (received (line x)) = received <$> w.
Proof.
  apply (decision_reaches_the_worker demo_stat demo_dev_major demo_dev_minor map_to_list demo_resolve host_guard
           host_rules demo_maps (demo_ctx 0 500 500 1000 0 0 0 0) demo_ns 0xA000 [] demo_view (zs "/etc/shadow")
           (zs "shadow") (zs "shadow") (Prevent.Scratch pp_zero (zeros 256) (zeros 32) (zeros 32)) 0%nat
           (Compiled TypeDir (zs "/etc") true [] [] (Rule (zs "r1") (zs "no etc") (zs "dir") (zs "/usr/../etc/") [] (zs "block")))).
  - constructor; [|constructor]. split; [by apply zs_no_nul|apply not_elem_of_nil|by intros n ?].
  - by apply no_names_fit.
  - done.
  - apply demo_maps_shape.
  - apply demo_maps_ok.
  - apply demo_ctx_ok.
  - apply demo_holds.
  - apply demo_holds_keys.
  - apply demo_sees.
  - apply demo_same_exec.
  - vm_compute. done.
  - reflexivity.
  - split; reflexivity.
  - reflexivity.
  - reflexivity.
  - reflexivity.
  - reflexivity.
Defined.
