(* ===== verification/HelperLink.v ===== *)
(** * The helper's decisions on the way back (fanhelper_linux.go)

    The helper writes each decision as a line of JSON, with the index of the
    rule; the agent looks the rule up in the policy it sent last, and reports
    the decision.  JSON carries text: Go writes a byte that is not part of
    valid UTF-8 as the replacement character. *)
From Stdlib Require Import ZArith Lia Ascii String.
From stdpp Require Import base tactics list gmap strings.
From S2P Require Import Prelude.
From S2P Require Import GoStrings.
From S2P Require Import MalHash.
From S2P Require Import PreventPolicy.
From S2P Require Import PreventCompile.
From S2P Require Import PreventMatch.
From S2P Require Import Fanotify.
From S2P Require Import KvParse.
From S2P Require Import Transport.
From S2P Require Import Lines.
From S2P Require Import Engines.
From S2P Require Import AgentLines.
From S2P Require Import Manager.
Local Open Scope Z_scope.

(** ** Text in JSON

    The same replacement as in [Transport], on the bytes of the text. *)

(** U+FFFD *)
Definition replacement : list Z := [0xEF; 0xBF; 0xBD].

(** A string after [json.Marshal] and [Decode]. *)
Fixpoint json_text (s : list Z) : list Z :=
  match s with
  | [] => []
  | b :: s1 =>
      if b <? 0x80 then b :: json_text s1 else
      match s1 with
      | [] => replacement
      | c1 :: s2 =>
          if utf8_2 b c1 then b :: c1 :: json_text s2 else
          match s2 with
          | [] => replacement ++ json_text s1
          | c2 :: s3 =>
              if utf8_3 b c1 c2 then b :: c1 :: c2 :: json_text s3 else
              match s3 with
              | [] => replacement ++ json_text s1
              | c3 :: s4 =>
                  if utf8_4 b c1 c2 c3 then b :: c1 :: c2 :: c3 :: json_text s4
                  else replacement ++ json_text s1
              end
          end
      end
  end.

Example json_text_ex :
  json_text (zs "/tmp/" ++ [0xC3; 0xA9; 0xFF; 0xE2; 0x82; 0xAC; 0xED; 0xA0; 0x80])
  = zs "/tmp/" ++ [0xC3; 0xA9] ++ replacement ++ [0xE2; 0x82; 0xAC] ++ replacement ++ replacement ++ replacement.
Proof. reflexivity. Qed.

(** Valid text: every byte survives. *)
Definition text_ok (s : list Z) : Prop := json_text s = s.

Lemma ascii_text_ok s : forallb (λ b, b <? 0x80) s = true → text_ok s.
Proof.
  unfold text_ok. induction s as [|b s IH]; [done|]. cbn [forallb json_text]. intros [-> Hs]%andb_true_iff. by rewrite IH.
Qed.

(** ** Decisions *)

(** [helperDecision], when it is not an acknowledgement. *)
Record helperDecision := HelperDecision {
  hd_Index : Z;
  hd_Label : list Z;
  hd_Blocked : bool;
  hd_Path : list Z;
  hd_Parent : list Z;
  hd_SHA256 : list Z;
  hd_Comm : list Z;
  hd_PID : Z;
  hd_PPID : Z;
  hd_UID : Z;
}.

(** What [RunHelper] writes of a decision of its engine, as it is read. *)
Definition helper_report (d : fan_decision) : helperDecision :=
  let r := m_rule (fd_rule d) in
  HelperDecision (m_index (fd_rule d))
    (json_text (if bool_decide (r_type r = TypeKnownMalware) then ru_name (r_rule r) else []))
    (fd_blocked d) (json_text (fd_path d)) (json_text (fd_parent d)) (json_text (fd_sha256 d))
    (json_text (ps_comm (fd_status d))) (fd_pid d) (ps_ppid (fd_status d)) (ps_uid (fd_status d)).

(** [fanClient.read]: what is reported, by the policy last sent. *)
Definition client_read (p : option policy) (d : helperDecision) : option Decision :=
  p ← p;
  if (hd_Index d <? -1) || (Z.of_nat (length (p_rules p)) <=? hd_Index d) then None else
  r ← (if hd_Index d =? -1 then Some (malwareRule p (hd_Label d) (hd_SHA256 d)) else p_rules p !! Z.to_nat (hd_Index d));
  Some (MkDecision (hd_Index d) r (hd_Blocked d) false [] (zs "fanotify") (hd_Path d) (hd_Parent d) (hd_SHA256 d)
          (hd_Comm d) (hd_PID d) (hd_PPID d) (hd_UID d)).

(** ** Lemmas: what the engine reports *)

Section reported.
Context (sha256 : list Z → list Z) (equal_fold : list Z → list Z → bool) (lower : list Z → list Z).
Context (fuel : nat) (content : hashKey → list Z).

Local Abbreviation verdict_ := (verdict equal_fold lower).
Local Abbreviation digest := (digest_of sha256 content).

(** The rule of a verdict: one of the policy's, or the malware set's. *)
Definition rule_found (q : policy) (m : matched) (sha : list Z) (h : option (list Z)) : Prop :=
  (∃ i, rule_at q i = Some m ∧ (sha = [] ∨ h = Some sha)) ∨
  (∃ label, h = Some sha ∧ m = Matched (-1) (malwareRule q label sha)).

Lemma match_hash_found q h m : match_hash q h = Some m → rule_found q m h (Some h).
Proof.
  unfold match_hash. destruct (_ ≫= rule_at q) as [m'|] eqn:E.
  - intros [= <-]. left. apply bind_Some in E as (i & _ & Hi). exists i. split; [done|by right].
  - destruct (Lookup (p_malware q) h) as [label|]; cbn; [|done]. intros [= <-]. right. by exists label.
Qed.

Lemma decide_reports q k os ev c allow d c' : honest fuel content os → cache_ok sha256 content c →
  decide sha256 equal_fold lower fuel (Some (FanPolicy q k)) os ev c = (allow, Some d, c') →
  ∃ path m sha, let parent := default [] (os_exe os (fv_pid ev)) in
    os_path os (fv_fd ev) = Some path ∧ verdict_ q k path parent (digest os (fv_fd ev)) = Some m ∧
    rule_found q m sha (digest os (fv_fd ev)) ∧
    allow = negb (r_block (m_rule m)) ∧
    d = FanDecision m (r_block (m_rule m)) path parent sha (procStatus os (fv_pid ev)) (u32 (fv_pid ev)).
Proof.
  intros Ho Hc. unfold decide. cbn [fp_p fp_kernelDecides]. destruct (negb (active q)); [done|].
  destruct (os_path os (fv_fd ev)) as [path|]; [|done]. set (parent := default [] _).
  destruct (hashFD_spec sha256 fuel content os (fv_fd ev) c Ho Hc) as [Hh _].
  assert (Hres : ∀ m sha, verdict_ q k path parent (digest os (fv_fd ev)) = Some m →
    rule_found q m sha (digest os (fv_fd ev)) → ∃ path0 m0 sha0,
      Some path = Some path0 ∧ verdict_ q k path0 parent (digest os (fv_fd ev)) = Some m0 ∧
      rule_found q m0 sha0 (digest os (fv_fd ev)) ∧ negb (r_block (m_rule m)) = negb (r_block (m_rule m0)) ∧
      FanDecision m (r_block (m_rule m)) path parent sha (procStatus os (fv_pid ev)) (u32 (fv_pid ev))
      = FanDecision m0 (r_block (m_rule m0)) path0 parent sha0 (procStatus os (fv_pid ev)) (u32 (fv_pid ev))).
  { intros m sha H1 H2. by exists path, m, sha. }
  unfold Match, verdict, match_exec in *. destruct (p_off q); [done|].
  destruct (if k then None else match_names q path parent) as [m|] eqn:Em.
  { cbn in *. destruct (excluded _ _ _ _ _ _) eqn:Ex; cbn; [done|]. intros [= <- <- <-]. apply Hres; [done|].
    left. destruct k; [done|]. apply bind_Some in Em as (i & _ & Hi). exists i. split; [done|by left]. }
  destruct (HasHashRules q || checksMalware q); [|done].
  destruct (hashFD sha256 fuel os (fv_fd ev) c) as [h c1]. cbn in Hh. rewrite Hh.
  destruct (digest os (fv_fd ev)) as [h0|]; [|done]. cbn [mbind option_bind] in *.
  destruct (match_hash q h0) as [m|] eqn:Eh; cbn in *; [|done].
  destruct (excluded _ _ _ _ _ _) eqn:Ex; cbn; [done|]. intros [= <- <- <-]. apply Hres; [done|].
  by apply match_hash_found.
Qed.
End reported.

(** ** Lemmas: what the agent makes of it *)

(** SHA-256 gives 32 bytes. *)
Definition sha256_ok (sha256 : list Z → list Z) : Prop := ∀ bs, is_bytes (sha256 bs) ∧ length (sha256 bs) = 32%nat.

Lemma hex_digit_plain d : 0 ≤ d < 16 → plain_byte (hex_digit d) = true ∧ (hex_digit d <? 0x80) = true.
Proof. unfold plain_byte, hex_digit. intros Hd. destruct (Z.ltb_spec d 10); split; lia. Qed.

Lemma hex_encode_plain l : is_bytes l → l ≠ [] → plain_ok (hex_encode l) = true ∧ text_ok (hex_encode l).
Proof.
  intros Hl Hne. assert (H : forallb plain_byte (hex_encode l) = true ∧ forallb (λ b, b <? 0x80) (hex_encode l) = true).
  { clear Hne. induction Hl as [|b l Hb Hl [IH1 IH2]]; [done|]. unfold is_byte in Hb.
    destruct (hex_digit_plain (b / 16)) as [H1 H2]; [split; [apply Z.div_pos; lia|apply Z.div_lt_upper_bound; lia]|].
    destruct (hex_digit_plain (b mod 16)) as [H3 H4]; [by apply Z.mod_pos_bound|].
    change (hex_encode (b :: l)) with (hex_digit (b / 16) :: hex_digit (b mod 16) :: hex_encode l).
    cbn [forallb]. by rewrite H1, H2, H3, H4, IH1, IH2. }
  destruct H as [H1 H2]. split; [|by apply ascii_text_ok]. unfold plain_ok. rewrite H1, bool_decide_false; [done|].
  by destruct l.
Qed.

Section found.
Context (equal_fold : list Z → list Z → bool) (lower : list Z → list Z).

(** The same of the agent's verdict, with the label as the set has it. *)
Lemma verdict_found p k path parent h m : verdict equal_fold lower p k path parent h = Some m →
  (∃ i, rule_at p i = Some m) ∨
  (∃ label sha, h = Some sha ∧ Lookup (p_malware p) sha = Some label ∧ m = Matched (-1) (malwareRule p label sha)).
Proof.
  unfold verdict, match_exec. destruct (p_off p); [done|].
  destruct (if k then None else match_names p path parent) as [m0|] eqn:Em.
  { cbn. destruct (excluded _ _ _ _ _ _); [done|]. intros [= <-]. left. destruct k; [done|].
    apply bind_Some in Em as (i & _ & Hi). by exists i. }
  destruct (_ || _); [|done]. destruct h as [h|]; [|done]. cbn [mbind option_bind].
  destruct (match_hash p h) as [m0|] eqn:Eh; cbn; [|done]. destruct (excluded _ _ _ _ _ _); [done|]. intros [= <-].
  unfold match_hash in Eh. destruct (_ ≫= rule_at p) as [m1|] eqn:E.
  - left. injection Eh as <-. apply bind_Some in E as (i & _ & Hi). by exists i.
  - destruct (Lookup (p_malware p) h) as [label|] eqn:El; [|done]. injection Eh as <-. right. by exists label, h.
Qed.
End found.

Lemma rule_at_index p i m : rule_at p i = Some m → m_index m = Z.of_nat i ∧ p_rules p !! i = Some (m_rule m).
Proof. unfold rule_at. destruct (p_rules p !! i); [|done]. by intros [= <-]. Qed.

Lemma malwareRule_name p label sha : ru_name (r_rule (malwareRule p label sha)) ≠ [].
Proof. by destruct label. Qed.

Lemma malwareRule_again p label sha : malwareRule p (ru_name (r_rule (malwareRule p label sha))) sha = malwareRule p label sha.
Proof. by destruct label. Qed.

Lemma client_read_rule p d i r : hd_Index d = Z.of_nat i → p_rules p !! i = Some r →
  client_read (Some p) d = Some (MkDecision (hd_Index d) r (hd_Blocked d) false [] (zs "fanotify") (hd_Path d)
    (hd_Parent d) (hd_SHA256 d) (hd_Comm d) (hd_PID d) (hd_PPID d) (hd_UID d)).
Proof.
  intros Hi Hr. pose proof (lookup_lt_Some _ _ _ Hr) as Hlt. unfold client_read. cbn [mbind option_bind]. rewrite Hi.
  rewrite (proj2 (Z.ltb_ge (Z.of_nat i) (-1))), (proj2 (Z.leb_gt _ _)), (proj2 (Z.eqb_neq (Z.of_nat i) (-1))) by lia.
  cbn [orb]. by rewrite Nat2Z.id, Hr.
Qed.

Lemma client_read_malware p d : hd_Index d = -1 →
  client_read (Some p) d = Some (MkDecision (-1) (malwareRule p (hd_Label d) (hd_SHA256 d)) (hd_Blocked d) false []
    (zs "fanotify") (hd_Path d) (hd_Parent d) (hd_SHA256 d) (hd_Comm d) (hd_PID d) (hd_PPID d) (hd_UID d)).
Proof.
  intros Hi. unfold client_read. cbn [mbind option_bind]. rewrite Hi. rewrite (proj2 (Z.leb_gt _ (-1))) by lia. done.
Qed.

Lemma digest_text sha256 content os fd h : sha256_ok sha256 → digest_of sha256 content os fd = Some h →
  plain_ok h = true ∧ text_ok h.
Proof.
  intros Hsha. unfold digest_of. destruct (os_fstat os fd) as [key|]; [|done]. cbn [mbind option_bind].
  destruct (_ <? _); [done|]. intros [= <-]. destruct (Hsha (content key)) as [Hb Hl].
  apply hex_encode_plain; [done|]. intros E. by rewrite E in Hl.
Qed.

Lemma resent_block m : r_block (m_rule (resent_matched m)) = r_block (m_rule m).
Proof. unfold resent_matched. by destruct (_ =? -1). Qed.

Lemma resent_index m : m_index (resent_matched m) = m_index m.
Proof. unfold resent_matched. by destruct (_ =? -1). Qed.

(** ** A held exec reaches the worker *)

Definition is_malware (r : compiled) : bool := bool_decide (r_type r = TypeKnownMalware).

(** What the worker reads of a report, of either kind. *)
Lemma report_fields uw us x : plain_ok (d_engine x) = true → (d_sha256 x = [] ∨ plain_ok (d_sha256 x) = true) →
  (if is_malware (d_rule x) then ru_name (r_rule (d_rule x)) ≠ [] ∧ d_sha256 x ≠ []
   else plain_ok (ru_type (r_rule (d_rule x))) = true) →
  let w := parse_kv uw us (snd (report_line x)) in
  w !! zs "action" = Some (decision_action x) ∧
  w !! zs (if is_malware (d_rule x) then "label" else "rule") = Some (shown true (ru_name (r_rule (d_rule x)))) ∧
  w !! zs (if is_malware (d_rule x) then "path" else "Image") = Some (shown true (d_path x)).
Proof.
  intros He Hs Hr. unfold report_line. fold (is_malware (d_rule x)). destruct (is_malware (d_rule x)); cbn [snd].
  - destruct Hr as [Hn Hne]. assert (Hp : plain_ok (d_sha256 x) = true) by by destruct Hs.
    destruct (malware_fields uw us x He Hp) as (F1 & F2 & _ & F4). by rewrite bool_decide_false in F2 by done.
  - destruct (decision_fields uw us x) as (F1 & F2 & _ & F4 & _); [|done]. split; [done..|]. by destruct Hs.
Qed.

(** The agent finds the rule again. *)
Lemma client_finds p m path parent sha st pid :
  (∃ i, rule_at p i = Some m) ∨ (∃ label, text_ok label ∧ m = Matched (-1) (malwareRule p label sha)) →
  text_ok path → text_ok parent → text_ok sha →
  client_read (Some p) (helper_report (FanDecision (resent_matched m) (r_block (m_rule m)) path parent sha st pid))
  = Some (MkDecision (m_index m) (m_rule m) (r_block (m_rule m)) false [] (zs "fanotify") path parent sha
            (json_text (ps_comm st)) pid (ps_ppid st) (ps_uid st)).
Proof.
  intros Hm Hp Hq Hs. destruct Hm as [(i & Hi)|(label & Hl & ->)].
  - apply rule_at_index in Hi as [Hix Hr]. rewrite (client_read_rule p _ i (m_rule m)); [|by cbn; rewrite resent_index|done].
    cbn [helper_report hd_Index hd_Blocked hd_Path hd_Parent hd_SHA256 hd_Comm hd_PID hd_PPID hd_UID fd_rule fd_blocked
      fd_path fd_parent fd_sha256 fd_status fd_pid]. by rewrite resent_index, Hp, Hq, Hs.
  - set (r := malwareRule p label sha). change (resent_matched (Matched (-1) r)) with (Matched (-1) r).
    assert (Hname : text_ok (ru_name (r_rule r))) by (unfold r, malwareRule; cbn [r_rule ru_name]; by case_bool_decide).
    assert (Hagain : malwareRule p (ru_name (r_rule r)) sha = r) by apply malwareRule_again.
    rewrite client_read_malware by done.
    cbn [helper_report hd_Label hd_Blocked hd_Path hd_Parent hd_SHA256 hd_Comm hd_PID hd_PPID hd_UID fd_rule fd_blocked
      fd_path fd_parent fd_sha256 fd_status fd_pid m_rule m_index].
    rewrite bool_decide_true by done. by rewrite Hname, Hs, Hagain, Hp, Hq.
Qed.

(** C11. A decision of the fanotify engine reaches the worker: when the helper
    has the agent's policy, decides an exec with a report and writes it as a
    line of JSON, the agent finds the very rule its own policy finds for the
    path, the parent and the content, and prints a line from which the worker
    reads the rule's name, whether it blocked, and the path, also when the
    rule is the known-malware set's.  The path, the parent and the labels are
    to be valid UTF-8: JSON replaces other bytes. *)
Theorem held_exec_reaches_the_worker resolve hash_file exe load sha256 equal_fold lower fuel content rules p k h os ev
    cache allow d c' path parent uw us :
  agent_policy resolve hash_file exe load rules p → version_names h p →
  honest fuel content os → cache_ok sha256 content cache → sha256_ok sha256 →
  (∀ sha label, Lookup (p_malware p) sha = Some label → text_ok label) →
  decide sha256 equal_fold lower fuel (h_policy (helper_turn resolve hash_file exe load (policy_msg p k) h)) os ev cache
    = (allow, Some d, c') →
  os_path os (fv_fd ev) = Some path → os_exe os (fv_pid ev) = Some parent → text_ok path → text_ok parent →
  ∃ m x, verdict equal_fold lower p k path parent (digest_of sha256 content os (fv_fd ev)) = Some m ∧
    client_read (Some p) (helper_report d) = Some x ∧
    d_index x = m_index m ∧ d_rule x = m_rule m ∧ d_blocked x = negb allow ∧ d_path x = path ∧ d_parent x = parent ∧
    let w := parse_kv uw us (snd (report_line x)) in
    w !! zs "action" = Some (if allow then zs "detected" else zs "blocked") ∧
    w !! zs (if is_malware (m_rule m) then "label" else "rule") = Some (shown true (ru_name (r_rule (m_rule m)))) ∧
    w !! zs (if is_malware (m_rule m) then "path" else "Image") = Some (shown true path).
Proof.
  intros Hp Hv Ho Hc Hsha Hlab Hd Hpath Hexe Htp Htq.
  destruct (helper_policy resolve hash_file exe load rules p k h Hp Hv) as (q & Hq & H1 & H2 & H3 & H4 & H5).
  rewrite Hq in Hd. assert (Hpq : same_policy p q) by by split.
  destruct (decide_reports sha256 equal_fold lower fuel content q k os ev cache allow d c' Ho Hc Hd)
    as (path' & m' & sha & Hpath' & Hver & Hfound & Hd').
  rewrite Hpath in Hpath'. injection Hpath' as <-. rewrite Hexe in *. cbn [default from_option id] in *.
  rewrite (same_verdict equal_fold lower p q Hpq) in Hver.
  destruct (verdict equal_fold lower p k path parent _) as [m|] eqn:Em; [|done]. injection Hver as <-.
  destruct Hd' as [-> ->]. rewrite !resent_block. exists m.
  assert (Hsh : sha = [] ∨ plain_ok sha = true ∧ text_ok sha).
  { destruct Hfound as [(i & _ & [?|?])|(label & ? & _)]; [by left|right; by eapply digest_text..]. }
  assert (Htsha : text_ok sha) by (destruct Hsh as [->|[_ ?]]; done).
  assert (Hrule : ((∃ i, rule_at p i = Some m) ∨ (∃ label, text_ok label ∧ m = Matched (-1) (malwareRule p label sha))) ∧
    if is_malware (m_rule m) then ru_name (r_rule (m_rule m)) ≠ [] ∧ sha ≠ []
    else plain_ok (ru_type (r_rule (m_rule m))) = true).
  { destruct (verdict_found _ _ _ _ _ _ _ _ Em) as [(i & Hi)|(label & sha0 & Hs0 & Hl & ->)].
    - split; [left; by exists i|]. apply rule_at_index in Hi as [_ Hr].
      destruct (compiled_type_word resolve (newGuard resolve hash_file exe) rules (m_rule m)) as [Hty Hnm].
      { rewrite <- (ap_rules _ _ _ _ _ _ Hp). by eapply list_elem_of_lookup_2. }
      unfold is_malware. by rewrite bool_decide_false.
    - destruct Hfound as [(i & Hi & _)|(label' & Hs' & Hm')].
      { apply rule_at_index in Hi as [Hix _]. rewrite resent_index in Hix. cbn in Hix. lia. }
      rewrite Hs0 in Hs'. injection Hs' as <-. split; [right; exists label; split; [by eapply Hlab|done]|].
      split; [apply malwareRule_name|]. destruct (digest_text _ _ _ _ _ Hsha Hs0) as [Hpl _]. by apply plain_ok_nonempty. }
  destruct Hrule as [Hm Hw]. eexists. split; [done|]. split; [by apply client_finds|].
  cbn [d_index d_rule d_blocked d_path d_parent]. rewrite negb_involutive. do 5 (split; [done|]).
  match goal with |- context [report_line ?x] => destruct (report_fields uw us x) as (F1 & F2 & F3) end; [done| |done|].
  { cbn [d_sha256]. destruct Hsh as [?|[? _]]; [by left|by right]. }
  split; [|by split]. rewrite F1. unfold decision_action. cbn [d_blocked d_terminated]. by destruct (r_block (m_rule m)).
Qed.

Lemma demo_digest_ok : sha256_ok demo_digest.
Proof.
  intros bs. unfold demo_digest. split; [|apply length_replicate]. apply Forall_replicate.
  pose proof (Z.mod_pos_bound (foldl Z.add 0 bs) 256). unfold is_byte. lia.
Qed.

(** /etc/shadow is executed on a host without BPF LSM. *)
Lemma held_exec_reaches_the_worker_witness :
  let p := host_policy host_rules in
  let h := helper_turn demo_resolve (λ _, None) None no_load (policy_msg p false) new_helper in
  let '(allow, d, _) := decide demo_digest demo_fold to_lower 20 (h_policy h) host_os (FanEvent 5 41) ∅ in
  allow = false ∧
  ∃ d' m x, d = Some d' ∧
    verdict demo_fold to_lower p false (zs "/etc/shadow") (zs "/etc/shadow") (digest_of demo_digest demo_content host_os 5)
      = Some m ∧
    client_read (Some p) (helper_report d') = Some x ∧
    d_index x = m_index m ∧ d_rule x = m_rule m ∧ d_blocked x = negb allow ∧ d_path x = zs "/etc/shadow" ∧
    d_parent x = zs "/etc/shadow" ∧
    let w := parse_kv (λ _, false) (λ _, false) (snd (report_line x)) in
    w !! zs "action" = Some (if allow then zs "detected" else zs "blocked") ∧
    w !! zs (if is_malware (m_rule m) then "label" else "rule") = Some (shown true (ru_name (r_rule (m_rule m)))) ∧
    w !! zs (if is_malware (m_rule m) then "path" else "Image") = Some (shown true (zs "/etc/shadow")).
Proof.
  cbv zeta. destruct (decide _ _ _ _ _ _ _ _) as [[allow d] c'] eqn:E.
  assert (H : allow = false ∧ is_Some d).
  { change allow with (fst (fst (allow, d, c'))). change d with (snd (fst (allow, d, c'))) at 2. rewrite <- E.
    vm_compute. split; [reflexivity|eexists; reflexivity]. }
  destruct H as [-> [d' ->]]. split; [done|]. exists d'.
  destruct (held_exec_reaches_the_worker demo_resolve (λ _, None) None no_load demo_digest demo_fold to_lower 20 demo_content
    host_rules (host_policy host_rules) false new_helper host_os (FanEvent 5 41) ∅ false d' c' (zs "/etc/shadow")
    (zs "/etc/shadow") (λ _, false) (λ _, false)) as (m & x & H).
  - apply host_policy_ok.
  - apply new_helper_versions.
  - apply host_honest.
  - apply empty_cache_ok.
  - apply demo_digest_ok.
  - intros sha label Hl. discriminate Hl.
  - exact E.
  - reflexivity.
  - reflexivity.
  - reflexivity.
  - reflexivity.
  - by exists m, x.
Defined.
