(* ===== verification/Processor.v ===== *)
(** * The agent's processing of sensor records (linsensor/processor.go)

    [handle] turns a decoded record into log lines: it makes paths absolute,
    knows the executable of each process, drops duplicates and limits the
    file events of a process to 30 lines a minute, counting the rest.  The
    clock (one reading per record) and /proc are parameters. *)
From Stdlib Require Import ZArith Lia Ascii String.
From stdpp Require Import base tactics list gmap.
From S2P Require Import Prelude.
From S2P Require Import GoStrings.
From S2P Require Import Linsensor.
From S2P Require Import Wire.
From S2P Require Import Lines.
Local Open Scope Z_scope.

(** ** State *)

Definition minute : Z := 60 * 10 ^ 9.
Definition accessDedupe : Z := 10 * minute.
Definition fileBudget : Z := 30.
Definition fileWindow : Z := minute.
Definition ptraceDedupe : Z := minute.
Definition memfdDedupe : Z := 10 * minute.
Definition maxTracked : nat := Z.to_nat 20000.

(** The groups that configuration can switch off. *)
Inductive group := G_file | G_module | G_ptrace | G_privilege | G_memfd | G_exit | G_access.

(** [procFS]; an empty string is no answer. *)
Record procFS := ProcFS {
  proc_exe : Z → list Z;
  proc_cwd : Z → Z → list Z;
  proc_fd : Z → Z → list Z;
}.

(** [fileWindowState] *)
Record window := Window {
  w_start : Z;
  w_sent : Z;
  w_writes : Z;
  w_renames : Z;
  w_deletes : Z;
  w_sample : list Z;
  w_image : list Z;
  w_comm : list Z;
  w_ppid : Z;
  w_uid : Z;
}.

(** [processor]: its three maps, the lines pushed so far and the events
    handed to [onFile], both oldest first. *)
Record processor := Processor {
  p_images : gmap Z (list Z);
  p_files : gmap Z window;
  p_seen : gmap (list Z) Z;
  p_lines : list log_line;
  p_onfile : list file_event;
}.

Definition up_images (v : gmap Z (list Z)) (p : processor) : processor :=
  Processor v (p_files p) (p_seen p) (p_lines p) (p_onfile p).
Definition up_files (v : gmap Z window) (p : processor) : processor :=
  Processor (p_images p) v (p_seen p) (p_lines p) (p_onfile p).
Definition up_seen (v : gmap (list Z) Z) (p : processor) : processor :=
  Processor (p_images p) (p_files p) v (p_lines p) (p_onfile p).

Definition push (l : log_line) : prog processor unit :=
  modify (λ p, Processor (p_images p) (p_files p) (p_seen p) (p_lines p ++ [l]) (p_onfile p)).
Definition on_file (f : file_event) : prog processor unit :=
  modify (λ p, Processor (p_images p) (p_files p) (p_seen p) (p_lines p) (p_onfile p ++ [f])).

(** [m[k] = v], in a map that is emptied first when it is full. *)
Definition track {K V} `{Countable K} (k : K) (v : V) (m : gmap K V) : gmap K V :=
  <[k := v]> (if decide (maxTracked <= size m)%nat then ∅ else m).

(** ** Paths *)

(** [strings.HasPrefix] of a literal. *)
Definition has_prefix (pre : string) (s : list Z) : bool := bool_decide (zs pre `prefix_of` s).

Definition skipPrefixes : list string := ["/proc/"; "/sys/"; "/dev/"; "/run/"; "/var/run/"]%string.
Definition skipPath (p : list Z) : bool :=
  if has_prefix "/dev/shm/" p then false else existsb (λ s, has_prefix s p) skipPrefixes.

(** [strings.Cut] at a slash. *)
Fixpoint cut_slash (s : list Z) : option (list Z * list Z) :=
  match s with
  | [] => None
  | b :: s => if b =? 47 then Some ([], s) else '(x, y) ← cut_slash s; Some (b :: x, y)
  end.

Fixpoint pid_of (n : Z) (s : list Z) : option Z :=
  match s with
  | [] => Some n
  | c :: s => if (c <? 48) || (57 <? c) then None else pid_of (u64 (n * 10 + (c - 48))) s
  end.

Definition procMem (path : list Z) : option Z :=
  if has_prefix "/proc/" path then
    match cut_slash (drop 6 path) with
    | Some (pid, tail) =>
        if bool_decide (tail = zs "mem") && negb (bool_decide (pid = [])) then pid_of 0 pid else None
    | None => None
    end
  else None.

(** ** Operations *)

Section handle.
Context (disabled : group → bool) (canary : list Z → bool) (now : Z) (fs : procFS).

Definition setImage (tgid : Z) (path : list Z) : prog processor unit :=
  modify (λ p, up_images (if bool_decide (path = []) then delete tgid (p_images p)
                          else track tgid path (p_images p)) p).

Definition image (tgid : Z) (comm : list Z) : prog processor (list Z) :=
  p ← get;
  match p_images p !! tgid with
  | Some img => mret img
  | None =>
      let img := proc_exe fs tgid in
      if bool_decide (img = []) then mret comm
      else put (up_images (track tgid img (p_images p)) p);; mret img
  end.

(** [filepath.Join(base, path)] of two strings that are not empty. *)
Definition join_path (base path : list Z) : list Z := clean (base ++ 47 :: path).

Definition resolve (path dir : list Z) (dfd pid tgid : Z) : list Z :=
  if bool_decide (path = []) || is_abs path then path else
  let base := if negb (bool_decide (dir = [])) then dir
              else if dfd =? AT_FDCWD then proc_cwd fs pid tgid else proc_fd fs tgid dfd in
  if bool_decide (base = []) then path else join_path base path.

Definition duplicate (p : processor) (key : list Z) (d : Z) : bool :=
  match p_seen p !! key with Some t => now - t <? d | None => false end.

Definition dedupe (key : list Z) (d : Z) : prog processor bool :=
  p ← get;
  if duplicate p key d then mret true
  else put (up_seen (track key now (p_seen p)) p);; mret false.

Definition access (ev : rawEvent) (a : access_action) (target : Z) : prog processor unit :=
  if disabled G_access || (raw_tgid ev =? target) then mret tt else
  img ← image (raw_tgid ev) (raw_comm ev);
  let target_img := proc_exe fs (u32 target) in
  dup ← dedupe (zs "access|" ++ img ++ zs "|" ++ target_img ++ zs "|" ++ access_text a) accessDedupe;
  if dup : bool then mret tt else push (L_access ev a target img target_img).

(** What is counted and not sent. *)
Definition counted (w : window) : Z := w_writes w + w_renames w + w_deletes w.

Definition flushFiles (tgid : Z) (w : window) : prog processor unit :=
  modify (λ p, up_files (delete tgid (p_files p)) p);;
  if counted w =? 0 then mret tt
  else push (L_summary (FileSummary (w_writes w) (w_renames w) (w_deletes w) (w_sample w) (w_image w)
                          (w_comm w) tgid (w_ppid w) (w_uid w))).

(** The window of a process, a new one if it has none or its minute is over. *)
Definition file_window (tgid : Z) (fe : file_event) : prog processor window :=
  p ← get;
  let fresh := Window now 0 0 0 0 [] (fe_image fe) (fe_comm fe) (fe_ppid fe) (fe_uid fe) in
  let new := modify (λ p, up_files (track tgid fresh (p_files p)) p);; mret fresh in
  match p_files p !! tgid with
  | None => new
  | Some w => if fileWindow <=? now - w_start w then flushFiles tgid w;; new else mret w
  end.

Definition count_event (fe : file_event) (w : window) : window :=
  let sample := if bool_decide (w_sample w = []) then fe_path fe else w_sample w in
  let '(wr, re, de) := match fe_action fe with
                       | A_create | A_write => (1, 0, 0)
                       | A_rename => (0, 1, 0)
                       | A_delete => (0, 0, 1)
                       | A_read => (0, 0, 0)
                       end in
  Window (w_start w) (w_sent w) (w_writes w + wr) (w_renames w + re) (w_deletes w + de) sample
    (w_image w) (w_comm w) (w_ppid w) (w_uid w).

Definition sent_one (w : window) : window :=
  Window (w_start w) (w_sent w + 1) (w_writes w) (w_renames w) (w_deletes w) (w_sample w)
    (w_image w) (w_comm w) (w_ppid w) (w_uid w).

Definition file_key (fe : file_event) : list Z :=
  zs "file|" ++ fmt_d (fe_pid fe) ++ zs "|" ++ action_text (fe_action fe) ++ zs "|" ++ fe_path fe.

(** The end of [handleFile]: the window, the duplicates, the budget. *)
Definition report_file (fe : file_event) : prog processor unit :=
  let tgid := fe_pid fe in
  w ← file_window tgid fe;
  dup ← dedupe (file_key fe) fileWindow;
  if dup : bool then mret tt
  else if w_sent w <? fileBudget
  then modify (λ p, up_files (<[tgid := sent_one w]> (p_files p)) p);; push (L_file fe)
  else modify (λ p, up_files (<[tgid := count_event fe w]> (p_files p)) p).

(** What [handleFile] makes of the record, before the image is known. *)
Inductive file_use :=
  | U_access (a : access_action) (target : Z)
  | U_read
  | U_event (a : file_action) (path from : list Z) (dir : bool).

Definition opens_for_writing (ev : rawEvent) : bool :=
  negb (Z.land (raw_arg0 ev) (Z.lor (Z.lor 1 2) (Z.lor 64 512)) =? 0).

Definition classify (ev : rawEvent) : file_use :=
  let path := resolve (raw_path ev) (raw_dir ev) (raw_dfd ev) (raw_pid ev) (raw_tgid ev) in
  if raw_kind ev =? K_OPEN then
    match procMem path with
    | Some pid => U_access (if opens_for_writing ev then A_mem_write else A_mem_read) pid
    | None =>
        if opens_for_writing ev
        then U_event (if Z.land (raw_arg0 ev) 64 =? 0 then A_write else A_create) path [] false
        else U_read
    end
  else if raw_kind ev =? K_RENAME then
    U_event A_rename (resolve (raw_path2 ev) (raw_dir2 ev) (raw_dfd2 ev) (raw_pid ev) (raw_tgid ev)) path false
  else U_event A_delete path [] (negb (Z.land (raw_arg0 ev) 0x200 =? 0)).

Definition file_event_of (ev : rawEvent) (a : file_action) (path from img : list Z) (dir : bool) : file_event :=
  FileEvent a path from (raw_tgid ev) (raw_ppid ev) (raw_uid ev) img (raw_comm ev) dir.

(** Whether the event is the sensor's own, or activity nobody looks for. *)
Definition ignored (path from : list Z) : bool :=
  canary path || (negb (bool_decide (from = [])) && canary from)
  || (skipPath path && (bool_decide (from = []) || skipPath from)).

Definition handleFile (ev : rawEvent) : prog processor unit :=
  match classify ev with
  | U_access a target => access ev a target
  | U_read =>
      if disabled G_access then mret tt else
      img ← image (raw_tgid ev) (raw_comm ev);
      let path := resolve (raw_path ev) (raw_dir ev) (raw_dfd ev) (raw_pid ev) (raw_tgid ev) in
      dup ← dedupe (zs "read|" ++ img ++ zs "|" ++ path) accessDedupe;
      if dup : bool then mret tt else push (L_file (file_event_of ev A_read path [] img false))
  | U_event a path from dir =>
      if ignored path from then mret tt else
      img ← image (raw_tgid ev) (raw_comm ev);
      let fe := file_event_of ev a path from img dir in
      on_file fe;;
      report_file fe
  end.

Definition is_file (k : Z) : bool := (k =? K_OPEN) || (k =? K_RENAME) || (k =? K_UNLINK).
Definition is_module (k : Z) : bool := (k =? K_MODULE_INIT) || (k =? K_MODULE_FINIT) || (k =? K_MODULE_DELETE).

Definition handle (ev : rawEvent) : prog processor unit :=
  let k := raw_kind ev in
  let tgid := raw_tgid ev in
  if is_file k then if disabled G_file then mret tt else handleFile ev
  else if is_module k then
    if disabled G_module then mret tt
    else img ← image tgid (raw_comm ev); push (L_module ev img)
  else if k =? K_PTRACE then
    if disabled G_ptrace then mret tt else
    dup ← dedupe (zs "ptrace|" ++ fmt_d tgid ++ zs "|" ++ fmt_d (raw_arg1 ev) ++ zs "|"
                  ++ fmt_d (raw_arg0 ev)) ptraceDedupe;
    if dup : bool then mret tt
    else img ← image tgid (raw_comm ev); push (L_ptrace ev img (proc_exe fs (u32 (raw_arg1 ev))))
  else if (k =? K_SETID) || (k =? K_CAPSET) then
    if disabled G_privilege then mret tt
    else img ← image tgid (raw_comm ev); parent ← image (raw_ppid ev) []; push (L_privilege ev img parent)
  else if k =? K_MEMFD then
    img ← image tgid (raw_comm ev);
    if disabled G_memfd then mret tt else
    dup ← dedupe (zs "memfd|" ++ img ++ zs "|" ++ raw_path ev) memfdDedupe;
    if dup : bool then mret tt else push (L_memfd ev img)
  else if k =? K_VM_ACCESS then
    access ev (if raw_arg1 ev =? 1 then A_vm_write else A_vm_read) (raw_arg0 ev)
  else if k =? K_EXEC then setImage tgid (raw_path ev)
  else if k =? K_FILELESS_EXEC then
    setImage tgid (raw_path ev);;
    parent ← image (raw_ppid ev) [];
    push (L_fileless ev parent)
  else if k =? K_EXIT then
    (if disabled G_exit then mret tt else img ← image tgid (raw_comm ev); push (L_exit ev img));;
    modify (λ p, up_images (delete tgid (p_images p)) p);;
    p ← get;
    match p_files p !! tgid with
    | Some w => flushFiles tgid w
    | None => mret tt
    end
  else mret tt.
End handle.

(** [tick], at [now]; [order] is the order in which the map is walked. *)
Fixpoint tick_files (now : Z) (order : list Z) : prog processor unit :=
  match order with
  | [] => mret tt
  | tgid :: order =>
      p ← get;
      (match p_files p !! tgid with
       | Some w => if fileWindow <=? now - w_start w then flushFiles tgid w else mret tt
       | None => mret tt
       end);;
      tick_files now order
  end.
Definition tick (now : Z) (order : list Z) : prog processor unit :=
  tick_files now order;;
  modify (λ p, up_seen (filter (λ kt, snd kt > now - memfdDedupe) (p_seen p)) p).

(** ** Accounting for file events *)

(** The file events a line stands for. *)
Definition events_of (l : log_line) : Z :=
  match l with
  | L_file f => match fe_action f with A_read => 0 | _ => 1 end
  | L_summary f => fs_writes f + fs_renames f + fs_deletes f
  | _ => 0
  end.

Definition reported (p : processor) : Z := foldr (λ l n, events_of l + n) 0 (p_lines p).
Definition pending_in (m : gmap Z window) : Z := map_fold (λ _ w n, counted w + n) 0 m.
Definition pending (p : processor) : Z := pending_in (p_files p).
Definition tally (p : processor) : Z := reported p + pending p.

Lemma pending_delete m k w : m !! k = Some w → pending_in m = counted w + pending_in (delete k m).
Proof. intros H. unfold pending_in. by rewrite (map_fold_delete_L _ _ k w m) by (lia || done). Qed.

Lemma pending_new m k w : m !! k = None → pending_in (<[k := w]> m) = counted w + pending_in m.
Proof. intros H. unfold pending_in. by rewrite map_fold_insert_L by (lia || done). Qed.

Lemma pending_old m k w w' : m !! k = Some w → pending_in (<[k := w']> m) = pending_in m - counted w + counted w'.
Proof.
  intros H. rewrite <- insert_delete_eq, pending_new by apply lookup_delete_eq. rewrite (pending_delete m k w) by done. lia.
Qed.

Lemma reported_app ls l : foldr (λ l n, events_of l + n) 0 (ls ++ [l]) = foldr (λ l n, events_of l + n) 0 ls + events_of l.
Proof. induction ls as [|x ls IH]; cbn [app foldr]; [lia|]. rewrite IH. lia. Qed.

(** A part of the program that leaves the accounts alone. *)
Class Quiet {A} (m : prog processor A) : Prop :=
  quiet p : p_files (exec m p) = p_files p ∧ reported (exec m p) = reported p.

#[export] Instance quiet_ret {A} (x : A) : Quiet (mret x).
Proof. by intros p. Qed.

#[export] Instance quiet_bind {A B} (m : prog processor A) (f : A → prog processor B) :
  Quiet m → (∀ x, Quiet (f x)) → Quiet (m ≫= f).
Proof. intros Hm Hf p. rewrite exec_bind. destruct (Hf (eval m p) (exec m p)) as [-> ->]. apply Hm. Qed.

#[export] Instance quiet_if {A} (b : bool) (m m' : prog processor A) : Quiet m → Quiet m' → Quiet (if b then m else m').
Proof. by destruct b. Qed.

Lemma quiet_push l : events_of l = 0 → Quiet (push l).
Proof. intros H p. split; [done|]. unfold reported, exec, push, modify. cbn. rewrite reported_app. lia. Qed.

Lemma quiet_tally {A} (m : prog processor A) p : Quiet m → tally (exec m p) = tally p.
Proof. intros Hm. unfold tally, pending. by destruct (Hm p) as [-> ->]. Qed.

Section handle.
Context (disabled : group → bool) (canary : list Z → bool) (now : Z) (fs : procFS).

#[local] Instance quiet_set_image tgid path : Quiet (setImage tgid path).
Proof. by intros p. Qed.

#[local] Instance quiet_image tgid comm : Quiet (image fs tgid comm).
Proof.
  intros p. unfold image, exec, mbind, prog_bind, get, put, mret, prog_ret. cbn.
  destruct (p_images p !! tgid); [done|]. by destruct (bool_decide _).
Qed.

Lemma eval_dedupe key d p : eval (dedupe now key d) p = duplicate now p key d.
Proof.
  unfold dedupe, eval, mbind, prog_bind, get, put, mret, prog_ret. cbn. by destruct (duplicate _ _ _ _).
Qed.

Lemma exec_dedupe key d p :
  exec (dedupe now key d) p = if duplicate now p key d then p else up_seen (track key now (p_seen p)) p.
Proof.
  unfold dedupe, exec, mbind, prog_bind, get, put, mret, prog_ret. cbn. by destruct (duplicate _ _ _ _).
Qed.

#[local] Instance quiet_dedupe key d : Quiet (dedupe now key d).
Proof. intros p. rewrite exec_dedupe. by destruct (duplicate _ _ _ _). Qed.

#[local] Instance quiet_access ev a target : Quiet (access disabled now fs ev a target).
Proof.
  unfold access. apply quiet_if; [apply _|]. apply quiet_bind; [apply _|]. intros img.
  apply quiet_bind; [apply _|]. intros []; [apply _|]. by apply quiet_push.
Qed.

Lemma flush_tally tgid w p : p_files p !! tgid = Some w →
  tally (exec (flushFiles tgid w) p) = tally p ∧ p_files (exec (flushFiles tgid w) p) = delete tgid (p_files p) ∧
  p_seen (exec (flushFiles tgid w) p) = p_seen p.
Proof.
  intros Hw. unfold flushFiles, tally, pending. rewrite !exec_bind. unfold exec at 1 3 5, modify. cbn [fst snd].
  rewrite (pending_delete _ _ _ Hw). unfold counted. destruct (Z.eqb_spec (w_writes w + w_renames w + w_deletes w) 0) as [E|_].
  - cbn. unfold pending, pending_in. split_and!; [|done..]. unfold reported. cbn. lia.
  - cbn. unfold reported. cbn. rewrite reported_app. cbn. split_and!; [lia|done..].
Qed.

Definition fits (p : processor) : Prop := (size (p_files p) ≤ maxTracked)%nat.

(** A new window that finds the table full: the others are dropped. *)
Definition overflows (p : processor) (tgid : Z) : bool :=
  bool_decide (p_files p !! tgid = None) && (maxTracked <=? size (p_files p))%nat.
Definition lost (p : processor) (tgid : Z) : Z := if overflows p tgid then pending p else 0.

Lemma track_files p tgid w : p_files p !! tgid = None → fits p →
  let p' := up_files (track tgid w (p_files p)) p in
  tally p' = tally p - lost p tgid + counted w ∧ fits p'.
Proof.
  intros Hn Hfit. unfold tally, pending, lost, overflows, fits, track in *. cbn [p_files up_files].
  rewrite bool_decide_true by done. cbn [andb].
  change (reported (up_files _ p)) with (reported p). case_decide as Hs.
  - rewrite (proj2 (Nat.leb_le _ _)), pending_new, map_size_insert_None by apply lookup_empty || done.
    change (pending_in ∅) with 0. rewrite map_size_empty. unfold pending, maxTracked. lia.
  - rewrite (proj2 (Nat.leb_gt _ _)), pending_new, map_size_insert_None by done || lia. lia.
Qed.

Definition fresh_window (fe : file_event) : window :=
  Window now 0 0 0 0 [] (fe_image fe) (fe_comm fe) (fe_ppid fe) (fe_uid fe).

Lemma file_window_run tgid fe p :
  let opened q := (fresh_window fe, up_files (track tgid (fresh_window fe) (p_files q)) q) in
  file_window now tgid fe p =
    match p_files p !! tgid with
    | None => opened p
    | Some w => if fileWindow <=? now - w_start w then opened (exec (flushFiles tgid w) p) else (w, p)
    end.
Proof.
  unfold file_window, mbind, prog_bind, get, modify, mret, prog_ret, exec. cbv beta iota zeta.
  destruct (p_files p !! tgid) as [w|]; [|done]. destruct (_ <=? _); [|done].
  by destruct (flushFiles tgid w p) as [[] q].
Qed.

Lemma file_window_spec tgid fe p : fits p →
  let '(w, p') := file_window now tgid fe p in
  p_files p' !! tgid = Some w ∧ p_seen p' = p_seen p ∧ tally p' = tally p - lost p tgid ∧ fits p'.
Proof.
  intros Hfit. rewrite file_window_run. cbv zeta.
  assert (Hnew : ∀ q, p_files q !! tgid = None → fits q →
    let p' := up_files (track tgid (fresh_window fe) (p_files q)) q in
    p_files p' !! tgid = Some (fresh_window fe) ∧ p_seen p' = p_seen q ∧
    tally p' = tally q - lost q tgid ∧ fits p').
  { intros q Hq Hfq. destruct (track_files q tgid (fresh_window fe) Hq Hfq) as [Ht Hf].
    split_and!; [apply lookup_insert_eq|done| |done]. rewrite Ht. change (counted (fresh_window fe)) with 0. lia. }
  destruct (p_files p !! tgid) as [w|] eqn:Ew; [|by apply Hnew].
  assert (Hl : lost p tgid = 0) by (unfold lost, overflows; by rewrite bool_decide_false by by rewrite Ew).
  destruct (fileWindow <=? now - w_start w); [|split_and!; [done..|lia|done]].
  destruct (flush_tally tgid w p Ew) as (Ht & Hf & Hs).
  set (q := exec (flushFiles tgid w) p) in *.
  assert (Hsz : (size (p_files q) < maxTracked)%nat).
  { rewrite Hf, map_size_delete_Some by by exists w. unfold fits in Hfit.
    assert (size (p_files p) ≠ 0%nat); [|lia]. intros E%map_size_empty_inv. by rewrite E in Ew. }
  destruct (Hnew q) as (H1 & H2 & H3 & H4); [rewrite Hf; apply lookup_delete_eq|unfold fits; lia|].
  split_and!; [exact H1|by rewrite H2| |exact H4]. rewrite H3, Ht, Hl.
  unfold lost, overflows. rewrite (proj2 (Nat.leb_gt _ _)) by done. rewrite andb_false_r. lia.
Qed.

(** What a file event adds: one, unless it is a duplicate. *)
Lemma report_file_tally fe p : fits p → fe_action fe ≠ A_read →
  let p' := exec (report_file now fe) p in
  tally p' = tally p - lost p (fe_pid fe) + (if duplicate now p (file_key fe) fileWindow then 0 else 1) ∧ fits p'.
Proof.
  intros Hfit Ha. unfold report_file. cbv zeta. pose proof (file_window_spec (fe_pid fe) fe p Hfit) as Hspec.
  destruct (file_window now (fe_pid fe) fe p) as [w q] eqn:E. destruct Hspec as (Hw & Hs & Ht & Hf).
  assert (E1 : eval (file_window now (fe_pid fe) fe) p = w) by (unfold eval; by rewrite E).
  assert (E2 : exec (file_window now (fe_pid fe) fe) p = q) by (unfold exec; by rewrite E).
  rewrite exec_bind, E1, E2. clear E E1 E2.
  assert (Hd : duplicate now p (file_key fe) fileWindow = duplicate now q (file_key fe) fileWindow)
    by (unfold duplicate; by rewrite Hs).
  rewrite Hd, exec_bind, eval_dedupe, exec_dedupe.
  destruct (duplicate now q (file_key fe) fileWindow).
  { change (exec (mret tt) q) with q. split; [lia|done]. }
  set (q' := up_seen _ q).
  assert (Hq' : tally q' = tally q ∧ p_files q' = p_files q) by done. destruct Hq' as [Htq Hfq].
  assert (Hsz : ∀ w', fits (up_files (<[fe_pid fe := w']> (p_files q')) q')).
  { intros w'. unfold fits. cbn [p_files up_files]. rewrite Hfq, map_size_insert_Some by (by exists w). exact Hf. }
  assert (Hup : ∀ w', tally (up_files (<[fe_pid fe := w']> (p_files q')) q') = tally q' - counted w + counted w').
  { intros w'. unfold tally, pending. cbn [p_files up_files]. rewrite (pending_old _ _ w) by by rewrite Hfq.
    change (reported (up_files _ q')) with (reported q'). lia. }
  destruct (w_sent w <? fileBudget).
  - rewrite exec_bind. change (exec (modify ?f) q') with (f q'). cbn beta.
    set (q2 := up_files _ q'). pose proof (Hup (sent_one w)) as H2. fold q2 in H2.
    change (counted (sent_one w)) with (counted w) in H2.
    split; [|unfold fits; change (p_files (exec (push _) q2)) with (p_files q2); apply Hsz].
    unfold tally, reported, pending, exec, push, modify in *. cbn [fst snd p_lines p_files].
    rewrite reported_app. cbn [events_of]. destruct (fe_action fe); try done; lia.
  - change (exec (modify ?f) q') with (f q'). cbn beta. split; [|apply Hsz]. rewrite Hup.
    unfold counted, count_event. destruct (fe_action fe); cbn; try done; lia.
Qed.

(** The file events that are reported or counted: not the sensor's own, not
    activity nobody looks for, and not seen within the last minute. *)
Definition reportable (ev : rawEvent) : bool :=
  is_file (raw_kind ev) && negb (disabled G_file) &&
  match classify fs ev with U_event _ path from _ => negb (ignored canary path from) | _ => false end.
Definition event_key (ev : rawEvent) : list Z :=
  match classify fs ev with
  | U_event a path from dir => file_key (file_event_of ev a path from [] dir)
  | _ => []
  end.
Definition accepted (ev : rawEvent) (p : processor) : bool :=
  reportable ev && negb (duplicate now p (event_key ev) fileWindow).
Definition dropped (ev : rawEvent) (p : processor) : Z := if reportable ev then lost p (raw_tgid ev) else 0.

Lemma classify_not_read ev a path from dir : classify fs ev = U_event a path from dir → a ≠ A_read.
Proof. unfold classify. repeat case_match; intros [= <- _ _ _]; done. Qed.

Lemma image_seen tgid comm p : p_seen (exec (image fs tgid comm) p) = p_seen p.
Proof.
  unfold image, exec, mbind, prog_bind, get, put, mret, prog_ret. cbn.
  destruct (p_images p !! tgid); [done|]. by destruct (bool_decide _).
Qed.

Lemma quiet_spec {A} (m : prog processor A) p : Quiet m → fits p → tally (exec m p) = tally p ∧ fits (exec m p).
Proof. intros Hm Hf. split; [by apply quiet_tally|]. unfold fits. by destruct (Hm p) as [-> _]. Qed.

Lemma handle_file_event ev a path from dir p : fits p → a ≠ A_read →
  let m := img ← image fs (raw_tgid ev) (raw_comm ev);
           let fe := file_event_of ev a path from img dir in on_file fe;; report_file now fe in
  tally (exec m p) = tally p - lost p (raw_tgid ev)
    + (if duplicate now p (file_key (file_event_of ev a path from [] dir)) fileWindow then 0 else 1) ∧ fits (exec m p).
Proof.
  intros Hf Ha m. unfold m. rewrite exec_bind. cbv zeta. rewrite exec_bind.
  set (img := eval (image _ _ _) p). set (q := exec (image _ _ _) p).
  destruct (quiet_image (raw_tgid ev) (raw_comm ev) p) as [Hq1 Hq2]. fold q in Hq1, Hq2.
  pose proof (image_seen (raw_tgid ev) (raw_comm ev) p) as Hq3. fold q in Hq3.
  set (fe := file_event_of ev a path from img dir).
  set (q' := exec (on_file fe) q).
  assert (Hq' : p_files q' = p_files p ∧ reported q' = reported p ∧ p_seen q' = p_seen p)
    by (split_and!; done). destruct Hq' as (F & R & S).
  destruct (report_file_tally fe q') as [Ht Hf']; [unfold fits; by rewrite F|done|].
  cbv zeta in Ht. split; [|done]. rewrite Ht. unfold tally, pending, lost, overflows, pending, duplicate.
  by rewrite F, R, S.
Qed.

Lemma exit_tail_spec tgid p : fits p →
  let m := modify (λ p, up_images (delete tgid (p_images p)) p);;
           p ← get;
           match p_files p !! tgid with Some w => flushFiles tgid w | None => mret tt end in
  tally (exec m p) = tally p ∧ fits (exec m p).
Proof.
  intros Hf m. unfold m. rewrite exec_bind. change (exec (modify ?f) p) with (f p). cbn beta.
  set (q := up_images _ p). rewrite exec_bind. change (exec get q) with q. change (eval get q) with q.
  destruct (p_files q !! tgid) as [w|] eqn:E; [|done].
  destruct (flush_tally tgid w q E) as (Ht & Hd & _). split; [by rewrite Ht|]. unfold fits. rewrite Hd.
  rewrite map_size_delete. unfold fits in Hf. change (p_files q) with (p_files p). by destruct (_ !! _); [etrans; [apply Nat.le_pred_l|]|].
Qed.

Lemma handle_tally ev p : fits p →
  let p' := exec (handle disabled canary now fs ev) p in
  tally p' = tally p - dropped ev p + (if accepted ev p then 1 else 0) ∧ fits p'.
Proof.
  intros Hf. unfold handle, accepted, dropped, reportable, event_key. cbv zeta.
  assert (Hq : ∀ m : prog processor unit, Quiet m → tally (exec m p) = tally p - 0 + 0 ∧ fits (exec m p)).
  { intros m Hm. destruct (quiet_spec m p Hm Hf). split; [lia|done]. }
  destruct (is_file (raw_kind ev)); cbn [andb].
  { destruct (disabled G_file); cbn [andb negb]; [by apply Hq, _|]. unfold handleFile.
    destruct (classify fs ev) as [a target| |a path from dir] eqn:Ec; [by apply Hq, _| |].
    - apply Hq. apply quiet_if; [apply _|]. apply quiet_bind; [apply _|]. intros img.
      apply quiet_bind; [apply _|]. intros []; [apply _|]. by apply quiet_push.
    - destruct (ignored canary path from); cbn [negb andb]; [by apply Hq, _|].
      destruct (handle_file_event ev a path from dir p Hf (classify_not_read _ _ _ _ _ Ec)) as [Ht Hf'].
      cbv zeta in Ht, Hf'. rewrite Ht. split; [|exact Hf']. by destruct (duplicate _ _ _ _). }
  assert (Hp : ∀ l, events_of l = 0 → Quiet (push l)) by apply quiet_push.
  assert (Hi : ∀ tgid comm (k : list Z → prog processor unit), (∀ img, Quiet (k img)) → Quiet (img ← image fs tgid comm; k img))
    by (intros; by apply quiet_bind; [apply _|]).
  assert (Hd : ∀ key d (m : prog processor unit), Quiet m → Quiet (dup ← dedupe now key d; if dup : bool then mret tt else m))
    by (intros; apply quiet_bind; [apply _|]; intros []; [apply _|done]).
  destruct (is_module _); [apply Hq, quiet_if; [apply _|]; apply Hi; intros; by apply Hp|].
  destruct (_ =? K_PTRACE); [apply Hq, quiet_if; [apply _|]; apply Hd, Hi; intros; by apply Hp|].
  destruct (_ || _); [apply Hq, quiet_if; [apply _|]; do 2 (apply Hi; intros); by apply Hp|].
  destruct (_ =? K_MEMFD); [apply Hq, Hi; intros; apply quiet_if; [apply _|]; by apply Hd, Hp|].
  destruct (_ =? K_VM_ACCESS); [apply Hq, _|].
  destruct (_ =? K_EXEC); [apply Hq, _|].
  destruct (_ =? K_FILELESS_EXEC); [apply Hq, quiet_bind; [apply _|]; intros; apply Hi; intros; by apply Hp|].
  destruct (_ =? K_EXIT); [|apply Hq, _].
  rewrite exec_bind. set (m := if disabled G_exit then _ else _).
  assert (Hm : Quiet m) by (apply quiet_if; [apply _|]; apply Hi; intros; by apply Hp).
  destruct (quiet_spec m p Hm Hf) as [Ht Hf']. destruct (exit_tail_spec (raw_tgid ev) _ Hf') as [Ht' Hf'']. cbv zeta in *.
  split; [|exact Hf'']. rewrite Ht', Ht. lia.
Qed.
End handle.

(** ** Sequences of records and ticks *)

Inductive step :=
  | S_record (now : Z) (fs : procFS) (ev : rawEvent)
  | S_tick (now : Z) (order : list Z).

Section run.
Context (disabled : group → bool) (canary : list Z → bool).

Definition step_prog (st : step) : prog processor unit :=
  match st with
  | S_record now fs ev => handle disabled canary now fs ev
  | S_tick now order => tick now order
  end.

Definition run (steps : list step) (p : processor) : processor := foldl (λ p st, exec (step_prog st) p) p steps.

(** [newProcessor] *)
Definition newProcessor : processor := Processor ∅ ∅ ∅ [] [].

(** The events that were reportable and new, and the counts that a full
    table dropped. *)
Fixpoint sum_steps (f : step → processor → Z) (steps : list step) (p : processor) : Z :=
  match steps with
  | [] => 0
  | st :: steps => f st p + sum_steps f steps (exec (step_prog st) p)
  end.
Definition step_accepted (st : step) (p : processor) : Z :=
  match st with
  | S_record now fs ev => if accepted disabled canary now fs ev p then 1 else 0
  | S_tick _ _ => 0
  end.
Definition step_dropped (st : step) (p : processor) : Z :=
  match st with
  | S_record now fs ev => dropped disabled canary fs ev p
  | S_tick _ _ => 0
  end.

Lemma tick_files_tally now order p : fits p →
  tally (exec (tick_files now order) p) = tally p ∧ fits (exec (tick_files now order) p).
Proof.
  revert p. induction order as [|tgid order IH]; intros p Hf; cbn [tick_files]; [done|].
  rewrite exec_bind. change (exec get p) with p. change (eval get p) with p. rewrite exec_bind.
  destruct (p_files p !! tgid) as [w|] eqn:E; [|by apply IH]. destruct (_ <=? _); [|by apply IH].
  destruct (flush_tally tgid w p E) as (Ht & Hd & _). destruct (IH (exec (flushFiles tgid w) p)) as [Ht' Hf'].
  { unfold fits in *. rewrite Hd, map_size_delete_Some by by exists w. lia. }
  by rewrite Ht', Ht.
Qed.

Lemma step_tally st p : fits p →
  tally (exec (step_prog st) p) = tally p + step_accepted st p - step_dropped st p ∧ fits (exec (step_prog st) p).
Proof.
  intros Hf. destruct st as [now fs ev|now order]; cbn [step_prog step_accepted step_dropped].
  - destruct (handle_tally disabled canary now fs ev p Hf) as [-> ?]. split; [lia|done].
  - unfold tick. rewrite exec_bind. destruct (tick_files_tally now order p Hf) as [Ht Hf'].
    change (exec (modify ?f) ?q) with (f q). cbn beta. split; [|exact Hf'].
    change (tally (up_seen _ ?q)) with (tally q). rewrite Ht. lia.
Qed.

Lemma run_tally steps : ∀ p, fits p →
  tally (run steps p) = tally p + sum_steps step_accepted steps p - sum_steps step_dropped steps p.
Proof.
  induction steps as [|st steps IH]; intros p Hf; cbn [run foldl sum_steps]; [lia|].
  destruct (step_tally st p Hf) as [Ht Hf']. fold (run steps (exec (step_prog st) p)). rewrite IH by done. lia.
Qed.

Lemma not_full_nothing_lost steps : ∀ p, (∀ k, (size (p_files (run (list.take k steps) p)) < maxTracked)%nat) →
  sum_steps step_dropped steps p = 0.
Proof.
  induction steps as [|st steps IH]; intros p H; cbn [sum_steps]; [done|].
  rewrite IH by (intros k; apply (H (S k))). specialize (H 0%nat). cbn in H.
  destruct st as [now fs ev|]; cbn [step_dropped]; [|done]. unfold dropped, lost, overflows.
  rewrite (proj2 (Nat.leb_gt _ _)), andb_false_r by done. by destruct (reportable _ _ _ _).
Qed.
End run.

(** C17. No file event disappears silently: over every sequence of records and
    ticks, the events in the log (lines, and the counts of the summaries) and
    the counts still kept are together the events that were reportable and
    not seen within the last minute, minus the counts that were dropped when
    20000 processes had a window at once; while there are fewer, none is
    dropped. *)
Theorem file_events_are_accounted_for disabled canary steps :
  let p := run disabled canary steps newProcessor in
  reported p + pending p = sum_steps disabled canary (step_accepted disabled canary) steps newProcessor
    - sum_steps disabled canary (step_dropped disabled canary) steps newProcessor ∧
  ((∀ k, (size (p_files (run disabled canary (list.take k steps) newProcessor)) < maxTracked)%nat) →
     sum_steps disabled canary (step_dropped disabled canary) steps newProcessor = 0).
Proof.
  cbv zeta. split; [|apply not_full_nothing_lost].
  assert (Hf : fits newProcessor) by (unfold fits; cbn; rewrite map_size_empty; unfold maxTracked; lia).
  pose proof (run_tally disabled canary steps newProcessor Hf) as H. unfold tally in H at 1.
  rewrite H. change (tally newProcessor) with 0. lia.
Qed.

(** *** A process that creates 32 files in a second and exits *)

Definition demo_record (kind : Z) (path : list Z) : rawEvent :=
  RawEvent kind 700 700 77 1000 1000 AT_FDCWD 0 0 65 0 0 (zs "sh") path [] (zs "/tmp") [] 0.
Definition demo_fs : procFS := ProcFS (λ _, zs "/bin/sh") (λ _ _, []) (λ _ _, []).
Definition demo_steps : list step :=
  ((λ i, S_record (10 ^ 9 + Z.of_nat i) demo_fs (demo_record K_OPEN [97; 65 + Z.of_nat i])) <$> seq 0 32)
  ++ [S_record (2 * 10 ^ 9) demo_fs (demo_record K_EXIT [])].
Definition demo_run : processor := run (λ _, false) (λ _, false) demo_steps newProcessor.

Example demo_run_lines :
  length (p_lines demo_run) = 32%nat ∧
  list.take 1 (drop 31 (p_lines demo_run))
  = [L_summary (FileSummary 2 0 0 (zs "/tmp/a_") (zs "/bin/sh") (zs "sh") 700 77 1000)] ∧
  reported demo_run = 32 ∧ pending demo_run = 0.
Proof. vm_compute. done. Qed.

Lemma file_events_are_accounted_for_witness :
  reported demo_run + pending demo_run = 32 - 0 ∧ reported demo_run = 32.
Proof.
  split; [|vm_compute; reflexivity].
  destruct (file_events_are_accounted_for (λ _, false) (λ _, false) demo_steps) as [H _].
  etrans; [exact H|]. vm_compute. reflexivity.
Defined.
