(* ===== verification/ProcessorImage.v ===== *)
(** * Which executable a line names (linsensor/processor.go)

    The agent keeps the executable of each process as the kernel reported it
    at exec, so the lines of a process that has already exited still name
    it.  This file shows how long that holds. *)
From Stdlib Require Import ZArith Lia Ascii String.
From stdpp Require Import base tactics list gmap.
From S2P Require Import Prelude.
From S2P Require Import Linsensor.
From S2P Require Import Wire.
From S2P Require Import Lines.
From S2P Require Import Processor.
Local Open Scope Z_scope.

(** A part of the program that leaves the table of executables alone. *)
Class Still {A} (m : prog processor A) : Prop := still p : p_images (exec m p) = p_images p.

#[export] Instance still_ret {A} (x : A) : Still (mret x).
Proof. by intros p. Qed.
#[export] Instance still_get : Still get.
Proof. by intros p. Qed.
#[export] Instance still_bind {A B} (m : prog processor A) (f : A → prog processor B) :
  Still m → (∀ x, Still (f x)) → Still (m ≫= f).
Proof. intros Hm Hf p. by rewrite exec_bind, (Hf (eval m p)), Hm. Qed.
#[export] Instance still_if {A} (b : bool) (m m' : prog processor A) : Still m → Still m' → Still (if b then m else m').
Proof. by destruct b. Qed.
#[export] Instance still_option {A B} (o : option A) (f : A → prog processor B) (m : prog processor B) :
  (∀ x, Still (f x)) → Still m → Still (match o with Some x => f x | None => m end).
Proof. by destruct o. Qed.
#[export] Instance still_push l : Still (push l).
Proof. by intros p. Qed.
#[export] Instance still_on_file f : Still (on_file f).
Proof. by intros p. Qed.
#[export] Instance still_files g : Still (modify (λ p, up_files (g p) p)).
Proof. by intros p. Qed.
#[export] Instance still_seen g : Still (modify (λ p, up_seen (g p) p)).
Proof. by intros p. Qed.
#[export] Instance still_dedupe now key d : Still (dedupe now key d).
Proof. intros p. rewrite exec_dedupe. by destruct (duplicate _ _ _ _). Qed.
#[export] Instance still_flush tgid w : Still (flushFiles tgid w).
Proof. unfold flushFiles. apply _. Qed.
#[export] Instance still_report now fe : Still (report_file now fe).
Proof. unfold report_file, file_window. cbv zeta. apply _. Qed.
#[export] Instance still_tick now order : Still (tick now order).
Proof.
  unfold tick. apply still_bind; [|apply _]. induction order as [|t order IH]; cbn [tick_files]; apply _.
Qed.

Section keeps.
Context (tgid : Z) (img : list Z).

(** The process's executable is kept, and the table grows by at most [n]. *)
Definition keeps {A} (n : nat) (m : prog processor A) : Prop := ∀ p,
  p_images p !! tgid = Some img → (size (p_images p) + n ≤ maxTracked)%nat →
  p_images (exec m p) !! tgid = Some img ∧ (size (p_images (exec m p)) ≤ size (p_images p) + n)%nat.

Lemma keeps_still {A} n (m : prog processor A) : Still m → keeps n m.
Proof. intros Hm p Hp _. rewrite Hm. split; [done|lia]. Qed.

Lemma keeps_bind {A B} a b (m : prog processor A) (f : A → prog processor B) :
  keeps a m → (∀ x, keeps b (f x)) → keeps (a + b) (m ≫= f).
Proof.
  intros Hm Hf p Hp Hs. rewrite exec_bind. destruct (Hm p Hp) as [H1 H2]; [lia|].
  destruct (Hf (eval m p) (exec m p) H1) as [H3 H4]; [lia|]. split; [done|lia].
Qed.

Lemma keeps_if {A} n (b : bool) (m m' : prog processor A) : keeps n m → keeps n m' → keeps n (if b then m else m').
Proof. by destruct b. Qed.

Lemma keeps_more {A} a b (m : prog processor A) : keeps a m → (a ≤ b)%nat → keeps b m.
Proof. intros Hm Hle p Hp Hs. destruct (Hm p Hp) as [H1 H2]; [lia|]. split; [done|lia]. Qed.

Lemma track_keeps (m : gmap Z (list Z)) t x : m !! tgid = Some img → t ≠ tgid → (size m + 1 ≤ maxTracked)%nat →
  track t x m !! tgid = Some img ∧ (size (track t x m) ≤ size m + 1)%nat.
Proof.
  intros Hm Ht Hs. unfold track. rewrite decide_False by lia. split.
  - by rewrite lookup_insert_ne.
  - rewrite map_size_insert. destruct (m !! t); unfold id; lia.
Qed.

Lemma keeps_image fs t comm : keeps 1 (image fs t comm).
Proof.
  intros p Hp Hs. unfold image, exec, mbind, prog_bind, get, put, mret, prog_ret. cbn.
  destruct (p_images p !! t) as [x|] eqn:E; [split; [done|cbn; lia]|].
  destruct (bool_decide _); [split; [done|cbn; lia]|]. cbn. apply track_keeps; [done|congruence|done].
Qed.

Lemma keeps_set_image t path : t ≠ tgid → keeps 1 (setImage t path).
Proof.
  intros Ht p Hp Hs. unfold setImage, exec, modify. cbn. destruct (bool_decide _).
  - rewrite lookup_delete_ne by done. split; [done|]. rewrite map_size_delete.
    case_match; unfold id; lia.
  - by apply track_keeps.
Qed.

(** The records that end what the agent knows of a process. *)
Definition ends (ev : rawEvent) : Prop :=
  raw_tgid ev = tgid ∧ (raw_kind ev = K_EXEC ∨ raw_kind ev = K_FILELESS_EXEC ∨ raw_kind ev = K_EXIT).

Lemma keeps_image_then {A} fs t comm (f : list Z → prog processor A) : (∀ x, Still (f x)) →
  keeps 1 (x ← image fs t comm; f x).
Proof. intros Hf. apply (keeps_bind 1 0); [apply keeps_image|]. intros x. by apply keeps_still. Qed.

Lemma keeps_dedupe_then now key d n (m : prog processor unit) : keeps n m →
  keeps n (dup ← dedupe now key d; if dup : bool then mret tt else m).
Proof.
  intros Hm. apply (keeps_bind 0 n); [apply keeps_still, _|]. intros []; [apply keeps_still, _|done].
Qed.

Lemma keeps_access disabled now fs ev a target : keeps 1 (access disabled now fs ev a target).
Proof. unfold access. apply keeps_if; [apply keeps_still, _|]. apply keeps_image_then. apply _. Qed.

Lemma keeps_handle disabled canary now fs ev : ¬ ends ev → keeps 2 (handle disabled canary now fs ev).
Proof.
  intros Hne. unfold handle, ends in *. cbv zeta.
  destruct (is_file _).
  { apply (keeps_more 1); [|lia]. apply keeps_if; [apply keeps_still, _|]. unfold handleFile.
    destruct (classify fs ev); [apply keeps_access| |]; (apply keeps_if; [apply keeps_still, _|]);
      apply keeps_image_then; cbv zeta; apply _. }
  destruct (is_module _).
  { apply (keeps_more 1); [|lia]. apply keeps_if; [apply keeps_still, _|]. apply keeps_image_then, _. }
  destruct (_ =? K_PTRACE).
  { apply (keeps_more 1); [|lia]. apply keeps_if; [apply keeps_still, _|].
    apply keeps_dedupe_then, keeps_image_then, _. }
  destruct (_ || _).
  { apply keeps_if; [apply keeps_still, _|]. apply (keeps_bind 1 1); [apply keeps_image|]. intros x.
    apply keeps_image_then, _. }
  destruct (_ =? K_MEMFD); [apply (keeps_more 1); [apply keeps_image_then, _|lia]|].
  destruct (_ =? K_VM_ACCESS); [apply (keeps_more 1); [apply keeps_access|lia]|].
  destruct (Z.eqb_spec (raw_kind ev) K_EXEC).
  { apply (keeps_more 1); [|lia]. apply keeps_set_image. tauto. }
  destruct (Z.eqb_spec (raw_kind ev) K_FILELESS_EXEC).
  { apply (keeps_bind 1 1); [apply keeps_set_image; tauto|]. intros _. apply keeps_image_then, _. }
  destruct (Z.eqb_spec (raw_kind ev) K_EXIT); [|apply keeps_still, _].
  apply (keeps_more (1 + 0)); [|lia]. apply keeps_bind.
  { apply keeps_if; [apply keeps_still, _|]. apply keeps_image_then, _. }
  intros _. apply (keeps_bind 0 0); [|intros _; apply keeps_still, _].
  intros p Hp _. unfold exec, modify. cbn. rewrite lookup_delete_ne by (intros E; apply Hne; auto).
  split; [done|]. rewrite map_size_delete. case_match; unfold id; lia.
Qed.
End keeps.

Section run.
Context (disabled : group → bool) (canary : list Z → bool).

(** The table has room for the two executables a record may add. *)
Definition room (p : processor) : Prop := (size (p_images p) + 2 ≤ maxTracked)%nat.

Definition step_ends (tgid : Z) (st : step) : Prop :=
  match st with S_record _ _ ev => ends tgid ev | S_tick _ _ => False end.

Lemma run_keeps tgid img steps : ∀ p, p_images p !! tgid = Some img →
  (∀ k, room (run disabled canary (list.take k steps) p)) → Forall (λ st, ¬ step_ends tgid st) steps →
  p_images (run disabled canary steps p) !! tgid = Some img.
Proof.
  induction steps as [|st steps IH]; intros p Hp Hroom; [done|]. intros [Hst Hsts]%Forall_cons.
  cbn [run foldl]. fold (run disabled canary steps (exec (step_prog disabled canary st) p)).
  apply IH; [|intros k; apply (Hroom (S k))|done].
  destruct st as [now fs ev|now order]; cbn [step_prog].
  - by apply (keeps_handle tgid img disabled canary now fs ev Hst p Hp), (Hroom 0%nat).
  - by rewrite still_tick.
Qed.

Lemma exec_sets_image now fs ev p : raw_kind ev = K_EXEC ∨ raw_kind ev = K_FILELESS_EXEC → raw_path ev ≠ [] →
  room p → p_images (exec (handle disabled canary now fs ev) p) !! raw_tgid ev = Some (raw_path ev).
Proof.
  intros Hk Hpath Hroom.
  assert (Hset : p_images (exec (setImage (raw_tgid ev) (raw_path ev)) p) !! raw_tgid ev = Some (raw_path ev) ∧
    (size (p_images (exec (setImage (raw_tgid ev) (raw_path ev)) p)) ≤ size (p_images p) + 1)%nat).
  { unfold setImage, exec, modify. cbn. rewrite bool_decide_false by done. unfold track, room in *.
    rewrite decide_False by lia. split; [apply lookup_insert_eq|]. rewrite map_size_insert. case_match; unfold id; lia. }
  destruct Hset as [Hl Hs]. unfold handle. cbv zeta.
  destruct Hk as [-> | ->]; [exact Hl|]. cbn -[exec]. rewrite exec_bind.
  change (p_images (exec (parent ← image fs (raw_ppid ev) []; push (L_fileless ev parent))
            (exec (setImage (raw_tgid ev) (raw_path ev)) p)) !! raw_tgid ev = Some (raw_path ev)).
  apply (keeps_image_then (raw_tgid ev) (raw_path ev) fs (raw_ppid ev) [] (λ x, push (L_fileless ev x)) _ _ Hl).
  unfold room in Hroom. lia.
Qed.
End run.

Lemma eval_image fs tgid comm p img : p_images p !! tgid = Some img → eval (image fs tgid comm) p = img.
Proof. intros H. unfold image, eval, mbind, prog_bind, get. cbn. by rewrite H. Qed.

(** C22. A line names the file the kernel executed: from the record of an exec
    until the process's next exec or its exit, over every sequence of records
    of any processes and ticks, the agent takes the path of that record for the
    process's executable, whatever /proc answers in between (also after the
    process is gone), as long as it knows fewer than 19999 processes. *)
Theorem image_is_the_executed_file disabled canary now fs ev steps p0 :
  raw_kind ev = K_EXEC ∨ raw_kind ev = K_FILELESS_EXEC → raw_path ev ≠ [] →
  Forall (λ st, ¬ step_ends (raw_tgid ev) st) steps →
  room p0 → (∀ k, room (run disabled canary (S_record now fs ev :: list.take k steps) p0)) →
  let p := run disabled canary (S_record now fs ev :: steps) p0 in
  ∀ fs' comm, eval (image fs' (raw_tgid ev) comm) p = raw_path ev.
Proof.
  intros Hk Hpath Hst Hp0 Hroom p fs' comm.
  assert (H : p_images p !! raw_tgid ev = Some (raw_path ev)).
  { apply (run_keeps disabled canary _ _ steps (exec (handle disabled canary now fs ev) p0));
      [by apply exec_sets_image|exact Hroom|done]. }
  by apply eval_image.
Qed.

(** A program that is replaced on disk after it started, and asks /proc in
    vain. *)
Lemma image_is_the_executed_file_witness :
  let ev := demo_record K_EXEC (zs "/usr/bin/dropper") in
  eval (image (ProcFS (λ _, []) (λ _ _, []) (λ _ _, [])) 700 (zs "sh"))
    (run (λ _, false) (λ _, false)
       [S_record 0 demo_fs ev; S_record 1 demo_fs (demo_record K_OPEN (zs "a")); S_tick 2 [700]] newProcessor)
  = zs "/usr/bin/dropper".
Proof.
  apply (image_is_the_executed_file (λ _, false) (λ _, false) 0 demo_fs (demo_record K_EXEC (zs "/usr/bin/dropper"))
           [S_record 1 demo_fs (demo_record K_OPEN (zs "a")); S_tick 2 [700]] newProcessor).
  - by left.
  - done.
  - repeat constructor; [by intros [_ [|[]]]|by intros []].
  - unfold room. cbn. rewrite map_size_empty. unfold maxTracked. lia.
  - intros k. unfold room. apply (Nat.le_trans _ 3); [|unfold maxTracked; lia].
    destruct k as [|[|[|k]]]; vm_compute; repeat constructor.
Defined.
